(** * QR coding: a shallow embedding of [coding/qr.go]

    Go [int], [uint] and [Version]/[Level]/[Mask] values are modelled as [Z];
    the fixed-width types whose wrap-around the code relies on ([uint8] bytes,
    the [uint16] pattern register of the penalty scorer, the [uint32] pixel
    words) have their truncation written out.  A run-time panic of the Go
    program (index out of range, explicit [panic], division by zero) is [None]
    in the option monad; loops whose trip count is not a plain range carry
    fuel, and running out of fuel is [None] as well. *)

From Stdlib Require Import String Ascii.
From Stdlib Require Import ZArith List Bool Lia FMapPositive Permutation.
Import ListNotations.
Open Scope Z_scope.


(** ** The panic monad and slice helpers *)

Notation "x <- e ;; k" := (match e with Some x => k | None => None end)
  (at level 61, e at next level, right associativity, only parsing).

Fixpoint foldM {A S : Type} (f : S -> A -> option S) (l : list A) (s : S)
  : option S :=
  match l with
  | [] => Some s
  | a :: t => s' <- f s a ;; foldM f t s'
  end.

Fixpoint zrange_from (lo : Z) (n : nat) : list Z :=
  match n with
  | O => []
  | S k => lo :: zrange_from (lo + 1) k
  end.

(** [zrange lo hi] is the index sequence of [for i := lo; i < hi; i++]. *)
Definition zrange (lo hi : Z) : list Z := zrange_from lo (Z.to_nat (hi - lo)).

(** [zrange_down hi lo] is the sequence of [for i := hi; i >= lo; i--]. *)
Definition zrange_down (hi lo : Z) : list Z := rev (zrange lo (hi + 1)).

Definition zlen {A : Type} (l : list A) : Z := Z.of_nat (length l).

(** [l[i]]: panics when [i] is out of range. *)
Definition zget {A : Type} (l : list A) (i : Z) : option A :=
  if i <? 0 then None else nth_error l (Z.to_nat i).

Fixpoint upd_nat {A : Type} (l : list A) (n : nat) (f : A -> A)
  : option (list A) :=
  match l, n with
  | [], _ => None
  | a :: t, O => Some (f a :: t)
  | a :: t, S k => option_map (cons a) (upd_nat t k f)
  end.

(** [l[i] = f(l[i])]: panics when [i] is out of range. *)
Definition zupd {A : Type} (l : list A) (i : Z) (f : A -> A)
  : option (list A) :=
  if i <? 0 then None else upd_nat l (Z.to_nat i) f.

Definition zset {A : Type} (l : list A) (i : Z) (a : A) : option (list A) :=
  zupd l i (fun _ => a).

(** [l[lo:hi]] for a slice whose capacity is its length. *)
Definition zslice {A : Type} (l : list A) (lo hi : Z) : option (list A) :=
  if (lo <? 0) || (hi <? lo) || (zlen l <? hi) then None
  else Some (firstn (Z.to_nat (hi - lo)) (skipn (Z.to_nat lo) l)).

(** [l[lo:]] *)
Definition zdrop {A : Type} (l : list A) (lo : Z) : option (list A) :=
  if (lo <? 0) || (zlen l <? lo) then None
  else Some (skipn (Z.to_nat lo) l).

(** [make([]T, n)] with zero value [z]: panics for a negative length. *)
Definition zmake {A : Type} (z : A) (n : Z) : option (list A) :=
  if n <? 0 then None else Some (repeat z (Z.to_nat n)).

Definition uint8 (x : Z) : Z := Z.land x 0xFF.
Definition uint16 (x : Z) : Z := Z.land x 0xFFFF.
Definition uint32 (x : Z) : Z := Z.land x 0xFFFFFFFF.

(** ** Errors

    The values [fmt.Errorf] builds, by message, with the arguments the
    message is formatted from. *)
Inductive error : Type :=
| ErrVersion (v : Z)            (* invalid QR version %d *)
| ErrLevel (l : Z)              (* invalid QR level %d *)
| ErrMask (m : Z)               (* invalid QR mask %d *)
| ErrNonNumeric (s : string)    (* non-numeric string %#q *)
| ErrNonAlpha (s : string)      (* non-alphanumeric string %#q *)
| ErrNonKanji (s : string)      (* non-kanji string %#q *)
| ErrCapacity (bits cap : Z).   (* cannot encode %d bits into %d-bit code *)

(** A Go result pair [(value, error)]. *)
Inductive result (A : Type) : Type :=
| Ok (a : A)
| Err (e : error).
Arguments Ok {A} a.
Arguments Err {A} e.

(** ** Versions and the capacity table *)

Definition MinVersion : Z := 1.
Definition MaxVersion : Z := 40.

Definition sizeClass (v : Z) : Z :=
  if v <=? 9 then 0 else if v <=? 26 then 1 else 2.

Record level := { nblock : Z; check : Z }.

Record version := {
  apos : Z;
  astride : Z;
  bytes : Z;
  pattern : Z;
  levels : list level
}.

Definition mkv (a s b p : Z) (l : list (Z * Z)) : version :=
  {| apos := a; astride := s; bytes := b; pattern := p;
     levels := map (fun nc => {| nblock := fst nc; check := snd nc |}) l |}.

Definition vtab : list version := [
  mkv 0 0 0 0 [(0, 0); (0, 0); (0, 0); (0, 0)];
  mkv 100 100 26 0x0 [(1, 7); (1, 10); (1, 13); (1, 17)];
  mkv 16 100 44 0x0 [(1, 10); (1, 16); (1, 22); (1, 28)];
  mkv 20 100 70 0x0 [(1, 15); (1, 26); (2, 18); (2, 22)];
  mkv 24 100 100 0x0 [(1, 20); (2, 18); (2, 26); (4, 16)];
  mkv 28 100 134 0x0 [(1, 26); (2, 24); (4, 18); (4, 22)];
  mkv 32 100 172 0x0 [(2, 18); (4, 16); (4, 24); (4, 28)];
  mkv 20 16 196 0x7c94 [(2, 20); (4, 18); (6, 18); (5, 26)];
  mkv 22 18 242 0x85bc [(2, 24); (4, 22); (6, 22); (6, 26)];
  mkv 24 20 292 0x9a99 [(2, 30); (5, 22); (8, 20); (8, 24)];
  mkv 26 22 346 0xa4d3 [(4, 18); (5, 26); (8, 24); (8, 28)];
  mkv 28 24 404 0xbbf6 [(4, 20); (5, 30); (8, 28); (11, 24)];
  mkv 30 26 466 0xc762 [(4, 24); (8, 22); (10, 26); (11, 28)];
  mkv 32 28 532 0xd847 [(4, 26); (9, 22); (12, 24); (16, 22)];
  mkv 24 20 581 0xe60d [(4, 30); (9, 24); (16, 20); (16, 24)];
  mkv 24 22 655 0xf928 [(6, 22); (10, 24); (12, 30); (18, 24)];
  mkv 24 24 733 0x10b78 [(6, 24); (10, 28); (17, 24); (16, 30)];
  mkv 28 24 815 0x1145d [(6, 28); (11, 28); (16, 28); (19, 28)];
  mkv 28 26 901 0x12a17 [(6, 30); (13, 26); (18, 28); (21, 28)];
  mkv 28 28 991 0x13532 [(7, 28); (14, 26); (21, 26); (25, 26)];
  mkv 32 28 1085 0x149a6 [(8, 28); (16, 26); (20, 30); (25, 28)];
  mkv 26 22 1156 0x15683 [(8, 28); (17, 26); (23, 28); (25, 30)];
  mkv 24 24 1258 0x168c9 [(9, 28); (17, 28); (23, 30); (34, 24)];
  mkv 28 24 1364 0x177ec [(9, 30); (18, 28); (25, 30); (30, 30)];
  mkv 26 26 1474 0x18ec4 [(10, 30); (20, 28); (27, 30); (32, 30)];
  mkv 30 26 1588 0x191e1 [(12, 26); (21, 28); (29, 30); (35, 30)];
  mkv 28 28 1706 0x1afab [(12, 28); (23, 28); (34, 28); (37, 30)];
  mkv 32 28 1828 0x1b08e [(12, 30); (25, 28); (34, 30); (40, 30)];
  mkv 24 24 1921 0x1cc1a [(13, 30); (26, 28); (35, 30); (42, 30)];
  mkv 28 24 2051 0x1d33f [(14, 30); (28, 28); (38, 30); (45, 30)];
  mkv 24 26 2185 0x1ed75 [(15, 30); (29, 28); (40, 30); (48, 30)];
  mkv 28 26 2323 0x1f250 [(16, 30); (31, 28); (43, 30); (51, 30)];
  mkv 32 26 2465 0x209d5 [(17, 30); (33, 28); (45, 30); (54, 30)];
  mkv 28 28 2611 0x216f0 [(18, 30); (35, 28); (48, 30); (57, 30)];
  mkv 32 28 2761 0x228ba [(19, 30); (37, 28); (51, 30); (60, 30)];
  mkv 28 24 2876 0x2379f [(19, 30); (38, 28); (53, 30); (63, 30)];
  mkv 22 26 3034 0x24b0b [(20, 30); (40, 28); (56, 30); (66, 30)];
  mkv 26 26 3196 0x2542e [(21, 30); (43, 28); (59, 30); (70, 30)];
  mkv 30 26 3362 0x26a64 [(22, 30); (45, 28); (62, 30); (74, 30)];
  mkv 24 28 3532 0x27541 [(24, 30); (47, 28); (65, 30); (77, 30)];
  mkv 28 28 3706 0x28c69 [(25, 30); (49, 28); (68, 30); (81, 30)]
].

(** [Version.DataBytes] *)
Definition Version_DataBytes (v l : Z) : option Z :=
  vt <- zget vtab v ;;
  lev <- zget (levels vt) l ;;
  Some (bytes vt - nblock lev * check lev).

(** ** Pixels, roles and levels *)

Definition Position : Z := 1.
Definition Alignment : Z := 2.
Definition Timing : Z := 3.
Definition Format : Z := 4.
Definition PVersion : Z := 5.
Definition Unused : Z := 6.
Definition Data : Z := 7.
Definition Check : Z := 8.
Definition Extra : Z := 9.

Definition Pixel_Offset (p : Z) : Z := Z.shiftr p 4.
Definition OffsetPixel (o : Z) : Z := uint32 (Z.shiftl o 4).
Definition Role_Pixel (r : Z) : Z := r.
Definition Pixel_Role (p : Z) : Z := Z.land p 15.

Definition L : Z := 0.
Definition M : Z := 1.
Definition Q : Z := 2.
Definition H : Z := 3.

(** ** Codes *)

Record Code := { Bitmap : list Z; Size : Z; Stride : Z }.

Definition with_Bitmap (c : Code) (b : list Z) : Code :=
  {| Bitmap := b; Size := Size c; Stride := Stride c |}.

(** [Code.Black]: the conjunction short-circuits, so the bitmap is read only
    for coordinates inside the square. *)
Definition Black (c : Code) (x y : Z) : option bool :=
  if (0 <=? x) && (x <? Size c) && (0 <=? y) && (y <? Size c) then
    v <- zget (Bitmap c) (y * Stride c + Z.quot x 8) ;;
    Some (negb (Z.land v (Z.shiftl 1 (7 - Z.land x 7)) =? 0))
  else Some false.

(** [Code.set]: writes into the slice [b] it is handed, using only the
    receiver's stride. *)
Definition Code_set (c : Code) (b : list Z) (y x : Z) : option (list Z) :=
  zupd b (y * Stride c + Z.quot x 8)
       (fun v => Z.lor v (uint8 (Z.shiftl 1 (7 - Z.land x 7)))).

(** ** Masks *)

Definition mfunc (m i j : Z) : option bool :=
  match m with
  | 0 => Some (Z.rem (i + j) 2 =? 0)
  | 1 => Some (Z.rem i 2 =? 0)
  | 2 => Some (Z.rem j 3 =? 0)
  | 3 => Some (Z.rem (i + j) 3 =? 0)
  | 4 => Some (Z.rem (Z.quot i 2 + Z.quot j 3) 2 =? 0)
  | 5 => Some (Z.rem (i * j) 2 + Z.rem (i * j) 3 =? 0)
  | 6 => Some (Z.rem (Z.rem (i * j) 2 + Z.rem (i * j) 3) 2 =? 0)
  | 7 => Some (Z.rem (Z.rem (i * j) 3 + Z.rem (i + j) 2) 2 =? 0)
  | _ => None
  end.

(** [Mask.Invert] *)
Definition Mask_Invert (m y x : Z) : option bool :=
  if m <? 0 then Some false else mfunc m y x.

(** ** Pixel maps *)

(** The pixel map [[][]Pixel]: a finite map from the row index to the row,
    each row a finite map from the column index to the pixel; an absent entry
    holds the zero pixel that [make] put there.  Indexing outside [rows] or
    [cols] panics as it does on the slices. *)
Record Grid := { rows : Z; cols : Z; cells : PositiveMap.t (PositiveMap.t Z) }.

Definition zkey (i : Z) : positive := Z.to_pos (i + 1).

Definition in_grid (g : Grid) (y x : Z) : bool :=
  (0 <=? y) && (y <? rows g) && (0 <=? x) && (x <? cols g).

Definition grid_row (g : Grid) (y : Z) : PositiveMap.t Z :=
  match PositiveMap.find (zkey y) (cells g) with
  | Some r => r
  | None => PositiveMap.empty Z
  end.

Definition cell (g : Grid) (y x : Z) : Z :=
  match PositiveMap.find (zkey x) (grid_row g y) with
  | Some px => px
  | None => 0
  end.

(** [m[y][x]] *)
Definition zget2 (g : Grid) (y x : Z) : option Z :=
  if in_grid g y x then Some (cell g y x) else None.

(** [m[y][x] = a] *)
Definition zset2 (g : Grid) (y x : Z) (a : Z) : option Grid :=
  if in_grid g y x then
    Some {| rows := rows g; cols := cols g;
            cells := PositiveMap.add (zkey y)
                       (PositiveMap.add (zkey x) a (grid_row g y)) (cells g) |}
  else None.

(** [grid]: [siz] rows of [siz] zero pixels. *)
Definition grid (siz : Z) : option Grid :=
  if siz <? 0 then None
  else Some {| rows := siz; cols := siz;
               cells := PositiveMap.empty (PositiveMap.t Z) |}.

(** [len(m)] *)
Definition grid_len (g : Grid) : Z := rows g.

(** ** Plans *)

Record Plan := {
  Version : Z;
  Level : Z;
  Mask : Z;
  DataBytes : Z;
  CheckBytes : Z;
  Blocks : Z;
  Pixel : Grid;
  PlanCode : Code
}.

(** The pixel map and the code under construction, as [posBox] and
    [alignBox] receive them. *)
Definition canvas : Type := (Grid * Code)%type.

Definition paint (s : canvas) (y x : Z) : option canvas :=
  let '(m, c) := s in
  b <- Code_set c (Bitmap c) y x ;;
  Some (m, with_Bitmap c b).

Definition tag (s : canvas) (y x : Z) (pix : Z) : option canvas :=
  let '(m, c) := s in
  m' <- zset2 m y x pix ;;
  Some (m', c).

(** [posBox] draws a position (large) box at upper left x, y. *)
Definition posBox (s : canvas) (x y : Z) : option canvas :=
  let pos := Role_Pixel Position in
  let len_m := grid_len (fst s) in
  s <- foldM (fun s dy =>
         foldM (fun s dx =>
           s <- tag s (y + dy) (x + dx) pos ;;
           if (dx =? 0) || (dx =? 6) || (dy =? 0) || (dy =? 6)
              || ((2 <=? dx) && (dx <=? 4) && (2 <=? dy) && (dy <=? 4))
           then paint s (y + dy) (x + dx) else Some s)
         (zrange 0 7) s)
       (zrange 0 7) s ;;
  s <- foldM (fun s dy =>
         if (0 <=? y + dy) && (y + dy <? len_m) then
           s <- (if 0 <? x then tag s (y + dy) (x - 1) pos else Some s) ;;
           if x + 7 <? len_m then tag s (y + dy) (x + 7) pos else Some s
         else Some s)
       (zrange (-1) 8) s ;;
  foldM (fun s dx =>
         if (0 <=? x + dx) && (x + dx <? len_m) then
           s <- (if 0 <? y then tag s (y - 1) (x + dx) pos else Some s) ;;
           if y + 7 <? len_m then tag s (y + 7) (x + dx) pos else Some s
         else Some s)
       (zrange (-1) 8) s.

(** [alignBox] draws an alignment (small) box at upper left x, y. *)
Definition alignBox (s : canvas) (x y : Z) : option canvas :=
  let align := Role_Pixel Alignment in
  foldM (fun s dy =>
    foldM (fun s dx =>
      s <- tag s (y + dy) (x + dx) align ;;
      if (dx =? 0) || (dx =? 4) || (dy =? 0) || (dy =? 4)
         || ((dx =? 2) && (dy =? 2))
      then paint s (y + dy) (x + dx) else Some s)
    (zrange 0 5) s)
  (zrange 0 5) s.

(** The coordinate loops of the alignment boxes,
    [for c := 4; c+5 < siz; { body; if c == 4 { c = apos } else { c += astride } }]. *)
Fixpoint align_loop {S : Type} (fuel : nat) (siz apos astride : Z)
    (body : S -> Z -> option S) (c : Z) (s : S) : option S :=
  match fuel with
  | O => None
  | S k =>
      if c + 5 <? siz then
        s' <- body s c ;;
        align_loop k siz apos astride body
                   (if c =? 4 then apos else c + astride) s'
      else Some s
  end.

Definition ti : Z := 6.

(** The stages of [vplan], in the order of the source, on the pixel map and
    the code of the plan under construction. *)

(** Timing markers (overwritten by boxes). *)
Definition vplan_timing (s : canvas) : option canvas :=
  let pix := Role_Pixel Timing in
  foldM (fun s i =>
           s <- tag s i ti pix ;;
           s <- tag s ti i pix ;;
           if Z.land i 1 =? 0 then
             s <- paint s i ti ;; paint s ti i
           else Some s)
        (zrange 0 (grid_len (fst s))) s.

(** Position boxes. *)
Definition vplan_position (siz : Z) (s : canvas) : option canvas :=
  s <- posBox s 0 0 ;;
  s <- posBox s (siz - 7) 0 ;;
  posBox s 0 (siz - 7).

(** Alignment boxes. *)
Definition vplan_alignment (siz : Z) (info : version) (s : canvas)
  : option canvas :=
  let fuel := Z.to_nat siz in
  align_loop fuel siz (apos info) (astride info) (fun s x =>
    align_loop fuel siz (apos info) (astride info) (fun s y =>
      (* don't overwrite timing markers *)
      if ((x <? 7) && (y <? 7)) || ((x <? 7) && (siz - 7 <=? y + 5))
         || ((siz - 7 <=? x + 5) && (y <? 7))
      then Some s else alignBox s x y)
    4 s)
  4 s.

(** Version pattern. *)
Definition vplan_version (siz pat : Z) (s : canvas) : option canvas :=
  if pat =? 0 then Some s else
  let pix := Role_Pixel PVersion in
  r <- foldM (fun (sv : canvas * Z) x =>
         foldM (fun (sv : canvas * Z) y =>
           let '(s, v) := sv in
           s <- tag s (siz - 11 + y) x pix ;;
           s <- tag s x (siz - 11 + y) pix ;;
           s <- (if Z.land v 1 =? 0 then Some s else
                 s <- paint s (siz - 11 + y) x ;;
                 paint s x (siz - 11 + y)) ;;
           Some (s, Z.shiftr v 1))
         (zrange 0 3) sv)
       (zrange 0 6) (s, pat) ;;
  Some (fst r).

(** Format pixels. *)
Definition vplan_format (siz : Z) (s : canvas) : option canvas :=
  foldM (fun s i =>
           let pix := Role_Pixel Format + OffsetPixel i in
           s <- (if i <? 6 then tag s i 8 pix
                 else if i <? 8 then tag s (i + 1) 8 pix
                 else if i <? 9 then tag s 8 7 pix
                 else tag s 8 (14 - i) pix) ;;
           (* bottom right *)
           if i <? 8 then tag s 8 (siz - 1 - i) pix
           else tag s (siz - 1 - (14 - i)) 8 pix)
        (zrange 0 15) s.

(** One lonely black pixel *)
Definition vplan_lonely (siz : Z) (s : canvas) : option canvas :=
  s <- tag s (siz - 8) 8 (Role_Pixel Unused) ;;
  paint s (siz - 8) 8.

Definition vplan_draw (siz : Z) (info : version) (s : canvas) : option canvas :=
  s <- vplan_timing s ;;
  s <- vplan_position siz s ;;
  s <- vplan_alignment siz info s ;;
  s <- vplan_version siz (pattern info) s ;;
  s <- vplan_format siz s ;;
  vplan_lonely siz s.

(** [vplan] creates a Plan for the given version, with room for [n] bitmaps. *)
Definition vplan (v n : Z) : option (result Plan) :=
  if (v <? 1) || (40 <? v) then Some (Err (ErrVersion v)) else
  let siz := 17 + v * 4 in
  m <- grid siz ;;
  let stride := Z.shiftr (siz + 7) 3 in
  bm <- zmake 0 (stride * siz * n) ;;
  info <- zget vtab v ;;
  s <- vplan_draw siz info
         (m, {| Bitmap := bm; Size := siz; Stride := stride |}) ;;
  Some (Ok {| Version := v; Level := 0; Mask := 0;
              DataBytes := 0; CheckBytes := 0; Blocks := 0;
              Pixel := fst s; PlanCode := snd s |}).

(** The per-block slicing of [lplan]:
    [dataList[i], data = data[0:nd*8], data[nd*8:]] and the same for check. *)
Definition lplan_split (nblock nde extra ne : Z) (data check : list Z)
  : option (list (list Z) * list (list Z)) :=
  r <- foldM (fun (s : (list (list Z) * list Z) * (list (list Z) * list Z)) i =>
         let '((dl, data), (cl, check)) := s in
         (* The last few blocks have an extra data byte (8 pixels). *)
         let nd := if nblock - extra <=? i then nde + 1 else nde in
         d <- zslice data 0 (nd * 8) ;;
         data <- zdrop data (nd * 8) ;;
         c <- zslice check 0 (ne * 8) ;;
         check <- zdrop check (ne * 8) ;;
         Some ((d :: dl, data), (c :: cl, check)))
       (zrange 0 nblock) (([], data), ([], check)) ;;
  let '((dl, data), (cl, check)) := r in
  if negb (zlen data =? 0) || negb (zlen check =? 0) then None (* data/check math *)
  else Some (rev dl, rev cl).

(** One pass of the interleaving loops: byte [i] of every block that has one.
    [dst] is represented by the chunks written so far (latest first) and the
    number of pixels still unwritten. *)
Definition lplan_emit (blocks : list (list Z)) (s : list (list Z) * Z) (i : Z)
  : option (list (list Z) * Z) :=
  foldM (fun (s : list (list Z) * Z) b =>
           let '(out, room) := s in
           if i * 8 <? zlen b then
             chunk <- zslice b (i * 8) ((i + 1) * 8) ;;
             if room <? 8 then None else Some (chunk :: out, room - 8)
           else Some s)
        blocks s.

(** The bit sequence of [lplan]: first byte of each block, then second byte,
    and so on; then the checksums likewise. *)
Definition lplan_bits (nblock nde extra ne : Z) : option (list Z) :=
  let dataBits := (nde * nblock + extra) * 8 in
  let checkBits := ne * nblock * 8 in
  (* Make data + checksum pixels. *)
  data <- zmake 0 dataBits ;;
  let data := map (fun i => Z.lor (Role_Pixel Data) (OffsetPixel i))
                  (zrange 0 (zlen data)) in
  check <- zmake 0 checkBits ;;
  let check := map (fun i => Z.lor (Role_Pixel Check) (OffsetPixel (i + dataBits)))
                   (zrange 0 (zlen check)) in
  (* Split into blocks. *)
  lists <- lplan_split nblock nde extra ne data check ;;
  let '(dataList, checkList) := lists in
  bits <- zmake 0 (dataBits + checkBits) ;;
  s <- foldM (lplan_emit dataList) (zrange 0 (nde + 1)) ([], zlen bits) ;;
  s <- foldM (lplan_emit checkList) (zrange 0 ne) s ;;
  if negb (snd s =? 0) then None (* dst math *)
  else Some (concat (rev (fst s))).

(** [if p.Pixel[y][c].Role() == 0 { p.Pixel[y][c], src = src[0], src[1:] }] *)
Definition sweep_cell (y c : Z) (s : Grid * list Z)
  : option (Grid * list Z) :=
  let '(m, src) := s in
  pix <- zget2 m y c ;;
  if Pixel_Role pix =? 0 then
    match src with
    | [] => None
    | px :: src' => m' <- zset2 m y c px ;; Some (m', src')
    end
  else Some s.

Definition sweep_row (x : Z) (s : Grid * list Z) (y : Z)
  : option (Grid * list Z) :=
  s <- sweep_cell y (x - 1) s ;;
  sweep_cell y (x - 2) s.

(** Sweep up pair of columns, then down, assigning to right then left pixel. *)
Fixpoint sweep (fuel : nat) (siz x : Z) (s : Grid * list Z)
  : option (Grid * list Z) :=
  match fuel with
  | O => None
  | S k =>
      if 0 <? x then
        s <- foldM (sweep_row x) (zrange_down (siz - 1) 0) s ;;
        let x := x - 2 in
        let x := if x =? 7 then x - 1 else x in (* vertical timing strip *)
        s <- foldM (sweep_row x) (zrange 0 siz) s ;;
        sweep k siz (x - 2) s
      else Some s
  end.

(** [lplan] edits a version-only Plan to add information about the error
    correction levels. *)
Definition lplan (v l : Z) (p : Plan) : option Plan :=
  vt <- zget vtab v ;;
  lv <- zget (levels vt) l ;;
  let nblock := nblock lv in
  let ne := check lv in
  if nblock =? 0 then None else
  let nde := Z.quot (bytes vt - ne * nblock) nblock in
  let extra := Z.rem (bytes vt - ne * nblock) nblock in
  bits <- lplan_bits nblock nde extra ne ;;
  let siz := grid_len (Pixel p) in
  rem <- zmake (Role_Pixel Extra) 7 ;;
  let src := bits ++ rem in
  r <- sweep (Z.to_nat siz) siz siz (Pixel p, src) ;;
  Some {| Version := Version p; Level := l; Mask := Mask p;
          DataBytes := bytes vt - ne * nblock;
          CheckBytes := ne * nblock;
          Blocks := nblock;
          Pixel := fst r; PlanCode := PlanCode p |}.


(** [fplan] sets the format bits in the bitmap slice [b]. *)
Definition formatPoly : Z := 0x537.

Definition fplan_rem (fb : Z) : Z :=
  fold_left (fun rem i =>
               if negb (Z.land rem (Z.shiftl 1 i) =? 0)
               then Z.lxor rem (Z.shiftl formatPoly (i - 10))
               else rem)
            (zrange_down 14 10) fb.

Definition fplan_word (l m : Z) : Z :=
  let fb := uint32 (Z.shiftl (uint32 (Z.lxor l 1)) 13) in (* level: L=01, M=00, Q=11, H=10 *)
  let fb := Z.lor fb (uint32 (Z.shiftl (uint32 m) 10)) in  (* mask *)
  let rem := fplan_rem fb in
  let fb := Z.lor fb rem in
  Z.lxor fb 0x5412.

Definition fplan (l m : Z) (p : Plan) (b : list Z) : option (list Z) :=
  let fb := fplan_word l m in
  let siz := grid_len (Pixel p) in
  let c := PlanCode p in
  foldM (fun b i =>
           if Z.land (Z.shiftr fb i) 1 =? 1 then
             b <- (if i <? 6 then Code_set c b i 8
                   else if i <? 8 then Code_set c b (i + 1) 8
                   else if i <? 9 then Code_set c b 8 7
                   else Code_set c b 8 (14 - i)) ;;
             (* bottom right *)
             if i <? 8 then Code_set c b 8 (siz - 1 - i)
             else Code_set c b (siz - 1 - 14 + i) 8
           else Some b)
        (zrange 0 15) b.

Definition with_Mask (p : Plan) (m : Z) : Plan :=
  {| Version := Version p; Level := Level p; Mask := m;
     DataBytes := DataBytes p; CheckBytes := CheckBytes p;
     Blocks := Blocks p; Pixel := Pixel p; PlanCode := PlanCode p |}.

Definition with_Code_Bitmap (p : Plan) (b : list Z) : Plan :=
  {| Version := Version p; Level := Level p; Mask := Mask p;
     DataBytes := DataBytes p; CheckBytes := CheckBytes p;
     Blocks := Blocks p; Pixel := Pixel p;
     PlanCode := with_Bitmap (PlanCode p) b |}.

(** [for y, row := range p.Pixel { for x, pix := range row { ... } }] *)
Definition for_pixels {S : Type} (g : Grid) (body : S -> Z -> Z -> Z -> option S)
    (s : S) : option S :=
  foldM (fun s y =>
           foldM (fun s x => pix <- zget2 g y x ;; body s y x pix)
                 (zrange 0 (cols g)) s)
        (zrange 0 (rows g)) s.

(** [mplan] edits a version+level-only Plan to add the mask, painting the
    inverted pixels into the bitmap slice [b]. *)
Definition mplan (m : Z) (p : Plan) (b : list Z) : option (Plan * list Z) :=
  let p := with_Mask p m in
  b <- for_pixels (Pixel p) (fun b y x pix =>
         let r := Pixel_Role pix in
         if (r =? Data) || (r =? Check) || (r =? Extra) then
           inv <- Mask_Invert (Mask p) y x ;;
           if inv then Code_set (PlanCode p) b y x else Some b
         else Some b) b ;;
  Some (p, b).

(** A function run on the tail [bm[k:]] of a slice writes through to [bm]. *)
Definition on_tail (bm : list Z) (k : Z) (f : list Z -> option (list Z))
  : option (list Z) :=
  tl <- zdrop bm k ;;
  tl' <- f tl ;;
  Some (firstn (Z.to_nat k) bm ++ tl').

(** [copy(dst, src)] on lists: the new contents of [dst] and the count. *)
Definition copy (dst src : list Z) : list Z * Z :=
  let k := Z.min (zlen dst) (zlen src) in
  (firstn (Z.to_nat k) src ++ skipn (Z.to_nat k) dst, k).

(** [for n := sz; n < len(bm); { n += copy(bm[n:], bm[:n]) }] *)
Fixpoint replicate (fuel : nat) (bm : list Z) (n : Z) : option (list Z) :=
  match fuel with
  | O => None
  | S k =>
      if n <? zlen bm then
        src <- zslice bm 0 n ;;
        dst <- zdrop bm n ;;
        let '(dst', c) := copy dst src in
        replicate k (firstn (Z.to_nat n) bm ++ dst') (n + c)
      else Some bm
  end.

(** [NewPlan] returns a Plan for a QR code with the given version, level,
    and mask. *)
Definition NewPlan (version level mask : Z) : option (result Plan) :=
  if (version <? MinVersion) || (MaxVersion <? version) then
    Some (Err (ErrVersion version))
  else if (level <? L) || (H <? level) then Some (Err (ErrLevel level))
  else
    let n := if mask =? -1 then 8 else 1 in
    if negb (mask =? -1) && ((mask <? 0) || (7 <? mask)) then
      Some (Err (ErrMask mask))
    else
      r <- vplan version n ;;
      match r with
      | Err e => Some (Err e)
      | Ok p =>
          p <- lplan version level p ;;
          if n =? 1 then
            b <- fplan level mask p (Bitmap (PlanCode p)) ;;
            pb <- mplan mask p b ;;
            Some (Ok (with_Code_Bitmap (fst pb) (snd pb)))
          else
            let sz := Size (PlanCode p) * Stride (PlanCode p) in
            let bm := Bitmap (PlanCode p) in
            bm <- replicate (S (length bm)) bm sz ;;
            pb <- foldM (fun (pb : Plan * list Z) mask =>
                     let '(p, bm) := pb in
                     bm <- on_tail bm (mask * sz) (fplan level mask p) ;;
                     tl <- zdrop bm (mask * sz) ;;
                     pt <- mplan mask p tl ;;
                     Some (fst pt, firstn (Z.to_nat (mask * sz)) bm ++ snd pt))
                   (zrange 0 8) (p, bm) ;;
            Some (Ok (with_Mask (with_Code_Bitmap (fst pb) (snd pb)) (-1)))
      end.

(** ** The penalty scorer *)

Definition MinRun : Z := 5.
Definition RunPDelta : Z := -2.
Definition BoxPP : Z := 3.
Definition FindPP : Z := 40.
Definition BalPP : Z := 10.
Definition BalPMul : Z := 20.
Definition BalPMax : Z := Z.quot BalPMul 2 - 1.
Definition pShift : Z := 16 - 12.
(* 0b0000_1011101_0: quiet zone before *)
Definition FindB : Z := uint16 (Z.shiftl 0x0BA pShift).
(* 0b0_1011101_0000: quiet zone after *)
Definition FindA : Z := uint16 (Z.shiftl 0x5D0 pShift).

(** The scanning state of one row or column: penalty so far, colour of the
    last pixel, current run length, last 12 pixels. *)
Record scan := {
  sc_p : Z;
  sc_black : bool;
  sc_r : Z;
  sc_pat : Z
}.

(** The common part of the two inner loops, once the colour [cur] of the
    pixel is read; [box] is the BoxP test of the horizontal scan, consulted
    only for a pixel that continues the run. *)
Definition scan_step (s : scan) (cur : bool) (box : option bool) : option scan :=
  r <- (if negb (Bool.eqb cur (sc_black s)) then
          Some (if MinRun <=? sc_r s then sc_p s + (sc_r s + RunPDelta) else sc_p s,
                negb (sc_black s), 0)
        else
          bx <- box ;;
          Some (if bx then sc_p s + BoxPP else sc_p s, sc_black s, sc_r s)) ;;
  let '(p, black, r) := r in
  let pat := uint16 (Z.shiftl (sc_pat s) 1) in
  let '(p, pat) :=
    if black then (p, Z.lor pat (Z.shiftl 1 pShift))
    else if (pat =? FindB) || (pat =? FindA) then (p + FindPP, pat)
    else (p, pat) in
  Some {| sc_p := p; sc_black := black; sc_r := r + 1; sc_pat := pat |}.

(** What follows the inner loop: the last run and the patterns that end in
    the quiet zone. *)
Definition scan_end (s : scan) : Z :=
  let p := if MinRun <=? sc_r s then sc_p s + (sc_r s + RunPDelta) else sc_p s in
  let pat := uint16 (Z.shiftl (sc_pat s) 1) in
  if pat =? FindB then p + 2 * FindPP
  else if (FindA =? pat) || (FindA =? uint16 (Z.shiftl pat 1))
          || (FindA =? uint16 (Z.shiftl pat 2))
          || (FindA =? uint16 (Z.shiftl pat 3))
       then p + FindPP
       else p.

Definition scan_start (p : Z) (black : bool) : scan :=
  {| sc_p := p; sc_black := black; sc_r := 1;
     sc_pat := if black then Z.shiftl 1 pShift else 0 |}.

(** One row of the horizontal scan, from the penalty and the count of black
    pixels so far. *)
Definition Penalty_row (c : Code) (s : Z * Z) (y : Z) : option (Z * Z) :=
  let '(p, bal) := s in
  black <- Black c 0 y ;;
  r <- foldM (fun (sb : scan * Z) x =>
         let '(s, bal) := sb in
         cur <- Black c x y ;;
         s' <- scan_step s cur
                 (if negb (y =? 0) then
                    a <- Black c (x - 1) (y - 1) ;;
                    if Bool.eqb a (sc_black s) then
                      b <- Black c x (y - 1) ;;
                      Some (Bool.eqb b (sc_black s))
                    else Some false
                  else Some false) ;;
         Some (s', if sc_black s' then bal + 1 else bal))
       (zrange 1 (Size c))
       (scan_start p black, if black then bal + 1 else bal) ;;
  Some (scan_end (fst r), snd r).

(** One column of the vertical scan. *)
Definition Penalty_col (c : Code) (p : Z) (x : Z) : option Z :=
  black <- Black c x 0 ;;
  s <- foldM (fun s y => cur <- Black c x y ;; scan_step s cur (Some false))
             (zrange 1 (Size c)) (scan_start p black) ;;
  Some (scan_end s).

(** [Code.Penalty] calculates the penalty value for c. *)
Definition Penalty (c : Code) : option Z :=
  (* horizontal runs: RunP, FindP, BoxP and count black pixels for BalP *)
  s <- foldM (Penalty_row c) (zrange 0 (Size c)) (0, 0) ;;
  let '(p, bal) := s in
  (* calculate BalP *)
  let sq := Size c * Size c in
  let bal := if Z.quot sq 2 <? bal then sq - bal else bal in
  if sq =? 0 then None else
  let p := p + (BalPMax - Z.quot (bal * BalPMul) sq) * BalPP in
  (* vertical runs: RunP, FindP *)
  foldM (Penalty_col c) (zrange 0 (Size c)) p.

(** ** The bit writer *)

Record Bits := { b_b : list Z; b_nbit : Z }.

Definition uint64 (x : Z) : Z := Z.land x 0xFFFFFFFFFFFFFFFF.

Definition Bits_zero : Bits := {| b_b := []; b_nbit := 0 |}.

Definition Bits_Reset (b : Bits) : Bits := {| b_b := []; b_nbit := 0 |}.

Definition Bits_Bits (b : Bits) : Z := b_nbit b.

Definition Bits_Bytes (b : Bits) : option (list Z) :=
  if negb (Z.rem (b_nbit b) 8 =? 0) then None (* fractional byte *)
  else Some (b_b b).

Definition Bits_Append (b : Bits) (p : list Z) : option Bits :=
  if negb (Z.rem (b_nbit b) 8 =? 0) then None (* fractional byte *)
  else Some {| b_b := b_b b ++ p; b_nbit := b_nbit b + 8 * zlen p |}.

(** [Bits.Write]: every round writes at least one bit, so [nbit] rounds of
    fuel are enough (see [Bits_Write]). *)
Fixpoint Write_loop (fuel : nat) (b : Bits) (v nbit : Z) : option Bits :=
  if nbit <=? 0 then Some b else
  match fuel with
  | O => None
  | S k =>
      let n := if 8 <? nbit then 8 else nbit in
      let '(bytes, n) :=
        if Z.rem (b_nbit b) 8 =? 0 then (b_b b ++ [0], n)
        else let m := Z.land (- b_nbit b) 7 in
             (b_b b, if m <? n then m else n) in
      let nb := b_nbit b + n in
      let sh := nbit - n in
      bytes <- zupd bytes (zlen bytes - 1)
                 (fun x => Z.lor x
                    (uint8 (uint64 (Z.shiftl (Z.shiftr v sh) (Z.land (- nb) 7))))) ;;
      let v := uint64 (v - uint64 (Z.shiftl (Z.shiftr v sh) sh)) in
      Write_loop k {| b_b := bytes; b_nbit := nb |} v (nbit - n)
  end.

Definition Bits_Write (b : Bits) (v nbit : Z) : option Bits :=
  Write_loop (Z.to_nat nbit) b v nbit.

(** The pad-byte loop of [Bits.Pad],
    [for i := 0; i < pad; i += 2 { Write(0xec, 8); if i+1 >= pad { break }; Write(0x11, 8) }]. *)
Fixpoint Pad_loop (fuel : nat) (b : Bits) (i pad : Z) : option Bits :=
  match fuel with
  | O => None
  | S k =>
      if i <? pad then
        b <- Bits_Write b 0xec 8 ;;
        if pad <=? i + 1 then Some b
        else
          b <- Bits_Write b 0x11 8 ;;
          Pad_loop k b (i + 2) pad
      else Some b
  end.

Definition Bits_Pad (b : Bits) (n : Z) : option Bits :=
  if n <? 0 then None (* qr: invalid pad size *)
  else if n <=? 4 then Bits_Write b 0 n
  else
    b <- Bits_Write b 0 4 ;;
    let n := n - 4 in
    let n := n - Z.land (- Bits_Bits b) 7 in
    b <- Bits_Write b 0 (Z.land (- Bits_Bits b) 7) ;;
    let pad := Z.quot n 8 in
    Pad_loop (S (Z.to_nat pad)) b 0 pad.

(** ** Encodings *)

Definition bytes_of (s : string) : list Z :=
  map (fun c => Z.of_N (N_of_ascii c)) (list_ascii_of_string s).

(** [len(s)] *)
Definition slen (s : string) : Z := zlen (bytes_of s).

Definition numLen : list Z := [10; 12; 14].
Definition alphaLen : list Z := [9; 11; 13].
Definition stringLen : list Z := [8; 16; 16].
Definition kanjiLen : list Z := [8; 10; 12].

(** [Num.Check].  The loop ranges over the runes of [s]; a rune that is not
    a single byte below 0x80 is never a digit, so the test is the same on
    the bytes. *)
Definition Num_Check (s : string) : option error :=
  if forallb (fun c => negb ((c <? 48) || (57 <? c))) (bytes_of s) then None
  else Some (ErrNonNumeric s).

Definition Num_Bits (s : string) (v : Z) : option Z :=
  w <- zget numLen (sizeClass v) ;;
  Some (4 + w + Z.quot (10 * slen s + 2) 3).

(** [uint(c - '0')] on a byte. *)
Definition digit (c : Z) : Z := uint8 (c - 48).

(** The digit loop of [Num.Encode] and the switch on what is left. *)
Fixpoint Num_groups (l : list Z) (b : Bits) : option Bits :=
  match l with
  | c0 :: c1 :: c2 :: t =>
      b <- Bits_Write b (uint64 (digit c0 * 100 + digit c1 * 10 + digit c2)) 10 ;;
      Num_groups t b
  | [c0] => Bits_Write b (digit c0) 4
  | [c0; c1] => Bits_Write b (uint64 (digit c0 * 10 + digit c1)) 7
  | [] => Some b
  end.

Definition Num_Encode (s : string) (b : Bits) (v : Z) : option Bits :=
  b <- Bits_Write b 1 4 ;;
  w <- zget numLen (sizeClass v) ;;
  b <- Bits_Write b (slen s) w ;;
  Num_groups (bytes_of s) b.

Definition alphabet : string := "0123456789ABCDEFGHIJKLMNOPQRSTUVWXYZ $%*+-./:".

Fixpoint index_from (l : list Z) (c : Z) (i : Z) : Z :=
  match l with
  | [] => -1
  | a :: t => if a =? c then i else index_from t c (i + 1)
  end.

(** [strings.IndexRune(alphabet, rune(c))] for a byte [c]. *)
Definition alpha_index (c : Z) : Z := index_from (bytes_of alphabet) c 0.

Definition Alpha_Check (s : string) : option error :=
  if forallb (fun c => negb (alpha_index c <? 0)) (bytes_of s) then None
  else Some (ErrNonAlpha s).

Definition Alpha_Bits (s : string) (v : Z) : option Z :=
  w <- zget alphaLen (sizeClass v) ;;
  Some (4 + w + Z.quot (11 * slen s + 1) 2).

Fixpoint Alpha_pairs (l : list Z) (b : Bits) : option Bits :=
  match l with
  | c0 :: c1 :: t =>
      b <- Bits_Write b (uint64 (uint64 (alpha_index c0) * 45
                                 + uint64 (alpha_index c1))) 11 ;;
      Alpha_pairs t b
  | [c0] => Bits_Write b (uint64 (alpha_index c0)) 6
  | [] => Some b
  end.

Definition Alpha_Encode (s : string) (b : Bits) (v : Z) : option Bits :=
  b <- Bits_Write b 2 4 ;;
  w <- zget alphaLen (sizeClass v) ;;
  b <- Bits_Write b (slen s) w ;;
  Alpha_pairs (bytes_of s) b.

Definition String_Check (s : string) : option error := None.

Definition String_Bits (s : string) (v : Z) : option Z :=
  w <- zget stringLen (sizeClass v) ;;
  Some (4 + w + 8 * slen s).

Definition String_Encode (s : string) (b : Bits) (v : Z) : option Bits :=
  b <- Bits_Write b 4 4 ;;
  w <- zget stringLen (sizeClass v) ;;
  b <- Bits_Write b (slen s) w ;;
  foldM (fun b c => Bits_Write b c 8) (bytes_of s) b.

(** The Shift JIS encoder of [golang.org/x/text] is outside this package: it
    is a parameter [sjis], the bytes of the encoded string or [None] for an
    error. *)
Definition codec : Type := string -> option (list Z).

Definition Kanji_Check (sjis : codec) (s : string) : option error :=
  match sjis s with
  | Some _ => None
  | None => Some (ErrNonKanji s)
  end.

Fixpoint Kanji_pairs (l : list Z) (b : Bits) : option Bits :=
  match l with
  | k0 :: k1 :: t =>
      b <- Bits_Write b (uint64 (Z.land k0 0x3f * 0xc0 + k1 - 0x100)) 13 ;;
      Kanji_pairs t b
  | [_] => None (* k[i+1] out of range *)
  | [] => Some b
  end.

(** [Kanji.Encode].  On an encoder error the method prints and returns; on
    an odd length without an error the message it builds calls [Error] on
    the nil error, which panics. *)
Definition Kanji_Encode (sjis : codec) (s : string) (b : Bits) (v : Z)
  : option Bits :=
  match sjis s with
  | None => Some b
  | Some k =>
      if negb (Z.land (zlen k) 1 =? 0) then None
      else
        b <- Bits_Write b 8 4 ;;
        w <- zget kanjiLen (sizeClass v) ;;
        b <- Bits_Write b (Z.quot (zlen k) 2) w ;;
        Kanji_pairs k b
  end.

(** The values of the [Encoding] interface this package defines. *)
Inductive Encoding : Type :=
| Num (s : string)
| Alpha (s : string)
| String_ (s : string)
| Kanji (s : string).

Definition Encoding_Check (sjis : codec) (t : Encoding) : option error :=
  match t with
  | Num s => Num_Check s
  | Alpha s => Alpha_Check s
  | String_ s => String_Check s
  | Kanji s => Kanji_Check sjis s
  end.

Definition Encoding_Encode (sjis : codec) (t : Encoding) (b : Bits) (v : Z)
  : option Bits :=
  match t with
  | Num s => Num_Encode s b v
  | Alpha s => Alpha_Encode s b v
  | String_ s => String_Encode s b v
  | Kanji s => Kanji_Encode sjis s b v
  end.

(** ** Check bytes

    The Reed-Solomon encoder of package [gf256] is outside this file: it is
    a parameter [ecc], with [ecc c data] the contents that
    [rs.ECC(data, chk)] leaves in the [c]-byte buffer [chk]. *)
Definition rs_encoder : Type := Z -> list Z -> list Z.

(** The block loop of [Bits.AddCheckBytes]. *)
Definition AddCheckBytes_blocks (ecc : rs_encoder) (nblock check db extra : Z)
    (b : Bits) (dat : list Z) : option Bits :=
  r <- foldM (fun (s : Bits * list Z * Z) i =>
         let '(b, dat, db) := s in
         let db := if i =? nblock - extra then db + 1 else db in
         blk <- zslice dat 0 db ;;
         b <- Bits_Append b (ecc check blk) ;;
         dat <- zdrop dat db ;;
         Some (b, dat, db))
       (zrange 0 nblock) (b, dat, db) ;;
  Some (fst (fst r)).

Definition Bits_AddCheckBytes (ecc : rs_encoder) (b : Bits) (v l : Z)
  : option Bits :=
  nd <- Version_DataBytes v l ;;
  b <- (if b_nbit b <? nd * 8 then Bits_Pad b (nd * 8 - b_nbit b) else Some b) ;;
  if negb (b_nbit b =? nd * 8) then None (* qr: too much data *) else
  dat <- Bits_Bytes b ;;
  vt <- zget vtab v ;;
  lev <- zget (levels vt) l ;;
  if nblock lev =? 0 then None else
  let db := Z.quot nd (nblock lev) in
  let extra := Z.rem nd (nblock lev) in
  chk <- zmake 0 (check lev) ;;
  b <- AddCheckBytes_blocks ecc (nblock lev) (check lev) db extra b dat ;;
  bs <- Bits_Bytes b ;;
  if negb (zlen bs =? bytes vt) then None (* qr: internal error *)
  else Some b.

(** ** Encoding with a plan *)

(** The encoder loop of [Plan.Encode]. *)
Fixpoint Encode_text (sjis : codec) (text : list Encoding) (b : Bits) (v : Z)
  : option (result Bits) :=
  match text with
  | [] => Some (Ok b)
  | t :: text =>
      match Encoding_Check sjis t with
      | Some err => Some (Err err)
      | None =>
          b <- Encoding_Encode sjis t b v ;;
          Encode_text sjis text b v
      end
  end.

Definition xor_at (data : list Z) (i : Z) (m : Z) : option (list Z) :=
  zupd data i (fun v => Z.lxor v m).

(** The loop that puts the data and checksum bits into the bitmap; the row
    slice [crow] is [data[base:]]. *)
Definition Encode_pixels (p : Plan) (bytes : list Z) (data : list Z)
  : option (list Z) :=
  r <- foldM (fun (s : list Z * Z) y =>
         let '(data, base) := s in
         data <- foldM (fun data x =>
                   pix <- zget2 (Pixel p) y x ;;
                   let r := Pixel_Role pix in
                   if (r =? Data) || (r =? Check) then
                     let o := Pixel_Offset pix in
                     v <- zget bytes (Z.quot o 8) ;;
                     if negb (Z.land v (Z.shiftl 1 (7 - Z.land o 7)) =? 0) then
                       if Z.quot x 8 <? 0 then None
                       else xor_at data (base + Z.quot x 8)
                                   (Z.shiftl 1 (7 - Z.land x 7))
                     else Some data
                   else Some data)
                 (zrange 0 (cols (Pixel p))) data ;;
         if zlen data - base <? Stride (PlanCode p) then None
         else if Stride (PlanCode p) <? 0 then None
         else Some (data, base + Stride (PlanCode p)))
       (zrange 0 (rows (Pixel p))) (data, 0) ;;
  Some (fst r).

Fixpoint xor_bytes (a b : list Z) : list Z :=
  match a, b with
  | x :: a, y :: b => Z.lxor x y :: xor_bytes a b
  | a, [] => a
  | [], _ => []
  end.

(** The mask loop of [Plan.Encode]: [b] is what is left of the plan's
    bitmaps, [cb] the bitmap of the code under test, [best] the best bitmap
    so far and [pen] its penalty. *)
Fixpoint Encode_masks (fuel : nat) (size stride : Z) (data : list Z)
    (b cb best : list Z) (pen : Z) : option (list Z) :=
  match fuel with
  | O => None
  | S k =>
      if negb (zlen b =? 0) then
        (* set bitmap to plan bits xor data bits *)
        let '(cb, n) := copy cb b in
        b <- zdrop b n ;;
        let cb := xor_bytes cb data in
        p <- Penalty {| Bitmap := cb; Size := size; Stride := stride |} ;;
        if p <? pen then Encode_masks k size stride data b best cb p
        else Encode_masks k size stride data b cb best pen
      else Some best
  end.

(** [Plan.Encode] *)
Definition Plan_Encode (sjis : codec) (ecc : rs_encoder) (p : Plan)
    (text : list Encoding) : option (result Code) :=
  r <- Encode_text sjis text Bits_zero (Version p) ;;
  match r with
  | Err err => Some (Err err)
  | Ok b =>
      if DataBytes p * 8 <? Bits_Bits b then
        Some (Err (ErrCapacity (Bits_Bits b) (DataBytes p * 8)))
      else
        b <- Bits_AddCheckBytes ecc b (Version p) (Level p) ;;
        bytes <- Bits_Bytes b ;;
        (* Now we have the checksum bytes and the data bytes.
           Construct the bitmap consisting of data and checksum bits. *)
        let c := PlanCode p in
        data <- zmake 0 (Size c * Stride c) ;;
        let one := zlen data =? zlen (Bitmap c) in
        let data := if one then fst (copy data (Bitmap c)) else data in
        data <- Encode_pixels p bytes data ;;
        if one then
          Some (Ok {| Bitmap := data; Size := Size c; Stride := Stride c |})
        else
          (* Apply masks to the bitmap to construct the actual codes.
             Choose the code with the smallest penalty. *)
          cb <- zmake 0 (zlen data) ;;
          best <- zmake 0 (zlen data) ;;
          let pen := Z.shiftl 2 30 in (* largest penalty is < 2<<23 *)
          best <- Encode_masks (S (length (Bitmap c))) (Size c) (Stride c)
                    data (Bitmap c) cb best pen ;;
          Some (Ok {| Bitmap := best; Size := Size c; Stride := Stride c |})
  end.


(** ** Plans made once

    [autoPlans] keeps one plan per version and level, made with mask -1 on
    first use.  The calls are taken one after the other, and the table is
    passed along; the flag [once] is what [sync.Once] remembers. *)

Record AutoPlan := { a_Version : Z; a_Level : Z }.

Definition versions : Z := MaxVersion - MinVersion + 1.
Definition nlevels : Z := H - L + 1.

Record autoPlan := { once : bool; ap_p : option Plan }.

(** The zero value of [autoPlans]. *)
Definition autoPlans : list (list autoPlan) :=
  repeat (repeat {| once := false; ap_p := None |} (Z.to_nat nlevels))
         (Z.to_nat versions).

Definition makeAutoPlan (st : list (list autoPlan)) (version level : Z)
  : option (result (option Plan) * list (list autoPlan)) :=
  if (version <? MinVersion) || (MaxVersion <? version) then
    Some (Err (ErrVersion version), st)
  else if (level <? L) || (H <? level) then Some (Err (ErrLevel level), st)
  else
    row <- zget st (version - MinVersion) ;;
    p <- zget row level ;;
    match ap_p p with
    | None =>
        if once p then Some (Ok None, st)
        else
          r <- NewPlan version level (-1) ;;
          let p' := {| once := true;
                       ap_p := match r with Ok q => Some q | Err _ => None end |} in
          row' <- zset row level p' ;;
          st' <- zset st (version - MinVersion) row' ;;
          Some (Ok (ap_p p'), st')
    | Some q => Some (Ok (Some q), st)
    end.

(** [NewAutoPlan] returns an AutoPlan for a QR code with the given version
    and level. *)
Definition NewAutoPlan (st : list (list autoPlan)) (version level : Z)
  : option (result AutoPlan * list (list autoPlan)) :=
  r <- makeAutoPlan st version level ;;
  match fst r with
  | Err e => Some (Err e, snd r)
  | Ok _ => Some (Ok {| a_Version := version; a_Level := level |}, snd r)
  end.

(** [AutoPlan.Encode]: a nil plan would panic in [Plan.Encode]. *)
Definition AutoPlan_Encode (sjis : codec) (ecc : rs_encoder)
    (st : list (list autoPlan)) (a : AutoPlan) (text : list Encoding)
  : option (result Code * list (list autoPlan)) :=
  r <- makeAutoPlan st (a_Version a) (a_Level a) ;;
  match fst r with
  | Err e => Some (Err e, snd r)
  | Ok None => None
  | Ok (Some p) =>
      c <- Plan_Encode sjis ecc p text ;;
      Some (c, snd r)
  end.

(** [Encode] encodes text using an AutoPlan with the given version and
    level. *)
Definition Encode (sjis : codec) (ecc : rs_encoder) (st : list (list autoPlan))
    (version level : Z) (text : list Encoding)
  : option (result Code * list (list autoPlan)) :=
  AutoPlan_Encode sjis ecc st {| a_Version := version; a_Level := level |} text.


(** * Specification-level definitions

    What the statements below are phrased with: views of the data the code
    works on, and the values the specification names. *)

(** Reading a slice with a default, for statements about its contents. *)
Definition znth (l : list Z) (i : Z) : Z := nth (Z.to_nat i) l 0.

(** ** Codes as pictures *)

(** A code whose bitmap covers its square: what [Plan.Encode] returns. *)
Definition code_wf (c : Code) : Prop :=
  0 <= Size c /\ Size c <= 8 * Stride c /\ Size c * Stride c <= zlen (Bitmap c).

(** The module at column [x] of row [y] in a bitmap laid out with [stride]
    bytes per row, most significant bit first. *)
Definition bit_at (stride : Z) (b : list Z) (y x : Z) : bool :=
  Z.testbit (znth b (y * stride + x / 8)) (7 - x mod 8).

(** The colour of module (x, y) of a code, white outside the square. *)
Definition pixel (c : Code) (x y : Z) : bool :=
  (0 <=? x) && (x <? Size c) && (0 <=? y) && (y <? Size c)
  && bit_at (Stride c) (Bitmap c) y x.

Definition row (c : Code) (y : Z) : list bool :=
  map (fun x => pixel c x y) (zrange 0 (Size c)).

Definition col (c : Code) (x : Z) : list bool :=
  map (fun y => pixel c x y) (zrange 0 (Size c)).

(** ** The four terms of the penalty *)

Definition b2z (b : bool) : Z := if b then 1 else 0.

Definition zsum (f : Z -> Z) (lo hi : Z) : Z :=
  fold_right (fun i a => f i + a) 0 (zrange lo hi).

Definition zcount (P : Z -> bool) (lo hi : Z) : Z :=
  zsum (fun i => b2z (P i)) lo hi.

(** Lengths of the maximal same-colour runs of a line, first run first. *)
Fixpoint run_lengths (l : list bool) : list Z :=
  match l with
  | [] => []
  | b :: t =>
      match run_lengths t with
      | n :: ns => if Bool.eqb b (hd b t) then (n + 1) :: ns else 1 :: n :: ns
      | [] => [1]
      end
  end.

Definition run_score (n : Z) : Z := if 5 <=? n then n - 2 else 0.

Definition run_penalty (l : list bool) : Z :=
  fold_right (fun n a => run_score n + a) 0 (run_lengths l).

(** Run term: over all rows and all columns. *)
Definition RunP (c : Code) : Z :=
  zsum (fun y => run_penalty (row c y)) 0 (Size c)
  + zsum (fun x => run_penalty (col c x)) 0 (Size c).

(** A 2x2 box of one colour with lower right corner (x, y). *)
Definition is_box (c : Code) (x y : Z) : bool :=
  Bool.eqb (pixel c x y) (pixel c (x - 1) y)
  && Bool.eqb (pixel c (x - 1) (y - 1)) (pixel c (x - 1) y)
  && Bool.eqb (pixel c x (y - 1)) (pixel c (x - 1) y).

Definition BoxP (c : Code) : Z :=
  3 * zsum (fun y => zcount (fun x => is_box c x y) 1 (Size c)) 1 (Size c).

(** A line read with white modules on either side (the quiet zone). *)
Definition line_ext (l : list bool) (i : Z) : bool :=
  (0 <=? i) && (i <? zlen l) && nth (Z.to_nat i) l false.

(** The modules [e - n + 1 .. e] of the padded line, [n] the pattern length. *)
Definition window (n : Z) (l : list bool) (e : Z) : list bool :=
  map (fun k => line_ext l (e - (n - 1) + k)) (zrange 0 n).

Fixpoint bools_eqb (a b : list bool) : bool :=
  match a, b with
  | [], [] => true
  | x :: a, y :: b => Bool.eqb x y && bools_eqb a b
  | _, _ => false
  end.

(** The pattern occurs in the padded line with its last module at [e]. *)
Definition occurs_at (pat l : list bool) (e : Z) : bool :=
  bools_eqb (window (zlen pat) l e) pat.

(** Occurrences of a pattern in the padded line: every position at which
    the window meets the line. *)
Definition occurrences (pat l : list bool) : Z :=
  zcount (occurs_at pat l) 0 (zlen l + zlen pat - 1).

(** A pattern spelled with 0 for a white and 1 for a black module. *)
Definition modules (s : string) : list bool :=
  map (fun c => Ascii.eqb c "1"%char) (list_ascii_of_string s).

Definition finder_before : list bool := modules "000010111010".
Definition finder_after : list bool := modules "010111010000".

Definition finder_count (l : list bool) : Z :=
  occurrences finder_before l + occurrences finder_after l.

Definition FindP (c : Code) : Z :=
  40 * (zsum (fun y => finder_count (row c y)) 0 (Size c)
        + zsum (fun x => finder_count (col c x)) 0 (Size c)).

(** Black modules of the code. *)
Definition black_count (c : Code) : Z :=
  zsum (fun y => zcount (fun x => pixel c x y) 0 (Size c)) 0 (Size c).

(** The balance term as the specification words it. *)
Definition balance_term (black total : Z) : Z :=
  (9 - (Z.min black (total - black) * 20) / total) * 10.

Definition BalP (c : Code) : Z :=
  balance_term (black_count c) (Size c * Size c).

(** ** Auxiliary notions of the scanning proofs *)

(** Big-endian value of a list of modules. *)
Fixpoint enc (l : list bool) : Z :=
  match l with
  | [] => 0
  | b :: t => b2z b * 2 ^ zlen t + enc t
  end.

(** Penalty of the runs of [l] when it continues a run of colour [cur]
    that is [r] long already. *)
Fixpoint run_pen (cur : bool) (r : Z) (l : list bool) : Z :=
  match l with
  | [] => run_score r
  | b :: t => if Bool.eqb b cur then run_pen cur (r + 1) t
              else run_score r + run_pen b 1 t
  end.

(** The pattern register as a function of the 12-module window value. *)
Definition pat_of (w : Z) : Z := 16 * w.

(** The pattern register after one more module, and the points it earns:
    the tail of the loop body in [scan_step]. *)
Definition pat_next (pat : Z) (black : bool) : Z * Z :=
  let pat := uint16 (Z.shiftl pat 1) in
  if black then (Z.lor pat (Z.shiftl 1 pShift), 0)
  else if (pat =? FindB) || (pat =? FindA) then (pat, FindPP)
  else (pat, 0).

(** The window value after one more module. *)
Definition win_next (w : Z) (b : bool) : Z := (2 * w) mod 4096 + b2z b.

(** Number of finder patterns (0 or 1) that a window value spells. *)
Definition finder_hit (w : Z) : Z :=
  b2z (w =? enc finder_before) + b2z (w =? enc finder_after).

(** The same with the two values written out. *)
Definition hit (w : Z) : Z := b2z (w =? 186) + b2z (w =? 1488).

Definition pat_next_ok (w : Z) : bool :=
  forallb (fun b =>
             let '(p, a) := pat_next (pat_of w) b in
             (p =? pat_of (win_next w b)) && (a =? 40 * hit (win_next w b)))
          [false; true].

(** What [scan_end] adds for the patterns that end in the quiet zone, from
    the window value at the last module of the line. *)
Definition tail_code (w : Z) : Z :=
  scan_end {| sc_p := 0; sc_black := false; sc_r := 0; sc_pat := pat_of w |}.

(** The patterns spelled by the [n] windows that follow, all further
    modules being white. *)
Fixpoint tail_hits (n : nat) (w : Z) : Z :=
  match n with
  | O => 0
  | S k => let w' := win_next w false in hit w' + tail_hits k w'
  end.

Definition tail_ok (w : Z) : bool := tail_code w =? 40 * tail_hits 11 w.

(** The invariant of the inner loops of the scorer before module [i] of the
    line [l] is read: [p0] is the penalty before the line, [boxf] the BoxP
    test at each position. *)
Definition scan_inv (l : list bool) (p0 : Z) (boxf : Z -> bool) (i : Z)
    (s : scan) : Prop :=
  sc_black s = line_ext l (i - 1)
  /\ sc_pat s = pat_of (enc (window 12 l (i - 1)))
  /\ sc_p s + run_pen (sc_black s) (sc_r s) (skipn (Z.to_nat i) l)
     = p0 + run_pen (hd false l) 1 (tl l)
       + 3 * zcount boxf 1 i
       + 40 * zsum (fun e => finder_hit (enc (window 12 l e))) 1 i.

Definition bump (k : Z) (ns : list Z) : list Z :=
  match ns with
  | [] => []
  | n :: t => (n + k) :: t
  end.

Definition sum_scores (ns : list Z) : Z :=
  fold_right (fun n a => run_score n + a) 0 ns.

(** ** Sample codes *)

(** A one-module code, black. *)
Definition dot_code : Code := {| Bitmap := [0x80]; Size := 1; Stride := 1 |}.

(** A 14x14 code whose top row reads 1 0000 1011101 0 1 and whose other
    rows are white. *)
Definition strip_code : Code :=
  {| Bitmap := [0x85; 0xD4] ++ repeat 0 26; Size := 14; Stride := 2 |}.

(** ** The bit writer as a string of bits *)

(** The 8 bits of a byte, most significant first. *)
Definition byte_bits (b : Z) : list bool :=
  map (fun k => Z.testbit b (7 - k)) (zrange 0 8).

(** The bits written so far: the first [nbit] bits of the buffer. *)
Definition Bits_list (b : Bits) : list bool :=
  firstn (Z.to_nat (b_nbit b)) (flat_map byte_bits (b_b b)).

(** The low [n] bits of [v], most significant first: what
    [Write(v, n)] is meant to append. *)
Definition msb_bits (v n : Z) : list bool :=
  map (fun k => Z.testbit v (n - 1 - k)) (zrange 0 n).

(** Big-endian value of a byte string. *)
Definition bytes_val (l : list Z) : Z := fold_left (fun a b => 256 * a + b) l 0.

(** Unused bits at the end of the buffer. *)
Definition Bits_room (b : Bits) : Z := 8 * zlen (b_b b) - b_nbit b.

(** The buffers that the writer's own methods produce from the empty one:
    just enough bytes for the bits, and zeros after the last bit. *)
Definition Bits_wf (b : Bits) : Prop :=
  0 <= b_nbit b
  /\ 0 <= Bits_room b < 8
  /\ Forall (fun a => 0 <= a < 256) (b_b b)
  /\ bytes_val (b_b b) mod 2 ^ Bits_room b = 0.

(** The number that the written bits spell. *)
Definition Bits_value (b : Bits) : Z := bytes_val (b_b b) / 2 ^ Bits_room b.

(** A buffer with just enough bytes for its bits. *)
Definition Bits_shape (b : Bits) : Prop :=
  0 <= b_nbit b /\ 0 <= Bits_room b < 8.

(** The pad bytes: 0xEC and 0x11 in turn, 0xEC first. *)
Definition pad_byte (i : Z) : Z := if Z.even i then 0xec else 0x11.

Definition pad_bytes (k : Z) : list Z := map pad_byte (zrange 0 k).

(** The digits of a numeric string in groups of three, as [Num.Encode]
    is meant to write them: 10 bits for three digits, 7 for two, 4 for one. *)
Fixpoint num_bits (l : list Z) : list bool :=
  match l with
  | c0 :: c1 :: c2 :: t =>
      msb_bits ((c0 - 48) * 100 + (c1 - 48) * 10 + (c2 - 48)) 10 ++ num_bits t
  | [c0; c1] => msb_bits ((c0 - 48) * 10 + (c1 - 48)) 7
  | [c0] => msb_bits (c0 - 48) 4
  | [] => []
  end.

(** The width of the character count of a numeric string at version [v]. *)
Definition num_count_width (v : Z) : Z := nth (Z.to_nat (sizeClass v)) numLen 0.

(** The bit count that the specification gives for a numeric string. *)
Definition num_bit_count (len v : Z) : Z :=
  4 + num_count_width v + 10 * (len / 3)
  + (if len mod 3 =? 2 then 7 else if len mod 3 =? 1 then 4 else 0).

(** A string of 2048 digits. *)
Definition long_digits : string := string_of_list_ascii (repeat "0"%char 2048).

(** Bits of the trailing group of a numeric string of length 3q + r. *)
Definition num_tail (r : Z) : Z :=
  if r =? 2 then 7 else if r =? 1 then 4 else 0.

Definition is_digit (c : Z) : Prop := 48 <= c <= 57.

(** ** The block layout *)

(** Data bytes of block [j] and the index of its first data byte, when the
    last [extra] of [nb] blocks have one byte more than [nde]. *)
Definition block_size (nb nde extra j : Z) : Z :=
  if nb - extra <=? j then nde + 1 else nde.

Definition block_start (nb nde extra j : Z) : Z :=
  j * nde + Z.max 0 (j - (nb - extra)).

Definition data_pixel (i : Z) : Z := Z.lor (Role_Pixel Data) (OffsetPixel i).

Definition check_pixel (dataBits i : Z) : Z :=
  Z.lor (Role_Pixel Check) (OffsetPixel (i + dataBits)).

(** The 8 pixels of byte [k] of a stream whose bit [i] is pixel [f i]. *)
Definition byte_pixels (f : Z -> Z) (k : Z) : list Z :=
  map f (zrange (8 * k) (8 * k + 8)).

(** Byte [i] of every block that has one, in block order, for increasing
    [i]: the data part of the interleaved sequence. *)
Definition interleave_data (nb nde extra : Z) : list Z :=
  flat_map (fun i =>
    flat_map (fun j =>
      if i <? block_size nb nde extra j
      then byte_pixels data_pixel (block_start nb nde extra j + i)
      else [])
    (zrange 0 nb))
  (zrange 0 (nde + 1)).

(** The check part: check byte [i] of every block, for increasing [i]; the
    check bytes of block [j] are bytes [j*ne ..] of the check stream. *)
Definition interleave_check (nb ne dataBits : Z) : list Z :=
  flat_map (fun i =>
    flat_map (fun j => byte_pixels (check_pixel dataBits) (j * ne + i))
             (zrange 0 nb))
  (zrange 0 ne).

(** The data bytes of block [j] in the data bytes [dat]. *)
Definition block_bytes (nb nde extra : Z) (dat : list Z) (j : Z) : list Z :=
  firstn (Z.to_nat (block_size nb nde extra j))
         (skipn (Z.to_nat (block_start nb nde extra j)) dat).

(** The block parameters of a version and level, from the capacity table:
    blocks, check bytes per block, base data bytes per block, blocks with an
    extra byte. *)
Definition version_at (v : Z) : version :=
  nth (Z.to_nat v) vtab (mkv 0 0 0 0 []).

Definition level_at (v l : Z) : level :=
  nth (Z.to_nat l) (levels (version_at v)) {| nblock := 0; check := 0 |}.

(** The block layout of a version and level: block count [nb], check bytes
    per block [ne], data bytes [nd], base data bytes per block [nde], and
    the number [extra] of blocks with one more data byte. *)
Definition lay_nb (v l : Z) : Z := nblock (level_at v l).
Definition lay_ne (v l : Z) : Z := check (level_at v l).
Definition lay_nd (v l : Z) : Z := bytes (version_at v) - lay_ne v l * lay_nb v l.
Definition lay_nde (v l : Z) : Z := lay_nd v l / lay_nb v l.
Definition lay_extra (v l : Z) : Z := lay_nd v l mod lay_nb v l.

Definition layout_ok (v l : Z) : bool :=
  (0 <? lay_nb v l) && (0 <=? lay_ne v l) && (0 <? lay_nd v l)
  && (zlen (levels (version_at v)) =? 4)
  && (bytes (version_at v) <? 4096).

Definition layouts_ok : bool :=
  (zlen vtab =? 41)
  && forallb (fun v => forallb (layout_ok v) (zrange 0 4)) (zrange 1 41).

(** The pixel blocks that [lplan] cuts the data and check pixels into. *)
Definition data_block (nb nde extra j : Z) : list Z :=
  map data_pixel (zrange (8 * block_start nb nde extra j)
                         (8 * (block_start nb nde extra j
                               + block_size nb nde extra j))).

Definition check_block (ne dataBits j : Z) : list Z :=
  map (check_pixel dataBits) (zrange (8 * (j * ne)) (8 * (j * ne + ne))).

(** The chunks that one pass of the interleaving loop emits, latest first,
    for blocks [js] of pixel stream [f] with the given starts and sizes. *)
Definition pass_chunks (f : Z -> Z) (start size : Z -> Z) (i : Z) (js : list Z)
  : list (list Z) :=
  flat_map (fun j => if i <? size j then [byte_pixels f (start j + i)] else []) js.

(** ** Plans *)

(** A property of every cell of a pixel map. *)
Definition cells_forall (g : Grid) (P : Z -> Z -> Z -> bool) : bool :=
  forallb (fun y => forallb (fun x => P y x (cell g y x)) (zrange 0 (cols g)))
          (zrange 0 (rows g)).

(** The sweep of [lplan] run on numbered pixels: pixel [k] is the Data pixel
    with offset [k]. *)
Definition label_src (n : Z) : list Z := map data_pixel (zrange 0 n).

(** Where each numbered pixel of a pixel map lies. *)
Definition label_index (g : Grid) : PositiveMap.t (Z * Z) :=
  fold_left (fun m y =>
    fold_left (fun m x =>
      let px := cell g y x in
      if Pixel_Role px =? Data
      then PositiveMap.add (zkey (Pixel_Offset px)) (y, x) m else m)
      (zrange 0 (cols g)) m)
    (zrange 0 (rows g)) (PositiveMap.empty (Z * Z)).

(** The numbered pixels of [g] are the numbers below [k], each in one cell. *)
Definition labels_ok (g : Grid) (k : Z) : bool :=
  let idx := label_index g in
  cells_forall g (fun y x px =>
    if Pixel_Role px =? Data then
      let o := Pixel_Offset px in
      (0 <=? o) && (o <? k)
      && match PositiveMap.find (zkey o) idx with
         | Some (y', x') => (y' =? y) && (x' =? x)
         | None => false
         end
    else true)
  && forallb (fun o =>
       match PositiveMap.find (zkey o) idx with
       | Some (y, x) => in_grid g y x && (cell g y x =? data_pixel o)
       | None => false
       end) (zrange 0 k).

(** The cells (row, column) of bit [i] of the format word: the copy around
    the top left position box, and the copy split between the other two. *)
Definition format_pos1 (i : Z) : Z * Z :=
  if i <? 6 then (i, 8)
  else if i <? 8 then (i + 1, 8)
  else if i <? 9 then (8, 7)
  else (8, 14 - i).

Definition format_pos2 (siz i : Z) : Z * Z :=
  if i <? 8 then (8, siz - 1 - i) else (siz - 1 - (14 - i), 8).

Definition format_cell_ok (siz stride : Z) (g : Grid) (bm : list Z) (i : Z) : bool :=
  let pix := Role_Pixel Format + OffsetPixel i in
  let '(y1, x1) := format_pos1 i in
  let '(y2, x2) := format_pos2 siz i in
  (cell g y1 x1 =? pix) && (cell g y2 x2 =? pix)
  && negb (bit_at stride bm y1 x1) && negb (bit_at stride bm y2 x2).

(** The number of data and check bits of a version. *)
Definition total_bits (v : Z) : Z := 8 * bytes (version_at v).

(** The modules of a position box: the border and the 3x3 centre. *)
Definition finder_module (dx dy : Z) : bool :=
  (dx =? 0) || (dx =? 6) || (dy =? 0) || (dy =? 6)
  || ((2 <=? dx) && (dx <=? 4) && (2 <=? dy) && (dy <=? 4)).

(** The position box with upper left corner (x0, y0) and the white strip
    around it, as far as it lies in the symbol. *)
Definition in_box (dx dy : Z) : bool :=
  (0 <=? dx) && (dx <? 7) && (0 <=? dy) && (dy <? 7).

Definition finder_ok (siz stride : Z) (g : Grid) (bm : list Z) (x0 y0 : Z) : bool :=
  forallb (fun dy =>
    forallb (fun dx =>
      let y := y0 + dy in
      let x := x0 + dx in
      if (0 <=? y) && (y <? siz) && (0 <=? x) && (x <? siz) then
        (Pixel_Role (cell g y x) =? Position)
        && Bool.eqb (bit_at stride bm y x) (in_box dx dy && finder_module dx dy)
      else true)
      (zrange (-1) 8))
    (zrange (-1) 8).

(** The timing strips between the position boxes: row 6 and column 6,
    black on the even modules, also where an alignment box lies across. *)
Definition timing_role (r : Z) : bool := (r =? Timing) || (r =? Alignment).

Definition timing_ok (siz stride : Z) (g : Grid) (bm : list Z) : bool :=
  forallb (fun i =>
    timing_role (Pixel_Role (cell g ti i)) && timing_role (Pixel_Role (cell g i ti))
    && Bool.eqb (bit_at stride bm ti i) (Z.even i)
    && Bool.eqb (bit_at stride bm i ti) (Z.even i))
    (zrange 8 (siz - 8)).

(** The module that is always black. *)
Definition dark_ok (siz stride : Z) (g : Grid) (bm : list Z) : bool :=
  (Pixel_Role (cell g (siz - 8) 8) =? Unused) && bit_at stride bm (siz - 8) 8.

(** Every byte of the bitmap is a byte, and every black module of it lies in
    a cell with one of the roles of [vplan]. *)
Definition byte_tagged (stride : Z) (g : Grid) (iv : Z * Z) : bool :=
  let '(idx, v) := iv in
  (0 <=? v) && (v <? 256)
  && forallb (fun k =>
       negb (Z.testbit v (7 - k))
       || (let r := Pixel_Role (cell g (idx / stride) (8 * (idx mod stride) + k)) in
           (1 <=? r) && (r <=? 6)))
       (zrange 0 8).

Definition black_tagged (stride : Z) (g : Grid) (bm : list Z) : bool :=
  forallb (byte_tagged stride g) (combine (zrange 0 (zlen bm)) bm).

(** The facts about the version plan [p] of [v] and the pixel map [g] of the
    numbered sweep, which placed [a] pixels, that are found by running
    [vplan] and the sweep of [lplan]. *)
Definition plan_facts (v : Z) (p : Plan) (g : Grid) (a : Z) : bool :=
  let siz := 17 + v * 4 in
  let c := PlanCode p in
  (Size c =? siz) && (Stride c =? Z.shiftr (siz + 7) 3)
  && (zlen (Bitmap c) =? Stride c * siz)
  && (rows (Pixel p) =? siz) && (cols (Pixel p) =? siz)
  && (rows g =? siz) && (cols g =? siz)
  && (total_bits v <=? a) && (a <=? total_bits v + 7)
  && cells_forall g (fun _ _ px =>
       (1 <=? Pixel_Role px) && (Pixel_Role px <=? 7))
  && labels_ok g a
  && forallb (format_cell_ok siz (Stride c) g (Bitmap c)) (zrange 0 15)
  && black_tagged (Stride c) g (Bitmap c)
  && finder_ok siz (Stride c) g (Bitmap c) 0 0
  && finder_ok siz (Stride c) g (Bitmap c) (siz - 7) 0
  && finder_ok siz (Stride c) g (Bitmap c) 0 (siz - 7)
  && timing_ok siz (Stride c) g (Bitmap c)
  && dark_ok siz (Stride c) g (Bitmap c).

Definition plan_check (v : Z) : bool :=
  match vplan v 1 with
  | Some (Ok p) =>
      let siz := 17 + v * 4 in
      match sweep (Z.to_nat siz) siz siz (Pixel p, label_src (total_bits v + 7)) with
      | Some (g, rest) =>
          cells_forall (Pixel p) (fun _ _ px => Pixel_Role px <=? 6)
          && plan_facts v p g (total_bits v + 7 - zlen rest)
      | None => false
      end
  | _ => false
  end.

(** The pixel that the sweep really puts where the numbered sweep put the
    numbered pixel [k]: the [k]-th pixel of the source. *)
Definition relabel (src : list Z) (px : Z) : Z :=
  if Pixel_Role px =? Data then nth (Z.to_nat (Pixel_Offset px)) src 0 else px.

(** The pixels that [lplan] sweeps over the free cells. *)
Definition lplan_src (v l : Z) : list Z :=
  (interleave_data (lay_nb v l) (lay_nde v l) (lay_extra v l)
   ++ interleave_check (lay_nb v l) (lay_ne v l) (lay_nd v l * 8))
  ++ repeat (Role_Pixel Extra) 7.

(** The order in which the bytes of a pixel stream are emitted. *)
Definition byte_order (start size : Z -> Z) (n : Z) (js : list Z) : list Z :=
  flat_map (fun i => flat_map (fun j => if i <? size j then [start j + i] else []) js)
           (zrange 0 n).

(** The numbered sweep and the real one run in step: [a] pixels are placed,
    and the real pixel map is the numbered one with its numbers replaced by
    the pixels of the source [full]. *)
Definition sweep_rel (full : list Z) (a : Z) (g1 g2 : Grid) : Prop :=
  rows g2 = rows g1 /\ cols g2 = cols g1
  /\ forall y x, 0 <= y < rows g1 -> 0 <= x < cols g1 ->
       cell g2 y x = relabel full (cell g1 y x)
       /\ (Pixel_Role (cell g1 y x) = Data -> 0 <= Pixel_Offset (cell g1 y x) < a).

Definition sweep_sim (full : list Z) (s1 s2 : Grid * list Z) : Prop :=
  exists a, 0 <= a <= zlen full
    /\ snd s1 = map data_pixel (zrange a (zlen full))
    /\ snd s2 = skipn (Z.to_nat a) full
    /\ sweep_rel full a (fst s1) (fst s2).

(** ** One bitmap or eight *)

(** The same pixel map and the same code, but for more bitmaps [r] after
    the first. *)
Definition canvas_ext (r : list Z) (s t : canvas) : Prop :=
  fst t = fst s /\ Size (snd t) = Size (snd s) /\ Stride (snd t) = Stride (snd s)
  /\ Bitmap (snd t) = Bitmap (snd s) ++ r.

(** A drawing step that does the same whatever follows the first bitmap. *)
Definition ext_ok (r : list Z) (f : canvas -> option canvas) : Prop :=
  forall s t s', canvas_ext r s t -> f s = Some s' ->
    exists t', f t = Some t' /\ canvas_ext r s' t'.

(** A step on a bitmap of [n] bytes that never fails and leaves alone
    whatever follows the bitmap in the slice. *)
Definition local_op (n : Z) (f : list Z -> option (list Z)) : Prop :=
  forall b r, zlen b = n ->
    exists b', f b = Some b' /\ zlen b' = n /\ f (b ++ r) = Some (b' ++ r).

Definition copies (k : nat) (b : list Z) : list Z := concat (repeat b k).

(** The bitmap of one mask: the format bits, then the mask, painted over
    the bitmap [b] of the version plan. *)
Definition mask_bitmap (l m : Z) (p : Plan) (b : list Z) : option (list Z) :=
  b <- fplan l m p b ;;
  pb <- mplan m p b ;;
  Some (snd pb).

Definition mask_chunk (l : Z) (p : Plan) (b : list Z) (m : Z) : list Z :=
  match mask_bitmap l m p b with Some c => c | None => [] end.

(** The plan of a version and level before any mask is applied: what
    [NewPlan] has after [vplan] for one bitmap and [lplan]. *)
Definition level_plan (v l : Z) : option Plan :=
  match vplan v 1 with
  | Some (Ok p) => lplan v l p
  | _ => None
  end.

(** The plan [pl] with the mask [m] and the bitmap [bm]. *)
Definition masked_plan (pl : Plan) (m : Z) (bm : list Z) : Plan :=
  {| Version := Version pl; Level := Level pl; Mask := m;
     DataBytes := DataBytes pl; CheckBytes := CheckBytes pl;
     Blocks := Blocks pl; Pixel := Pixel pl;
     PlanCode := with_Bitmap (PlanCode pl) bm |}.

(** ** What a step paints *)

(** The step [f] on a bitmap blackens the modules [S] and no other, and
    whitens none. *)
Definition paints (stride : Z) (f : list Z -> option (list Z))
    (S : Z -> Z -> Prop) : Prop :=
  forall b b', f b = Some b' ->
    forall y x, 0 <= y -> 0 <= x < 8 * stride ->
      (bit_at stride b' y x = true <-> bit_at stride b y x = true \/ S y x).

(** ** The modules of a plan *)

(** The bit of the format word that the cell (y, x) shows, if any. *)
Definition format_index (siz y x : Z) : option Z :=
  find (fun i =>
          ((fst (format_pos1 i) =? y) && (snd (format_pos1 i) =? x))
          || ((fst (format_pos2 siz i) =? y) && (snd (format_pos2 siz i) =? x)))
       (zrange 0 15).

(** The roles of the cells that the mask and the data are written to. *)
Definition masked_role (r : Z) : bool := (r =? Data) || (r =? Check) || (r =? Extra).

(** Module (y, x) of the bitmap that [NewPlan] builds for level [l] and mask
    [m] from the bitmap [bm] of the version plan and the pixel map [g]: a
    bit of the format word, or the mask, or the module of the version
    plan. *)
Definition plan_module (siz stride : Z) (g : Grid) (bm : list Z) (l m : Z)
    (y x : Z) : bool :=
  match format_index siz y x with
  | Some i => Z.testbit (fplan_word l m) i
  | None =>
      if masked_role (Pixel_Role (cell g y x))
      then match Mask_Invert m y x with Some inv => inv | None => false end
      else bit_at stride bm y x
  end.

(** The version plan of [v] and the pixel map of the numbered sweep. *)
Definition numbered_map (v : Z) : option (Plan * Grid) :=
  match vplan v 1 with
  | Some (Ok p) =>
      let siz := 17 + v * 4 in
      match sweep (Z.to_nat siz) siz siz (Pixel p, label_src (total_bits v + 7)) with
      | Some (g, _) => Some (p, g)
      | None => None
      end
  | _ => None
  end.

(** The slice [bm[m*sz : (m+1)*sz]]. *)
Definition chunk_at (sz : Z) (bm : list Z) (m : Z) : list Z :=
  firstn (Z.to_nat sz) (skipn (Z.to_nat (m * sz)) bm).

(** ** The format word as a code word *)

(** Product of two polynomials over GF(2); a polynomial is the number whose
    bit i is its coefficient of x^i, and [b] has degree below [n]. *)
Definition clmul (a b n : Z) : Z :=
  fold_left (fun acc i => if Z.testbit b i then Z.lxor acc (Z.shiftl a i) else acc)
            (zrange 0 n) 0.

(** Number of bits in which two 15-bit words differ. *)
Definition hamming (a b : Z) : Z := zcount (Z.testbit (Z.lxor a b)) 0 15.

(** The five data bits of a format word: level code, then mask. *)
Definition format_data (l m : Z) : Z := 8 * Z.lxor l 1 + m.

Definition format_word_ok (l m : Z) : bool :=
  let w := fplan_word l m in
  (0 <=? w) && (w <? 2 ^ 15)
  && (Z.shiftr (Z.lxor w 0x5412) 10 =? format_data l m)
  && existsb (fun q => clmul formatPoly q 5 =? Z.lxor w 0x5412) (zrange 0 32)
  && forallb (fun l' => forallb (fun m' =>
                ((l' =? l) && (m' =? m)) || (7 <=? hamming w (fplan_word l' m')))
              (zrange 0 8)) (zrange 0 4).

(** ** The capacity table *)

(** Bytes of the longest block of a version and level, data and check:
    the data bytes are dealt out evenly, the later blocks taking the one
    more byte each that is left. *)
Definition block_len (v l : Z) : Z :=
  let lev := level_at v l in
  (bytes (version_at v) - nblock lev * check lev + nblock lev - 1) / nblock lev
  + check lev.

Definition capacity_ok (v l : Z) : bool :=
  match Version_DataBytes v l with
  | Some nd =>
      (0 <? nd)
      && (nd + nblock (level_at v l) * check (level_at v l) =? bytes (version_at v))
      && (block_len v l <=? 255)
      && match Version_DataBytes (v + 1) l with
         | Some nd' => nd <? nd'
         | None => 40 <=? v
         end
      && match Version_DataBytes v (l + 1) with
         | Some nd' => nd' <? nd
         | None => 3 <=? l
         end
  | None => false
  end.


(** ** The table of plans *)

(** An entry of the table for version [v] and level [l]: untouched, or the
    plan of [NewPlan] with mask -1. *)
Definition entry_ok (v l : Z) (e : autoPlan) : Prop :=
  (once e = false /\ ap_p e = None)
  \/ (exists q, ap_p e = Some q /\ NewPlan v l (-1) = Some (Ok q)).

(** A table that [makeAutoPlan] alone has written. *)
Definition cache_ok (st : list (list autoPlan)) : Prop :=
  forall v l, 1 <= v <= 40 -> 0 <= l <= 3 ->
    exists row e, zget st (v - 1) = Some row /\ zget row l = Some e
                  /\ entry_ok v l e.


(** ** What the encodings write *)

(** The width of the character count at version [v], per encoding. *)
Definition alpha_count_width (v : Z) : Z := nth (Z.to_nat (sizeClass v)) alphaLen 0.
Definition string_count_width (v : Z) : Z := nth (Z.to_nat (sizeClass v)) stringLen 0.
Definition kanji_count_width (v : Z) : Z := nth (Z.to_nat (sizeClass v)) kanjiLen 0.

(** A character of the alphanumeric alphabet. *)
Definition is_alpha (c : Z) : Prop := In c (bytes_of alphabet).

(** The characters of an alphanumeric string in pairs: 11 bits for the
    pair, 45 * first + second, and 6 bits for a character left over. *)
Fixpoint alpha_bits (l : list Z) : list bool :=
  match l with
  | c0 :: c1 :: t => msb_bits (alpha_index c0 * 45 + alpha_index c1) 11 ++ alpha_bits t
  | [c0] => msb_bits (alpha_index c0) 6
  | [] => []
  end.

(** The bytes of a string, 8 bits each. *)
Definition string_bits (l : list Z) : list bool := flat_map byte_bits l.

(** The 13-bit value of a double-byte Shift JIS code. *)
Definition kanji_value (k0 k1 : Z) : Z := Z.land k0 0x3f * 0xc0 + k1 - 0x100.

Fixpoint kanji_bits (l : list Z) : list bool :=
  match l with
  | k0 :: k1 :: t => msb_bits (kanji_value k0 k1) 13 ++ kanji_bits t
  | _ => []
  end.

(** Double-byte codes whose values fit in 13 bits. *)
Fixpoint kanji_fits (l : list Z) : Prop :=
  match l with
  | k0 :: k1 :: t => 0 <= kanji_value k0 k1 < 2 ^ 13 /\ kanji_fits t
  | _ => True
  end.

(** A codec that gives the two bytes 0x93 0xFA for every string. *)
Definition sample_codec : codec := fun _ => Some [0x93; 0xFA].

(** ** Encoding a text *)

(** The error of the first encoding of a text that [Check] rejects. *)
Fixpoint first_error (sjis : codec) (text : list Encoding) : option error :=
  match text with
  | [] => None
  | t :: text =>
      match Encoding_Check sjis t with
      | Some err => Some err
      | None => first_error sjis text
      end
  end.

(** The Shift JIS code of a kanji string has an even number of bytes. *)
Definition kanji_even (sjis : codec) (t : Encoding) : Prop :=
  match t with
  | Kanji s => match sjis s with Some k => zlen k mod 2 = 0 | None => True end
  | _ => True
  end.

(** Bits that the encodings of a text write at version [v]. *)
Definition item_bits (sjis : codec) (v : Z) (t : Encoding) : Z :=
  match t with
  | Num s => num_bit_count (slen s) v
  | Alpha s => 4 + alpha_count_width v + 11 * (slen s / 2) + 6 * (slen s mod 2)
  | String_ s => 4 + string_count_width v + 8 * slen s
  | Kanji s =>
      match sjis s with
      | Some k => 4 + kanji_count_width v + 13 * (zlen k / 2)
      | None => 0
      end
  end.

Definition text_bits (sjis : codec) (v : Z) (text : list Encoding) : Z :=
  fold_right (fun t a => item_bits sjis v t + a) 0 text.

(** The bit that [Plan.Encode] xors into module (y, x): the bit of the byte
    stream that a Data or Check pixel points at. *)
Definition data_bit (g : Grid) (stream : list Z) (y x : Z) : bool :=
  let pix := cell g y x in
  ((Pixel_Role pix =? Data) || (Pixel_Role pix =? Check))
  && Z.testbit (znth stream (Pixel_Offset pix / 8)) (7 - Pixel_Offset pix mod 8).

(** The penalty of a bitmap of the given size, 0 where [Penalty] panics. *)
Definition penalty_of (size stride : Z) (bm : list Z) : Z :=
  match Penalty {| Bitmap := bm; Size := size; Stride := stride |} with
  | Some q => q
  | None => 0
  end.

(** The first candidate of the least score below [pen], or [best]. *)
Fixpoint pick_best (f : list Z -> Z) (cands : list (list Z)) (best : list Z)
    (pen : Z) : list Z :=
  match cands with
  | [] => best
  | c :: t => if f c <? pen then pick_best f t c (f c) else pick_best f t best pen
  end.

(** The byte stream of a text: the data bytes, padded, and the check bytes
    of the blocks. *)
Definition text_stream (sjis : codec) (ecc : rs_encoder) (v l : Z)
    (text : list Encoding) : option (list Z) :=
  match Encode_text sjis text Bits_zero v with
  | Some (Ok b) =>
      match Bits_AddCheckBytes ecc b v l with
      | Some b' => Bits_Bytes b'
      | None => None
      end
  | _ => None
  end.

(** The bitmap of the data and check bits of a byte stream alone: what the
    pixel loop of [Plan.Encode] makes of an empty bitmap. *)
Definition data_bitmap (pl : Plan) (stream : list Z) : list Z :=
  match Encode_pixels pl stream
          (repeat 0 (Z.to_nat (Size (PlanCode pl) * Stride (PlanCode pl)))) with
  | Some e => e
  | None => []
  end.

(** The code with the bitmap [bm] and the size of the plan. *)
Definition plan_code (pl : Plan) (bm : list Z) : Code :=
  {| Bitmap := bm; Size := Size (PlanCode pl); Stride := Stride (PlanCode pl) |}.

(** The Reed-Solomon encoder fills the check buffer it is handed. *)
Definition ecc_sized (ecc : rs_encoder) : Prop :=
  forall c d, 0 <= c -> zlen (ecc c d) = c.

(** An encoder that leaves the check bytes zero. *)
Definition zero_ecc : rs_encoder := fun c _ => repeat 0 (Z.to_nat c).

(** The value of [Mask.Invert] at a module, for a mask that has one. *)
Definition mask_bit (m y x : Z) : bool :=
  match Mask_Invert m y x with Some inv => inv | None => false end.

(** ** The bits of a text *)

(** The count of an encoding fits its count field (and a kanji string has
    whole double-byte codes of 13-bit values). *)
Definition item_fits (sjis : codec) (v : Z) (t : Encoding) : Prop :=
  match t with
  | Num s => slen s < 2 ^ num_count_width v
  | Alpha s => slen s < 2 ^ alpha_count_width v
  | String_ s => slen s < 2 ^ string_count_width v
  | Kanji s =>
      match sjis s with
      | Some k => zlen k mod 2 = 0 /\ kanji_fits k
                  /\ zlen k / 2 < 2 ^ kanji_count_width v
      | None => True
      end
  end.

(** The bits of one encoding: mode, count, characters. *)
Definition item_bitlist (sjis : codec) (v : Z) (t : Encoding) : list bool :=
  match t with
  | Num s =>
      msb_bits 1 4 ++ msb_bits (slen s) (num_count_width v) ++ num_bits (bytes_of s)
  | Alpha s =>
      msb_bits 2 4 ++ msb_bits (slen s) (alpha_count_width v)
      ++ alpha_bits (bytes_of s)
  | String_ s =>
      msb_bits 4 4 ++ msb_bits (slen s) (string_count_width v)
      ++ string_bits (bytes_of s)
  | Kanji s =>
      match sjis s with
      | Some k =>
          msb_bits 8 4 ++ msb_bits (zlen k / 2) (kanji_count_width v) ++ kanji_bits k
      | None => []
      end
  end.

(** What [Pad(n)] appends after [nbit] bits: up to four zero bits, zeros
    to the end of the byte, then the pad bytes. *)
Definition pad_bits (nbit n : Z) : list bool :=
  if n <=? 4 then repeat false (Z.to_nat n)
  else
    let fill := (- (nbit + 4)) mod 8 in
    repeat false 4 ++ repeat false (Z.to_nat fill)
    ++ flat_map byte_bits (pad_bytes (Z.quot (n - 4 - fill) 8)).


(** * Index ranges, loops and slices *)

Lemma zrange_from_length (n : nat) (lo : Z) : length (zrange_from lo n) = n.
Proof.
  revert lo; induction n as [|n IH]; intros lo; simpl; [reflexivity|].
  now rewrite IH.
Qed.

Lemma zrange_from_app (n k : nat) (lo : Z) :
  zrange_from lo (n + k) = zrange_from lo n ++ zrange_from (lo + Z.of_nat n) k.
Proof.
  revert lo; induction n as [|n IH]; intros lo.
  - simpl. now rewrite Z.add_0_r.
  - cbn [Nat.add zrange_from app]. rewrite IH. do 3 f_equal. lia.
Qed.

Lemma zrange_nil (lo hi : Z) : hi <= lo -> zrange lo hi = [].
Proof.
  intros Hle. unfold zrange.
  replace (Z.to_nat (hi - lo)) with O by lia. reflexivity.
Qed.

Lemma zrange_cons (lo hi : Z) :
  lo < hi -> zrange lo hi = lo :: zrange (lo + 1) hi.
Proof.
  intros Hlt. unfold zrange.
  replace (Z.to_nat (hi - lo)) with (S (Z.to_nat (hi - (lo + 1)))) by lia.
  reflexivity.
Qed.

Lemma zrange_app (lo mid hi : Z) :
  lo <= mid <= hi -> zrange lo hi = zrange lo mid ++ zrange mid hi.
Proof.
  intros Hle. unfold zrange.
  replace (Z.to_nat (hi - lo))
    with (Z.to_nat (mid - lo) + Z.to_nat (hi - mid))%nat by lia.
  rewrite zrange_from_app. do 2 f_equal. lia.
Qed.

Lemma zrange_snoc (lo hi : Z) :
  lo <= hi -> zrange lo (hi + 1) = zrange lo hi ++ [hi].
Proof.
  intros Hle. rewrite (zrange_app lo hi (hi + 1)) by lia.
  f_equal. rewrite zrange_cons by lia. now rewrite zrange_nil by lia.
Qed.

Lemma zrange_length (lo hi : Z) : length (zrange lo hi) = Z.to_nat (hi - lo).
Proof. unfold zrange. apply zrange_from_length. Qed.

Lemma zlen_zrange (lo hi : Z) : lo <= hi -> zlen (zrange lo hi) = hi - lo.
Proof. intros Hle. unfold zlen. rewrite zrange_length. lia. Qed.

Lemma in_zrange_from (n : nat) (lo i : Z) :
  In i (zrange_from lo n) <-> lo <= i < lo + Z.of_nat n.
Proof.
  revert lo; induction n as [|n IH]; intros lo; simpl.
  - lia.
  - rewrite IH. lia.
Qed.

Lemma in_zrange (lo hi i : Z) : In i (zrange lo hi) <-> lo <= i < hi.
Proof. unfold zrange. rewrite in_zrange_from. lia. Qed.

Lemma zrange_forallb (P : Z -> bool) (lo hi : Z) :
  forallb P (zrange lo hi) = true -> forall i, lo <= i < hi -> P i = true.
Proof.
  intros Hall i Hi. rewrite forallb_forall in Hall.
  apply Hall. now apply in_zrange.
Qed.

Lemma zlen_nonneg {A : Type} (l : list A) : 0 <= zlen l.
Proof. unfold zlen. lia. Qed.

Lemma zlen_app {A : Type} (l1 l2 : list A) : zlen (l1 ++ l2) = zlen l1 + zlen l2.
Proof. unfold zlen. rewrite length_app. lia. Qed.

Lemma zlen_cons {A : Type} (a : A) (l : list A) : zlen (a :: l) = zlen l + 1.
Proof. unfold zlen. simpl. lia. Qed.

Lemma zlen_repeat {A : Type} (a : A) (n : nat) : zlen (repeat a n) = Z.of_nat n.
Proof. unfold zlen. now rewrite repeat_length. Qed.

Lemma zlen_map {A B : Type} (f : A -> B) (l : list A) : zlen (map f l) = zlen l.
Proof. unfold zlen. now rewrite length_map. Qed.

(** ** Loops in the panic monad *)

Lemma foldM_app {A S : Type} (f : S -> A -> option S) (l1 l2 : list A) (s : S) :
  foldM f (l1 ++ l2) s =
  match foldM f l1 s with Some s' => foldM f l2 s' | None => None end.
Proof.
  revert s; induction l1 as [|a l1 IH]; intros s; simpl; [reflexivity|].
  destruct (f s a); [apply IH | reflexivity].
Qed.

(** The loop rule: an invariant indexed by the loop counter. *)
Lemma foldM_zrange_inv {S : Type} (f : S -> Z -> option S)
    (P : Z -> S -> Prop) (lo hi : Z) (s : S) :
  lo <= hi ->
  P lo s ->
  (forall i s, lo <= i < hi -> P i s ->
     exists s', f s i = Some s' /\ P (i + 1) s') ->
  exists s', foldM f (zrange lo hi) s = Some s' /\ P hi s'.
Proof.
  intros Hle H0 Hstep.
  remember (Z.to_nat (hi - lo)) as n eqn:Hn.
  revert lo s Hle H0 Hstep Hn.
  induction n as [|n IH]; intros lo s Hle H0 Hstep Hn.
  - assert (hi = lo) by lia. subst hi. rewrite zrange_nil by lia.
    simpl. eauto.
  - rewrite zrange_cons by lia. simpl.
    destruct (Hstep lo s) as [s1 [E1 P1]]; [lia | assumption |].
    rewrite E1. apply IH; try lia; try assumption.
    intros i s2 Hi. apply Hstep. lia.
Qed.

(** The same for a loop over any list, with an invariant that does not
    depend on the position. *)
Lemma foldM_inv {A S : Type} (f : S -> A -> option S) (P : S -> Prop)
    (l : list A) (s : S) :
  P s ->
  (forall a s, In a l -> P s -> exists s', f s a = Some s' /\ P s') ->
  exists s', foldM f l s = Some s' /\ P s'.
Proof.
  revert s; induction l as [|a l IH]; intros s H0 Hstep; simpl.
  - eauto.
  - destruct (Hstep a s) as [s1 [E1 P1]]; [now left | assumption |].
    rewrite E1. apply IH; [assumption|].
    intros b s2 Hb. apply Hstep. now right.
Qed.

(** A successful loop preserves what every successful step preserves. *)
Lemma foldM_preserves {A S : Type} (f : S -> A -> option S) (P : S -> Prop)
    (l : list A) (s s' : S) :
  (forall a s s', In a l -> P s -> f s a = Some s' -> P s') ->
  P s -> foldM f l s = Some s' -> P s'.
Proof.
  revert s; induction l as [|a l IH]; intros s Hstep H0 HF; simpl in HF.
  - now inversion HF; subst.
  - destruct (f s a) as [s1|] eqn:E1; [|discriminate].
    apply (IH s1); try assumption.
    + intros b t t' Hb. apply Hstep. now right.
    + apply (Hstep a s s1); [now left | assumption | assumption].
Qed.

(** Two loops whose steps stay related end in related states. *)
Lemma foldM_rel {A S T : Type} (f : S -> A -> option S) (g : T -> A -> option T)
    (R : S -> T -> Prop) (l : list A) (s s' : S) (t : T) :
  (forall a s s' t, In a l -> R s t -> f s a = Some s' ->
     exists t', g t a = Some t' /\ R s' t') ->
  R s t -> foldM f l s = Some s' ->
  exists t', foldM g l t = Some t' /\ R s' t'.
Proof.
  revert s t; induction l as [|a l IH]; intros s t Hstep H0 HF; simpl in *.
  - inversion HF; subst. eauto.
  - destruct (f s a) as [s1|] eqn:E1; [|discriminate].
    destruct (Hstep a s s1 t) as [t1 [E2 R1]]; auto.
    rewrite E2. apply (IH s1 t1); auto.
    intros b u u' w Hb. apply Hstep. now right.
Qed.

(** ** Slices *)

Lemma upd_nat_length {A : Type} (f : A -> A) (l l' : list A) (n : nat) :
  upd_nat l n f = Some l' -> length l' = length l.
Proof.
  revert l' n; induction l as [|a l IH]; intros l' n H; destruct n; simpl in H;
    try discriminate.
  - now inversion H.
  - destruct (upd_nat l n f) as [t|] eqn:E; simpl in H; [|discriminate].
    inversion H; subst. simpl. f_equal. eauto.
Qed.

Lemma upd_nat_some {A : Type} (f : A -> A) (l : list A) (n : nat) :
  (n < length l)%nat -> exists l', upd_nat l n f = Some l'.
Proof.
  revert n; induction l as [|a l IH]; intros n H; simpl in H; [lia|].
  destruct n; simpl; [eauto|].
  destruct (IH n) as [t E]; [lia|]. rewrite E. simpl. eauto.
Qed.

Lemma upd_nat_none {A : Type} (f : A -> A) (l : list A) (n : nat) :
  (length l <= n)%nat -> upd_nat l n f = None.
Proof.
  revert n; induction l as [|a l IH]; intros n H; simpl in H.
  - now destruct n.
  - destruct n; [lia|]. simpl. rewrite IH by lia. reflexivity.
Qed.

Lemma upd_nat_nth {A : Type} (f : A -> A) (l l' : list A) (n k : nat) (d : A) :
  upd_nat l n f = Some l' ->
  nth k l' d = if Nat.eqb k n then f (nth k l d) else nth k l d.
Proof.
  revert l' n k; induction l as [|a l IH]; intros l' n k H; destruct n;
    simpl in H; try discriminate.
  - inversion H; subst. destruct k; reflexivity.
  - destruct (upd_nat l n f) as [t|] eqn:E; simpl in H; [|discriminate].
    inversion H; subst. destruct k; simpl; [reflexivity|]. now apply IH.
Qed.

Lemma upd_nat_app {A : Type} (f : A -> A) (l l' r : list A) (n : nat) :
  upd_nat l n f = Some l' -> upd_nat (l ++ r) n f = Some (l' ++ r).
Proof.
  revert l' n; induction l as [|a l IH]; intros l' n H; destruct n;
    simpl in H; try discriminate.
  - inversion H; subst. reflexivity.
  - destruct (upd_nat l n f) as [t|] eqn:E; simpl in H; [|discriminate].
    inversion H; subst. simpl. now rewrite (IH t n E).
Qed.

Lemma zupd_length {A : Type} (f : A -> A) (l l' : list A) (i : Z) :
  zupd l i f = Some l' -> zlen l' = zlen l.
Proof.
  unfold zupd, zlen. destruct (i <? 0); [discriminate|].
  intros H. now rewrite (upd_nat_length _ _ _ _ H).
Qed.

Lemma zupd_some {A : Type} (f : A -> A) (l : list A) (i : Z) :
  0 <= i < zlen l -> exists l', zupd l i f = Some l'.
Proof.
  unfold zupd, zlen. intros Hi.
  destruct (Z.ltb_spec i 0); [lia|]. apply upd_nat_some. lia.
Qed.

Lemma zupd_inv {A : Type} (f : A -> A) (l l' : list A) (i : Z) :
  zupd l i f = Some l' -> 0 <= i < zlen l.
Proof.
  unfold zupd, zlen. destruct (Z.ltb_spec i 0); [discriminate|].
  intros Hu. destruct (Nat.lt_ge_cases (Z.to_nat i) (length l)); [lia|].
  rewrite upd_nat_none in Hu by assumption. discriminate.
Qed.

Lemma zupd_app {A : Type} (f : A -> A) (l l' r : list A) (i : Z) :
  zupd l i f = Some l' -> zupd (l ++ r) i f = Some (l' ++ r).
Proof.
  unfold zupd. destruct (i <? 0); [discriminate|]. apply upd_nat_app.
Qed.

Lemma zupd_znth (f : Z -> Z) (l l' : list Z) (i k : Z) :
  zupd l i f = Some l' -> 0 <= k ->
  znth l' k = if k =? i then f (znth l k) else znth l k.
Proof.
  intros H Hk. pose proof (zupd_inv _ _ _ _ H) as Hi.
  unfold zupd in H. destruct (Z.ltb_spec i 0) as [Hneg|Hpos]; [lia|].
  unfold znth. rewrite (upd_nat_nth _ _ _ _ (Z.to_nat k) 0 H).
  destruct (Z.eqb_spec k i).
  - subst. now rewrite Nat.eqb_refl.
  - destruct (Nat.eqb_spec (Z.to_nat k) (Z.to_nat i)); [lia | reflexivity].
Qed.

Lemma zget_some {A : Type} (l : list A) (i : Z) (d : A) :
  0 <= i < zlen l -> zget l i = Some (nth (Z.to_nat i) l d).
Proof.
  unfold zget, zlen. intros Hi. destruct (Z.ltb_spec i 0); [lia|].
  apply nth_error_nth'. lia.
Qed.

Lemma zget_inv {A : Type} (l : list A) (i : Z) (a : A) :
  zget l i = Some a -> 0 <= i < zlen l.
Proof.
  unfold zget, zlen. destruct (Z.ltb_spec i 0); [discriminate|].
  intros Hg. assert (nth_error l (Z.to_nat i) <> None) as Hn by congruence.
  apply nth_error_Some in Hn. lia.
Qed.


(** * Reading modules *)

Lemma land_bit_testbit (v k : Z) :
  0 <= k -> negb (Z.land v (Z.shiftl 1 k) =? 0) = Z.testbit v k.
Proof.
  intros Hk. rewrite Z.shiftl_1_l.
  assert (Z.land v (2 ^ k) = if Z.testbit v k then 2 ^ k else 0) as ->.
  { apply Z.bits_inj'. intros n Hn.
    rewrite Z.land_spec, Z.pow2_bits_eqb by lia.
    destruct (Z.eqb_spec k n) as [->|Hne].
    - destruct (Z.testbit v n); simpl.
      + now rewrite Z.pow2_bits_true.
      + now rewrite Z.bits_0.
    - rewrite andb_false_r.
      destruct (Z.testbit v k); [|now rewrite Z.bits_0].
      now rewrite Z.pow2_bits_false. }
  destruct (Z.testbit v k); [|reflexivity].
  assert (0 < 2 ^ k) by (apply Z.pow_pos_nonneg; lia).
  destruct (Z.eqb_spec (2 ^ k) 0); [lia | reflexivity].
Qed.

Lemma land_7 (a : Z) : Z.land a 7 = a mod 8.
Proof. change 7 with (Z.ones 3). now rewrite Z.land_ones by lia. Qed.

Lemma quot_8 (a : Z) : 0 <= a -> Z.quot a 8 = a / 8.
Proof. intros. apply Z.quot_div_nonneg; lia. Qed.

Lemma wf_index (c : Code) (a b : Z) :
  code_wf c -> 0 <= a < Size c -> 0 <= b < Size c ->
  0 <= b * Stride c + a / 8 < zlen (Bitmap c).
Proof.
  intros (HS & H8 & Hlen) Ha Hb.
  assert (0 <= a / 8 < Stride c).
  { split; [apply Z.div_pos; lia|]. apply Z.div_lt_upper_bound; lia. }
  nia.
Qed.

Lemma Black_pixel (c : Code) (a b : Z) :
  code_wf c -> Black c a b = Some (pixel c a b).
Proof.
  intros Hwf. unfold Black, pixel.
  destruct ((0 <=? a) && (a <? Size c) && (0 <=? b) && (b <? Size c)) eqn:E;
    [|reflexivity].
  assert (0 <= a < Size c /\ 0 <= b < Size c) as [Ha Hb] by lia.
  rewrite quot_8 by lia.
  rewrite (zget_some _ _ 0) by now apply wf_index.
  rewrite land_bit_testbit, land_7; [reflexivity|].
  rewrite land_7. pose proof (Z.mod_pos_bound a 8). lia.
Qed.

Lemma pixel_outside (c : Code) (a b : Z) :
  a < 0 \/ b < 0 \/ Size c <= a \/ Size c <= b -> pixel c a b = false.
Proof.
  intros H. unfold pixel.
  destruct ((0 <=? a) && (a <? Size c) && (0 <=? b) && (b <? Size c)) eqn:E;
    [lia | reflexivity].
Qed.

(** * Sums over index ranges *)

Lemma zsum_nil (f : Z -> Z) (lo hi : Z) : hi <= lo -> zsum f lo hi = 0.
Proof. intros H. unfold zsum. now rewrite zrange_nil. Qed.

Lemma zsum_cons (f : Z -> Z) (lo hi : Z) :
  lo < hi -> zsum f lo hi = f lo + zsum f (lo + 1) hi.
Proof. intros H. unfold zsum. now rewrite zrange_cons. Qed.

Lemma fold_sum_app (f : Z -> Z) (l1 l2 : list Z) :
  fold_right (fun i a => f i + a) 0 (l1 ++ l2)
  = fold_right (fun i a => f i + a) 0 l1 + fold_right (fun i a => f i + a) 0 l2.
Proof. induction l1 as [|a l1 IH]; simpl; [reflexivity | rewrite IH; lia]. Qed.

Lemma zsum_split (f : Z -> Z) (lo mid hi : Z) :
  lo <= mid <= hi -> zsum f lo hi = zsum f lo mid + zsum f mid hi.
Proof.
  intros H. unfold zsum. rewrite (zrange_app lo mid hi) by assumption.
  apply fold_sum_app.
Qed.

Lemma zsum_snoc (f : Z -> Z) (lo hi : Z) :
  lo <= hi -> zsum f lo (hi + 1) = zsum f lo hi + f hi.
Proof.
  intros H. rewrite (zsum_split f lo hi (hi + 1)) by lia.
  rewrite (zsum_cons f hi (hi + 1)) by lia.
  rewrite (zsum_nil f (hi + 1) (hi + 1)) by lia. lia.
Qed.

Lemma zsum_one (f : Z -> Z) (lo : Z) : zsum f lo (lo + 1) = f lo.
Proof.
  unfold zsum. rewrite zrange_cons by lia. rewrite zrange_nil by lia.
  simpl. lia.
Qed.

Lemma zsum_ext (f g : Z -> Z) (lo hi : Z) :
  (forall i, lo <= i < hi -> f i = g i) -> zsum f lo hi = zsum g lo hi.
Proof.
  intros H. unfold zsum.
  assert (forall i, In i (zrange lo hi) -> f i = g i) as Hin
    by (intros i Hi; apply H; now apply in_zrange).
  induction (zrange lo hi) as [|a l IH]; simpl; [reflexivity|].
  rewrite Hin by now left. rewrite IH; [reflexivity|].
  intros i Hi. apply Hin. now right.
Qed.

Lemma zsum_zero (f : Z -> Z) (lo hi : Z) :
  (forall i, lo <= i < hi -> f i = 0) -> zsum f lo hi = 0.
Proof.
  intros H. unfold zsum.
  assert (forall i, In i (zrange lo hi) -> f i = 0) as Hin
    by (intros i Hi; apply H; now apply in_zrange).
  induction (zrange lo hi) as [|a l IH]; simpl; [reflexivity|].
  rewrite Hin by now left. rewrite IH; [reflexivity|].
  intros i Hi. apply Hin. now right.
Qed.

Lemma zsum_add (f g : Z -> Z) (lo hi : Z) :
  zsum (fun i => f i + g i) lo hi = zsum f lo hi + zsum g lo hi.
Proof. unfold zsum. induction (zrange lo hi); simpl; lia. Qed.

Lemma zsum_bounds (f : Z -> Z) (a b lo hi : Z) :
  lo <= hi -> (forall i, lo <= i < hi -> a <= f i <= b) ->
  a * (hi - lo) <= zsum f lo hi <= b * (hi - lo).
Proof.
  intros Hle H. unfold zsum.
  rewrite <- (zlen_zrange lo hi Hle).
  assert (forall i, In i (zrange lo hi) -> a <= f i <= b) as Hin
    by (intros i Hi; apply H; now apply in_zrange).
  induction (zrange lo hi) as [|c l IH]; simpl.
  - unfold zlen; simpl; lia.
  - rewrite zlen_cons. specialize (Hin c (or_introl eq_refl)) as Hc.
    assert (a * zlen l <= fold_right (fun i a => f i + a) 0 l <= b * zlen l)
      by (apply IH; intros i Hi; apply Hin; now right).
    lia.
Qed.

Lemma zcount_snoc (P : Z -> bool) (lo hi : Z) :
  lo <= hi -> zcount P lo (hi + 1) = zcount P lo hi + b2z (P hi).
Proof. intros H. unfold zcount. now rewrite zsum_snoc. Qed.

Lemma b2z_range (b : bool) : 0 <= b2z b <= 1.
Proof. destruct b; simpl; lia. Qed.

(** * Module windows as numbers *)

Lemma enc_bound (l : list bool) : 0 <= enc l < 2 ^ zlen l.
Proof.
  induction l as [|b l IH]; cbn [enc].
  - unfold zlen; simpl; lia.
  - rewrite zlen_cons. rewrite Z.pow_add_r by (pose proof (zlen_nonneg l); lia).
    pose proof (b2z_range b). nia.
Qed.

Lemma enc_snoc (l : list bool) (b : bool) : enc (l ++ [b]) = 2 * enc l + b2z b.
Proof.
  induction l as [|a l IH]; cbn [enc app].
  - unfold zlen; simpl. lia.
  - rewrite IH, zlen_app. change (zlen [b]) with 1.
    rewrite Z.pow_add_r by (pose proof (zlen_nonneg l); lia). lia.
Qed.

Lemma bools_eqb_enc (a b : list bool) :
  length a = length b -> bools_eqb a b = (enc a =? enc b).
Proof.
  revert b; induction a as [|u a IH]; intros [|v b] Hlen; simpl in Hlen;
    try discriminate; [reflexivity|].
  cbn [bools_eqb enc]. injection Hlen as Hlen. rewrite (IH b Hlen).
  assert (zlen a = zlen b) as Hz by (unfold zlen; now rewrite Hlen).
  rewrite Hz. pose proof (enc_bound a) as Ba. pose proof (enc_bound b) as Bb.
  rewrite Hz in Ba.
  assert (0 < 2 ^ zlen b) by (apply Z.pow_pos_nonneg; [lia | apply zlen_nonneg]).
  destruct u, v; unfold b2z; cbn [Bool.eqb andb];
    destruct (Z.eqb_spec (enc a) (enc b));
    match goal with |- _ = (?p =? ?q) => destruct (Z.eqb_spec p q) end;
    try reflexivity; try lia.
Qed.

Lemma finder_hit_hit (w : Z) : finder_hit w = hit w.
Proof. reflexivity. Qed.

Lemma pat_next_all (w : Z) (b : bool) :
  0 <= w < 4096 ->
  pat_next (pat_of w) b
  = (pat_of (win_next w b), 40 * finder_hit (win_next w b)).
Proof.
  intros Hw. rewrite finder_hit_hit.
  assert (forallb pat_next_ok (zrange 0 4096) = true) as Hall
    by (vm_compute; reflexivity).
  pose proof (zrange_forallb _ _ _ Hall w Hw) as Hok.
  unfold pat_next_ok in Hok. cbn [forallb] in Hok.
  rewrite andb_true_r in Hok. apply andb_prop in Hok as [Hf Ht].
  destruct b.
  - destruct (pat_next (pat_of w) true) as [p a].
    apply andb_prop in Ht as [H1 H2].
    apply Z.eqb_eq in H1, H2. now subst.
  - destruct (pat_next (pat_of w) false) as [p a].
    apply andb_prop in Hf as [H1 H2].
    apply Z.eqb_eq in H1, H2. now subst.
Qed.

Lemma tail_all (w : Z) : 0 <= w < 4096 -> tail_code w = 40 * tail_hits 11 w.
Proof.
  intros Hw.
  assert (forallb tail_ok (zrange 0 4096) = true) as Hall
    by (vm_compute; reflexivity).
  pose proof (zrange_forallb _ _ _ Hall w Hw) as Hok.
  unfold tail_ok in Hok. now apply Z.eqb_eq in Hok.
Qed.

(** * Windows along a line *)

Lemma window_length (l : list bool) (e : Z) : zlen (window 12 l e) = 12.
Proof. unfold window. now rewrite zlen_map, zlen_zrange. Qed.

Lemma window_value_bound (l : list bool) (e : Z) :
  0 <= enc (window 12 l e) < 4096.
Proof.
  pose proof (enc_bound (window 12 l e)) as H.
  now rewrite window_length in H.
Qed.

Lemma window_next (l : list bool) (e : Z) :
  enc (window 12 l (e + 1))
  = win_next (enc (window 12 l e)) (line_ext l (e + 1)).
Proof.
  unfold window.
  change (zrange 0 12) with [0; 1; 2; 3; 4; 5; 6; 7; 8; 9; 10; 11].
  cbn [map].
  set (a := line_ext l (e - (12 - 1) + 0)).
  set (w := [line_ext l (e - (12 - 1) + 1); line_ext l (e - (12 - 1) + 2);
             line_ext l (e - (12 - 1) + 3); line_ext l (e - (12 - 1) + 4);
             line_ext l (e - (12 - 1) + 5); line_ext l (e - (12 - 1) + 6);
             line_ext l (e - (12 - 1) + 7); line_ext l (e - (12 - 1) + 8);
             line_ext l (e - (12 - 1) + 9); line_ext l (e - (12 - 1) + 10);
             line_ext l (e - (12 - 1) + 11)]).
  assert (zlen w = 11) as Hw by reflexivity.
  transitivity (enc (w ++ [line_ext l (e + 1)])).
  { f_equal. unfold w. cbn [app].
    repeat match goal with
           | |- _ :: _ = _ :: _ => f_equal
           | |- line_ext _ _ = line_ext _ _ => f_equal; lia
           end. }
  rewrite enc_snoc. unfold win_next. cbn [enc]. rewrite Hw.
  pose proof (enc_bound w) as Bw. rewrite Hw in Bw.
  pose proof (b2z_range a) as Ba.
  replace (2 * (b2z a * 2 ^ 11 + enc w)) with (2 * enc w + b2z a * 4096) by lia.
  rewrite Z.mod_add by lia. rewrite Z.mod_small by lia. reflexivity.
Qed.

Lemma line_ext_outside (l : list bool) (i : Z) :
  i < 0 \/ zlen l <= i -> line_ext l i = false.
Proof.
  intros H. unfold line_ext.
  destruct (Z.leb_spec 0 i); destruct (Z.ltb_spec i (zlen l)); try reflexivity.
  lia.
Qed.

Lemma window_first (l : list bool) :
  enc (window 12 l 0) = b2z (line_ext l 0).
Proof.
  unfold window.
  change (zrange 0 12) with [0; 1; 2; 3; 4; 5; 6; 7; 8; 9; 10; 11].
  cbn [map].
  rewrite !(line_ext_outside l) by (left; lia).
  replace (0 - (12 - 1) + 11) with 0 by lia.
  destruct (line_ext l 0); reflexivity.
Qed.

Lemma window_beyond (l : list bool) (n : nat) (e : Z) :
  zlen l - 1 <= e ->
  zsum (fun i => finder_hit (enc (window 12 l i))) (e + 1) (e + 1 + Z.of_nat n)
  = tail_hits n (enc (window 12 l e)).
Proof.
  revert e; induction n as [|n IH]; intros e He.
  - rewrite zsum_nil by lia. reflexivity.
  - rewrite zsum_cons by lia. cbn [tail_hits].
    assert (enc (window 12 l (e + 1)) = win_next (enc (window 12 l e)) false)
      as Hn by (rewrite window_next, line_ext_outside by lia; reflexivity).
    rewrite <- Hn.
    change (hit (enc (window 12 l (e + 1))))
      with (finder_hit (enc (window 12 l (e + 1)))).
    f_equal.
    replace (e + 1 + Z.of_nat (S n)) with (e + 1 + 1 + Z.of_nat n) by lia.
    apply IH. lia.
Qed.

Lemma occurs_at_value (pat l : list bool) (e : Z) :
  zlen pat = 12 ->
  occurs_at pat l e = (enc (window 12 l e) =? enc pat).
Proof.
  intros Hp. unfold occurs_at. rewrite Hp.
  apply bools_eqb_enc.
  pose proof (window_length l e) as Hw. unfold zlen in *. lia.
Qed.

(** The finder patterns of a line: those that end on a module after the
    first, as the loop finds them, and those of the quiet zone. *)
Lemma finder_count_split (l : list bool) :
  1 <= zlen l ->
  finder_count l
  = zsum (fun e => finder_hit (enc (window 12 l e))) 1 (zlen l)
    + tail_hits 11 (enc (window 12 l (zlen l - 1))).
Proof.
  intros Hl. unfold finder_count, occurrences, zcount.
  change (zlen finder_before) with 12. change (zlen finder_after) with 12.
  rewrite <- zsum_add.
  rewrite (zsum_ext _ (fun e => finder_hit (enc (window 12 l e)))).
  2:{ intros i _. unfold finder_hit.
      now rewrite !occurs_at_value by reflexivity. }
  rewrite (zsum_split _ 0 1) by lia.
  rewrite (zsum_split _ 1 (zlen l)) by lia.
  rewrite (zsum_one _ 0).
  rewrite window_first.
  assert (finder_hit (b2z (line_ext l 0)) = 0) as ->
    by (destruct (line_ext l 0); reflexivity).
  pose proof (window_beyond l 11 (zlen l - 1) ltac:(lia)) as Hb.
  replace (zlen l - 1 + 1) with (zlen l) in Hb by lia.
  replace (zlen l + Z.of_nat 11) with (zlen l + 12 - 1) in Hb by lia.
  rewrite Hb. lia.
Qed.

(** * Runs *)

Lemma run_lengths_cons (b : bool) (l : list bool) :
  exists n ns, run_lengths (b :: l) = n :: ns.
Proof.
  cbn [run_lengths]. destruct (run_lengths l) as [|n ns]; [eauto|].
  destruct (Bool.eqb b (hd b l)); eauto.
Qed.

Lemma run_pen_bump (l : list bool) (cur : bool) (r : Z) :
  run_pen cur r l = sum_scores (bump (r - 1) (run_lengths (cur :: l))).
Proof.
  revert cur r; induction l as [|b t IH]; intros cur r.
  - cbn [run_pen run_lengths bump sum_scores fold_right].
    replace (1 + (r - 1)) with r by lia. lia.
  - cbn [run_pen].
    destruct (run_lengths_cons b t) as (n & ns & E).
    change (run_lengths (cur :: b :: t))
      with (match run_lengths (b :: t) with
            | n :: ns => if Bool.eqb cur (hd cur (b :: t))
                         then (n + 1) :: ns else 1 :: n :: ns
            | [] => [1]
            end).
    rewrite E. cbn [hd].
    destruct (Bool.eqb b cur) eqn:Ebc.
    + apply Bool.eqb_prop in Ebc. subst b. rewrite Bool.eqb_reflx.
      rewrite IH, E. cbn [bump sum_scores fold_right]. do 2 f_equal. lia.
    + assert (Bool.eqb cur b = false) as ->
        by (destruct cur, b; simpl in *; congruence).
      rewrite IH, E. cbn [bump sum_scores fold_right].
      replace (1 + (r - 1)) with r by lia.
      replace (n + (1 - 1)) with n by lia. reflexivity.
Qed.

Lemma run_penalty_pen (l : list bool) :
  run_penalty l = run_pen (hd false l) 1 (tl l).
Proof.
  destruct l as [|b t]; [reflexivity|]. cbn [hd tl].
  rewrite run_pen_bump. unfold run_penalty, sum_scores.
  destruct (run_lengths_cons b t) as (n & ns & E). rewrite E.
  cbn [bump fold_right]. replace (n + (1 - 1)) with n by lia. reflexivity.
Qed.

Lemma run_score_bounds (n : Z) : 0 <= run_score n <= Z.max 0 n.
Proof. unfold run_score. destruct (Z.leb_spec 5 n); lia. Qed.

(** * The inner loop *)

Lemma skipn_line_ext (l : list bool) (i : Z) :
  0 <= i < zlen l ->
  skipn (Z.to_nat i) l = line_ext l i :: skipn (Z.to_nat (i + 1)) l.
Proof.
  intros Hi. unfold line_ext.
  destruct (Z.leb_spec 0 i); [|lia]. destruct (Z.ltb_spec i (zlen l)); [|lia].
  cbn [andb]. replace (Z.to_nat (i + 1)) with (S (Z.to_nat i)) by lia.
  assert (Z.to_nat i < length l)%nat as Hn by (unfold zlen in Hi; lia).
  clear - Hn. revert l Hn.
  induction (Z.to_nat i) as [|n IH]; intros [|b t] Hn; simpl in Hn; try lia.
  - reflexivity.
  - cbn [skipn nth]. apply IH. lia.
Qed.

Lemma scan_start_inv (l : list bool) (p0 : Z) (boxf : Z -> bool) :
  1 <= zlen l -> scan_inv l p0 boxf 1 (scan_start p0 (line_ext l 0)).
Proof.
  intros Hl. unfold scan_inv, scan_start. cbn [sc_black sc_pat sc_p sc_r].
  replace (1 - 1) with 0 by lia. rewrite window_first.
  split; [reflexivity|]. split.
  { destruct (line_ext l 0); reflexivity. }
  unfold zcount.
  rewrite (zsum_nil (fun i => b2z (boxf i)) 1 1) by lia.
  rewrite (zsum_nil (fun e => finder_hit (enc (window 12 l e))) 1 1) by lia.
  destruct l as [|b t]; [unfold zlen in Hl; simpl in Hl; lia|].
  assert (line_ext (b :: t) 0 = b) as ->.
  { unfold line_ext. rewrite zlen_cons. pose proof (zlen_nonneg t).
    destruct (Z.ltb_spec 0 (zlen t + 1)); [reflexivity | lia]. }
  cbn [hd tl]. change (Z.to_nat 1) with 1%nat. cbn [skipn]. lia.
Qed.

Lemma scan_step_unfold (s : scan) (cur : bool) (box : option bool) :
  scan_step s cur box =
  match (if negb (Bool.eqb cur (sc_black s)) then
           Some (if MinRun <=? sc_r s then sc_p s + (sc_r s + RunPDelta)
                 else sc_p s, negb (sc_black s), 0)
         else match box with
              | Some bx => Some (if bx then sc_p s + BoxPP else sc_p s,
                                 sc_black s, sc_r s)
              | None => None
              end) with
  | Some (p, black, r) =>
      Some {| sc_p := p + snd (pat_next (sc_pat s) black); sc_black := black;
              sc_r := r + 1; sc_pat := fst (pat_next (sc_pat s) black) |}
  | None => None
  end.
Proof.
  unfold scan_step, pat_next.
  destruct (negb (Bool.eqb cur (sc_black s))).
  - destruct (negb (sc_black s)); cbn [fst snd].
    + now rewrite Z.add_0_r.
    + destruct ((uint16 (Z.shiftl (sc_pat s) 1) =? FindB)
                || (uint16 (Z.shiftl (sc_pat s) 1) =? FindA)); cbn [fst snd];
        [reflexivity | now rewrite Z.add_0_r].
  - destruct box as [bx|]; [|reflexivity].
    destruct (sc_black s); cbn [fst snd].
    + now rewrite Z.add_0_r.
    + destruct ((uint16 (Z.shiftl (sc_pat s) 1) =? FindB)
                || (uint16 (Z.shiftl (sc_pat s) 1) =? FindA)); cbn [fst snd];
        [reflexivity | now rewrite Z.add_0_r].
Qed.

Lemma scan_step_inv (l : list bool) (p0 : Z) (boxf : Z -> bool) (i : Z)
    (s : scan) (cur : bool) (box : option bool) :
  1 <= i < zlen l ->
  scan_inv l p0 boxf i s ->
  cur = line_ext l i ->
  (cur = sc_black s -> box = Some (boxf i)) ->
  (cur <> sc_black s -> boxf i = false) ->
  exists s', scan_step s cur box = Some s' /\ scan_inv l p0 boxf (i + 1) s'.
Proof.
  intros Hi (Hb & Hp & Hsum) Hcur Hbox Hnobox.
  pose proof (window_value_bound l (i - 1)) as Hw.
  pose proof (pat_next_all (enc (window 12 l (i - 1))) cur Hw) as Hnext.
  rewrite <- Hp in Hnext.
  pose proof (window_next l (i - 1)) as HW.
  replace (i - 1 + 1) with i in HW by lia. rewrite <- Hcur in HW.
  rewrite <- HW in Hnext.
  rewrite (skipn_line_ext l i) in Hsum by lia. rewrite <- Hcur in Hsum.
  cbn [run_pen] in Hsum.
  unfold scan_inv. replace (i + 1 - 1) with i by lia.
  rewrite zcount_snoc, zsum_snoc by lia.
  set (w' := enc (window 12 l i)) in *.
  set (rest := skipn (Z.to_nat (i + 1)) l) in *.
  rewrite scan_step_unfold.
  assert (run_score (sc_r s)
          = (if MinRun <=? sc_r s then sc_r s + RunPDelta else 0)) as Hscore
    by (unfold run_score, MinRun, RunPDelta; destruct (5 <=? sc_r s); lia).
  destruct (Bool.eqb cur (sc_black s)) eqn:Ecur; cbn [negb].
  - apply Bool.eqb_prop in Ecur. rewrite (Hbox Ecur).
    rewrite <- Ecur in *. rewrite Hnext. cbn [fst snd].
    eexists. split; [reflexivity|].
    cbn [sc_black sc_pat sc_p sc_r].
    repeat split; try assumption.
    destruct (boxf i); unfold b2z, BoxPP in *; lia.
  - assert (cur <> sc_black s) as Hne
      by (intros ->; now rewrite Bool.eqb_reflx in Ecur).
    rewrite (Hnobox Hne) in *.
    assert (negb (sc_black s) = cur) as Hneg
      by (destruct cur, (sc_black s); simpl in *; congruence).
    rewrite Hneg, Hnext. cbn [fst snd].
    eexists. split; [reflexivity|].
    cbn [sc_black sc_pat sc_p sc_r].
    repeat split; try assumption.
    replace (0 + 1) with 1 by lia.
    destruct (MinRun <=? sc_r s); unfold b2z in *; lia.
Qed.

Lemma scan_end_split (s : scan) :
  scan_end s
  = sc_p s + run_score (sc_r s)
    + scan_end {| sc_p := 0; sc_black := false; sc_r := 0; sc_pat := sc_pat s |}.
Proof.
  unfold scan_end, run_score, MinRun, RunPDelta. cbn [sc_p sc_r sc_pat].
  change (5 <=? 0) with false. cbv iota.
  destruct (5 <=? sc_r s);
    destruct (uint16 (Z.shiftl (sc_pat s) 1) =? FindB); try lia;
    match goal with |- context [if ?b then _ else _] => destruct b end; lia.
Qed.

Lemma skipn_zlen {A : Type} (l : list A) : skipn (Z.to_nat (zlen l)) l = [].
Proof. unfold zlen. rewrite Nat2Z.id. apply skipn_all. Qed.

Lemma scan_end_inv (l : list bool) (p0 : Z) (boxf : Z -> bool) (s : scan) :
  1 <= zlen l ->
  scan_inv l p0 boxf (zlen l) s ->
  scan_end s
  = p0 + run_penalty l + 3 * zcount boxf 1 (zlen l) + 40 * finder_count l.
Proof.
  intros Hl (Hb & Hp & Hsum).
  rewrite scan_end_split, Hp.
  change (scan_end {| sc_p := 0; sc_black := false; sc_r := 0;
                      sc_pat := pat_of (enc (window 12 l (zlen l - 1))) |})
    with (tail_code (enc (window 12 l (zlen l - 1)))).
  rewrite tail_all by apply window_value_bound.
  rewrite skipn_zlen in Hsum. cbn [run_pen] in Hsum.
  rewrite finder_count_split, run_penalty_pen by assumption. lia.
Qed.

(** * Rows and columns *)

Lemma nth_zrange_from (n k : nat) (lo d : Z) :
  (n < k)%nat -> nth n (zrange_from lo k) d = lo + Z.of_nat n.
Proof.
  revert n lo; induction k as [|k IH]; intros n lo Hn; [lia|].
  destruct n; cbn [zrange_from nth]; [lia|].
  rewrite IH by lia. lia.
Qed.

Lemma line_ext_map (f : Z -> bool) (n i : Z) :
  0 <= i < n -> line_ext (map f (zrange 0 n)) i = f i.
Proof.
  intros Hi. unfold line_ext. rewrite zlen_map, zlen_zrange, Z.sub_0_r by lia.
  destruct (Z.leb_spec 0 i); [|lia]. destruct (Z.ltb_spec i n); [|lia].
  cbn [andb]. rewrite (nth_indep _ false (f 0)).
  2:{ rewrite length_map, zrange_length. lia. }
  rewrite map_nth. f_equal. unfold zrange.
  rewrite nth_zrange_from by lia. lia.
Qed.

Lemma zlen_row (c : Code) (y : Z) : 0 <= Size c -> zlen (row c y) = Size c.
Proof. intros H. unfold row. rewrite zlen_map, zlen_zrange; lia. Qed.

Lemma zlen_col (c : Code) (a : Z) : 0 <= Size c -> zlen (col c a) = Size c.
Proof. intros H. unfold col. rewrite zlen_map, zlen_zrange; lia. Qed.

Lemma Penalty_row_spec (c : Code) (y p bal : Z) :
  code_wf c -> 0 <= y < Size c ->
  Penalty_row c (p, bal) y
  = Some (p + run_penalty (row c y)
            + 3 * (if y =? 0 then 0 else zcount (fun a => is_box c a y) 1 (Size c))
            + 40 * finder_count (row c y),
          bal + zcount (fun a => pixel c a y) 0 (Size c)).
Proof.
  intros Hwf Hy.
  assert (1 <= Size c) as HS by lia.
  set (l := row c y).
  assert (zlen l = Size c) as Hl by (apply zlen_row; lia).
  assert (forall i, 0 <= i < Size c -> line_ext l i = pixel c i y) as Hline
    by (intros i Hi; unfold l, row;
        now apply (line_ext_map (fun a => pixel c a y))).
  set (boxf := fun a => if y =? 0 then false else is_box c a y).
  unfold Penalty_row. rewrite Black_pixel by assumption.
  match goal with
  | |- context [foldM ?f (zrange 1 ?hi) ?s0] =>
      destruct (foldM_zrange_inv f
        (fun i sb => scan_inv l p boxf i (fst sb)
                     /\ snd sb = bal + zcount (fun a => pixel c a y) 0 i)
        1 hi s0) as [[s b] [HF [Hinv Hbal]]]
  end.
  - lia.
  - cbn [fst snd]. split.
    + rewrite <- Hline by lia. apply scan_start_inv. lia.
    + unfold zcount. rewrite (zsum_one _ 0).
      destruct (pixel c 0 y); unfold b2z; lia.
  - intros i [s b] Hi [Hinv Hbal]. cbn [fst snd] in *.
    rewrite !Black_pixel by assumption.
    destruct (scan_step_inv l p boxf i s (pixel c i y)
                (if negb (y =? 0) then
                   if Bool.eqb (pixel c (i - 1) (y - 1)) (sc_black s)
                   then Some (Bool.eqb (pixel c i (y - 1)) (sc_black s))
                   else Some false
                 else Some false)) as [s' [Hs' Hinv']];
      try assumption; try lia.
    + symmetry. apply Hline. lia.
    + destruct Hinv as (Hb & _). rewrite Hline in Hb by lia.
      intros Hc. unfold boxf, is_box. rewrite <- Hb, <- Hc.
      destruct (y =? 0); cbn [negb]; [reflexivity|].
      rewrite Bool.eqb_reflx. cbn [andb].
      destruct (Bool.eqb (pixel c (i - 1) (y - 1)) (pixel c i y)); reflexivity.
    + destruct Hinv as (Hb & _). rewrite Hline in Hb by lia.
      intros Hc. unfold boxf, is_box. rewrite <- Hb.
      destruct (y =? 0); [reflexivity|].
      destruct (Bool.eqb (pixel c i y) (sc_black s)) eqn:E;
        [apply Bool.eqb_prop in E; contradiction | reflexivity].
    + rewrite Hs'. eexists. split; [reflexivity|]. cbn [fst snd].
      split; [assumption|].
      destruct Hinv' as (Hb' & _). replace (i + 1 - 1) with i in Hb' by lia.
      rewrite Hb', Hline by lia. rewrite zcount_snoc by lia.
      destruct (pixel c i y); unfold b2z; lia.
  - rewrite HF. cbn [fst snd] in *. f_equal. f_equal; [|assumption].
    rewrite <- Hl in Hinv. rewrite (scan_end_inv l p boxf s) by (assumption || lia).
    rewrite Hl. unfold boxf. destruct (y =? 0); [|reflexivity].
    unfold zcount. rewrite zsum_zero; [reflexivity | reflexivity].
Qed.

Lemma Penalty_col_spec (c : Code) (a p : Z) :
  code_wf c -> 0 <= a < Size c ->
  Penalty_col c p a
  = Some (p + run_penalty (col c a) + 40 * finder_count (col c a)).
Proof.
  intros Hwf Ha.
  assert (1 <= Size c) as HS by lia.
  set (l := col c a).
  assert (zlen l = Size c) as Hl by (apply zlen_col; lia).
  assert (forall i, 0 <= i < Size c -> line_ext l i = pixel c a i) as Hline
    by (intros i Hi; unfold l, col;
        now apply (line_ext_map (fun b => pixel c a b))).
  unfold Penalty_col. rewrite Black_pixel by assumption.
  match goal with
  | |- context [foldM ?f (zrange 1 ?hi) ?s0] =>
      destruct (foldM_zrange_inv f
        (fun i s => scan_inv l p (fun _ => false) i s) 1 hi s0)
        as [s [HF Hinv]]
  end.
  - lia.
  - rewrite <- Hline by lia. apply scan_start_inv. lia.
  - intros i s Hi Hinv. rewrite Black_pixel by assumption.
    apply scan_step_inv; try assumption; try lia; try reflexivity.
    symmetry. apply Hline. lia.
  - rewrite HF. f_equal.
    rewrite <- Hl in Hinv.
    rewrite (scan_end_inv l p (fun _ => false) s) by (assumption || lia).
    unfold zcount. rewrite zsum_zero by reflexivity. lia.
Qed.

Lemma black_count_bounds (c : Code) :
  0 <= Size c -> 0 <= black_count c <= Size c * Size c.
Proof.
  intros HS. unfold black_count.
  pose proof (zsum_bounds
    (fun y => zcount (fun a => pixel c a y) 0 (Size c)) 0 (Size c) 0 (Size c) HS)
    as H.
  rewrite !Z.sub_0_r in H. rewrite Z.mul_0_l in H. apply H.
  intros y _. unfold zcount.
  pose proof (zsum_bounds (fun a => b2z (pixel c a y)) 0 1 0 (Size c) HS) as H1.
  rewrite Z.sub_0_r in H1. rewrite Z.mul_0_l, Z.mul_1_l in H1. apply H1.
  intros a _. apply b2z_range.
Qed.

(** The balance term as the code computes it. *)
Lemma balance_code (bal sq : Z) :
  0 <= bal <= sq -> 0 < sq ->
  (BalPMax - Z.quot ((if Z.quot sq 2 <? bal then sq - bal else bal) * BalPMul) sq)
  * BalPP
  = balance_term bal sq.
Proof.
  intros Hb Hsq. unfold balance_term, BalPP, BalPMul.
  change BalPMax with 9.
  rewrite (Z.quot_div_nonneg sq 2) by lia.
  assert ((if sq / 2 <? bal then sq - bal else bal) = Z.min bal (sq - bal)) as ->.
  { pose proof (Z.div_mod sq 2 ltac:(lia)).
    pose proof (Z.mod_pos_bound sq 2 ltac:(lia)).
    destruct (Z.ltb_spec (sq / 2) bal); lia. }
  rewrite Z.quot_div_nonneg by lia. reflexivity.
Qed.

(** The penalty is the sum of its four terms. *)
Lemma Penalty_terms (c : Code) :
  code_wf c -> 0 < Size c ->
  Penalty c = Some (RunP c + BoxP c + FindP c + BalP c).
Proof.
  intros Hwf HS. unfold Penalty.
  destruct (foldM_zrange_inv (Penalty_row c)
    (fun y s =>
       fst s = zsum (fun y => run_penalty (row c y)) 0 y
               + 3 * zsum (fun y => if y =? 0 then 0
                                    else zcount (fun a => is_box c a y) 1 (Size c)) 0 y
               + 40 * zsum (fun y => finder_count (row c y)) 0 y
       /\ snd s = zsum (fun y => zcount (fun a => pixel c a y) 0 (Size c)) 0 y)
    0 (Size c) (0, 0)) as [[p bal] [HF [Hp Hbal]]].
  - lia.
  - cbn [fst snd]. rewrite !zsum_nil by lia. lia.
  - intros y [p bal] Hy [Hp Hbal]. cbn [fst snd] in *.
    rewrite Penalty_row_spec by assumption.
    eexists. split; [reflexivity|]. cbn [fst snd].
    rewrite !zsum_snoc by lia. lia.
  - rewrite HF. cbn [fst snd] in *.
    assert (bal = black_count c) as -> by exact Hbal.
    pose proof (black_count_bounds c ltac:(lia)) as Hbc.
    destruct (Z.eqb_spec (Size c * Size c) 0) as [E|_]; [nia|].
    rewrite balance_code by nia.
    destruct (foldM_zrange_inv (Penalty_col c)
      (fun a q =>
         q = p + balance_term (black_count c) (Size c * Size c)
             + zsum (fun a => run_penalty (col c a)) 0 a
             + 40 * zsum (fun a => finder_count (col c a)) 0 a)
      0 (Size c) (p + balance_term (black_count c) (Size c * Size c)))
      as [q [HG Hq]].
    + lia.
    + rewrite !zsum_nil by lia. lia.
    + intros a q Ha Hq. rewrite Penalty_col_spec by assumption.
      eexists. split; [reflexivity|]. rewrite !zsum_snoc by lia. lia.
    + rewrite HG. f_equal. rewrite Hq, Hp.
      unfold RunP, BoxP, FindP, BalP.
      rewrite (zsum_split (fun y => if y =? 0 then 0 else _) 0 1) by lia.
      rewrite (zsum_one _ 0). cbn [Z.eqb].
      rewrite (zsum_ext (fun y => if y =? 0 then 0
                                  else zcount (fun a => is_box c a y) 1 (Size c))
                 (fun y => zcount (fun a => is_box c a y) 1 (Size c)) 1).
      2:{ intros y Hy. destruct (Z.eqb_spec y 0); [lia | reflexivity]. }
      lia.
Qed.


(** * How large a penalty can be *)

Lemma run_lengths_total (l : list bool) :
  Forall (fun n => 0 < n) (run_lengths l)
  /\ fold_right Z.add 0 (run_lengths l) = zlen l.
Proof.
  induction l as [|b t [IHp IHs]]; [split; [constructor | reflexivity]|].
  rewrite zlen_cons. cbn [run_lengths].
  destruct (run_lengths t) as [|n ns] eqn:E.
  - cbn [fold_right] in *. split; [repeat constructor; lia | lia].
  - inversion IHp as [|? ? Hn Hns]; subst. cbn [fold_right] in IHs.
    destruct (Bool.eqb b (hd b t)); cbn [fold_right].
    + split; [constructor; [lia | assumption] | lia].
    + split; [repeat constructor; [lia | assumption ..] | lia].
Qed.

Lemma run_penalty_bounds (l : list bool) : 0 <= run_penalty l <= zlen l.
Proof.
  unfold run_penalty. destruct (run_lengths_total l) as [Hp Hs].
  rewrite <- Hs. clear Hs.
  induction Hp as [|n ns Hn Hns IH]; cbn [fold_right]; [lia|].
  pose proof (run_score_bounds n). lia.
Qed.

Lemma zcount_bounds (P : Z -> bool) (lo hi : Z) :
  lo <= hi -> 0 <= zcount P lo hi <= hi - lo.
Proof.
  intros Hle. unfold zcount.
  pose proof (zsum_bounds (fun i => b2z (P i)) 0 1 lo hi Hle
                (fun i _ => b2z_range (P i))). lia.
Qed.

Lemma finder_count_bounds (l : list bool) :
  0 <= finder_count l <= 2 * (zlen l + 11).
Proof.
  unfold finder_count, occurrences.
  change (zlen finder_before) with 12. change (zlen finder_after) with 12.
  pose proof (zlen_nonneg l).
  pose proof (zcount_bounds (occurs_at finder_before l) 0 (zlen l + 12 - 1) ltac:(lia)).
  pose proof (zcount_bounds (occurs_at finder_after l) 0 (zlen l + 12 - 1) ltac:(lia)).
  lia.
Qed.

Lemma balance_term_bounds (black total : Z) :
  0 < total -> 0 <= black <= total -> -10 <= balance_term black total <= 90.
Proof.
  intros Ht Hb. unfold balance_term.
  assert (0 <= Z.min black (total - black) * 20 / total <= 10).
  { split; [apply Z.div_pos; lia|].
    apply Z.div_le_upper_bound; lia. }
  lia.
Qed.

Lemma zsum_range (f : Z -> Z) (a b n : Z) :
  0 <= n -> (forall i, 0 <= i < n -> a <= f i <= b) ->
  a * n <= zsum f 0 n <= b * n.
Proof.
  intros Hn Hf. pose proof (zsum_bounds f a b 0 n Hn Hf) as Hb.
  rewrite Z.sub_0_r in Hb. exact Hb.
Qed.

(** The largest penalty of a code of side [s]. *)
Lemma Penalty_range (c : Code) :
  code_wf c -> 0 < Size c ->
  exists p, Penalty c = Some p
            /\ -10 <= p <= 165 * (Size c * Size c) + 1760 * Size c + 90.
Proof.
  intros Hwf HS. rewrite (Penalty_terms c Hwf HS). eexists. split; [reflexivity|].
  assert (HS0 : 0 <= Size c) by lia.
  assert (Hrow : forall y, 0 <= run_penalty (row c y) <= Size c).
  { intros y. pose proof (run_penalty_bounds (row c y)) as Hr.
    rewrite zlen_row in Hr by lia. exact Hr. }
  assert (Hcol : forall x, 0 <= run_penalty (col c x) <= Size c).
  { intros x. pose proof (run_penalty_bounds (col c x)) as Hr.
    rewrite zlen_col in Hr by lia. exact Hr. }
  assert (Hfrow : forall y, 0 <= finder_count (row c y) <= 2 * (Size c + 11)).
  { intros y. pose proof (finder_count_bounds (row c y)) as Hr.
    rewrite zlen_row in Hr by lia. exact Hr. }
  assert (Hfcol : forall x, 0 <= finder_count (col c x) <= 2 * (Size c + 11)).
  { intros x. pose proof (finder_count_bounds (col c x)) as Hr.
    rewrite zlen_col in Hr by lia. exact Hr. }
  pose proof (zsum_range (fun y => run_penalty (row c y)) 0 (Size c) (Size c) HS0
                (fun y _ => Hrow y)) as R1.
  pose proof (zsum_range (fun x => run_penalty (col c x)) 0 (Size c) (Size c) HS0
                (fun x _ => Hcol x)) as R2.
  pose proof (zsum_range (fun y => finder_count (row c y)) 0 (2 * (Size c + 11))
                (Size c) HS0 (fun y _ => Hfrow y)) as F1.
  pose proof (zsum_range (fun x => finder_count (col c x)) 0 (2 * (Size c + 11))
                (Size c) HS0 (fun x _ => Hfcol x)) as F2.
  pose proof (zsum_bounds (fun y => zcount (fun x => is_box c x y) 1 (Size c))
                0 (Size c - 1) 1 (Size c) ltac:(lia)
                (fun y _ => zcount_bounds (fun x => is_box c x y) 1 (Size c) ltac:(lia)))
    as B1.
  pose proof (black_count_bounds c HS0) as Hbc.
  pose proof (balance_term_bounds (black_count c) (Size c * Size c) ltac:(nia) Hbc) as Hbal.
  unfold RunP, BoxP, FindP, BalP. nia.
Qed.


(** * The claims about codes and the penalty scorer *)

(** C10: [Code.Black] answers false for every coordinate outside the square,
    whatever the bitmap is (it is not read there, so no read is out of
    bounds); on a code whose bitmap covers its square every read succeeds and
    yields the module, white outside the square. *)
Theorem Black_outside_is_white (c : Code) (a b : Z) :
  (a < 0 \/ b < 0 \/ Size c <= a \/ Size c <= b ->
     forall bm, Black (with_Bitmap c bm) a b = Some false)
  /\ (code_wf c ->
        Black c a b = Some (pixel c a b)
        /\ (a < 0 \/ b < 0 \/ Size c <= a \/ Size c <= b -> pixel c a b = false)).
Proof.
  split.
  - intros Hout bm. unfold Black, with_Bitmap. cbn [Size Bitmap Stride].
    destruct ((0 <=? a) && (a <? Size c) && (0 <=? b) && (b <? Size c)) eqn:E;
      [lia | reflexivity].
  - intros Hwf. split; [now apply Black_pixel | apply pixel_outside].
Qed.

Lemma Black_outside_is_white_witness :
  (forall bm, Black (with_Bitmap dot_code bm) (-1) 0 = Some false)
  /\ Black dot_code 0 0 = Some (pixel dot_code 0 0)
  /\ pixel dot_code 1 0 = false.
Proof.
  split; [|split].
  - apply (proj1 (Black_outside_is_white dot_code (-1) 0)). left. lia.
  - apply (proj2 (Black_outside_is_white dot_code 0 0)).
    unfold code_wf, dot_code, zlen; simpl; lia.
  - apply (proj2 (Black_outside_is_white dot_code 1 0)).
    + unfold code_wf, dot_code, zlen; simpl; lia.
    + right. right. left. simpl. lia.
Defined.

(** C9: the penalty of a finished bitmap is the sum of its run, box and
    finder terms and of the balance term
    (9 - floor(min(black, total - black) * 20 / total)) * 10, where black
    counts the black modules and total is side squared.  The term is 10 from
    40% up to (not including) 45% black, 20 from 35% up to 40%, and the same
    for black and white exchanged; with an odd side the two colours are never
    balanced exactly. *)
Theorem balance_penalty (c : Code) :
  code_wf c -> 0 < Size c ->
  Penalty c
  = Some (RunP c + BoxP c + FindP c
          + (9 - Z.min (black_count c) (Size c * Size c - black_count c) * 20
                 / (Size c * Size c)) * 10)
  /\ (forall black total, 0 < total ->
        (40 * total <= 100 * black < 45 * total -> balance_term black total = 10)
        /\ (35 * total <= 100 * black < 40 * total -> balance_term black total = 20)
        /\ balance_term (total - black) total = balance_term black total)
  /\ (Z.odd (Size c) = true -> 2 * black_count c <> Size c * Size c).
Proof.
  intros Hwf HS. split; [|split].
  - now rewrite Penalty_terms.
  - intros black total Ht. unfold balance_term. repeat split.
    + intros H. rewrite Z.min_l by lia.
      assert (black * 20 / total = 8) as ->; [|reflexivity].
      symmetry. apply (Z.div_unique _ _ 8 (black * 20 - 8 * total)); lia.
    + intros H. rewrite Z.min_l by lia.
      assert (black * 20 / total = 7) as ->; [|reflexivity].
      symmetry. apply (Z.div_unique _ _ 7 (black * 20 - 7 * total)); lia.
    + replace (total - (total - black)) with black by lia.
      now rewrite Z.min_comm.
  - intros Hodd E.
    assert (Z.odd (Size c * Size c) = true) as Ho
      by (rewrite Z.odd_mul, Hodd; reflexivity).
    rewrite <- E in Ho. rewrite Z.odd_mul in Ho. discriminate.
Qed.

Lemma balance_penalty_witness :
  Penalty dot_code
  = Some (RunP dot_code + BoxP dot_code + FindP dot_code
          + (9 - Z.min (black_count dot_code)
                   (Size dot_code * Size dot_code - black_count dot_code) * 20
                 / (Size dot_code * Size dot_code)) * 10)
  /\ (forall black total, 0 < total ->
        (40 * total <= 100 * black < 45 * total -> balance_term black total = 10)
        /\ (35 * total <= 100 * black < 40 * total -> balance_term black total = 20)
        /\ balance_term (total - black) total = balance_term black total)
  /\ (Z.odd (Size dot_code) = true
      -> 2 * black_count dot_code <> Size dot_code * Size dot_code).
Proof.
  apply (balance_penalty dot_code).
  - unfold code_wf, dot_code, zlen; simpl; lia.
  - simpl; lia.
Defined.

(** C8 (as amended): the penalty of a finished bitmap is the sum of its run,
    box and balance terms and of 40 points for each occurrence, in any row
    or column read with white modules on either side, of the 12-module
    pattern 0000 1011101 0 or of its mirror 0 1011101 0000: a pattern that
    extends into the quiet zone at either edge counts like any other. *)
Theorem finder_penalty (c : Code) :
  code_wf c -> 0 < Size c ->
  Penalty c
  = Some (RunP c + BoxP c + BalP c
          + 40 * (zsum (fun y => occurrences finder_before (row c y)
                                 + occurrences finder_after (row c y))
                       0 (Size c)
                  + zsum (fun a => occurrences finder_before (col c a)
                                   + occurrences finder_after (col c a))
                         0 (Size c)))
  /\ zlen finder_before = 12 /\ zlen finder_after = 12.
Proof.
  intros Hwf HS. split; [|split; reflexivity].
  rewrite Penalty_terms by assumption. f_equal. unfold FindP, finder_count. lia.
Qed.

Lemma finder_penalty_witness :
  Penalty strip_code
  = Some (RunP strip_code + BoxP strip_code + BalP strip_code
          + 40 * (zsum (fun y => occurrences finder_before (row strip_code y)
                                 + occurrences finder_after (row strip_code y))
                       0 (Size strip_code)
                  + zsum (fun a => occurrences finder_before (col strip_code a)
                                   + occurrences finder_after (col strip_code a))
                         0 (Size strip_code)))
  /\ zlen finder_before = 12 /\ zlen finder_after = 12.
Proof.
  apply (finder_penalty strip_code).
  - unfold code_wf, strip_code, zlen; simpl; lia.
  - simpl; lia.
Defined.

(** C8 as stated fails: the pattern the scorer looks for has 12 modules, not
    13.  In the top row 1 0000 1011101 0 1 of [strip_code] the 12 modules
    occur once, between two black modules, and earn their 40 points, while
    no stretch of 13 modules of the row reads the pattern with one more
    white module at either end. *)
Lemma finder_penalty_counterexample :
  zlen finder_before <> 13 /\ zlen finder_after <> 13
  /\ finder_count (row strip_code 0) = 1
  /\ occurrences (false :: finder_before) (row strip_code 0) = 0
  /\ occurrences (finder_before ++ [false]) (row strip_code 0) = 0
  /\ occurrences (false :: finder_after) (row strip_code 0) = 0
  /\ occurrences (finder_after ++ [false]) (row strip_code 0) = 0
  /\ Penalty strip_code
     = Some (RunP strip_code + BoxP strip_code + BalP strip_code + 40).
Proof. vm_compute. repeat split; discriminate. Qed.


(** * Bit strings and numbers *)

Lemma pow2_pos (n : Z) : 0 <= n -> 0 < 2 ^ n.
Proof. intros. apply Z.pow_pos_nonneg; lia. Qed.

Lemma testbit_high (v n i : Z) :
  0 <= n -> 0 <= v < 2 ^ n -> n <= i -> Z.testbit v i = false.
Proof.
  intros Hn Hv Hi. rewrite <- (Z.mod_small v (2 ^ n)) by assumption.
  apply Z.mod_pow2_bits_high. lia.
Qed.

Lemma testbit_shift_add (a v n i : Z) :
  0 <= n -> 0 <= v < 2 ^ n -> 0 <= i ->
  Z.testbit (a * 2 ^ n + v) i
  = if i <? n then Z.testbit v i else Z.testbit a (i - n).
Proof.
  intros Hn Hv Hi. pose proof (pow2_pos n Hn) as Hp.
  destruct (Z.ltb_spec i n).
  - rewrite <- (Z.mod_pow2_bits_low (a * 2 ^ n + v) n i) by lia.
    rewrite Z.add_comm, Z.mod_add by lia. rewrite Z.mod_small by lia.
    reflexivity.
  - replace i with ((i - n) + n) at 1 by lia.
    rewrite <- Z.div_pow2_bits by lia.
    rewrite Z.div_add_l by lia. rewrite Z.div_small by lia.
    now rewrite Z.add_0_r.
Qed.

Lemma map_zrange_shift {A : Type} (f : Z -> A) (lo hi d : Z) :
  map f (zrange (lo + d) (hi + d)) = map (fun k => f (k + d)) (zrange lo hi).
Proof.
  unfold zrange. replace (hi + d - (lo + d)) with (hi - lo) by lia.
  generalize (Z.to_nat (hi - lo)) as n. intros n. revert lo.
  induction n as [|n IH]; intros lo; [reflexivity|].
  cbn [zrange_from map]. f_equal.
  replace (lo + d + 1) with (lo + 1 + d) by lia. apply IH.
Qed.

Lemma map_zrange_ext {A : Type} (f g : Z -> A) (lo hi : Z) :
  (forall i, lo <= i < hi -> f i = g i) ->
  map f (zrange lo hi) = map g (zrange lo hi).
Proof.
  intros H. apply map_ext_in. intros i Hi. apply H. now apply in_zrange.
Qed.

Lemma msb_bits_app (a v m n : Z) :
  0 <= m -> 0 <= n -> 0 <= v < 2 ^ n ->
  msb_bits (a * 2 ^ n + v) (m + n) = msb_bits a m ++ msb_bits v n.
Proof.
  intros Hm Hn Hv. unfold msb_bits.
  rewrite (zrange_app 0 m (m + n)) by lia. rewrite map_app. f_equal.
  - apply map_zrange_ext. intros i Hi.
    rewrite testbit_shift_add by lia.
    destruct (Z.ltb_spec (m + n - 1 - i) n); [lia|]. f_equal. lia.
  - replace (zrange m (m + n)) with (zrange (0 + m) (n + m))
      by (f_equal; lia).
    rewrite map_zrange_shift. apply map_zrange_ext. intros i Hi.
    rewrite testbit_shift_add by lia.
    destruct (Z.ltb_spec (m + n - 1 - (i + m)) n); [|lia]. f_equal. lia.
Qed.

Lemma msb_bits_length (v n : Z) : 0 <= n -> zlen (msb_bits v n) = n.
Proof. intros. unfold msb_bits. rewrite zlen_map, zlen_zrange; lia. Qed.

Lemma msb_bits_zero (n : Z) : msb_bits 0 n = repeat false (Z.to_nat n).
Proof.
  unfold msb_bits.
  rewrite (map_ext _ (fun _ => false)) by (intros; apply Z.bits_0).
  rewrite map_const, zrange_length. f_equal. lia.
Qed.

Lemma byte_bits_msb (b : Z) : byte_bits b = msb_bits b 8.
Proof.
  unfold byte_bits, msb_bits. apply map_zrange_ext. intros i Hi. reflexivity.
Qed.

Lemma bytes_val_snoc (l : list Z) (b : Z) :
  bytes_val (l ++ [b]) = 256 * bytes_val l + b.
Proof. unfold bytes_val. now rewrite fold_left_app. Qed.

Lemma bytes_val_bound (l : list Z) :
  Forall (fun a => 0 <= a < 256) l -> 0 <= bytes_val l < 2 ^ (8 * zlen l).
Proof.
  induction l as [|b l IH] using rev_ind; intros Hall.
  - unfold bytes_val, zlen; simpl; lia.
  - apply Forall_app in Hall as [Hl Hb]. inversion Hb as [|? ? Hb0 _]; subst.
    specialize (IH Hl). rewrite bytes_val_snoc, zlen_app.
    change (zlen [b]) with 1.
    replace (8 * (zlen l + 1)) with (8 * zlen l + 8) by lia.
    rewrite Z.pow_add_r by (pose proof (zlen_nonneg l); lia).
    change (2 ^ 8) with 256. lia.
Qed.

(** The bits of a byte string are the bits of its value. *)
Lemma flat_map_byte_bits (l : list Z) :
  Forall (fun a => 0 <= a < 256) l ->
  flat_map byte_bits l = msb_bits (bytes_val l) (8 * zlen l).
Proof.
  induction l as [|b l IH] using rev_ind; intros Hall; [reflexivity|].
  apply Forall_app in Hall as [Hl Hb]. inversion Hb as [|? ? Hb0 _]; subst.
  rewrite flat_map_app, IH by assumption. cbn [flat_map]. rewrite app_nil_r.
  rewrite bytes_val_snoc, zlen_app. change (zlen [b]) with 1.
  replace (8 * (zlen l + 1)) with (8 * zlen l + 8) by lia.
  replace (256 * bytes_val l + b) with (bytes_val l * 2 ^ 8 + b) by lia.
  rewrite msb_bits_app by (pose proof (zlen_nonneg l); lia).
  now rewrite byte_bits_msb.
Qed.

Lemma firstn_zlen_app {A : Type} (l1 l2 : list A) (n : Z) :
  zlen l1 = n -> firstn (Z.to_nat n) (l1 ++ l2) = l1.
Proof.
  intros H. unfold zlen in H. rewrite firstn_app.
  replace (Z.to_nat n - length l1)%nat with O by lia.
  rewrite firstn_O, app_nil_r. apply firstn_all2. lia.
Qed.

(** The written bits spell [Bits_value]. *)
Lemma Bits_list_value (b : Bits) :
  Bits_wf b -> Bits_list b = msb_bits (Bits_value b) (b_nbit b).
Proof.
  intros (Hn & Hr & Hall & Hz). unfold Bits_list, Bits_value.
  rewrite flat_map_byte_bits by assumption.
  pose proof (pow2_pos (Bits_room b) ltac:(lia)) as Hp.
  replace (8 * zlen (b_b b)) with (b_nbit b + Bits_room b)
    by (unfold Bits_room; lia).
  rewrite (Z.div_mod (bytes_val (b_b b)) (2 ^ Bits_room b)) at 1 by lia.
  rewrite Hz, Z.mul_comm.
  rewrite msb_bits_app by lia.
  apply firstn_zlen_app. apply msb_bits_length. lia.
Qed.

(** * One round of [Bits.Write] *)

Lemma uint8_small (a : Z) : 0 <= a < 256 -> uint8 a = a.
Proof.
  intros H. unfold uint8. change 0xFF with (Z.ones 8).
  rewrite Z.land_ones by lia. apply Z.mod_small. exact H.
Qed.

Lemma uint64_small (a : Z) : 0 <= a < 2 ^ 64 -> uint64 a = a.
Proof.
  intros H. unfold uint64. change 0xFFFFFFFFFFFFFFFF with (Z.ones 64).
  rewrite Z.land_ones by lia. apply Z.mod_small. exact H.
Qed.

Lemma land_neg_7 (a r : Z) : 0 <= r < 8 -> (a + r) mod 8 = 0 ->
  Z.land (- a) 7 = r.
Proof.
  intros Hr Ha. change 7 with (Z.ones 3). rewrite Z.land_ones by lia.
  change (2 ^ 3) with 8.
  pose proof (Z.div_mod (a + r) 8 ltac:(lia)) as E. rewrite Ha in E.
  symmetry. apply (Z.mod_unique _ _ (- ((a + r) / 8)) r); lia.
Qed.

Lemma lor_disjoint (a b p : Z) :
  0 <= p -> a mod 2 ^ p = 0 -> 0 <= b < 2 ^ p -> Z.lor a b = a + b.
Proof.
  intros Hp Ha Hb.
  assert (Z.land a b = 0) as Hland.
  { apply Z.bits_inj'. intros i Hi. rewrite Z.land_spec, Z.bits_0.
    destruct (Z.ltb_spec i p).
    - rewrite <- (Z.mod_pow2_bits_low a p i) by lia. rewrite Ha.
      now rewrite Z.bits_0.
    - rewrite (testbit_high b p i) by lia. apply andb_false_r. }
  rewrite <- Z.lxor_lor by assumption. symmetry.
  now apply Z.add_nocarry_lxor.
Qed.

Lemma upd_nat_last {A : Type} (f : A -> A) (l : list A) (a : A) :
  upd_nat (l ++ [a]) (length l) f = Some (l ++ [f a]).
Proof.
  induction l as [|b l IH]; [reflexivity|].
  cbn [app length upd_nat]. now rewrite IH.
Qed.

Lemma zupd_last {A : Type} (f : A -> A) (l : list A) (a : A) :
  zupd (l ++ [a]) (zlen (l ++ [a]) - 1) f = Some (l ++ [f a]).
Proof.
  unfold zupd. rewrite zlen_app. change (zlen [a]) with 1.
  pose proof (zlen_nonneg l).
  destruct (Z.ltb_spec (zlen l + 1 - 1) 0); [lia|].
  replace (Z.to_nat (zlen l + 1 - 1)) with (length l) by (unfold zlen; lia).
  apply upd_nat_last.
Qed.

(** Writing the [n1] bits of [c] after the bits in use, into a last byte
    [a] with [r] zero bits left. *)
Lemma Write_chunk (init : list Z) (a nb r n1 c : Z) :
  r = 8 * (zlen init + 1) - nb -> 0 <= nb -> 1 <= n1 <= r -> r <= 8 ->
  Forall (fun a => 0 <= a < 256) init -> 0 <= a < 256 ->
  bytes_val (init ++ [a]) mod 2 ^ r = 0 ->
  0 <= c < 2 ^ n1 ->
  let b1 := {| b_b := init ++ [Z.lor a (uint8 (uint64 (Z.shiftl c (r - n1))))];
               b_nbit := nb + n1 |} in
  Bits_wf b1
  /\ Bits_value b1 = bytes_val (init ++ [a]) / 2 ^ r * 2 ^ n1 + c.
Proof.
  intros Hr Hnb Hn1 Hr8 Hinit Ha Hz Hc.
  set (k := r - n1).
  assert (0 <= k < 8) as Hk by (unfold k; lia).
  pose proof (pow2_pos k ltac:(lia)) as Pk.
  pose proof (pow2_pos n1 ltac:(lia)) as Pn.
  pose proof (pow2_pos r ltac:(lia)) as Pr.
  assert (2 ^ r = 2 ^ n1 * 2 ^ k) as Hpow
    by (rewrite <- Z.pow_add_r by lia; f_equal; unfold k; lia).
  assert (2 ^ r <= 256) as Hr256
    by (change 256 with (2 ^ 8); apply Z.pow_le_mono_r; lia).
  rewrite bytes_val_snoc in *.
  (* the last byte is a multiple of 2^r *)
  assert (a mod 2 ^ r = 0) as Ha0.
  { assert (256 mod 2 ^ r = 0) as H256.
    { change 256 with (2 ^ 8). replace 8 with ((8 - r) + r) by lia.
      rewrite Z.pow_add_r by lia. apply Z.mod_mul. lia. }
    rewrite <- Hz. rewrite Z.add_mod by lia.
    rewrite <- Z.mul_mod_idemp_l, H256 by lia.
    rewrite Z.mul_0_l, Z.mod_0_l, Z.add_0_l by lia.
    now rewrite Z.mod_mod by lia. }
  assert (c * 2 ^ k < 2 ^ r) as Hck by (rewrite Hpow; nia).
  assert (a + c * 2 ^ k < 256) as Hay.
  { pose proof (Z.div_mod a (2 ^ r) ltac:(lia)) as Ea. rewrite Ha0 in Ea.
    pose proof (Z.div_mod 256 (2 ^ r) ltac:(lia)) as E256.
    assert (256 mod 2 ^ r = 0) as H256.
    { change 256 with (2 ^ 8). replace 8 with ((8 - r) + r) by lia.
      rewrite Z.pow_add_r by lia. apply Z.mod_mul. lia. }
    rewrite H256 in E256.
    assert (a / 2 ^ r < 256 / 2 ^ r) by nia. nia. }
  assert (Z.lor a (uint8 (uint64 (Z.shiftl c k))) = a + c * 2 ^ k) as Hy.
  { rewrite Z.shiftl_mul_pow2 by lia.
    rewrite uint64_small by (change (2 ^ 64) with 18446744073709551616; nia).
    rewrite uint8_small by nia.
    apply (lor_disjoint a (c * 2 ^ k) r); [lia | assumption | nia]. }
  cbv zeta. fold k. rewrite Hy.
  assert (Bits_room {| b_b := init ++ [a + c * 2 ^ k]; b_nbit := nb + n1 |} = k)
    as Hroom.
  { unfold Bits_room. cbn [b_b b_nbit]. rewrite zlen_app.
    change (zlen [a + c * 2 ^ k]) with 1. unfold k. lia. }
  pose proof (Z.div_mod (256 * bytes_val init + a) (2 ^ r) ltac:(lia)) as EB.
  rewrite Hz, Z.add_0_r in EB.
  set (q := (256 * bytes_val init + a) / 2 ^ r) in *.
  assert (256 * bytes_val init + (a + c * 2 ^ k) = (q * 2 ^ n1 + c) * 2 ^ k)
    as Hval by (rewrite Hpow in EB; nia).
  split.
  - unfold Bits_wf. rewrite Hroom. cbn [b_b b_nbit].
    split; [lia|]. split; [lia|]. split.
    + apply Forall_app. split; [assumption|]. constructor; [nia | constructor].
    + rewrite bytes_val_snoc, Hval. apply Z.mod_mul. lia.
  - unfold Bits_value. rewrite Hroom. cbn [b_b].
    rewrite bytes_val_snoc, Hval. apply Z.div_mul. lia.
Qed.

(** * [Bits.Write] appends the bits *)

Lemma room_rem (b : Bits) :
  Bits_wf b -> (Z.rem (b_nbit b) 8 =? 0) = (Bits_room b =? 0).
Proof.
  intros (Hn & Hr & _). unfold Bits_room in *.
  rewrite Z.rem_mod_nonneg by lia.
  pose proof (Z.div_mod (b_nbit b) 8 ltac:(lia)).
  pose proof (Z.mod_pos_bound (b_nbit b) 8 ltac:(lia)).
  destruct (Z.eqb_spec (b_nbit b mod 8) 0);
    destruct (Z.eqb_spec (8 * zlen (b_b b) - b_nbit b) 0); try reflexivity; lia.
Qed.

Lemma Write_loop_spec (fuel : nat) (b : Bits) (v n : Z) :
  Bits_wf b -> 0 <= n <= Z.of_nat fuel -> 0 <= v < 2 ^ n -> v < 2 ^ 64 ->
  exists b', Write_loop fuel b v n = Some b'
             /\ Bits_wf b'
             /\ b_nbit b' = b_nbit b + n
             /\ Bits_value b' = Bits_value b * 2 ^ n + v.
Proof.
  revert b v n; induction fuel as [|k IH]; intros b v n Hwf Hn Hv Hv64.
  - assert (n = 0) by lia. subst n. cbn [Write_loop Z.leb Z.compare].
    exists b. change (2 ^ 0) with 1 in *.
    split; [reflexivity|]. split; [assumption|]. split; lia.
  - cbn [Write_loop]. destruct (Z.leb_spec n 0) as [Hn0|Hn0].
    { assert (n = 0) by lia. subst n. exists b. change (2 ^ 0) with 1 in *.
      split; [reflexivity|]. split; [assumption|]. split; lia. }
    pose proof Hwf as (Hnb & Hr & Hall & Hz).
    set (n0 := if 8 <? n then 8 else n).
    assert (1 <= n0 <= 8 /\ n0 <= n) as Hn0'
      by (unfold n0; destruct (Z.ltb_spec 8 n); lia).
    rewrite (room_rem b Hwf).
    (* the bytes after the possible append, the round's bit count, and the
       room in the last byte *)
    assert (exists init a r n1,
      (if Bits_room b =? 0 then (b_b b ++ [0], n0)
       else (b_b b, if Z.land (- b_nbit b) 7 <? n0
                    then Z.land (- b_nbit b) 7 else n0))
      = (init ++ [a], n1)
      /\ r = 8 * (zlen init + 1) - b_nbit b /\ 1 <= n1 <= r /\ r <= 8
      /\ n1 <= n
      /\ Forall (fun a => 0 <= a < 256) init /\ 0 <= a < 256
      /\ bytes_val (init ++ [a]) mod 2 ^ r = 0
      /\ bytes_val (init ++ [a]) / 2 ^ r = Bits_value b)
      as (init & a & r & n1 & Esel & Hr' & Hn1 & Hr8 & Hn1n & Hinit & Ha & Hz' & HV).
    { destruct (Z.eqb_spec (Bits_room b) 0) as [E0|E0].
      - exists (b_b b), 0, 8, n0. unfold Bits_room in E0.
        rewrite bytes_val_snoc. change (2 ^ 8) with 256.
        repeat split; try lia; try assumption.
        + rewrite Z.add_0_r, Z.mul_comm. apply Z.mod_mul. lia.
        + unfold Bits_value, Bits_room. rewrite E0. change (2 ^ 0) with 1.
          rewrite Z.div_1_r, Z.add_0_r, Z.mul_comm. apply Z.div_mul. lia.
      - assert (b_b b <> []) as Hne.
        { intros E. unfold Bits_room in Hr, E0. rewrite E in *.
          unfold zlen in *; simpl in *. lia. }
        destruct (exists_last Hne) as (init & a & E).
        rewrite (land_neg_7 (b_nbit b) (Bits_room b)).
        2:{ lia. }
        2:{ unfold Bits_room.
            replace (b_nbit b + (8 * zlen (b_b b) - b_nbit b))
              with (zlen (b_b b) * 8) by lia.
            apply Z.mod_mul. lia. }
        exists init, a, (Bits_room b),
          (if Bits_room b <? n0 then Bits_room b else n0).
        rewrite E in Hall. apply Forall_app in Hall as [Hi Ha].
        inversion Ha as [|? ? Ha0 _]; subst.
        unfold Bits_value. unfold Bits_room in *. rewrite E in *.
        rewrite zlen_app in *. change (zlen [a]) with 1 in *.
        destruct (Z.ltb_spec (8 * (zlen init + 1) - b_nbit b) n0);
          repeat split; try lia; try assumption. }
    rewrite Esel.
    set (sh := n - n1).
    assert (0 <= sh) as Hsh by (unfold sh; lia).
    pose proof (pow2_pos sh Hsh) as Psh.
    pose proof (pow2_pos n1 ltac:(lia)) as Pn1.
    assert (2 ^ n = 2 ^ n1 * 2 ^ sh) as Hpow
      by (rewrite <- Z.pow_add_r by lia; f_equal; unfold sh; lia).
    set (c := Z.shiftr v sh).
    assert (c = v / 2 ^ sh) as Hc by (unfold c; now rewrite Z.shiftr_div_pow2).
    assert (0 <= c < 2 ^ n1) as Hcb.
    { rewrite Hc. split; [apply Z.div_pos; lia|].
      apply Z.div_lt_upper_bound; [lia|]. rewrite Z.mul_comm, <- Hpow. lia. }
    rewrite (land_neg_7 (b_nbit b + n1) (r - n1)).
    2:{ lia. }
    2:{ replace (b_nbit b + n1 + (r - n1)) with ((zlen init + 1) * 8) by lia.
        apply Z.mod_mul. lia. }
    rewrite zupd_last.
    destruct (Write_chunk init a (b_nbit b) r n1 c Hr' Hnb Hn1 Hr8 Hinit Ha Hz' Hcb)
      as [Hwf1 Hval1].
    set (b1 := {| b_b := init ++ [Z.lor a (uint8 (uint64 (Z.shiftl c (r - n1))))];
                  b_nbit := b_nbit b + n1 |}) in *.
    pose proof (Z.div_mod v (2 ^ sh) ltac:(lia)) as Ev.
    pose proof (Z.mod_pos_bound v (2 ^ sh) ltac:(lia)) as Bv.
    assert (uint64 (v - uint64 (Z.shiftl c sh)) = v mod 2 ^ sh) as Hv'.
    { rewrite Z.shiftl_mul_pow2 by lia. rewrite Hc.
      assert (0 <= v / 2 ^ sh * 2 ^ sh <= v) as Hq by lia.
      rewrite (uint64_small (v / 2 ^ sh * 2 ^ sh)) by lia.
      rewrite uint64_small by lia. lia. }
    rewrite Hv'.
    destruct (IH b1 (v mod 2 ^ sh) sh Hwf1) as (b' & HW & Hwf' & Hnb' & Hval');
      try lia.
    exists b'. fold sh. rewrite HW. split; [reflexivity|].
    split; [assumption|]. split.
    + rewrite Hnb'. unfold b1, sh. cbn [b_nbit]. lia.
    + rewrite Hval', Hval1, HV, Hpow. rewrite Hc. nia.
Qed.

Lemma Bits_Write_spec (b : Bits) (v n : Z) :
  Bits_wf b -> 0 <= n -> 0 <= v < 2 ^ n -> v < 2 ^ 64 ->
  exists b', Bits_Write b v n = Some b'
             /\ Bits_wf b'
             /\ b_nbit b' = b_nbit b + n
             /\ Bits_list b' = Bits_list b ++ msb_bits v n.
Proof.
  intros Hwf Hn Hv Hv64. unfold Bits_Write.
  destruct (Write_loop_spec (Z.to_nat n) b v n Hwf ltac:(lia) Hv Hv64)
    as (b' & HW & Hwf' & Hnb & Hval).
  exists b'. split; [assumption|]. split; [assumption|]. split; [assumption|].
  rewrite !Bits_list_value by assumption.
  destruct Hwf as (Hnb0 & _). rewrite Hnb, Hval.
  apply msb_bits_app; lia.
Qed.

(** * [Bits.Write] for any value: the bit count *)

Lemma Bits_wf_shape (b : Bits) : Bits_wf b -> Bits_shape b.
Proof. intros (H1 & H2 & _). now split. Qed.

Lemma Write_loop_shape (fuel : nat) (b : Bits) (v n : Z) :
  Bits_shape b -> n <= Z.of_nat fuel ->
  exists b', Write_loop fuel b v n = Some b'
             /\ Bits_shape b'
             /\ b_nbit b' = b_nbit b + Z.max n 0.
Proof.
  revert b v n; induction fuel as [|k IH]; intros b v n Hsh Hn.
  - cbn [Write_loop]. destruct (Z.leb_spec n 0); [|lia].
    exists b. split; [reflexivity|]. split; [assumption | lia].
  - cbn [Write_loop]. destruct (Z.leb_spec n 0) as [Hn0|Hn0].
    { exists b. split; [reflexivity|]. split; [assumption | lia]. }
    destruct Hsh as (Hnb & Hr). unfold Bits_room in Hr.
    set (n0 := if 8 <? n then 8 else n).
    assert (1 <= n0 <= 8 /\ n0 <= n) as Hn0'
      by (unfold n0; destruct (Z.ltb_spec 8 n); lia).
    assert (exists bytes n1,
      (if Z.rem (b_nbit b) 8 =? 0 then (b_b b ++ [0], n0)
       else (b_b b, if Z.land (- b_nbit b) 7 <? n0
                    then Z.land (- b_nbit b) 7 else n0))
      = (bytes, n1)
      /\ 1 <= n1 <= n /\ 1 <= zlen bytes
      /\ 0 <= 8 * zlen bytes - (b_nbit b + n1) < 8)
      as (bytes & n1 & Esel & Hn1 & Hlen & Hroom).
    { rewrite Z.rem_mod_nonneg by lia.
      pose proof (Z.div_mod (b_nbit b) 8 ltac:(lia)) as Ed.
      pose proof (Z.mod_pos_bound (b_nbit b) 8 ltac:(lia)) as Bd.
      destruct (Z.eqb_spec (b_nbit b mod 8) 0) as [E0|E0].
      - exists (b_b b ++ [0]), n0. rewrite zlen_app. change (zlen [0]) with 1.
        pose proof (zlen_nonneg (b_b b)). repeat split; lia.
      - rewrite (land_neg_7 (b_nbit b) (8 * zlen (b_b b) - b_nbit b)).
        2:{ lia. }
        2:{ replace (b_nbit b + (8 * zlen (b_b b) - b_nbit b))
              with (zlen (b_b b) * 8) by lia.
            apply Z.mod_mul. lia. }
        eexists _, _. split; [reflexivity|].
        destruct (Z.ltb_spec (8 * zlen (b_b b) - b_nbit b) n0);
          repeat split; lia. }
    rewrite Esel.
    match goal with
    | |- context [zupd bytes (zlen bytes - 1) ?f] =>
        destruct (zupd_some f bytes (zlen bytes - 1) ltac:(lia)) as [bytes' E];
        rewrite E; pose proof (zupd_length _ _ _ _ E) as Hlen'
    end.
    match goal with
    | |- context [Write_loop k ?b1 ?v1 ?n'] =>
        destruct (IH b1 v1 n') as (b' & HW & Hsh' & Hnb')
    end.
    + split; cbn [b_nbit b_b]; [lia|]. unfold Bits_room. cbn [b_nbit b_b]. lia.
    + lia.
    + exists b'. split; [assumption|]. split; [assumption|].
      rewrite Hnb'. cbn [b_nbit]. lia.
Qed.

Lemma Bits_Write_shape (b : Bits) (v n : Z) :
  Bits_shape b ->
  exists b', Bits_Write b v n = Some b'
             /\ Bits_shape b'
             /\ b_nbit b' = b_nbit b + Z.max n 0.
Proof. intros H. apply Write_loop_shape; [assumption | lia]. Qed.


(** * Padding *)

Lemma Write_byte (b : Bits) (a : Z) :
  Bits_wf b -> 0 <= a < 256 ->
  exists b', Bits_Write b a 8 = Some b'
             /\ Bits_wf b'
             /\ b_nbit b' = b_nbit b + 8
             /\ Bits_list b' = Bits_list b ++ byte_bits a.
Proof.
  intros Hwf Ha.
  destruct (Bits_Write_spec b a 8 Hwf ltac:(lia)) as (b' & HW & Hwf' & Hn & Hl).
  - change (2 ^ 8) with 256. lia.
  - change (2 ^ 64) with 18446744073709551616. lia.
  - exists b'. rewrite byte_bits_msb. auto.
Qed.

Lemma Write_zeros (b : Bits) (n : Z) :
  Bits_wf b -> 0 <= n ->
  exists b', Bits_Write b 0 n = Some b'
             /\ Bits_wf b'
             /\ b_nbit b' = b_nbit b + n
             /\ Bits_list b' = Bits_list b ++ repeat false (Z.to_nat n).
Proof.
  intros Hwf Hn.
  destruct (Bits_Write_spec b 0 n Hwf Hn) as (b' & HW & Hwf' & Hnb & Hl).
  - pose proof (pow2_pos n Hn). lia.
  - reflexivity.
  - exists b'. rewrite <- msb_bits_zero. auto.
Qed.

Lemma Pad_loop_spec (fuel : nat) (b : Bits) (i pad : Z) :
  Bits_wf b -> Z.even i = true -> Z.max 0 (pad - i) < Z.of_nat fuel ->
  exists b', Pad_loop fuel b i pad = Some b'
             /\ Bits_wf b'
             /\ b_nbit b' = b_nbit b + 8 * Z.max 0 (pad - i)
             /\ Bits_list b'
                = Bits_list b ++ flat_map byte_bits (map pad_byte (zrange i pad)).
Proof.
  revert b i; induction fuel as [|k IH]; intros b i Hwf Hi Hfuel; [lia|].
  cbn [Pad_loop]. destruct (Z.ltb_spec i pad) as [Hlt|Hge].
  - destruct (Write_byte b 0xec Hwf ltac:(lia)) as (b1 & E1 & Hwf1 & Hn1 & Hl1).
    rewrite E1. rewrite (zrange_cons i pad) by lia. cbn [map flat_map].
    unfold pad_byte at 1. rewrite Hi.
    destruct (Z.leb_spec pad (i + 1)) as [Hlast|Hmore].
    + exists b1. rewrite zrange_nil by lia. cbn [map flat_map].
      rewrite app_nil_r.
      split; [reflexivity|]. split; [assumption|]. split; [lia | assumption].
    + destruct (Write_byte b1 0x11 Hwf1 ltac:(lia)) as (b2 & E2 & Hwf2 & Hn2 & Hl2).
      rewrite E2. rewrite (zrange_cons (i + 1) pad) by lia. cbn [map flat_map].
      unfold pad_byte at 1.
      assert (Z.even (i + 1) = false) as ->
        by (rewrite Z.even_add, Hi; reflexivity).
      assert (Z.even (i + 2) = true) as Hi2
        by (rewrite Z.even_add, Hi; reflexivity).
      destruct (IH b2 (i + 2) Hwf2 Hi2 ltac:(lia)) as (b' & E & Hwf' & Hn' & Hl').
      exists b'. replace (i + 1 + 1) with (i + 2) by lia.
      split; [assumption|]. split; [assumption|]. split; [lia|].
      rewrite Hl', Hl2, Hl1, <- !app_assoc. reflexivity.
  - exists b. rewrite zrange_nil by lia. cbn [map flat_map]. rewrite app_nil_r.
    split; [reflexivity|]. split; [assumption|]. split; [lia | reflexivity].
Qed.

Lemma land_7_mod (a : Z) : Z.land a 7 = a mod 8.
Proof. change 7 with (Z.ones 3). now rewrite Z.land_ones by lia. Qed.

(** C6 (as amended): for every n >= 0 and every writer state, Pad(n) with
    n <= 4 writes exactly n zero bits; with n > 4 it writes a 4-bit zero
    terminator, zero-fills to the next byte boundary, then fills the
    remaining whole bytes alternating 0xEC and 0x11 starting with 0xEC, and
    writes nothing after the last whole byte.  In particular Pad(20) from a
    byte-aligned state writes the terminator, the zero fill and the one pad
    byte 0xEC, 16 bits in all: no part of 0x11 follows. *)
Theorem Pad_writes (b : Bits) (n : Z) :
  Bits_wf b -> 0 <= n ->
  exists b',
    Bits_Pad b n = Some b' /\ Bits_wf b'
    /\ (n <= 4 -> Bits_list b' = Bits_list b ++ repeat false (Z.to_nat n))
    /\ (4 < n ->
        let fill := (- (b_nbit b + 4)) mod 8 in
        let whole := Z.quot (n - 4 - fill) 8 in
        Bits_list b'
        = Bits_list b ++ repeat false 4 ++ repeat false (Z.to_nat fill)
          ++ flat_map byte_bits (pad_bytes whole))
    /\ (n = 20 -> b_nbit b mod 8 = 0 ->
        Bits_list b' = Bits_list b ++ repeat false 8 ++ byte_bits 0xec
        /\ b_nbit b' = b_nbit b + 16).
Proof.
  intros Hwf Hn. unfold Bits_Pad.
  destruct (Z.ltb_spec n 0); [lia|].
  destruct (Z.leb_spec n 4) as [H4|H4].
  - destruct (Write_zeros b n Hwf Hn) as (b' & E & Hwf' & Hnb & Hl).
    exists b'. split; [assumption|]. split; [assumption|].
    split; [auto|]. split; intros; lia.
  - destruct (Write_zeros b 4 Hwf ltac:(lia)) as (b1 & E1 & Hwf1 & Hn1 & Hl1).
    rewrite E1. unfold Bits_Bits. rewrite Hn1, land_7_mod.
    set (fill := (- (b_nbit b + 4)) mod 8).
    assert (0 <= fill < 8) as Hfill by (apply Z.mod_pos_bound; lia).
    destruct (Write_zeros b1 fill Hwf1 ltac:(lia))
      as (b2 & E2 & Hwf2 & Hn2 & Hl2).
    rewrite E2.
    set (whole := Z.quot (n - 4 - fill) 8).
    destruct (Pad_loop_spec (S (Z.to_nat whole)) b2 0 whole Hwf2 eq_refl
                ltac:(lia)) as (b' & E & Hwf' & Hn' & Hl').
    exists b'. split; [assumption|]. split; [assumption|].
    assert (Bits_list b'
            = Bits_list b ++ repeat false 4 ++ repeat false (Z.to_nat fill)
              ++ flat_map byte_bits (pad_bytes whole)) as Hall.
    { rewrite Hl', Hl2, Hl1, <- !app_assoc. reflexivity. }
    split; [lia|]. split; [intros _; exact Hall|].
    intros -> Hal.
    assert (fill = 4) as Ef.
    { unfold fill.
      pose proof (Z.div_mod (b_nbit b) 8 ltac:(lia)) as Ed. rewrite Hal in Ed.
      symmetry. apply (Z.mod_unique _ _ (- (b_nbit b / 8) - 1) 4); lia. }
    assert (whole = 1) as Ew by (unfold whole; rewrite Ef; reflexivity).
    rewrite Hall, Hn', Hn2, Hn1, Ef, Ew. split; [reflexivity | lia].
Qed.

Lemma Pad_writes_witness :
  exists b',
    Bits_Pad Bits_zero 20 = Some b' /\ Bits_wf b'
    /\ (20 <= 4 -> Bits_list b' = Bits_list Bits_zero ++ repeat false (Z.to_nat 20))
    /\ (4 < 20 ->
        let fill := (- (b_nbit Bits_zero + 4)) mod 8 in
        let whole := Z.quot (20 - 4 - fill) 8 in
        Bits_list b'
        = Bits_list Bits_zero ++ repeat false 4 ++ repeat false (Z.to_nat fill)
          ++ flat_map byte_bits (pad_bytes whole))
    /\ (20 = 20 -> b_nbit Bits_zero mod 8 = 0 ->
        Bits_list b' = Bits_list Bits_zero ++ repeat false 8 ++ byte_bits 0xec
        /\ b_nbit b' = b_nbit Bits_zero + 16).
Proof.
  apply (Pad_writes Bits_zero 20).
  - unfold Bits_wf, Bits_room, Bits_zero, zlen. simpl.
    repeat split; try lia. constructor.
  - lia.
Defined.

(** C6 as stated fails in its last part.  After Pad(20) on the empty writer
    16 bits are written, so there is room for 4 more of the 20, and yet no
    partial 0x11 follows the pad byte 0xEC. *)
Lemma Pad_writes_counterexample :
  exists b',
    Bits_Pad Bits_zero 20 = Some b'
    /\ b_nbit b' = 16
    /\ Bits_list b' = repeat false 8 ++ byte_bits 0xec
    /\ Bits_list b'
       <> repeat false 8 ++ byte_bits 0xec ++ firstn 4 (byte_bits 0x11).
Proof.
  eexists. split; [vm_compute; reflexivity|].
  split; [reflexivity|]. split; [reflexivity|]. vm_compute. discriminate.
Qed.

(** * Numeric strings *)

Lemma list3_ind {A : Type} (P : list A -> Prop) :
  P [] -> (forall a, P [a]) -> (forall a b, P [a; b]) ->
  (forall a b c t, P t -> P (a :: b :: c :: t)) ->
  forall l, P l.
Proof.
  intros H0 H1 H2 H3.
  assert (forall l, P l /\ (forall a, P (a :: l)) /\ (forall a b, P (a :: b :: l)))
    as H.
  { induction l as [|c l (IH0 & IH1 & IH2)].
    - auto.
    - split; [apply IH1|]. split; [intros a; apply IH2|].
      intros a b. apply H3, IH0. }
  intros l. apply H.
Qed.

Lemma Num_groups_count (l : list Z) (b : Bits) :
  Bits_shape b ->
  exists b', Num_groups l b = Some b'
             /\ Bits_shape b'
             /\ b_nbit b' = b_nbit b + 10 * (zlen l / 3) + num_tail (zlen l mod 3).
Proof.
  revert b. induction l as [|c0|c0 c1|c0 c1 c2 t IH] using list3_ind;
    intros b Hsh; cbn [Num_groups].
  - exists b. split; [reflexivity|]. split; [assumption|].
    change (zlen (@nil Z)) with 0. cbn. lia.
  - destruct (Bits_Write_shape b (digit c0) 4 Hsh) as (b' & E & Hs & Hn).
    exists b'. split; [assumption|]. split; [assumption|].
    rewrite Hn. change (zlen [c0]) with 1. cbn. lia.
  - destruct (Bits_Write_shape b (uint64 (digit c0 * 10 + digit c1)) 7 Hsh)
      as (b' & E & Hs & Hn).
    exists b'. split; [assumption|]. split; [assumption|].
    rewrite Hn. change (zlen [c0; c1]) with 2. cbn. lia.
  - destruct (Bits_Write_shape b
                (uint64 (digit c0 * 100 + digit c1 * 10 + digit c2)) 10 Hsh)
      as (b1 & E & Hs & Hn).
    rewrite E. destruct (IH b1 Hs) as (b' & E' & Hs' & Hn').
    exists b'. split; [assumption|]. split; [assumption|].
    rewrite Hn', Hn. rewrite !zlen_cons. pose proof (zlen_nonneg t).
    replace (zlen t + 1 + 1 + 1) with (zlen t + 1 * 3) by lia.
    rewrite Z.div_add, Z.mod_add by lia. lia.
Qed.

Lemma digit_value (c : Z) : is_digit c -> digit c = c - 48.
Proof. intros H. unfold digit. apply uint8_small. unfold is_digit in H. lia. Qed.

Lemma Num_groups_bits (l : list Z) (b : Bits) :
  Bits_wf b -> Forall is_digit l ->
  exists b', Num_groups l b = Some b'
             /\ Bits_wf b'
             /\ Bits_list b' = Bits_list b ++ num_bits l.
Proof.
  revert b. induction l as [|c0|c0 c1|c0 c1 c2 t IH] using list3_ind;
    intros b Hwf Hd; cbn [Num_groups num_bits].
  - exists b. rewrite app_nil_r. auto.
  - inversion Hd as [|? ? H0 _]; subst. rewrite (digit_value _ H0).
    unfold is_digit in H0.
    destruct (Bits_Write_spec b (c0 - 48) 4 Hwf ltac:(lia))
      as (b' & E & Hwf' & _ & Hl);
      [change (2 ^ 4) with 16; lia
      | change (2 ^ 64) with 18446744073709551616; lia |].
    exists b'. auto.
  - inversion Hd as [|? ? H0 Hd1]; subst.
    inversion Hd1 as [|? ? H1 _]; subst.
    rewrite (digit_value _ H0), (digit_value _ H1). unfold is_digit in H0, H1.
    rewrite uint64_small
      by (change (2 ^ 64) with 18446744073709551616; lia).
    destruct (Bits_Write_spec b ((c0 - 48) * 10 + (c1 - 48)) 7 Hwf ltac:(lia))
      as (b' & E & Hwf' & _ & Hl);
      [change (2 ^ 7) with 128; lia
      | change (2 ^ 64) with 18446744073709551616; lia |].
    exists b'. auto.
  - inversion Hd as [|? ? H0 Hd1]; subst.
    inversion Hd1 as [|? ? H1 Hd2]; subst.
    inversion Hd2 as [|? ? H2 Hd3]; subst.
    rewrite (digit_value _ H0), (digit_value _ H1), (digit_value _ H2).
    unfold is_digit in H0, H1, H2.
    rewrite uint64_small
      by (change (2 ^ 64) with 18446744073709551616; lia).
    destruct (Bits_Write_spec b
                ((c0 - 48) * 100 + (c1 - 48) * 10 + (c2 - 48)) 10 Hwf ltac:(lia))
      as (b1 & E & Hwf1 & _ & Hl1);
      [change (2 ^ 10) with 1024; lia
      | change (2 ^ 64) with 18446744073709551616; lia |].
    rewrite E. destruct (IH b1 Hwf1 Hd3) as (b' & E' & Hwf' & Hl').
    exists b'. split; [assumption|]. split; [assumption|].
    rewrite Hl', Hl1, <- app_assoc. reflexivity.
Qed.

Lemma Num_Check_digits (s : string) :
  Num_Check s = None -> Forall is_digit (bytes_of s).
Proof.
  unfold Num_Check.
  destruct (forallb (fun c => negb ((c <? 48) || (57 <? c))) (bytes_of s)) eqn:E;
    [|discriminate].
  intros _. rewrite forallb_forall in E. apply Forall_forall.
  intros c Hc. specialize (E c Hc). unfold is_digit. lia.
Qed.

Lemma numLen_width (v : Z) :
  zget numLen (sizeClass v) = Some (num_count_width v)
  /\ num_count_width v = (if v <=? 9 then 10 else if v <=? 26 then 12 else 14).
Proof.
  unfold num_count_width, sizeClass.
  destruct (v <=? 9); [split; reflexivity|].
  destruct (v <=? 26); split; reflexivity.
Qed.

(** C5 (as amended): for every string s of characters 0-9 and every version
    v, Num.Encode writes as many bits as Num.Bits(v) says, namely
    4 + countWidth + 10 * floor(|s|/3) + (7 if |s| mod 3 = 2, 4 if it is 1,
    else 0), with countWidth 10, 12 or 14 according to v's size class; and
    when |s| fits the count field (|s| < 2^countWidth) the bits written are
    the mode indicator 0001, then |s| in countWidth bits, then each group of
    3 digits as a 10-bit value, a trailing 2-digit remainder as 7 bits and a
    trailing single digit as 4 bits. *)
Theorem Num_Encode_writes (s : string) (v : Z) (b : Bits) :
  Bits_wf b -> Num_Check s = None ->
  exists b',
    Num_Encode s b v = Some b'
    /\ num_count_width v = (if v <=? 9 then 10 else if v <=? 26 then 12 else 14)
    /\ Num_Bits s v = Some (b_nbit b' - b_nbit b)
    /\ b_nbit b' - b_nbit b = num_bit_count (slen s) v
    /\ (slen s < 2 ^ num_count_width v ->
        Bits_list b'
        = Bits_list b ++ msb_bits 1 4 ++ msb_bits (slen s) (num_count_width v)
          ++ num_bits (bytes_of s)).
Proof.
  intros Hwf Hck. pose proof (Num_Check_digits s Hck) as Hd.
  destruct (numLen_width v) as [Hget Hw].
  assert (0 <= num_count_width v <= 14) as Hw14
    by (rewrite Hw; destruct (v <=? 9); [lia|]; destruct (v <=? 26); lia).
  assert (0 <= slen s) as Hlen by apply zlen_nonneg.
  unfold Num_Encode, Num_Bits. rewrite Hget.
  (* the mode indicator *)
  destruct (Bits_Write_spec b 1 4 Hwf ltac:(lia))
    as (b1 & E1 & Hwf1 & Hn1 & Hl1);
    [change (2 ^ 4) with 16; lia | reflexivity |].
  rewrite E1.
  (* the bit count, whatever the length *)
  destruct (Bits_Write_shape b1 (slen s) (num_count_width v)
              (Bits_wf_shape _ Hwf1)) as (b2 & E2 & Hs2 & Hn2).
  rewrite E2.
  destruct (Num_groups_count (bytes_of s) b2 Hs2) as (b' & E & Hs' & Hn').
  exists b'. split; [assumption|]. split; [assumption|].
  assert (b_nbit b' - b_nbit b = num_bit_count (slen s) v) as Hcount.
  { rewrite Hn', Hn2, Hn1. unfold num_bit_count, num_tail, slen. lia. }
  split; [|split; [assumption|]].
  - f_equal. rewrite Hcount. unfold num_bit_count.
    rewrite Z.quot_div_nonneg by lia.
    pose proof (Z.div_mod (slen s) 3 ltac:(lia)) as Ed.
    pose proof (Z.mod_pos_bound (slen s) 3 ltac:(lia)) as Bd.
    replace (10 * slen s + 2)
      with (10 * (slen s / 3) * 3 + (10 * (slen s mod 3) + 2)) by lia.
    rewrite Z.div_add_l by lia.
    assert (slen s mod 3 = 0 \/ slen s mod 3 = 1 \/ slen s mod 3 = 2)
      as [R|[R|R]] by lia; rewrite R; cbn; lia.
  - (* the bits, when the count fits *)
    intros Hfit.
    destruct (Bits_Write_spec b1 (slen s) (num_count_width v) Hwf1
                ltac:(lia) ltac:(lia))
      as (b2' & E2' & Hwf2 & _ & Hl2).
    { assert (2 ^ num_count_width v <= 2 ^ 64)
        by (apply Z.pow_le_mono_r; lia). lia. }
    rewrite E2 in E2'. injection E2' as <-.
    destruct (Num_groups_bits (bytes_of s) b2 Hwf2 Hd) as (b'' & E' & _ & Hl').
    rewrite E in E'. injection E' as <-.
    rewrite Hl', Hl2, Hl1, <- !app_assoc. reflexivity.
Qed.

Lemma Num_Encode_writes_witness :
  exists b',
    Num_Encode "01234567" Bits_zero 1 = Some b'
    /\ num_count_width 1 = (if 1 <=? 9 then 10 else if 1 <=? 26 then 12 else 14)
    /\ Num_Bits "01234567" 1 = Some (b_nbit b' - b_nbit Bits_zero)
    /\ b_nbit b' - b_nbit Bits_zero = num_bit_count (slen "01234567") 1
    /\ (slen "01234567" < 2 ^ num_count_width 1 ->
        Bits_list b'
        = Bits_list Bits_zero ++ msb_bits 1 4
          ++ msb_bits (slen "01234567") (num_count_width 1)
          ++ num_bits (bytes_of "01234567")).
Proof.
  apply (Num_Encode_writes "01234567" 1 Bits_zero).
  - unfold Bits_wf, Bits_room, Bits_zero, zlen. simpl.
    repeat split; try lia. constructor.
  - reflexivity.
Defined.

(** C5 as stated fails for a string too long for its count field: 2048
    digits at version 1 (count width 10) pass the check, and the writer's
    first four bits then read 0011 instead of the mode indicator 0001. *)
Lemma Num_Encode_writes_counterexample :
  Num_Check long_digits = None
  /\ exists b',
       Num_Encode long_digits Bits_zero 1 = Some b'
       /\ firstn 4 (Bits_list b') = [false; false; true; true]
       /\ firstn 4 (Bits_list b') <> msb_bits 1 4.
Proof.
  split; [vm_compute; reflexivity|].
  eexists. split; [vm_compute; reflexivity|].
  split; [vm_compute; reflexivity|]. vm_compute. discriminate.
Qed.


(** * The encodings *)

Lemma Bits_zero_wf : Bits_wf Bits_zero.
Proof.
  unfold Bits_wf, Bits_room, Bits_zero, zlen. simpl.
  repeat split; try lia. constructor.
Qed.

Lemma pow2_64 (w : Z) : 0 <= w <= 64 -> 2 ^ w <= 2 ^ 64.
Proof. intros Hw. apply Z.pow_le_mono_r; lia. Qed.

Lemma bytes_of_range (s : string) : Forall (fun c => 0 <= c < 256) (bytes_of s).
Proof.
  unfold bytes_of. apply Forall_forall. intros c Hc.
  apply in_map_iff in Hc. destruct Hc as (a & <- & _).
  pose proof (N_ascii_bounded a) as Hb. lia.
Qed.

Lemma list2_ind {A : Type} (P : list A -> Prop) :
  P [] -> (forall a, P [a]) -> (forall a b t, P t -> P (a :: b :: t)) ->
  forall l, P l.
Proof.
  intros H0 H1 H2.
  assert (Hall : forall l, P l /\ (forall a, P (a :: l))).
  { induction l as [|c l (IH0 & IH1)].
    - auto.
    - split; [apply IH1|]. intros a. apply H2, IH0. }
  intros l. apply Hall.
Qed.

(** ** Alphanumeric strings *)

Lemma index_from_spec (l : list Z) (c i : Z) :
  0 <= i ->
  (~ In c l /\ index_from l c i = -1)
  \/ (In c l /\ i <= index_from l c i < i + zlen l
      /\ nth (Z.to_nat (index_from l c i - i)) l 0 = c).
Proof.
  revert i. induction l as [|a t IH]; intros i Hi; cbn [index_from].
  - left. split; [intros []|reflexivity].
  - rewrite zlen_cons. pose proof (zlen_nonneg t) as Ht.
    destruct (Z.eqb_spec a c) as [->|Hne].
    + right. split; [now left|]. split; [lia|].
      rewrite Z.sub_diag. reflexivity.
    + destruct (IH (i + 1) ltac:(lia)) as [[Hn E]|(Hin & Hr & Hnth)].
      * left. split; [|exact E]. intros [Hc|Hc]; [congruence|contradiction].
      * right. split; [now right|]. split; [lia|].
        replace (Z.to_nat (index_from t c (i + 1) - i))
          with (S (Z.to_nat (index_from t c (i + 1) - (i + 1)))) by lia.
        exact Hnth.
Qed.

Lemma alpha_index_spec (c : Z) :
  (~ is_alpha c /\ alpha_index c = -1)
  \/ (is_alpha c /\ 0 <= alpha_index c < 45
      /\ nth (Z.to_nat (alpha_index c)) (bytes_of alphabet) 0 = c).
Proof.
  unfold alpha_index, is_alpha.
  destruct (index_from_spec (bytes_of alphabet) c 0 ltac:(lia))
    as [[Hn E]|(Hin & Hr & Hnth)].
  - left. auto.
  - right. split; [exact Hin|]. rewrite Z.sub_0_r in Hnth.
    change (zlen (bytes_of alphabet)) with 45 in Hr. split; [lia|exact Hnth].
Qed.

Lemma Alpha_Check_alpha (s : string) :
  Alpha_Check s = None <-> Forall is_alpha (bytes_of s).
Proof.
  unfold Alpha_Check.
  destruct (forallb (fun c => negb (alpha_index c <? 0)) (bytes_of s)) eqn:E.
  - split; [intros _|reflexivity]. rewrite forallb_forall in E.
    apply Forall_forall. intros c Hc. specialize (E c Hc).
    destruct (alpha_index_spec c) as [[_ E1]|[Ha _]]; [|exact Ha].
    rewrite E1 in E. discriminate.
  - split; [discriminate|]. intros Hall. exfalso.
    assert (Et : forallb (fun c => negb (alpha_index c <? 0)) (bytes_of s) = true).
    { apply forallb_forall. intros c Hc.
      rewrite Forall_forall in Hall. specialize (Hall c Hc).
      destruct (alpha_index_spec c) as [[Hn _]|(_ & Hr & _)]; [contradiction|].
      destruct (Z.ltb_spec (alpha_index c) 0); [lia|reflexivity]. }
    congruence.
Qed.

Lemma alphaLen_width (v : Z) :
  zget alphaLen (sizeClass v) = Some (alpha_count_width v)
  /\ alpha_count_width v = (if v <=? 9 then 9 else if v <=? 26 then 11 else 13).
Proof.
  unfold alpha_count_width, sizeClass.
  destruct (v <=? 9); [split; reflexivity|].
  destruct (v <=? 26); split; reflexivity.
Qed.

Lemma Alpha_pairs_count (l : list Z) (b : Bits) :
  Bits_shape b ->
  exists b', Alpha_pairs l b = Some b'
             /\ Bits_shape b'
             /\ b_nbit b' = b_nbit b + 11 * (zlen l / 2) + 6 * (zlen l mod 2).
Proof.
  revert b. induction l as [|c0|c0 c1 t IH] using list2_ind;
    intros b Hsh; cbn [Alpha_pairs].
  - exists b. split; [reflexivity|]. split; [assumption|].
    change (zlen (@nil Z)) with 0. cbn. lia.
  - destruct (Bits_Write_shape b (uint64 (alpha_index c0)) 6 Hsh) as (b' & E & Hs & Hn).
    exists b'. split; [assumption|]. split; [assumption|].
    rewrite Hn. change (zlen [c0]) with 1. cbn. lia.
  - destruct (Bits_Write_shape b
                (uint64 (uint64 (alpha_index c0) * 45 + uint64 (alpha_index c1))) 11 Hsh)
      as (b1 & E & Hs & Hn).
    rewrite E. destruct (IH b1 Hs) as (b' & E' & Hs' & Hn').
    exists b'. split; [assumption|]. split; [assumption|].
    rewrite Hn', Hn. rewrite !zlen_cons. pose proof (zlen_nonneg t).
    replace (zlen t + 1 + 1) with (zlen t + 1 * 2) by lia.
    rewrite Z.div_add, Z.mod_add by lia. lia.
Qed.

Lemma Alpha_pairs_bits (l : list Z) (b : Bits) :
  Bits_wf b -> Forall is_alpha l ->
  exists b', Alpha_pairs l b = Some b'
             /\ Bits_wf b'
             /\ Bits_list b' = Bits_list b ++ alpha_bits l.
Proof.
  assert (Hidx : forall c, is_alpha c -> 0 <= alpha_index c < 45).
  { intros c Hc. destruct (alpha_index_spec c) as [[Hn _]|(_ & Hr & _)];
      [contradiction|exact Hr]. }
  revert b. induction l as [|c0|c0 c1 t IH] using list2_ind;
    intros b Hwf Hd; cbn [Alpha_pairs alpha_bits].
  - exists b. rewrite app_nil_r. auto.
  - inversion Hd as [|? ? A0 _]; subst. apply Hidx in A0.
    rewrite uint64_small by (change (2 ^ 64) with 18446744073709551616; lia).
    destruct (Bits_Write_spec b (alpha_index c0) 6 Hwf ltac:(lia))
      as (b' & E & Hwf' & _ & Hl);
      [change (2 ^ 6) with 64; lia
      | change (2 ^ 64) with 18446744073709551616; lia |].
    exists b'. auto.
  - inversion Hd as [|? ? A0 Hd1]; subst.
    inversion Hd1 as [|? ? A1 Hd2]; subst.
    apply Hidx in A0. apply Hidx in A1.
    rewrite (uint64_small (alpha_index c0)), (uint64_small (alpha_index c1))
      by (change (2 ^ 64) with 18446744073709551616; lia).
    rewrite uint64_small by (change (2 ^ 64) with 18446744073709551616; lia).
    destruct (Bits_Write_spec b (alpha_index c0 * 45 + alpha_index c1) 11 Hwf
                ltac:(lia))
      as (b1 & E & Hwf1 & _ & Hl1);
      [change (2 ^ 11) with 2048; lia
      | change (2 ^ 64) with 18446744073709551616; lia |].
    rewrite E. destruct (IH b1 Hwf1 Hd2) as (b' & E' & Hwf' & Hl').
    exists b'. split; [assumption|]. split; [assumption|].
    rewrite Hl', Hl1, <- app_assoc. reflexivity.
Qed.

Lemma Alpha_Encode_count (s : string) (v : Z) (b : Bits) :
  Bits_shape b ->
  exists b', Alpha_Encode s b v = Some b' /\ Bits_shape b'
             /\ Alpha_Bits s v = Some (b_nbit b' - b_nbit b)
             /\ 0 <= b_nbit b' - b_nbit b.
Proof.
  intros Hsh. destruct (alphaLen_width v) as [Hget Hw].
  assert (Hw13 : 0 <= alpha_count_width v <= 13)
    by (rewrite Hw; destruct (v <=? 9); [lia|]; destruct (v <=? 26); lia).
  assert (Hlen : 0 <= slen s) by apply zlen_nonneg.
  unfold Alpha_Encode, Alpha_Bits. rewrite Hget.
  destruct (Bits_Write_shape b 2 4 Hsh) as (b1 & E1 & Hs1 & Hn1). rewrite E1.
  destruct (Bits_Write_shape b1 (slen s) (alpha_count_width v) Hs1)
    as (b2 & E2 & Hs2 & Hn2). rewrite E2.
  destruct (Alpha_pairs_count (bytes_of s) b2 Hs2) as (b' & E & Hs' & Hn').
  exists b'. split; [assumption|]. split; [assumption|].
  fold (slen s) in Hn'.
  pose proof (Z.div_mod (slen s) 2 ltac:(lia)) as Ed.
  pose proof (Z.mod_pos_bound (slen s) 2 ltac:(lia)) as Bd.
  assert (Hq : 0 <= slen s / 2) by (apply Z.div_pos; lia).
  split; [|lia]. f_equal.
  rewrite Z.quot_div_nonneg by lia.
  replace (11 * slen s + 1)
    with (11 * (slen s / 2) * 2 + (11 * (slen s mod 2) + 1)) by lia.
  rewrite Z.div_add_l by lia.
  assert (Hr : slen s mod 2 = 0 \/ slen s mod 2 = 1) by lia.
  destruct Hr as [R|R]; rewrite R in Hn' |- *.
  - change ((11 * 0 + 1) / 2) with 0. lia.
  - change ((11 * 1 + 1) / 2) with 6. lia.
Qed.

Lemma Alpha_Encode_bits (s : string) (v : Z) (b : Bits) :
  Bits_wf b -> Alpha_Check s = None -> slen s < 2 ^ alpha_count_width v ->
  exists b', Alpha_Encode s b v = Some b' /\ Bits_wf b'
             /\ Bits_list b'
                = Bits_list b ++ msb_bits 2 4
                  ++ msb_bits (slen s) (alpha_count_width v)
                  ++ alpha_bits (bytes_of s).
Proof.
  intros Hwf Hck Hfit. apply Alpha_Check_alpha in Hck.
  destruct (alphaLen_width v) as [Hget Hw].
  assert (Hw13 : 0 <= alpha_count_width v <= 13)
    by (rewrite Hw; destruct (v <=? 9); [lia|]; destruct (v <=? 26); lia).
  assert (Hlen : 0 <= slen s) by apply zlen_nonneg.
  unfold Alpha_Encode. rewrite Hget.
  destruct (Bits_Write_spec b 2 4 Hwf ltac:(lia)) as (b1 & E1 & Hwf1 & _ & Hl1);
    [change (2 ^ 4) with 16; lia | reflexivity |].
  rewrite E1.
  destruct (Bits_Write_spec b1 (slen s) (alpha_count_width v) Hwf1
              ltac:(lia) ltac:(lia)) as (b2 & E2 & Hwf2 & _ & Hl2).
  { pose proof (pow2_64 (alpha_count_width v) ltac:(lia)). lia. }
  rewrite E2.
  destruct (Alpha_pairs_bits (bytes_of s) b2 Hwf2 Hck) as (b' & E & Hwf' & Hl').
  exists b'. split; [assumption|]. split; [assumption|].
  rewrite Hl', Hl2, Hl1, <- !app_assoc. reflexivity.
Qed.

(** ** Byte strings *)

Lemma stringLen_width (v : Z) :
  zget stringLen (sizeClass v) = Some (string_count_width v)
  /\ string_count_width v = (if v <=? 9 then 8 else 16).
Proof.
  unfold string_count_width, sizeClass.
  destruct (v <=? 9); [split; reflexivity|].
  destruct (v <=? 26); split; reflexivity.
Qed.

Lemma String_bytes_count (l : list Z) (b : Bits) :
  Bits_shape b ->
  exists b', foldM (fun b c => Bits_Write b c 8) l b = Some b'
             /\ Bits_shape b' /\ b_nbit b' = b_nbit b + 8 * zlen l.
Proof.
  revert b. induction l as [|c t IH]; intros b Hsh; cbn [foldM].
  - exists b. split; [reflexivity|]. split; [assumption|].
    change (zlen (@nil Z)) with 0. lia.
  - destruct (Bits_Write_shape b c 8 Hsh) as (b1 & E & Hs & Hn). rewrite E.
    destruct (IH b1 Hs) as (b' & E' & Hs' & Hn').
    exists b'. split; [assumption|]. split; [assumption|].
    rewrite Hn', Hn, zlen_cons. lia.
Qed.

Lemma String_bytes_bits (l : list Z) (b : Bits) :
  Bits_wf b -> Forall (fun c => 0 <= c < 256) l ->
  exists b', foldM (fun b c => Bits_Write b c 8) l b = Some b'
             /\ Bits_wf b' /\ Bits_list b' = Bits_list b ++ string_bits l.
Proof.
  revert b. induction l as [|c t IH]; intros b Hwf Hd; cbn [foldM].
  - exists b. unfold string_bits. cbn [flat_map]. rewrite app_nil_r. auto.
  - inversion Hd as [|? ? Hc Hd1]; subst.
    destruct (Bits_Write_spec b c 8 Hwf ltac:(lia)) as (b1 & E & Hwf1 & _ & Hl1);
      [change (2 ^ 8) with 256; lia
      | change (2 ^ 64) with 18446744073709551616; lia |].
    rewrite E. destruct (IH b1 Hwf1 Hd1) as (b' & E' & Hwf' & Hl').
    exists b'. split; [assumption|]. split; [assumption|].
    rewrite Hl', Hl1, <- app_assoc. unfold string_bits. cbn [flat_map].
    rewrite byte_bits_msb. reflexivity.
Qed.

Lemma String_Encode_count (s : string) (v : Z) (b : Bits) :
  Bits_shape b ->
  exists b', String_Encode s b v = Some b' /\ Bits_shape b'
             /\ String_Bits s v = Some (b_nbit b' - b_nbit b)
             /\ 0 <= b_nbit b' - b_nbit b.
Proof.
  intros Hsh. destruct (stringLen_width v) as [Hget Hw].
  assert (Hw16 : 0 <= string_count_width v <= 16)
    by (rewrite Hw; destruct (v <=? 9); lia).
  assert (Hlen : 0 <= slen s) by apply zlen_nonneg.
  unfold String_Encode, String_Bits. rewrite Hget.
  destruct (Bits_Write_shape b 4 4 Hsh) as (b1 & E1 & Hs1 & Hn1). rewrite E1.
  destruct (Bits_Write_shape b1 (slen s) (string_count_width v) Hs1)
    as (b2 & E2 & Hs2 & Hn2). rewrite E2.
  destruct (String_bytes_count (bytes_of s) b2 Hs2) as (b' & E & Hs' & Hn').
  exists b'. split; [assumption|]. split; [assumption|].
  fold (slen s) in Hn'. split; [f_equal|]; lia.
Qed.

Lemma String_Encode_bits (s : string) (v : Z) (b : Bits) :
  Bits_wf b -> slen s < 2 ^ string_count_width v ->
  exists b', String_Encode s b v = Some b' /\ Bits_wf b'
             /\ Bits_list b'
                = Bits_list b ++ msb_bits 4 4
                  ++ msb_bits (slen s) (string_count_width v)
                  ++ string_bits (bytes_of s).
Proof.
  intros Hwf Hfit. destruct (stringLen_width v) as [Hget Hw].
  assert (Hw16 : 0 <= string_count_width v <= 16)
    by (rewrite Hw; destruct (v <=? 9); lia).
  assert (Hlen : 0 <= slen s) by apply zlen_nonneg.
  unfold String_Encode. rewrite Hget.
  destruct (Bits_Write_spec b 4 4 Hwf ltac:(lia)) as (b1 & E1 & Hwf1 & _ & Hl1);
    [change (2 ^ 4) with 16; lia | reflexivity |].
  rewrite E1.
  destruct (Bits_Write_spec b1 (slen s) (string_count_width v) Hwf1
              ltac:(lia) ltac:(lia)) as (b2 & E2 & Hwf2 & _ & Hl2).
  { pose proof (pow2_64 (string_count_width v) ltac:(lia)). lia. }
  rewrite E2.
  destruct (String_bytes_bits (bytes_of s) b2 Hwf2 (bytes_of_range s))
    as (b' & E & Hwf' & Hl').
  exists b'. split; [assumption|]. split; [assumption|].
  rewrite Hl', Hl2, Hl1, <- !app_assoc. reflexivity.
Qed.

(** ** Kanji *)

Lemma kanjiLen_width (v : Z) :
  zget kanjiLen (sizeClass v) = Some (kanji_count_width v)
  /\ kanji_count_width v = (if v <=? 9 then 8 else if v <=? 26 then 10 else 12).
Proof.
  unfold kanji_count_width, sizeClass.
  destruct (v <=? 9); [split; reflexivity|].
  destruct (v <=? 26); split; reflexivity.
Qed.

Lemma Kanji_pairs_count (l : list Z) (b : Bits) :
  Bits_shape b -> zlen l mod 2 = 0 ->
  exists b', Kanji_pairs l b = Some b'
             /\ Bits_shape b' /\ b_nbit b' = b_nbit b + 13 * (zlen l / 2).
Proof.
  revert b. induction l as [|c0|c0 c1 t IH] using list2_ind;
    intros b Hsh Hev; cbn [Kanji_pairs].
  - exists b. split; [reflexivity|]. split; [assumption|].
    change (zlen (@nil Z)) with 0. cbn. lia.
  - change (zlen [c0]) with 1 in Hev. discriminate.
  - rewrite !zlen_cons in *. pose proof (zlen_nonneg t).
    replace (zlen t + 1 + 1) with (zlen t + 1 * 2) in * by lia.
    rewrite Z.mod_add in Hev by lia. rewrite Z.div_add by lia.
    destruct (Bits_Write_shape b
                (uint64 (Z.land c0 0x3f * 0xc0 + c1 - 0x100)) 13 Hsh)
      as (b1 & E & Hs & Hn).
    rewrite E. destruct (IH b1 Hs Hev) as (b' & E' & Hs' & Hn').
    exists b'. split; [assumption|]. split; [assumption|]. lia.
Qed.

Lemma Kanji_pairs_bits (l : list Z) (b : Bits) :
  Bits_wf b -> zlen l mod 2 = 0 -> kanji_fits l ->
  exists b', Kanji_pairs l b = Some b'
             /\ Bits_wf b' /\ Bits_list b' = Bits_list b ++ kanji_bits l.
Proof.
  revert b. induction l as [|c0|c0 c1 t IH] using list2_ind;
    intros b Hwf Hev Hfit; cbn [Kanji_pairs kanji_bits].
  - exists b. rewrite app_nil_r. auto.
  - change (zlen [c0]) with 1 in Hev. discriminate.
  - rewrite !zlen_cons in Hev. pose proof (zlen_nonneg t).
    replace (zlen t + 1 + 1) with (zlen t + 1 * 2) in Hev by lia.
    rewrite Z.mod_add in Hev by lia.
    cbn [kanji_fits] in Hfit. destruct Hfit as [Hv Hfit].
    fold (kanji_value c0 c1).
    change (2 ^ 13) with 8192 in Hv.
    rewrite uint64_small by (change (2 ^ 64) with 18446744073709551616; lia).
    destruct (Bits_Write_spec b (kanji_value c0 c1) 13 Hwf ltac:(lia))
      as (b1 & E & Hwf1 & _ & Hl1);
      [change (2 ^ 13) with 8192; lia
      | change (2 ^ 64) with 18446744073709551616; lia |].
    rewrite E. destruct (IH b1 Hwf1 Hev Hfit) as (b' & E' & Hwf' & Hl').
    exists b'. split; [assumption|]. split; [assumption|].
    rewrite Hl', Hl1, <- app_assoc. reflexivity.
Qed.

Lemma land_1_mod (a : Z) : Z.land a 1 = a mod 2.
Proof. change 1 with (Z.ones 1). rewrite Z.land_ones by lia. reflexivity. Qed.

Lemma Kanji_Encode_count (sjis : codec) (s : string) (v : Z) (b : Bits) (k : list Z) :
  Bits_shape b -> sjis s = Some k -> zlen k mod 2 = 0 ->
  exists b', Kanji_Encode sjis s b v = Some b' /\ Bits_shape b'
             /\ b_nbit b' = b_nbit b + 4 + kanji_count_width v + 13 * (zlen k / 2).
Proof.
  intros Hsh Hk Hev. destruct (kanjiLen_width v) as [Hget Hw].
  assert (Hw12 : 0 <= kanji_count_width v <= 12)
    by (rewrite Hw; destruct (v <=? 9); [lia|]; destruct (v <=? 26); lia).
  unfold Kanji_Encode. rewrite Hk, land_1_mod, Hev. cbn [Z.eqb negb].
  rewrite Hget.
  destruct (Bits_Write_shape b 8 4 Hsh) as (b1 & E1 & Hs1 & Hn1). rewrite E1.
  destruct (Bits_Write_shape b1 (Z.quot (zlen k) 2) (kanji_count_width v) Hs1)
    as (b2 & E2 & Hs2 & Hn2). rewrite E2.
  destruct (Kanji_pairs_count k b2 Hs2 Hev) as (b' & E & Hs' & Hn').
  exists b'. split; [assumption|]. split; [assumption|]. lia.
Qed.

Lemma Kanji_Encode_bits (sjis : codec) (s : string) (v : Z) (b : Bits) (k : list Z) :
  Bits_wf b -> sjis s = Some k -> zlen k mod 2 = 0 -> kanji_fits k ->
  zlen k / 2 < 2 ^ kanji_count_width v ->
  exists b', Kanji_Encode sjis s b v = Some b' /\ Bits_wf b'
             /\ Bits_list b'
                = Bits_list b ++ msb_bits 8 4
                  ++ msb_bits (zlen k / 2) (kanji_count_width v)
                  ++ kanji_bits k.
Proof.
  intros Hwf Hk Hev Hfit Hcnt. destruct (kanjiLen_width v) as [Hget Hw].
  assert (Hw12 : 0 <= kanji_count_width v <= 12)
    by (rewrite Hw; destruct (v <=? 9); [lia|]; destruct (v <=? 26); lia).
  pose proof (zlen_nonneg k) as Hlen.
  assert (Hq : 0 <= zlen k / 2) by (apply Z.div_pos; lia).
  unfold Kanji_Encode. rewrite Hk, land_1_mod, Hev. cbn [Z.eqb negb].
  rewrite Hget, Z.quot_div_nonneg by lia.
  destruct (Bits_Write_spec b 8 4 Hwf ltac:(lia)) as (b1 & E1 & Hwf1 & _ & Hl1);
    [change (2 ^ 4) with 16; lia | reflexivity |].
  rewrite E1.
  destruct (Bits_Write_spec b1 (zlen k / 2) (kanji_count_width v) Hwf1
              ltac:(lia) ltac:(lia)) as (b2 & E2 & Hwf2 & _ & Hl2).
  { pose proof (pow2_64 (kanji_count_width v) ltac:(lia)). lia. }
  rewrite E2.
  destruct (Kanji_pairs_bits k b2 Hwf2 Hev Hfit) as (b' & E & Hwf' & Hl').
  exists b'. split; [assumption|]. split; [assumption|].
  rewrite Hl', Hl2, Hl1, <- !app_assoc. reflexivity.
Qed.

(** ** A text *)

Lemma Num_Encode_nbit (s : string) (v : Z) (b : Bits) :
  Bits_shape b ->
  exists b', Num_Encode s b v = Some b' /\ Bits_shape b'
             /\ b_nbit b' = b_nbit b + num_bit_count (slen s) v.
Proof.
  intros Hsh. destruct (numLen_width v) as [Hget Hw].
  assert (Hw14 : 0 <= num_count_width v <= 14)
    by (rewrite Hw; destruct (v <=? 9); [lia|]; destruct (v <=? 26); lia).
  unfold Num_Encode. rewrite Hget.
  destruct (Bits_Write_shape b 1 4 Hsh) as (b1 & E1 & Hs1 & Hn1). rewrite E1.
  destruct (Bits_Write_shape b1 (slen s) (num_count_width v) Hs1)
    as (b2 & E2 & Hs2 & Hn2). rewrite E2.
  destruct (Num_groups_count (bytes_of s) b2 Hs2) as (b' & E & Hs' & Hn').
  exists b'. split; [assumption|]. split; [assumption|].
  rewrite Hn', Hn2, Hn1. unfold num_bit_count, num_tail, slen. lia.
Qed.

Lemma Alpha_Encode_nbit (s : string) (v : Z) (b : Bits) :
  Bits_shape b ->
  exists b', Alpha_Encode s b v = Some b' /\ Bits_shape b'
             /\ b_nbit b' = b_nbit b + 4 + alpha_count_width v
                            + 11 * (slen s / 2) + 6 * (slen s mod 2).
Proof.
  intros Hsh. destruct (alphaLen_width v) as [Hget Hw].
  assert (Hw13 : 0 <= alpha_count_width v <= 13)
    by (rewrite Hw; destruct (v <=? 9); [lia|]; destruct (v <=? 26); lia).
  unfold Alpha_Encode. rewrite Hget.
  destruct (Bits_Write_shape b 2 4 Hsh) as (b1 & E1 & Hs1 & Hn1). rewrite E1.
  destruct (Bits_Write_shape b1 (slen s) (alpha_count_width v) Hs1)
    as (b2 & E2 & Hs2 & Hn2). rewrite E2.
  destruct (Alpha_pairs_count (bytes_of s) b2 Hs2) as (b' & E & Hs' & Hn').
  exists b'. split; [assumption|]. split; [assumption|].
  fold (slen s) in Hn'. lia.
Qed.

Lemma String_Encode_nbit (s : string) (v : Z) (b : Bits) :
  Bits_shape b ->
  exists b', String_Encode s b v = Some b' /\ Bits_shape b'
             /\ b_nbit b' = b_nbit b + 4 + string_count_width v + 8 * slen s.
Proof.
  intros Hsh. destruct (stringLen_width v) as [Hget Hw].
  assert (Hw16 : 0 <= string_count_width v <= 16)
    by (rewrite Hw; destruct (v <=? 9); lia).
  unfold String_Encode. rewrite Hget.
  destruct (Bits_Write_shape b 4 4 Hsh) as (b1 & E1 & Hs1 & Hn1). rewrite E1.
  destruct (Bits_Write_shape b1 (slen s) (string_count_width v) Hs1)
    as (b2 & E2 & Hs2 & Hn2). rewrite E2.
  destruct (String_bytes_count (bytes_of s) b2 Hs2) as (b' & E & Hs' & Hn').
  exists b'. split; [assumption|]. split; [assumption|].
  fold (slen s) in Hn'. lia.
Qed.

Lemma Encoding_Encode_nbit (sjis : codec) (t : Encoding) (v : Z) (b : Bits) :
  Bits_shape b -> kanji_even sjis t -> Encoding_Check sjis t = None ->
  exists b', Encoding_Encode sjis t b v = Some b' /\ Bits_shape b'
             /\ b_nbit b' = b_nbit b + item_bits sjis v t.
Proof.
  intros Hsh Hev Hck. destruct t as [s|s|s|s]; cbn [Encoding_Encode item_bits].
  - apply Num_Encode_nbit; assumption.
  - destruct (Alpha_Encode_nbit s v b Hsh) as (b' & E & Hs & Hn).
    exists b'. split; [assumption|]. split; [assumption|]. lia.
  - destruct (String_Encode_nbit s v b Hsh) as (b' & E & Hs & Hn).
    exists b'. split; [assumption|]. split; [assumption|]. lia.
  - cbn [Encoding_Check] in Hck. cbn [kanji_even] in Hev. unfold Kanji_Check in Hck.
    destruct (sjis s) as [k|] eqn:Hk; [|discriminate].
    destruct (Kanji_Encode_count sjis s v b k Hsh Hk Hev) as (b' & E & Hs & Hn).
    exists b'. split; [assumption|]. split; [assumption|]. lia.
Qed.

Lemma item_bits_nonneg (sjis : codec) (v : Z) (t : Encoding) : 0 <= item_bits sjis v t.
Proof.
  destruct t as [s|s|s|s]; cbn [item_bits].
  - pose proof (zlen_nonneg (bytes_of s)) as Hs. fold (slen s) in Hs.
    destruct (numLen_width v) as [_ Hw]. unfold num_bit_count. rewrite Hw.
    assert (0 <= slen s / 3) by (apply Z.div_pos; lia).
    destruct (v <=? 9); [|destruct (v <=? 26)];
      destruct (slen s mod 3 =? 2); try destruct (slen s mod 3 =? 1); lia.
  - pose proof (zlen_nonneg (bytes_of s)) as Hs. fold (slen s) in Hs.
    destruct (alphaLen_width v) as [_ Hw]. rewrite Hw.
    assert (0 <= slen s / 2) by (apply Z.div_pos; lia).
    pose proof (Z.mod_pos_bound (slen s) 2 ltac:(lia)).
    destruct (v <=? 9); [|destruct (v <=? 26)]; lia.
  - pose proof (zlen_nonneg (bytes_of s)) as Hs. fold (slen s) in Hs.
    destruct (stringLen_width v) as [_ Hw]. rewrite Hw.
    destruct (v <=? 9); lia.
  - destruct (sjis s) as [k|]; [|lia].
    pose proof (zlen_nonneg k) as Hs.
    destruct (kanjiLen_width v) as [_ Hw]. rewrite Hw.
    assert (0 <= zlen k / 2) by (apply Z.div_pos; lia).
    destruct (v <=? 9); [|destruct (v <=? 26)]; lia.
Qed.

Lemma text_bits_nonneg (sjis : codec) (v : Z) (text : list Encoding) :
  0 <= text_bits sjis v text.
Proof.
  induction text as [|t text IH]; cbn [text_bits fold_right]; [lia|].
  pose proof (item_bits_nonneg sjis v t). unfold text_bits in IH. lia.
Qed.

(** The encoder loop of [Plan.Encode]: the error of the first encoding
    that fails its check, or all the bits. *)
Lemma Encode_text_spec (sjis : codec) (v : Z) (text : list Encoding) (b : Bits) :
  Bits_shape b -> Forall (kanji_even sjis) text ->
  match first_error sjis text with
  | Some e => Encode_text sjis text b v = Some (Err e)
  | None =>
      exists b', Encode_text sjis text b v = Some (Ok b') /\ Bits_shape b'
                 /\ b_nbit b' = b_nbit b + text_bits sjis v text
  end.
Proof.
  revert b. induction text as [|t text IH]; intros b Hsh Hev;
    cbn [first_error Encode_text text_bits fold_right].
  - exists b. split; [reflexivity|]. split; [assumption | lia].
  - inversion Hev as [|? ? Ht Hrest]; subst.
    destruct (Encoding_Check sjis t) as [e|] eqn:Hck; [reflexivity|].
    destruct (Encoding_Encode_nbit sjis t v b Hsh Ht Hck) as (b1 & E1 & Hs1 & Hn1).
    rewrite E1. specialize (IH b1 Hs1 Hrest).
    destruct (first_error sjis text) as [e|]; [exact IH|].
    destruct IH as (b' & E & Hs & Hn). exists b'.
    split; [assumption|]. split; [assumption|]. unfold text_bits in Hn. lia.
Qed.

(** ** The bits of a text *)

Lemma Num_Encode_bits (s : string) (v : Z) (b : Bits) :
  Bits_wf b -> Num_Check s = None -> slen s < 2 ^ num_count_width v ->
  exists b', Num_Encode s b v = Some b' /\ Bits_wf b'
             /\ Bits_list b'
                = Bits_list b ++ msb_bits 1 4
                  ++ msb_bits (slen s) (num_count_width v)
                  ++ num_bits (bytes_of s).
Proof.
  intros Hwf Hck Hfit. pose proof (Num_Check_digits s Hck) as Hd.
  destruct (numLen_width v) as [Hget Hw].
  assert (Hw14 : 0 <= num_count_width v <= 14)
    by (rewrite Hw; destruct (v <=? 9); [lia|]; destruct (v <=? 26); lia).
  assert (Hlen : 0 <= slen s) by apply zlen_nonneg.
  unfold Num_Encode. rewrite Hget.
  destruct (Bits_Write_spec b 1 4 Hwf ltac:(lia)) as (b1 & E1 & Hwf1 & _ & Hl1);
    [change (2 ^ 4) with 16; lia | reflexivity |].
  rewrite E1.
  destruct (Bits_Write_spec b1 (slen s) (num_count_width v) Hwf1
              ltac:(lia) ltac:(lia)) as (b2 & E2 & Hwf2 & _ & Hl2).
  { pose proof (pow2_64 (num_count_width v) ltac:(lia)). lia. }
  rewrite E2.
  destruct (Num_groups_bits (bytes_of s) b2 Hwf2 Hd) as (b' & E & Hwf' & Hl').
  exists b'. split; [assumption|]. split; [assumption|].
  rewrite Hl', Hl2, Hl1, <- !app_assoc. reflexivity.
Qed.

Lemma Encoding_Encode_bits (sjis : codec) (t : Encoding) (v : Z) (b : Bits) :
  Bits_wf b -> Encoding_Check sjis t = None -> item_fits sjis v t ->
  exists b', Encoding_Encode sjis t b v = Some b' /\ Bits_wf b'
             /\ Bits_list b' = Bits_list b ++ item_bitlist sjis v t.
Proof.
  intros Hwf Hck Hfit.
  destruct t as [s|s|s|s];
    cbn [Encoding_Encode Encoding_Check item_fits item_bitlist] in *.
  - apply Num_Encode_bits; assumption.
  - apply Alpha_Encode_bits; assumption.
  - apply String_Encode_bits; assumption.
  - unfold Kanji_Check in Hck.
    destruct (sjis s) as [k|] eqn:Hk; [|discriminate].
    destruct Hfit as (Hev & Hkf & Hcnt).
    apply (Kanji_Encode_bits sjis s v b k); assumption.
Qed.

Lemma item_fits_even (sjis : codec) (v : Z) (t : Encoding) :
  item_fits sjis v t -> kanji_even sjis t.
Proof.
  destruct t as [s|s|s|s]; cbn [item_fits kanji_even]; auto.
  destruct (sjis s); [intros (Hev & _); exact Hev | auto].
Qed.

Lemma Encode_text_bits (sjis : codec) (v : Z) (text : list Encoding) (b : Bits) :
  Bits_wf b -> first_error sjis text = None -> Forall (item_fits sjis v) text ->
  exists b', Encode_text sjis text b v = Some (Ok b') /\ Bits_wf b'
             /\ Bits_list b' = Bits_list b ++ flat_map (item_bitlist sjis v) text.
Proof.
  revert b. induction text as [|t text IH]; intros b Hwf He Hfit;
    cbn [first_error Encode_text flat_map] in *.
  - exists b. rewrite app_nil_r. auto.
  - inversion Hfit as [|? ? Ht Hrest]; subst.
    destruct (Encoding_Check sjis t) as [e|] eqn:Hck; [discriminate|].
    destruct (Encoding_Encode_bits sjis t v b Hwf Hck Ht) as (b1 & E1 & Hwf1 & Hl1).
    rewrite E1. destruct (IH b1 Hwf1 He Hrest) as (b' & E & Hwf' & Hl').
    exists b'. split; [assumption|]. split; [assumption|].
    rewrite Hl', Hl1, <- app_assoc. reflexivity.
Qed.

Lemma Bits_Pad_bits (b : Bits) (n : Z) :
  Bits_wf b -> 0 <= n ->
  exists b', Bits_Pad b n = Some b' /\ Bits_wf b'
             /\ Bits_list b' = Bits_list b ++ pad_bits (b_nbit b) n.
Proof.
  intros Hwf Hn. unfold Bits_Pad, pad_bits.
  destruct (Z.ltb_spec n 0); [lia|].
  destruct (Z.leb_spec n 4) as [H4|H4].
  - destruct (Write_zeros b n Hwf Hn) as (b' & E & Hwf' & Hnb & Hl).
    exists b'. auto.
  - destruct (Write_zeros b 4 Hwf ltac:(lia)) as (b1 & E1 & Hwf1 & Hn1 & Hl1).
    rewrite E1. unfold Bits_Bits. rewrite Hn1, land_7_mod.
    set (fill := (- (b_nbit b + 4)) mod 8).
    assert (Hfill : 0 <= fill < 8) by (apply Z.mod_pos_bound; lia).
    destruct (Write_zeros b1 fill Hwf1 ltac:(lia)) as (b2 & E2 & Hwf2 & Hn2 & Hl2).
    rewrite E2.
    set (whole := Z.quot (n - 4 - fill) 8).
    destruct (Pad_loop_spec (S (Z.to_nat whole)) b2 0 whole Hwf2 eq_refl ltac:(lia))
      as (b' & E & Hwf' & Hn' & Hl').
    exists b'. split; [assumption|]. split; [assumption|].
    rewrite Hl', Hl2, Hl1, <- !app_assoc. reflexivity.
Qed.

(** The bits of a buffer of whole bytes. *)
Lemma Bits_list_bytes (b : Bits) :
  b_nbit b = 8 * zlen (b_b b) -> Bits_list b = flat_map byte_bits (b_b b).
Proof.
  intros Hn. unfold Bits_list. rewrite Hn. apply firstn_all2.
  assert (Hlen : forall l, length (flat_map byte_bits l) = (8 * length l)%nat).
  { induction l as [|x l IH]; [reflexivity|].
    cbn [flat_map]. rewrite length_app, IH. cbn [length].
    unfold byte_bits. rewrite length_map, zrange_length. lia. }
  rewrite Hlen. unfold zlen. lia.
Qed.


(** * Slices of index ranges *)

Lemma skipn_zrange (a b n : Z) :
  0 <= n <= b - a -> skipn (Z.to_nat n) (zrange a b) = zrange (a + n) b.
Proof.
  intros H. rewrite (zrange_app a (a + n) b) by lia.
  rewrite skipn_app, zrange_length.
  replace (Z.to_nat n - Z.to_nat (a + n - a))%nat with O by lia.
  rewrite skipn_all2 by (rewrite zrange_length; lia). reflexivity.
Qed.

Lemma firstn_zrange (a b n : Z) :
  0 <= n <= b - a -> firstn (Z.to_nat n) (zrange a b) = zrange a (a + n).
Proof.
  intros H. rewrite (zrange_app a (a + n) b) by lia.
  rewrite firstn_app, zrange_length.
  replace (Z.to_nat n - Z.to_nat (a + n - a))%nat with O by lia.
  rewrite firstn_O, app_nil_r.
  apply firstn_all2. rewrite zrange_length. lia.
Qed.

Lemma zslice_map_zrange (f : Z -> Z) (a b lo hi : Z) :
  0 <= lo <= hi -> hi <= b - a ->
  zslice (map f (zrange a b)) lo hi = Some (map f (zrange (a + lo) (a + hi))).
Proof.
  intros Hlo Hhi. unfold zslice. rewrite zlen_map, zlen_zrange by lia.
  destruct (Z.ltb_spec lo 0); [lia|]. destruct (Z.ltb_spec hi lo); [lia|].
  destruct (Z.ltb_spec (b - a) hi); [lia|]. cbn [orb]. f_equal.
  rewrite skipn_map, firstn_map, skipn_zrange, firstn_zrange by lia.
  do 2 f_equal. lia.
Qed.

Lemma zdrop_map_zrange (f : Z -> Z) (a b n : Z) :
  0 <= n <= b - a ->
  zdrop (map f (zrange a b)) n = Some (map f (zrange (a + n) b)).
Proof.
  intros Hn. unfold zdrop. rewrite zlen_map, zlen_zrange by lia.
  destruct (Z.ltb_spec n 0); [lia|]. destruct (Z.ltb_spec (b - a) n); [lia|].
  cbn [orb]. f_equal. now rewrite skipn_map, skipn_zrange by lia.
Qed.

Lemma zmake_some {A : Type} (z : A) (n : Z) :
  0 <= n -> zmake z n = Some (repeat z (Z.to_nat n)).
Proof. intros H. unfold zmake. destruct (Z.ltb_spec n 0); [lia | reflexivity]. Qed.

Lemma flat_map_ext_in {A B : Type} (f g : A -> list B) (l : list A) :
  (forall a, In a l -> f a = g a) -> flat_map f l = flat_map g l.
Proof.
  induction l as [|a l IH]; intros H; cbn [flat_map]; [reflexivity|].
  rewrite (H a) by now left. rewrite IH; [reflexivity|].
  intros b Hb. apply H. now right.
Qed.

Lemma concat_flat_map {A B : Type} (g : A -> list (list B)) (l : list A) :
  concat (flat_map g l) = flat_map (fun a => concat (g a)) l.
Proof.
  induction l as [|a l IH]; cbn [flat_map concat]; [reflexivity|].
  now rewrite concat_app, IH.
Qed.

Lemma zlen_flat_map_app {A B : Type} (g h : A -> list B) (l : list A) :
  zlen (flat_map (fun a => g a ++ h a) l)
  = zlen (flat_map g l) + zlen (flat_map h l).
Proof.
  induction l as [|a l IH]; cbn [flat_map]; [reflexivity|].
  rewrite !zlen_app, IH. lia.
Qed.

Lemma zlen_flat_map_if {B : Type} (x : Z -> B) (s n : Z) :
  0 <= s <= n ->
  zlen (flat_map (fun i => if i <? s then [x i] else []) (zrange 0 n)) = s.
Proof.
  intros H. rewrite (zrange_app 0 s n) by lia. rewrite flat_map_app, zlen_app.
  rewrite (flat_map_ext_in _ (fun i => [x i]) (zrange 0 s)).
  2:{ intros i Hi. apply in_zrange in Hi. destruct (Z.ltb_spec i s); [reflexivity|lia]. }
  rewrite (flat_map_ext_in _ (fun _ => []) (zrange s n)).
  2:{ intros i Hi. apply in_zrange in Hi. destruct (Z.ltb_spec i s); [lia|reflexivity]. }
  rewrite flat_map_concat_map, (flat_map_concat_map (fun _ => [])).
  unfold zlen. rewrite !length_concat.
  rewrite !map_map. cbn [length].
  assert (Hc : forall (l : list Z) (c : nat),
            list_sum (map (fun _ => c) l) = (c * length l)%nat).
  { induction l as [|a l IH]; intros c; cbn [map length].
    - unfold list_sum. cbn [fold_right]. lia.
    - change (list_sum (c :: ?t)) with (c + list_sum t)%nat.
      rewrite IH, Nat.mul_succ_r. lia. }
  rewrite !Hc, zrange_length. lia.
Qed.

(** * One pass of the interleaving *)

Section Passes.

Variable f : Z -> Z.
Variables st sz : Z -> Z.

Let block (j : Z) : list Z := map f (zrange (8 * st j) (8 * (st j + sz j))).

Lemma pass_chunks_app (i : Z) (js1 js2 : list Z) :
  pass_chunks f st sz i (js1 ++ js2)
  = pass_chunks f st sz i js1 ++ pass_chunks f st sz i js2.
Proof. unfold pass_chunks. apply flat_map_app. Qed.

Lemma concat_pass_chunks (i : Z) (js : list Z) :
  concat (pass_chunks f st sz i js)
  = flat_map (fun j => if i <? sz j then byte_pixels f (st j + i) else []) js.
Proof.
  unfold pass_chunks. rewrite concat_flat_map. apply flat_map_ext.
  intros j. destruct (i <? sz j); cbn [concat]; [apply app_nil_r | reflexivity].
Qed.

(** Byte [i] of every block long enough, in block order. *)
Lemma lplan_emit_pass (i : Z) (js : list Z) (out : list (list Z)) (room : Z) :
  0 <= i -> (forall j, In j js -> 0 <= sz j) ->
  8 * zlen (pass_chunks f st sz i js) <= room ->
  lplan_emit (map block js) (out, room) i
  = Some (rev (pass_chunks f st sz i js) ++ out,
          room - 8 * zlen (pass_chunks f st sz i js)).
Proof.
  intros Hi. unfold lplan_emit. revert out room.
  induction js as [|j js IH]; intros out room Hsz Hroom.
  - cbn. f_equal. f_equal. unfold zlen. cbn. lia.
  - cbn [map foldM].
    assert (Hj : 0 <= sz j) by (apply Hsz; now left).
    assert (Hlen : zlen (block j) = 8 * sz j).
    { unfold block. rewrite zlen_map, zlen_zrange; lia. }
    rewrite Hlen.
    change (pass_chunks f st sz i (j :: js))
      with ((if i <? sz j then [byte_pixels f (st j + i)] else [])
            ++ pass_chunks f st sz i js) in *.
    rewrite zlen_app in Hroom.
    destruct (Z.ltb_spec i (sz j)) as [Hlt|Hge].
    + destruct (Z.ltb_spec (i * 8) (8 * sz j)); [|lia].
      unfold block at 1. rewrite zslice_map_zrange by lia.
      pose proof (zlen_nonneg (pass_chunks f st sz i js)).
      change (zlen [byte_pixels f (st j + i)]) with 1 in Hroom.
      destruct (Z.ltb_spec room 8); [lia|].
      cbn [foldM]. 
      change (match ?a with Some x => @?k x | None => None end)
        with (match a with Some x => k x | None => None end).
      rewrite IH.
      * f_equal. f_equal.
        -- rewrite rev_app_distr. cbn [rev app].
           rewrite <- app_assoc. cbn [app]. unfold byte_pixels.
           replace (8 * st j + i * 8) with (8 * (st j + i)) by lia.
           replace (8 * st j + (i + 1) * 8) with (8 * (st j + i) + 8) by lia.
           reflexivity.
        -- rewrite zlen_app. change (zlen [byte_pixels f (st j + i)]) with 1. lia.
      * intros k Hk. apply Hsz. now right.
      * lia.
    + destruct (Z.ltb_spec (i * 8) (8 * sz j)); [lia|].
      cbn [app] in *. apply IH; [|assumption].
      intros k Hk. apply Hsz. now right.
Qed.

(** All passes up to [n]. *)
Lemma lplan_emit_passes (n : Z) (js : list Z) (out : list (list Z)) (room : Z) :
  0 <= n -> (forall j, In j js -> 0 <= sz j) ->
  8 * zlen (flat_map (fun i => pass_chunks f st sz i js) (zrange 0 n)) <= room ->
  foldM (lplan_emit (map block js)) (zrange 0 n) (out, room)
  = Some (rev (flat_map (fun i => pass_chunks f st sz i js) (zrange 0 n)) ++ out,
          room - 8 * zlen (flat_map (fun i => pass_chunks f st sz i js) (zrange 0 n))).
Proof.
  intros Hn Hsz. revert out room.
  pattern n. apply natlike_ind; [| |exact Hn].
  - intros out room _. rewrite zrange_nil by lia. cbn. f_equal. f_equal.
    unfold zlen; cbn; lia.
  - clear n Hn. intros n Hn IH out room. unfold Z.succ.
    rewrite zrange_snoc by lia. rewrite flat_map_app, zlen_app, foldM_app.
    cbn [flat_map]. rewrite app_nil_r. intros Hroom.
    pose proof (zlen_nonneg (pass_chunks f st sz n js)).
    rewrite IH by lia. cbn [foldM].
    rewrite lplan_emit_pass by (try assumption; lia).
    f_equal. f_equal; [|lia].
    now rewrite rev_app_distr, app_assoc.
Qed.

(** Each block contributes as many chunks as it has bytes. *)
Lemma pass_chunks_count (n k : Z) (acc : Z -> Z) :
  0 <= k -> (forall j, 0 <= j < k -> 0 <= sz j <= n) ->
  acc 0 = 0 -> (forall j, 0 <= j < k -> acc (j + 1) = acc j + sz j) ->
  zlen (flat_map (fun i => pass_chunks f st sz i (zrange 0 k)) (zrange 0 n)) = acc k.
Proof.
  intros Hk Hsz H0 Hacc. revert Hsz Hacc.
  pattern k. apply natlike_ind; [| |exact Hk].
  - intros _ _. rewrite zrange_nil by lia.
    rewrite (flat_map_ext_in _ (fun _ => [])) by reflexivity.
    rewrite H0. induction (zrange 0 n); [reflexivity | assumption].
  - clear k Hk. intros k Hk IH. unfold Z.succ. intros Hsz Hacc.
    rewrite zrange_snoc by lia.
    rewrite (flat_map_ext_in _
      (fun i => pass_chunks f st sz i (zrange 0 k)
                ++ (if i <? sz k then [byte_pixels f (st k + i)] else []))).
    2:{ intros i _. rewrite pass_chunks_app. f_equal.
        unfold pass_chunks. cbn [flat_map]. apply app_nil_r. }
    rewrite zlen_flat_map_app, IH, zlen_flat_map_if.
    + symmetry. apply Hacc. lia.
    + apply Hsz. lia.
    + intros j Hj. apply Hsz. lia.
    + intros j Hj. apply Hacc. lia.
Qed.

End Passes.

(** * Blocks *)

Section BlockArith.

Variables nb nde extra : Z.
Hypothesis Hnb : 0 < nb.
Hypothesis Hnde : 0 <= nde.
Hypothesis Hextra : 0 <= extra < nb.

Lemma block_start_0 : block_start nb nde extra 0 = 0.
Proof. unfold block_start. lia. Qed.

Lemma block_start_next (j : Z) :
  0 <= j ->
  block_start nb nde extra (j + 1)
  = block_start nb nde extra j + block_size nb nde extra j.
Proof.
  intros Hj. unfold block_start, block_size.
  destruct (Z.leb_spec (nb - extra) j); lia.
Qed.

Lemma block_start_end : block_start nb nde extra nb = nde * nb + extra.
Proof. unfold block_start. lia. Qed.

Lemma block_size_bounds (j : Z) : nde <= block_size nb nde extra j <= nde + 1.
Proof. unfold block_size. destruct (nb - extra <=? j); lia. Qed.

Lemma block_start_mono (j : Z) :
  0 <= j <= nb -> 0 <= block_start nb nde extra j <= nde * nb + extra.
Proof.
  intros Hj. unfold block_start. split; [nia|].
  destruct (Z.max_spec 0 (j - (nb - extra))) as [[_ ->]|[_ ->]]; nia.
Qed.

End BlockArith.

Section Blocks.

Variables nb nde extra ne : Z.
Hypothesis Hnb : 0 < nb.
Hypothesis Hnde : 0 <= nde.
Hypothesis Hextra : 0 <= extra < nb.
Hypothesis Hne : 0 <= ne.

Let dataBits := (nde * nb + extra) * 8.
Let checkBits := ne * nb * 8.

(** The splitting loop cuts the pixel streams into the blocks. *)
Lemma lplan_split_blocks :
  lplan_split nb nde extra ne
    (map data_pixel (zrange 0 dataBits))
    (map (check_pixel dataBits) (zrange 0 checkBits))
  = Some (map (data_block nb nde extra) (zrange 0 nb),
          map (check_block ne dataBits) (zrange 0 nb)).
Proof.
  unfold lplan_split.
  match goal with
  | |- context [foldM ?f (zrange 0 nb) ?s0] =>
      destruct (foldM_zrange_inv f
        (fun j s =>
           s = ((rev (map (data_block nb nde extra) (zrange 0 j)),
                 map data_pixel (zrange (8 * (block_start nb nde extra) j) dataBits)),
                (rev (map (check_block ne dataBits) (zrange 0 j)),
                 map (check_pixel dataBits) (zrange (8 * (j * ne)) checkBits))))
        0 nb s0) as [s [HF Hs]]
  end.
  - lia.
  - rewrite block_start_0 by lia. reflexivity.
  - intros j s Hj ->.
    assert (Hs : 0 <= (block_start nb nde extra) j <= nde * nb + extra)
      by (apply block_start_mono; lia).
    assert (Hs1 : 0 <= (block_start nb nde extra) (j + 1) <= nde * nb + extra)
      by (apply block_start_mono; lia).
    rewrite block_start_next in Hs1 by lia.
    assert ((if nb - extra <=? j then nde + 1 else nde) = (block_size nb nde extra) j) as ->
      by reflexivity.
    pose proof (block_size_bounds nb nde extra j) as Hsz.
    unfold dataBits, checkBits.
    rewrite zslice_map_zrange by nia.
    rewrite zdrop_map_zrange by nia.
    rewrite zslice_map_zrange by nia.
    rewrite zdrop_map_zrange by nia.
    eexists. split; [reflexivity|].
    rewrite !zrange_snoc, !map_app, !rev_app_distr by lia.
    cbn [map rev app]. rewrite block_start_next by lia.
    unfold data_block, check_block.
    replace (8 * (block_start nb nde extra) j + 0) with (8 * (block_start nb nde extra) j) by lia.
    replace (8 * (block_start nb nde extra) j + (block_size nb nde extra) j * 8) with (8 * ((block_start nb nde extra) j + (block_size nb nde extra) j)) by lia.
    replace (8 * (j * ne) + 0) with (8 * (j * ne)) by lia.
    replace (8 * (j * ne) + ne * 8) with (8 * (j * ne + ne)) by lia.
    replace (8 * ((j + 1) * ne)) with (8 * (j * ne + ne)) by lia.
    reflexivity.
  - rewrite HF, Hs. rewrite block_start_end by lia.
    unfold dataBits, checkBits.
    rewrite (zrange_nil (8 * (nde * nb + extra))) by lia.
    rewrite (zrange_nil (8 * (nb * ne))) by lia.
    cbn [map zlen length Z.of_nat Z.eqb negb orb].
    now rewrite !rev_involutive.
Qed.

(** The interleaved sequence of [lplan]. *)
Lemma lplan_bits_interleaved :
  lplan_bits nb nde extra ne
  = Some (interleave_data nb nde extra ++ interleave_check nb ne dataBits).
Proof.
  unfold lplan_bits. fold dataBits checkBits.
  assert (Hd : 0 <= dataBits) by (unfold dataBits; nia).
  assert (Hc : 0 <= checkBits) by (unfold checkBits; nia).
  rewrite !zmake_some by lia.
  rewrite !zlen_repeat, !Z2Nat.id by lia.
  change (fun i : Z => Z.lor (Role_Pixel Data) (OffsetPixel i)) with data_pixel.
  change (fun i : Z => Z.lor (Role_Pixel Check) (OffsetPixel (i + dataBits)))
    with (check_pixel dataBits).
  rewrite lplan_split_blocks.
  assert (Hcount1 :
    zlen (flat_map (fun i => pass_chunks data_pixel (block_start nb nde extra) (block_size nb nde extra) i (zrange 0 nb))
                   (zrange 0 (nde + 1))) = nde * nb + extra).
  { rewrite (pass_chunks_count data_pixel (block_start nb nde extra) (block_size nb nde extra) (nde + 1) nb (block_start nb nde extra)).
    - apply block_start_end. lia.
    - lia.
    - intros j _. pose proof (block_size_bounds nb nde extra j). lia.
    - apply block_start_0. lia.
    - intros j Hj. apply block_start_next. lia. }
  assert (Hcount2 :
    zlen (flat_map (fun i => pass_chunks (check_pixel dataBits)
                               (fun j => j * ne) (fun _ => ne) i (zrange 0 nb))
                   (zrange 0 ne)) = ne * nb).
  { rewrite (pass_chunks_count _ _ _ ne nb (fun j => j * ne)); lia. }
  unfold data_block, check_block.
  rewrite (lplan_emit_passes data_pixel (block_start nb nde extra) (block_size nb nde extra)).
  2: lia.
  2:{ intros j _. pose proof (block_size_bounds nb nde extra j). lia. }
  2:{ rewrite Hcount1. unfold dataBits, checkBits. nia. }
  rewrite (lplan_emit_passes (check_pixel dataBits) (fun j => j * ne) (fun _ => ne)).
  2: lia.
  2:{ intros j _. lia. }
  2:{ rewrite Hcount1, Hcount2. unfold dataBits, checkBits. nia. }
  rewrite Hcount1, Hcount2. cbn [snd fst].
  replace (dataBits + checkBits - 8 * (nde * nb + extra) - 8 * (ne * nb)) with 0
    by (unfold dataBits, checkBits; lia).
  cbn [Z.eqb negb]. f_equal.
  rewrite app_nil_r, rev_app_distr, !rev_involutive, concat_app.
  rewrite !concat_flat_map. f_equal.
  - unfold interleave_data. apply flat_map_ext. intros i.
    apply concat_pass_chunks.
  - unfold interleave_check. apply flat_map_ext_in. intros i Hi.
    rewrite concat_pass_chunks. apply flat_map_ext. intros j.
    apply in_zrange in Hi. destruct (Z.ltb_spec i ne); [reflexivity | lia].
Qed.

End Blocks.

(** * The block loop of [AddCheckBytes] *)

Section CheckBlocks.

Variable ecc : rs_encoder.
Variables nb nde extra ne : Z.
Hypothesis Hnb : 0 < nb.
Hypothesis Hnde : 0 <= nde.
Hypothesis Hextra : 0 <= extra < nb.
Hypothesis Hne : 0 <= ne.
Hypothesis ecc_len : forall d, zlen (ecc ne d) = ne.

Lemma rem8_0 (a k : Z) : 0 <= a -> 0 <= k -> Z.rem a 8 = 0 -> Z.rem (a + 8 * k) 8 = 0.
Proof.
  intros Ha Hk H. rewrite Z.rem_mod_nonneg in * by lia.
  replace (a + 8 * k) with (a + k * 8) by lia.
  rewrite Z.mod_add by lia. assumption.
Qed.

Lemma AddCheckBytes_blocks_split (b : Bits) (dat : list Z) :
  0 <= b_nbit b -> Z.rem (b_nbit b) 8 = 0 -> zlen dat = nde * nb + extra ->
  AddCheckBytes_blocks ecc nb ne nde extra b dat
  = Some {| b_b := b_b b ++ concat (map (fun j => ecc ne (block_bytes nb nde extra dat j))
                                        (zrange 0 nb));
            b_nbit := b_nbit b + 8 * (ne * nb) |}.
Proof.
  intros Hn0 Hal Hlen. unfold AddCheckBytes_blocks.
  match goal with
  | |- context [foldM ?f (zrange 0 nb) ?s0] =>
      destruct (foldM_zrange_inv f
        (fun j s =>
           s = ({| b_b := b_b b ++ concat (map (fun j => ecc ne (block_bytes nb nde extra dat j))
                                               (zrange 0 j));
                   b_nbit := b_nbit b + 8 * (ne * j) |},
                skipn (Z.to_nat (block_start nb nde extra j)) dat,
                if nb - extra <? j then nde + 1 else nde))
        0 nb s0) as [s [HF Hs]]
  end.
  - lia.
  - rewrite block_start_0 by lia. cbn [Z.to_nat skipn].
    rewrite zrange_nil by lia. cbn [map concat]. rewrite app_nil_r.
    destruct (Z.ltb_spec (nb - extra) 0); [lia|].
    replace (b_nbit b + 8 * (ne * 0)) with (b_nbit b) by lia.
    destruct b; reflexivity.
  - intros j s Hj ->.
    assert (Hst : 0 <= block_start nb nde extra j <= nde * nb + extra)
      by (apply block_start_mono; lia).
    assert (Hst1 : 0 <= block_start nb nde extra (j + 1) <= nde * nb + extra)
      by (apply block_start_mono; lia).
    rewrite block_start_next in Hst1 by lia.
    pose proof (block_size_bounds nb nde extra j) as Hsz.
    assert (Hdb : (if j =? nb - extra
                   then (if nb - extra <? j then nde + 1 else nde) + 1
                   else if nb - extra <? j then nde + 1 else nde)
                  = block_size nb nde extra j).
    { unfold block_size.
      destruct (Z.eqb_spec j (nb - extra)); destruct (Z.ltb_spec (nb - extra) j);
        destruct (Z.leb_spec (nb - extra) j); lia. }
    rewrite Hdb.
    assert (Hl : zlen (skipn (Z.to_nat (block_start nb nde extra j)) dat)
                 = nde * nb + extra - block_start nb nde extra j).
    { unfold zlen in *. rewrite length_skipn. lia. }
    unfold zslice, zdrop. rewrite Hl.
    destruct (Z.ltb_spec 0 0); [lia|].
    destruct (Z.ltb_spec (block_size nb nde extra j) 0); [lia|].
    destruct (Z.ltb_spec (nde * nb + extra - block_start nb nde extra j)
                         (block_size nb nde extra j)); [lia|].
    cbn [orb]. unfold Bits_Append. cbn [b_nbit b_b].
    rewrite (rem8_0 (b_nbit b) (ne * j)) by (try assumption; nia).
    cbn [Z.eqb negb]. eexists. split; [reflexivity|].
    rewrite zrange_snoc, map_app, concat_app by lia. cbn [map concat].
    rewrite app_nil_r, <- app_assoc, ecc_len.
    rewrite block_start_next by lia.
    f_equal; [f_equal|].
    + f_equal.
      * cbn [Z.to_nat skipn]. rewrite Z.sub_0_r. reflexivity.
      * lia.
    + rewrite skipn_skipn. f_equal. lia.
    + unfold block_size.
      destruct (Z.ltb_spec (nb - extra) (j + 1)); destruct (Z.leb_spec (nb - extra) j);
        lia.
  - rewrite HF, Hs. reflexivity.
Qed.

End CheckBlocks.

(** * Padding to the data capacity *)

Lemma Pad_loop_shape (fuel : nat) (b : Bits) (i pad : Z) :
  Bits_shape b -> Z.max 0 (pad - i) < Z.of_nat fuel ->
  exists b', Pad_loop fuel b i pad = Some b'
             /\ Bits_shape b'
             /\ b_nbit b' = b_nbit b + 8 * Z.max 0 (pad - i).
Proof.
  revert b i; induction fuel as [|k IH]; intros b i Hsh Hfuel; [lia|].
  cbn [Pad_loop]. destruct (Z.ltb_spec i pad) as [Hlt|Hge].
  - destruct (Bits_Write_shape b 0xec 8 Hsh) as (b1 & E1 & Hsh1 & Hn1).
    rewrite E1. destruct (Z.leb_spec pad (i + 1)) as [Hlast|Hmore].
    + exists b1. split; [reflexivity|]. split; [assumption | lia].
    + destruct (Bits_Write_shape b1 0x11 8 Hsh1) as (b2 & E2 & Hsh2 & Hn2).
      rewrite E2.
      destruct (IH b2 (i + 2) Hsh2 ltac:(lia)) as (b' & E & Hsh' & Hn').
      exists b'. split; [assumption|]. split; [assumption | lia].
  - exists b. split; [reflexivity|]. split; [assumption | lia].
Qed.

(** Padding up to a byte boundary ends exactly there. *)
Lemma Bits_Pad_to (b : Bits) (n : Z) :
  Bits_shape b -> 0 <= n -> (b_nbit b + n) mod 8 = 0 ->
  exists b', Bits_Pad b n = Some b'
             /\ Bits_shape b'
             /\ b_nbit b' = b_nbit b + n.
Proof.
  intros Hsh Hn Hal. unfold Bits_Pad.
  destruct (Z.ltb_spec n 0); [lia|].
  destruct (Z.leb_spec n 4) as [H4|H4].
  - destruct (Bits_Write_shape b 0 n Hsh) as (b' & E & Hsh' & Hnb).
    exists b'. split; [assumption|]. split; [assumption | lia].
  - destruct (Bits_Write_shape b 0 4 Hsh) as (b1 & E1 & Hsh1 & Hn1).
    rewrite E1. unfold Bits_Bits. rewrite Hn1, land_7_mod.
    change (Z.max 4 0) with 4 in *.
    set (fill := (- (b_nbit b + 4)) mod 8).
    assert (Hfill : 0 <= fill < 8) by (apply Z.mod_pos_bound; lia).
    destruct (Bits_Write_shape b1 0 fill Hsh1) as (b2 & E2 & Hsh2 & Hn2).
    rewrite E2.
    assert (Hdiv : (n - 4 - fill) mod 8 = 0).
    { unfold fill.
      replace (n - 4 - (- (b_nbit b + 4)) mod 8)
        with ((b_nbit b + n) + (- (b_nbit b + 4) - (- (b_nbit b + 4)) mod 8)) by lia.
      rewrite Z.add_mod, Hal by lia.
      pose proof (Z.div_mod (- (b_nbit b + 4)) 8 ltac:(lia)) as Ed.
      replace (- (b_nbit b + 4) - (- (b_nbit b + 4)) mod 8)
        with ((- (b_nbit b + 4)) / 8 * 8) by lia.
      rewrite Z.mod_mul by lia. reflexivity. }
    assert (Hge : 0 <= n - 4 - fill).
    { pose proof (Z.div_mod (n - 4 - fill) 8 ltac:(lia)) as Ed.
      rewrite Hdiv in Ed. lia. }
    set (whole := Z.quot (n - 4 - fill) 8).
    assert (Hwhole : 8 * whole = n - 4 - fill).
    { unfold whole. rewrite Z.quot_div_nonneg by lia.
      pose proof (Z.div_mod (n - 4 - fill) 8 ltac:(lia)) as Ed. lia. }
    destruct (Pad_loop_shape (S (Z.to_nat whole)) b2 0 whole Hsh2 ltac:(lia))
      as (b' & E & Hsh' & Hn').
    exists b'. split; [assumption|]. split; [assumption | lia].
Qed.

Lemma shape_full (b : Bits) (n : Z) :
  Bits_shape b -> b_nbit b = 8 * n -> zlen (b_b b) = n.
Proof. unfold Bits_shape, Bits_room. lia. Qed.

(** * The layout table *)

Lemma layouts_ok_true : layouts_ok = true.
Proof. vm_compute. reflexivity. Qed.

Lemma layout_facts (v l : Z) :
  1 <= v <= 40 -> 0 <= l <= 3 ->
  zget vtab v = Some (version_at v)
  /\ zget (levels (version_at v)) l = Some (level_at v l)
  /\ 0 < lay_nb v l /\ 0 <= lay_ne v l /\ 0 < lay_nd v l
  /\ 0 <= lay_nde v l /\ 0 <= lay_extra v l < lay_nb v l
  /\ lay_nd v l = lay_nde v l * lay_nb v l + lay_extra v l
  /\ Z.quot (lay_nd v l) (lay_nb v l) = lay_nde v l
  /\ Z.rem (lay_nd v l) (lay_nb v l) = lay_extra v l.
Proof.
  intros Hv Hl. pose proof layouts_ok_true as H. unfold layouts_ok in H.
  apply andb_prop in H. destruct H as [Hlen Hall].
  apply Z.eqb_eq in Hlen.
  pose proof (zrange_forallb _ 1 41 Hall v ltac:(lia)) as Hvl. cbv beta in Hvl.
  pose proof (zrange_forallb _ 0 4 Hvl l ltac:(lia)) as Hok.
  unfold layout_ok in Hok.
  apply andb_prop in Hok. destruct Hok as [Hok _].
  apply andb_prop in Hok. destruct Hok as [Hok H4].
  apply andb_prop in Hok. destruct Hok as [Hok Hnd].
  apply andb_prop in Hok. destruct Hok as [Hnb Hne].
  apply Z.ltb_lt in Hnb, Hnd. apply Z.leb_le in Hne. apply Z.eqb_eq in H4.
  split; [apply zget_some; lia|]. split; [apply zget_some; lia|].
  unfold lay_nde, lay_extra.
  pose proof (Z.div_mod (lay_nd v l) (lay_nb v l) ltac:(lia)).
  pose proof (Z.mod_pos_bound (lay_nd v l) (lay_nb v l) ltac:(lia)).
  pose proof (Z.div_pos (lay_nd v l) (lay_nb v l) ltac:(lia) ltac:(lia)).
  repeat split; try lia.
  - apply Z.quot_div_nonneg; lia.
  - apply Z.rem_mod_nonneg; lia.
Qed.

Lemma bytes_bound (v : Z) : 1 <= v <= 40 -> 0 < bytes (version_at v) < 4096.
Proof.
  intros Hv. pose proof layouts_ok_true as H. unfold layouts_ok in H.
  apply andb_prop in H. destruct H as [_ Hall].
  pose proof (zrange_forallb _ 1 41 Hall v ltac:(lia)) as Hvl. cbv beta in Hvl.
  pose proof (zrange_forallb _ 0 4 Hvl 0 ltac:(lia)) as Hok.
  unfold layout_ok in Hok.
  apply andb_prop in Hok. destruct Hok as [Hok Hb].
  apply andb_prop in Hok. destruct Hok as [Hok _].
  apply andb_prop in Hok. destruct Hok as [Hok Hnd].
  apply andb_prop in Hok. destruct Hok as [Hnb Hne].
  apply Z.ltb_lt in Hnb, Hnd, Hb. apply Z.leb_le in Hne.
  unfold lay_nd in Hnd. nia.
Qed.

(** [lplan] sweeps the interleaved sequence over the free cells. *)
Lemma lplan_interleaved (v l : Z) (p : Plan) :
  1 <= v <= 40 -> 0 <= l <= 3 ->
  lplan v l p
  = (let siz := grid_len (Pixel p) in
     r <- sweep (Z.to_nat siz) siz siz
            (Pixel p,
             (interleave_data (lay_nb v l) (lay_nde v l) (lay_extra v l)
              ++ interleave_check (lay_nb v l) (lay_ne v l) (lay_nd v l * 8))
             ++ repeat (Role_Pixel Extra) 7) ;;
     Some {| Version := Version p; Level := l; Mask := Mask p;
             DataBytes := lay_nd v l;
             CheckBytes := lay_ne v l * lay_nb v l;
             Blocks := lay_nb v l;
             Pixel := fst r; PlanCode := PlanCode p |}).
Proof.
  intros Hv Hl.
  destruct (layout_facts v l Hv Hl)
    as (Evt & Elv & Hnb & Hne & Hnd & Hnde & Hex & Esum & Eq & Er).
  unfold lplan. rewrite Evt, Elv.
  fold (lay_nb v l) (lay_ne v l). fold (lay_nd v l).
  destruct (Z.eqb_spec (lay_nb v l) 0); [lia|].
  rewrite Eq, Er.
  rewrite lplan_bits_interleaved by lia.
  rewrite <- Esum. reflexivity.
Qed.

(** [AddCheckBytes] pads to the data capacity and appends the check bytes
    of each block in turn. *)
Lemma Bits_AddCheckBytes_blocks (ecc : rs_encoder) (b : Bits) (v l : Z) :
  1 <= v <= 40 -> 0 <= l <= 3 ->
  (forall d, zlen (ecc (lay_ne v l) d) = lay_ne v l) ->
  Bits_shape b -> b_nbit b <= lay_nd v l * 8 ->
  exists b',
    (if b_nbit b <? lay_nd v l * 8
     then Bits_Pad b (lay_nd v l * 8 - b_nbit b) else Some b) = Some b'
    /\ Bits_shape b' /\ b_nbit b' = lay_nd v l * 8
    /\ zlen (b_b b') = lay_nd v l
    /\ Bits_AddCheckBytes ecc b v l
       = Some {| b_b := b_b b'
                        ++ concat (map (fun j => ecc (lay_ne v l)
                                                   (block_bytes (lay_nb v l) (lay_nde v l)
                                                      (lay_extra v l) (b_b b') j))
                                       (zrange 0 (lay_nb v l)));
                 b_nbit := bytes (version_at v) * 8 |}.
Proof.
  intros Hv Hl Hecc Hsh Hcap.
  destruct (layout_facts v l Hv Hl)
    as (Evt & Elv & Hnb & Hne & Hnd & Hnde & Hex & Esum & Eq & Er).
  assert (exists b',
    (if b_nbit b <? lay_nd v l * 8
     then Bits_Pad b (lay_nd v l * 8 - b_nbit b) else Some b) = Some b'
    /\ Bits_shape b' /\ b_nbit b' = lay_nd v l * 8) as (b' & Epad & Hsh' & Hn').
  { destruct (Z.ltb_spec (b_nbit b) (lay_nd v l * 8)).
    - destruct (Bits_Pad_to b (lay_nd v l * 8 - b_nbit b) Hsh ltac:(lia))
        as (b' & E & Hsh' & Hn').
      + replace (b_nbit b + (lay_nd v l * 8 - b_nbit b)) with (lay_nd v l * 8) by lia.
        apply Z.mod_mul. lia.
      + exists b'. split; [assumption|]. split; [assumption | lia].
    - exists b. split; [reflexivity|]. split; [assumption | lia]. }
  assert (Hlen : zlen (b_b b') = lay_nd v l) by (apply shape_full; [assumption | lia]).
  exists b'. split; [assumption|]. split; [assumption|]. split; [assumption|].
  split; [assumption|].
  unfold Bits_AddCheckBytes, Version_DataBytes. rewrite Evt, Elv.
  fold (lay_nb v l) (lay_ne v l).
  replace (bytes (version_at v) - lay_nb v l * lay_ne v l) with (lay_nd v l)
    by (unfold lay_nd; lia).
  rewrite Epad, Hn', Z.eqb_refl. cbn [negb].
  assert (Hrem : Z.rem (b_nbit b') 8 = 0).
  { rewrite Hn', Z.rem_mod_nonneg by lia. apply Z.mod_mul. lia. }
  unfold Bits_Bytes at 1. rewrite Hrem. cbn [Z.eqb negb].
  destruct (Z.eqb_spec (lay_nb v l) 0); [lia|].
  rewrite zmake_some by lia. rewrite Eq, Er.
  rewrite (AddCheckBytes_blocks_split ecc (lay_nb v l) (lay_nde v l) (lay_extra v l)
             (lay_ne v l)) by (try assumption; lia).
  unfold Bits_Bytes. cbn [b_nbit b_b].
  assert (Hrem' : Z.rem (b_nbit b' + 8 * (lay_ne v l * lay_nb v l)) 8 = 0).
  { apply rem8_0; [lia | nia | assumption]. }
  rewrite Hrem'. cbn [Z.eqb negb].
  assert (Hcl : zlen (concat (map (fun j => ecc (lay_ne v l)
                                  (block_bytes (lay_nb v l) (lay_nde v l)
                                     (lay_extra v l) (b_b b') j))
                               (zrange 0 (lay_nb v l))))
                = lay_ne v l * lay_nb v l).
  { assert (Hg : forall js : list Z,
      zlen (concat (map (fun j => ecc (lay_ne v l)
                                  (block_bytes (lay_nb v l) (lay_nde v l)
                                     (lay_extra v l) (b_b b') j)) js))
      = lay_ne v l * zlen js).
    { induction js as [|j js IH]; cbn [map concat]; [unfold zlen; cbn; lia|].
      rewrite zlen_app, IH, Hecc, zlen_cons. lia. }
    rewrite Hg, zlen_zrange by lia. lia. }
  rewrite zlen_app, Hlen, Hcl.
  replace (lay_nd v l + lay_ne v l * lay_nb v l) with (bytes (version_at v))
    by (unfold lay_nd; lia).
  rewrite Z.eqb_refl. cbn [negb]. do 2 f_equal. rewrite Hn'. unfold lay_nd. lia.
Qed.


(** * The block layout *)

(** C4: for every version 1..40 and level L..H, with [nb] blocks of [ne]
    check bytes, [nde = (totalBytes - ne*nb) / nb] and
    [extra = (totalBytes - ne*nb) mod nb]: the blocks tile the data bytes,
    block [j] holding [nde] bytes, or [nde + 1] when [j >= nb - extra];
    [lplan] sweeps over the free cells the pixels of byte [i] of every block
    in block order for increasing [i] (skipping the blocks too short for byte
    [i]), then the check bytes likewise, then seven Extra pixels; and
    [AddCheckBytes] pads the data to capacity and appends, block after block,
    the check bytes of exactly these blocks. *)
Theorem block_layout (ecc : rs_encoder) (v l : Z) (p : Plan) (b : Bits) :
  1 <= v <= 40 -> 0 <= l <= 3 ->
  (forall d, zlen (ecc (lay_ne v l) d) = lay_ne v l) ->
  Bits_shape b -> b_nbit b <= lay_nd v l * 8 ->
  let nb := lay_nb v l in
  let ne := lay_ne v l in
  let nde := lay_nde v l in
  let extra := lay_extra v l in
  Version_DataBytes v l = Some (lay_nd v l)
  /\ 0 < nb /\ 0 <= extra < nb /\ lay_nd v l = nde * nb + extra
  /\ block_start nb nde extra 0 = 0
  /\ (forall j, 0 <= j < nb ->
        block_start nb nde extra (j + 1)
        = block_start nb nde extra j + (if nb - extra <=? j then nde + 1 else nde))
  /\ block_start nb nde extra nb = lay_nd v l
  /\ lplan v l p
     = (let siz := grid_len (Pixel p) in
        r <- sweep (Z.to_nat siz) siz siz
               (Pixel p,
                (interleave_data nb nde extra
                 ++ interleave_check nb ne (lay_nd v l * 8))
                ++ repeat (Role_Pixel Extra) 7) ;;
        Some {| Version := Version p; Level := l; Mask := Mask p;
                DataBytes := lay_nd v l;
                CheckBytes := ne * nb;
                Blocks := nb;
                Pixel := fst r; PlanCode := PlanCode p |})
  /\ exists b',
       (if b_nbit b <? lay_nd v l * 8
        then Bits_Pad b (lay_nd v l * 8 - b_nbit b) else Some b) = Some b'
       /\ zlen (b_b b') = lay_nd v l
       /\ Bits_AddCheckBytes ecc b v l
          = Some {| b_b := b_b b'
                           ++ concat (map (fun j => ecc ne (block_bytes nb nde extra (b_b b') j))
                                          (zrange 0 nb));
                    b_nbit := bytes (version_at v) * 8 |}.
Proof.
  intros Hv Hl Hecc Hsh Hcap nb ne nde extra.
  destruct (layout_facts v l Hv Hl)
    as (Evt & Elv & Hnb & Hne & Hnd & Hnde & Hex & Esum & Eq & Er).
  split.
  { unfold Version_DataBytes. rewrite Evt, Elv. unfold lay_nd, lay_ne, lay_nb.
    do 2 f_equal. lia. }
  split; [assumption|]. split; [assumption|]. split; [assumption|].
  split; [apply block_start_0; assumption|].
  split; [intros j Hj; apply block_start_next; lia|].
  split; [rewrite Esum; apply block_start_end; assumption|].
  split; [apply lplan_interleaved; assumption|].
  destruct (Bits_AddCheckBytes_blocks ecc b v l Hv Hl Hecc Hsh Hcap)
    as (b' & Epad & _ & _ & Hlen & E).
  exists b'. auto.
Qed.

Lemma block_layout_witness :
  Version_DataBytes 5 2 = Some (lay_nd 5 2)
  /\ 0 < lay_nb 5 2 /\ 0 <= lay_extra 5 2 < lay_nb 5 2.
Proof.
  pose (p := {| Version := 5; Level := 0; Mask := 0; DataBytes := 0;
                CheckBytes := 0; Blocks := 0;
                Pixel := {| rows := 0; cols := 0;
                            cells := PositiveMap.empty (PositiveMap.t Z) |};
                PlanCode := {| Bitmap := []; Size := 0; Stride := 0 |} |}).
  assert (H1 : 1 <= 5 <= 40) by lia.
  assert (H2 : 0 <= 2 <= 3) by lia.
  assert (H3 : forall d : list Z,
             zlen ((fun c _ => repeat 0 (Z.to_nat c)) (lay_ne 5 2) d) = lay_ne 5 2)
    by (intros d; reflexivity).
  assert (H4 : Bits_shape Bits_zero) by (unfold Bits_shape; cbn; lia).
  assert (H5 : b_nbit Bits_zero <= lay_nd 5 2 * 8) by (vm_compute; discriminate).
  destruct (block_layout (fun c _ => repeat 0 (Z.to_nat c)) 5 2 p Bits_zero
              H1 H2 H3 H4 H5) as (E & Hnb & Hex & _).
  split; [exact E|]. split; [exact Hnb | exact Hex].
Defined.


(** * Pixel maps *)

Lemma zkey_inj (i j : Z) : 0 <= i -> 0 <= j -> zkey i = zkey j -> i = j.
Proof. unfold zkey. intros Hi Hj H. apply Z2Pos.inj in H; lia. Qed.

Lemma in_grid_iff (g : Grid) (y x : Z) :
  in_grid g y x = true <-> 0 <= y < rows g /\ 0 <= x < cols g.
Proof.
  unfold in_grid. rewrite !andb_true_iff, !Z.leb_le, !Z.ltb_lt. lia.
Qed.

Lemma zget2_some (g : Grid) (y x : Z) :
  0 <= y < rows g -> 0 <= x < cols g -> zget2 g y x = Some (cell g y x).
Proof.
  intros Hy Hx. unfold zget2.
  now rewrite (proj2 (in_grid_iff g y x) (conj Hy Hx)).
Qed.

Lemma zget2_inv (g : Grid) (y x a : Z) :
  zget2 g y x = Some a -> 0 <= y < rows g /\ 0 <= x < cols g /\ a = cell g y x.
Proof.
  unfold zget2. destruct (in_grid g y x) eqn:E; [|discriminate].
  apply in_grid_iff in E. intros [= <-]. tauto.
Qed.

Lemma zset2_some (g : Grid) (y x a : Z) :
  0 <= y < rows g -> 0 <= x < cols g -> exists g', zset2 g y x a = Some g'.
Proof.
  intros Hy Hx. unfold zset2.
  rewrite (proj2 (in_grid_iff g y x) (conj Hy Hx)). eauto.
Qed.

Lemma zset2_inv (g g' : Grid) (y x a : Z) :
  zset2 g y x a = Some g' ->
  0 <= y < rows g /\ 0 <= x < cols g
  /\ rows g' = rows g /\ cols g' = cols g
  /\ forall y' x', 0 <= y' -> 0 <= x' ->
       cell g' y' x' = if (y' =? y) && (x' =? x) then a else cell g y' x'.
Proof.
  unfold zset2. destruct (in_grid g y x) eqn:E; [|discriminate].
  apply in_grid_iff in E. intros [= <-]. cbn [rows cols].
  split; [tauto|]. split; [tauto|]. split; [reflexivity|]. split; [reflexivity|].
  intros y' x' Hy' Hx'. unfold cell, grid_row. cbn [cells].
  destruct (Z.eqb_spec y' y) as [->|Hne].
  - rewrite PositiveMap.gss. cbn [andb].
    destruct (Z.eqb_spec x' x) as [->|Hnx].
    + now rewrite PositiveMap.gss.
    + rewrite PositiveMap.gso; [reflexivity|].
      intros Hk. apply zkey_inj in Hk; lia.
  - cbn [andb]. rewrite PositiveMap.gso; [reflexivity|].
    intros Hk. apply zkey_inj in Hk; lia.
Qed.

Lemma cells_forall_spec (g : Grid) (P : Z -> Z -> Z -> bool) :
  cells_forall g P = true ->
  forall y x, 0 <= y < rows g -> 0 <= x < cols g -> P y x (cell g y x) = true.
Proof.
  intros H y x Hy Hx. unfold cells_forall in H.
  pose proof (zrange_forallb _ 0 (rows g) H y Hy) as Hr. cbv beta in Hr.
  exact (zrange_forallb _ 0 (cols g) Hr x Hx).
Qed.

(** * Pixels *)

Ltac pow_lia :=
  change (2 ^ 4) with 16 in *; change (2 ^ 28) with 268435456 in *;
  change (2 ^ 32) with 4294967296 in *; lia.

Lemma Pixel_Role_lor (r o : Z) :
  0 <= r < 16 -> 0 <= o < 2 ^ 28 ->
  Pixel_Role (Z.lor (Role_Pixel r) (OffsetPixel o)) = r.
Proof.
  intros Hr Ho. unfold Pixel_Role, Role_Pixel, OffsetPixel, uint32.
  change 15 with (Z.ones 4). rewrite Z.land_ones by lia.
  rewrite Z.shiftl_mul_pow2 by lia.
  change 0xFFFFFFFF with (Z.ones 32). rewrite Z.land_ones by lia.
  rewrite (Z.mod_small (o * 2 ^ 4)) by pow_lia.
  rewrite <- Z.shiftl_mul_pow2 by lia.
  rewrite <- Z.land_ones by lia.
  rewrite Z.land_lor_distr_l.
  assert (Z.land (Z.shiftl o 4) (Z.ones 4) = 0) as ->.
  { rewrite Z.land_ones by lia. rewrite Z.shiftl_mul_pow2 by lia.
    apply Z.mod_mul. lia. }
  rewrite Z.lor_0_r, Z.land_ones by lia. apply Z.mod_small. pow_lia.
Qed.

Lemma Pixel_Offset_lor (r o : Z) :
  0 <= r < 16 -> 0 <= o < 2 ^ 28 ->
  Pixel_Offset (Z.lor (Role_Pixel r) (OffsetPixel o)) = o.
Proof.
  intros Hr Ho. unfold Pixel_Offset, Role_Pixel, OffsetPixel, uint32.
  rewrite Z.shiftl_mul_pow2 by lia.
  change 0xFFFFFFFF with (Z.ones 32). rewrite Z.land_ones by lia.
  rewrite (Z.mod_small (o * 2 ^ 4)) by pow_lia.
  rewrite <- Z.shiftl_mul_pow2 by lia.
  rewrite Z.shiftr_lor, Z.shiftr_shiftl_l by lia.
  rewrite Z.sub_diag, Z.shiftl_0_r.
  rewrite Z.shiftr_div_pow2 by lia. rewrite Z.div_small; [apply Z.lor_0_l|].
  pow_lia.
Qed.

Lemma Pixel_Role_range (px : Z) : 0 <= Pixel_Role px < 16.
Proof.
  unfold Pixel_Role. change 15 with (Z.ones 4).
  rewrite Z.land_ones by lia. apply Z.mod_pos_bound. reflexivity.
Qed.

Lemma data_pixel_role (o : Z) : 0 <= o < 2 ^ 28 -> Pixel_Role (data_pixel o) = Data.
Proof. intros H. apply Pixel_Role_lor; [unfold Data; lia | assumption]. Qed.

Lemma data_pixel_offset (o : Z) : 0 <= o < 2 ^ 28 -> Pixel_Offset (data_pixel o) = o.
Proof. intros H. apply Pixel_Offset_lor; [unfold Data; lia | assumption]. Qed.

Lemma check_pixel_role (d o : Z) :
  0 <= o + d < 2 ^ 28 -> Pixel_Role (check_pixel d o) = Check.
Proof. intros H. apply Pixel_Role_lor; [unfold Check; lia | assumption]. Qed.

Lemma check_pixel_offset (d o : Z) :
  0 <= o + d < 2 ^ 28 -> Pixel_Offset (check_pixel d o) = o + d.
Proof. intros H. apply Pixel_Offset_lor; [unfold Check; lia | assumption]. Qed.

(** * The sweep on numbered pixels *)

Lemma skipn_nth {A : Type} (l : list A) (a : Z) (d : A) :
  0 <= a < zlen l ->
  skipn (Z.to_nat a) l = nth (Z.to_nat a) l d :: skipn (Z.to_nat (a + 1)) l.
Proof.
  unfold zlen. intros Ha.
  replace (Z.to_nat (a + 1)) with (S (Z.to_nat a)) by lia.
  assert (Hn : (Z.to_nat a < length l)%nat) by lia.
  revert Hn. generalize (Z.to_nat a). clear Ha a.
  induction l as [|h t IH]; intros n Hn; cbn [length] in Hn; [lia|].
  destruct n as [|n]; [reflexivity|].
  cbn [skipn nth]. apply IH. lia.
Qed.

Section Relabel.

Variable full : list Z.
Hypothesis full_roles : Forall (fun px => Pixel_Role px <> 0) full.
Hypothesis full_len : zlen full < 2 ^ 28.

Lemma full_nth_role (k : Z) :
  0 <= k < zlen full -> Pixel_Role (nth (Z.to_nat k) full 0) <> 0.
Proof.
  intros Hk. rewrite Forall_forall in full_roles. apply full_roles.
  apply nth_In. unfold zlen in Hk. lia.
Qed.

Lemma sweep_cell_sim (y c : Z) (s1 s1' s2 : Grid * list Z) :
  sweep_sim full s1 s2 -> sweep_cell y c s1 = Some s1' ->
  exists s2', sweep_cell y c s2 = Some s2' /\ sweep_sim full s1' s2'.
Proof.
  destruct s1 as [g1 src1], s2 as [g2 src2].
  intros (a & Ha & E1 & E2 & Hr1 & Hc1 & Hcell) H. cbn [fst snd] in *.
  unfold sweep_cell in *.
  destruct (zget2 g1 y c) as [pix|] eqn:Eg; [|discriminate].
  apply zget2_inv in Eg. destruct Eg as (Hy & Hx & ->).
  rewrite zget2_some by lia.
  destruct (Hcell y c Hy Hx) as [Hrel Hoff].
  destruct (Z.eqb_spec (Pixel_Role (cell g1 y c)) 0) as [Hz|Hnz].
  - assert (Hsame : cell g2 y c = cell g1 y c).
    { rewrite Hrel. unfold relabel. rewrite Hz. reflexivity. }
    rewrite Hsame, Hz. cbn [Z.eqb].
    destruct (Z.eq_dec a (zlen full)) as [->|Hlt].
    { rewrite zrange_nil in E1 by lia. subst src1. discriminate. }
    rewrite (zrange_cons a) in E1 by lia. subst src1. cbn [map] in H.
    destruct (zset2 g1 y c (data_pixel a)) as [g1'|] eqn:Es1; [|discriminate].
    injection H as <-.
    rewrite E2, (skipn_nth full a 0) by lia.
    destruct (zset2_some g2 y c (nth (Z.to_nat a) full 0)) as [g2' Es2]; [lia..|].
    rewrite Es2. eexists. split; [reflexivity|].
    apply zset2_inv in Es1. destruct Es1 as (_ & _ & Hr1' & Hc1' & Hcell1).
    apply zset2_inv in Es2. destruct Es2 as (_ & _ & Hr2' & Hc2' & Hcell2).
    exists (a + 1). cbn [fst snd].
    split; [lia|]. split; [reflexivity|]. split; [reflexivity|].
    split; [lia|]. split; [lia|].
    intros y' x' Hy' Hx'. rewrite Hr1' in Hy'. rewrite Hc1' in Hx'.
    rewrite Hcell1, Hcell2 by lia.
    destruct ((y' =? y) && (x' =? c)).
    + unfold relabel. rewrite data_pixel_role, data_pixel_offset by lia.
      cbn [Z.eqb Data Pos.eqb]. split; [reflexivity | lia].
    + destruct (Hcell y' x' Hy' Hx') as [Hrel' Hoff']. split; [assumption|].
      intros HD. specialize (Hoff' HD). lia.
  - assert (Hnz2 : Pixel_Role (cell g2 y c) <> 0).
    { rewrite Hrel. unfold relabel.
      destruct (Z.eqb_spec (Pixel_Role (cell g1 y c)) Data) as [HD|HD].
      - apply full_nth_role. specialize (Hoff HD). lia.
      - assumption. }
    destruct (Z.eqb_spec (Pixel_Role (cell g2 y c)) 0); [contradiction|].
    injection H as <-. eexists. split; [reflexivity|].
    exists a. cbn [fst snd].
    split; [assumption|]. split; [assumption|]. split; [assumption|].
    split; [assumption|]. split; [assumption|]. exact Hcell.
Qed.

Lemma sweep_row_sim (x y : Z) (s1 s1' s2 : Grid * list Z) :
  sweep_sim full s1 s2 -> sweep_row x s1 y = Some s1' ->
  exists s2', sweep_row x s2 y = Some s2' /\ sweep_sim full s1' s2'.
Proof.
  intros HR H. unfold sweep_row in *.
  destruct (sweep_cell y (x - 1) s1) as [t1|] eqn:E1; [|discriminate].
  destruct (sweep_cell_sim _ _ _ _ _ HR E1) as (t2 & E2 & HR').
  rewrite E2. eapply sweep_cell_sim; eassumption.
Qed.

Lemma sweep_sim_run (fuel : nat) (siz x : Z) (s1 s1' s2 : Grid * list Z) :
  sweep_sim full s1 s2 -> sweep fuel siz x s1 = Some s1' ->
  exists s2', sweep fuel siz x s2 = Some s2' /\ sweep_sim full s1' s2'.
Proof.
  revert x s1 s2. induction fuel as [|k IH]; intros x s1 s2 HR H; [discriminate|].
  cbn [sweep] in *. destruct (0 <? x).
  - destruct (foldM (sweep_row x) (zrange_down (siz - 1) 0) s1) as [t1|] eqn:E1;
      [|discriminate].
    destruct (foldM_rel (sweep_row x) (sweep_row x) (sweep_sim full)
                _ s1 t1 s2
                (fun a s s' t _ => sweep_row_sim x a s s' t) HR E1)
      as (t2 & E2 & HR2).
    rewrite E2.
    set (x' := if x - 2 =? 7 then x - 2 - 1 else x - 2) in *.
    destruct (foldM (sweep_row x') (zrange 0 siz) t1) as [u1|] eqn:E3; [|discriminate].
    destruct (foldM_rel (sweep_row x') (sweep_row x') (sweep_sim full)
                _ t1 u1 t2
                (fun a s s' t _ => sweep_row_sim x' a s s' t) HR2 E3)
      as (u2 & E4 & HR4).
    rewrite E4. eapply IH; eassumption.
  - injection H as <-. eauto.
Qed.

(** The real sweep puts pixel [k] of the source where the numbered sweep
    puts the number [k]. *)
Lemma sweep_relabel (fuel : nat) (siz x : Z) (g g1 : Grid) (rest : list Z) :
  (forall y x, 0 <= y < rows g -> 0 <= x < cols g ->
     Pixel_Role (cell g y x) <> Data) ->
  sweep fuel siz x (g, label_src (zlen full)) = Some (g1, rest) ->
  exists g2 a,
    sweep fuel siz x (g, full) = Some (g2, skipn (Z.to_nat a) full)
    /\ 0 <= a <= zlen full
    /\ rest = map data_pixel (zrange a (zlen full))
    /\ sweep_rel full a g1 g2.
Proof.
  intros Hg H.
  destruct (sweep_sim_run fuel siz x (g, label_src (zlen full)) (g1, rest) (g, full))
    as ([g2 rest2] & E & (a & Ha & E1 & E2 & HR)); [|assumption|].
  - exists 0. cbn [fst snd]. pose proof (zlen_nonneg full).
    split; [lia|]. split; [reflexivity|]. split; [reflexivity|].
    split; [reflexivity|]. split; [reflexivity|].
    intros y0 x0 Hy Hx. specialize (Hg y0 x0 Hy Hx). split.
    + unfold relabel. destruct (Z.eqb_spec (Pixel_Role (cell g y0 x0)) Data);
        [contradiction | reflexivity].
    + intros HD. contradiction.
  - cbn [fst snd] in *. subst rest rest2. exists g2, a. auto.
Qed.

End Relabel.

(** * The interleaved pixels are the data and check pixels, rearranged *)

Lemma Permutation_flat_map_app {A B : Type} (g h : A -> list B) (l : list A) :
  Permutation (flat_map (fun a => g a ++ h a) l) (flat_map g l ++ flat_map h l).
Proof.
  induction l as [|a l IH]; cbn [flat_map]; [constructor|].
  rewrite <- !app_assoc. apply Permutation_app_head.
  rewrite IH. rewrite !app_assoc. apply Permutation_app_tail.
  apply Permutation_app_comm.
Qed.

Lemma flat_map_flat_map {A B C : Type} (F : B -> list C) (G : A -> list B)
    (l : list A) :
  flat_map F (flat_map G l) = flat_map (fun a => flat_map F (G a)) l.
Proof.
  induction l as [|a l IH]; cbn [flat_map]; [reflexivity|].
  now rewrite flat_map_app, IH.
Qed.

Lemma flat_map_nil {A B : Type} (l : list A) :
  flat_map (fun _ : A => @nil B) l = [].
Proof. induction l; [reflexivity | assumption]. Qed.

Lemma flat_map_if_range (st s n : Z) :
  0 <= s <= n ->
  flat_map (fun i => if i <? s then [st + i] else []) (zrange 0 n)
  = zrange st (st + s).
Proof.
  intros H. rewrite (zrange_app 0 s n) by lia. rewrite flat_map_app.
  rewrite (flat_map_ext_in _ (fun i => [st + i]) (zrange 0 s)).
  2:{ intros i Hi. apply in_zrange in Hi. destruct (Z.ltb_spec i s); [reflexivity|lia]. }
  rewrite (flat_map_ext_in _ (fun _ => []) (zrange s n)).
  2:{ intros i Hi. apply in_zrange in Hi. destruct (Z.ltb_spec i s); [lia|reflexivity]. }
  rewrite flat_map_nil, app_nil_r.
  replace (zrange st (st + s)) with (map (fun k => k) (zrange (0 + st) (s + st)))
    by (rewrite map_id; f_equal; lia).
  rewrite map_zrange_shift.
  induction (zrange 0 s) as [|a l IH]; cbn [flat_map map app]; [reflexivity|].
  rewrite IH. f_equal. lia.
Qed.

Lemma byte_order_perm (st sz : Z -> Z) (n : Z) (js : list Z) :
  (forall j, In j js -> 0 <= sz j <= n) ->
  Permutation (byte_order st sz n js)
              (flat_map (fun j => zrange (st j) (st j + sz j)) js).
Proof.
  unfold byte_order. induction js as [|j js IH]; intros H.
  - cbn [flat_map]. rewrite flat_map_nil. constructor.
  - cbn [flat_map].
    rewrite (Permutation_flat_map_app
               (fun i => if i <? sz j then [st j + i] else [])
               (fun i => flat_map (fun j0 => if i <? sz j0 then [st j0 + i] else []) js)).
    rewrite flat_map_if_range by (apply H; now left).
    apply Permutation_app_head. apply IH. intros k Hk. apply H. now right.
Qed.

Lemma flat_map_zrange_chain (st sz : Z -> Z) (k : Z) :
  0 <= k ->
  (forall j, 0 <= j < k -> 0 <= sz j /\ st (j + 1) = st j + sz j) ->
  flat_map (fun j => zrange (st j) (st j + sz j)) (zrange 0 k) = zrange (st 0) (st k).
Proof.
  intros Hk. pattern k. apply natlike_ind; [| |exact Hk].
  - intros _. rewrite !zrange_nil by lia. reflexivity.
  - clear k Hk. intros k Hk IH H. unfold Z.succ.
    rewrite zrange_snoc, flat_map_app by lia. cbn [flat_map].
    rewrite app_nil_r, IH by (intros j Hj; apply H; lia).
    destruct (H k ltac:(lia)) as [Hs He]. rewrite He.
    assert (Hmono : st 0 <= st k).
    { clear IH He Hs. revert H. pattern k. apply natlike_ind; [| |exact Hk].
      - intros _. lia.
      - intros x Hx IHx H. unfold Z.succ in *.
        destruct (H x ltac:(lia)) as [Hs He]. rewrite He.
        assert (st 0 <= st x) by (apply IHx; intros j Hj; apply H; lia). lia. }
    symmetry. apply zrange_app. lia.
Qed.

Lemma flat_map_byte_pixels (f : Z -> Z) (a b : Z) :
  a <= b -> flat_map (byte_pixels f) (zrange a b) = map f (zrange (8 * a) (8 * b)).
Proof.
  intros Hab. replace b with (a + (b - a)) by lia.
  assert (Hn : 0 <= b - a) by lia. revert Hn. generalize (b - a) as n.
  intros n Hn. pattern n. apply natlike_ind; [| |exact Hn].
  - rewrite Z.add_0_r, !zrange_nil by lia. reflexivity.
  - clear n Hn. intros n Hn IH. unfold Z.succ.
    rewrite Z.add_assoc, zrange_snoc, flat_map_app, IH by lia.
    cbn [flat_map]. rewrite app_nil_r. unfold byte_pixels.
    rewrite <- map_app. f_equal.
    replace (8 * (a + n) + 8) with (8 * (a + n + 1)) by lia.
    symmetry. apply zrange_app. lia.
Qed.

Lemma NoDup_zrange (lo hi : Z) : NoDup (zrange lo hi).
Proof.
  unfold zrange. generalize (Z.to_nat (hi - lo)) as n. intros n. revert lo.
  induction n as [|n IH]; intros lo; cbn [zrange_from]; constructor.
  - rewrite in_zrange_from. lia.
  - apply IH.
Qed.

Section Interleave.

Variables nb nde extra ne : Z.
Hypothesis Hnb : 0 < nb.
Hypothesis Hnde : 0 <= nde.
Hypothesis Hextra : 0 <= extra < nb.
Hypothesis Hne : 0 <= ne.

Lemma interleave_data_perm :
  Permutation (interleave_data nb nde extra)
              (map data_pixel (zrange 0 (8 * (nde * nb + extra)))).
Proof.
  assert (E : interleave_data nb nde extra
              = flat_map (byte_pixels data_pixel)
                  (byte_order (block_start nb nde extra) (block_size nb nde extra)
                     (nde + 1) (zrange 0 nb))).
  { unfold interleave_data, byte_order. rewrite flat_map_flat_map.
    apply flat_map_ext. intros i. rewrite flat_map_flat_map.
    apply flat_map_ext. intros j.
    destruct (i <? block_size nb nde extra j); cbn [flat_map];
      [now rewrite app_nil_r | reflexivity]. }
  rewrite E.
  rewrite byte_order_perm.
  2:{ intros j _. pose proof (block_size_bounds nb nde extra j). lia. }
  rewrite flat_map_zrange_chain.
  - rewrite block_start_0, block_start_end by lia.
    rewrite flat_map_byte_pixels by nia. reflexivity.
  - lia.
  - intros j Hj. pose proof (block_size_bounds nb nde extra j).
    split; [lia|]. apply block_start_next. lia.
Qed.

Lemma interleave_check_perm (d : Z) :
  Permutation (interleave_check nb ne d)
              (map (check_pixel d) (zrange 0 (8 * (ne * nb)))).
Proof.
  assert (E : interleave_check nb ne d
              = flat_map (byte_pixels (check_pixel d))
                  (byte_order (fun j => j * ne) (fun _ => ne) ne (zrange 0 nb))).
  { unfold interleave_check, byte_order. rewrite flat_map_flat_map.
    apply flat_map_ext_in. intros i Hi. apply in_zrange in Hi.
    rewrite flat_map_flat_map.
    apply flat_map_ext. intros j.
    destruct (Z.ltb_spec i ne); [|lia]. cbn [flat_map]. now rewrite app_nil_r. }
  rewrite E.
  rewrite byte_order_perm by (intros; lia).
  rewrite (flat_map_zrange_chain (fun j => j * ne) (fun _ => ne)) by (intros; lia).
  rewrite flat_map_byte_pixels by nia.
  replace (8 * (0 * ne)) with 0 by lia.
  replace (8 * (nb * ne)) with (8 * (ne * nb)) by lia. reflexivity.
Qed.

End Interleave.

(** * The source of the sweep *)

Lemma map_offset_data (a b : Z) :
  0 <= a -> b < 2 ^ 28 ->
  map Pixel_Offset (map data_pixel (zrange a b)) = zrange a b.
Proof.
  intros Ha Hb. rewrite map_map. rewrite <- (map_id (zrange a b)) at 2.
  apply map_zrange_ext. intros i Hi. apply data_pixel_offset. lia.
Qed.

Lemma map_offset_check (d c : Z) :
  0 <= d -> d + c < 2 ^ 28 ->
  map Pixel_Offset (map (check_pixel d) (zrange 0 c)) = zrange d (d + c).
Proof.
  intros Hd Hc. rewrite map_map.
  replace (zrange d (d + c)) with (map (fun k => k) (zrange (0 + d) (c + d)))
    by (rewrite map_id; f_equal; lia).
  rewrite map_zrange_shift. apply map_zrange_ext.
  intros i Hi. apply check_pixel_offset. lia.
Qed.

Lemma lplan_src_props (v l : Z) :
  1 <= v <= 40 -> 0 <= l <= 3 ->
  let full := lplan_src v l in
  let n := total_bits v in
  zlen full = n + 7
  /\ Forall (fun px => Pixel_Role px <> 0) full
  /\ (forall k, 0 <= k < n ->
        (Pixel_Role (nth (Z.to_nat k) full 0) = Data
         /\ 0 <= Pixel_Offset (nth (Z.to_nat k) full 0) < lay_nd v l * 8)
        \/ (Pixel_Role (nth (Z.to_nat k) full 0) = Check
            /\ lay_nd v l * 8 <= Pixel_Offset (nth (Z.to_nat k) full 0) < n))
  /\ (forall k, n <= k < n + 7 -> nth (Z.to_nat k) full 0 = Role_Pixel Extra)
  /\ (forall k k', 0 <= k < n -> 0 <= k' < n ->
        Pixel_Offset (nth (Z.to_nat k) full 0)
        = Pixel_Offset (nth (Z.to_nat k') full 0) -> k = k')
  /\ (forall o, 0 <= o < n ->
        exists k, 0 <= k < n /\ Pixel_Offset (nth (Z.to_nat k) full 0) = o).
Proof.
  intros Hv Hl full n.
  destruct (layout_facts v l Hv Hl)
    as (Evt & Elv & Hnb & Hne & Hnd & Hnde & Hex & Esum & Eq & Er).
  pose proof (bytes_bound v Hv) as Hb.
  set (dc := interleave_data (lay_nb v l) (lay_nde v l) (lay_extra v l)
             ++ interleave_check (lay_nb v l) (lay_ne v l) (lay_nd v l * 8)).
  set (d := lay_nd v l * 8).
  set (c := 8 * (lay_ne v l * lay_nb v l)).
  assert (Hn : n = d + c) by (unfold n, total_bits, d, c, lay_nd; lia).
  assert (Hn28 : n < 2 ^ 28).
  { unfold n, total_bits. change (2 ^ 28) with 268435456. lia. }
  assert (Hc0 : 0 <= c) by (unfold c; nia).
  assert (Hperm : Permutation dc
            (map data_pixel (zrange 0 d) ++ map (check_pixel d) (zrange 0 c))).
  { unfold dc. apply Permutation_app.
    - rewrite interleave_data_perm by lia. rewrite <- Esum.
      replace (8 * lay_nd v l) with d by (unfold d; lia). reflexivity.
    - fold d. apply interleave_check_perm; lia. }
  assert (Hoff : Permutation (map Pixel_Offset dc) (zrange 0 n)).
  { rewrite (Permutation_map Pixel_Offset Hperm), map_app.
    rewrite map_offset_data, map_offset_check by (unfold d in *; lia).
    rewrite Hn, <- zrange_app by (unfold d; lia). reflexivity. }
  assert (Hlen : zlen dc = n).
  { unfold zlen. rewrite <- (length_map Pixel_Offset).
    rewrite (Permutation_length Hoff), zrange_length. lia. }
  assert (Hrole : forall px, In px dc ->
            (Pixel_Role px = Data /\ 0 <= Pixel_Offset px < d)
            \/ (Pixel_Role px = Check /\ d <= Pixel_Offset px < n)).
  { intros px Hin. apply (Permutation_in _ Hperm) in Hin.
    apply in_app_or in Hin. destruct Hin as [Hin|Hin];
      apply in_map_iff in Hin; destruct Hin as (i & <- & Hi); apply in_zrange in Hi.
    - rewrite data_pixel_role, data_pixel_offset by (unfold d in *; lia).
      left. split; [reflexivity | lia].
    - rewrite check_pixel_role, check_pixel_offset by (unfold d in *; lia).
      right. split; [reflexivity | lia]. }
  assert (Hnth : forall k, 0 <= k < n ->
            nth (Z.to_nat k) full 0 = nth (Z.to_nat k) dc 0
            /\ In (nth (Z.to_nat k) dc 0) dc).
  { intros k Hk. unfold zlen in Hlen. split.
    - unfold full, lplan_src. fold dc. apply app_nth1. lia.
    - apply nth_In. lia. }
  assert (Hnd' : NoDup (map Pixel_Offset dc)).
  { apply (Permutation_NoDup (Permutation_sym Hoff)). apply NoDup_zrange. }
  split.
  { unfold full, lplan_src. fold dc. rewrite zlen_app, Hlen, zlen_repeat. lia. }
  split.
  { unfold full, lplan_src. fold dc. apply Forall_app. split.
    - apply Forall_forall. intros px Hin. destruct (Hrole px Hin) as [[E _]|[E _]];
        rewrite E; discriminate.
    - apply Forall_forall. intros px Hin. apply repeat_spec in Hin. subst px.
      discriminate. }
  split.
  { intros k Hk. destruct (Hnth k Hk) as [-> Hin]. apply Hrole. assumption. }
  split.
  { intros k Hk. unfold full, lplan_src. fold dc. unfold zlen in Hlen.
    rewrite app_nth2 by lia. apply nth_repeat_lt. lia. }
  split.
  { intros k k' Hk Hk' E.
    destruct (Hnth k Hk) as [E1 _]. destruct (Hnth k' Hk') as [E2 _].
    rewrite E1, E2 in E. unfold zlen in Hlen.
    assert (Z.to_nat k = Z.to_nat k'); [|lia].
    apply (proj1 (NoDup_nth (map Pixel_Offset dc) 0) Hnd');
      rewrite ?length_map; try lia.
    change (nth (Z.to_nat k) (map Pixel_Offset dc) (Pixel_Offset 0)
            = nth (Z.to_nat k') (map Pixel_Offset dc) (Pixel_Offset 0)).
    rewrite !map_nth. exact E. }
  intros o Ho.
  assert (Hin : In o (map Pixel_Offset dc)).
  { apply (Permutation_in _ (Permutation_sym Hoff)). apply in_zrange. lia. }
  apply (In_nth _ _ 0) in Hin. destruct Hin as (i & Hi & Ei).
  rewrite length_map in Hi. unfold zlen in Hlen.
  exists (Z.of_nat i). split; [lia|].
  destruct (Hnth (Z.of_nat i) ltac:(lia)) as [-> _].
  rewrite Nat2Z.id.
  change (nth i (map Pixel_Offset dc) (Pixel_Offset 0) = o) in Ei.
  rewrite map_nth in Ei. exact Ei.
Qed.

(** * The version plans *)

Lemma plans_ok_true : forallb plan_check (zrange 1 41) = true.
Proof. vm_compute. reflexivity. Qed.

Lemma plan_check_facts (v : Z) :
  1 <= v <= 40 ->
  exists p g rest,
    let siz := 17 + v * 4 in
    vplan v 1 = Some (Ok p)
    /\ sweep (Z.to_nat siz) siz siz (Pixel p, label_src (total_bits v + 7))
       = Some (g, rest)
    /\ cells_forall (Pixel p) (fun _ _ px => Pixel_Role px <=? 6) = true
    /\ plan_facts v p g (total_bits v + 7 - zlen rest) = true.
Proof.
  intros Hv.
  pose proof (zrange_forallb plan_check 1 41 plans_ok_true v ltac:(lia)) as H.
  unfold plan_check in H. cbv zeta in H.
  destruct (vplan v 1) as [[p|e]|]; try discriminate.
  destruct (sweep _ _ _ _) as [[g rest]|] eqn:Es; try discriminate.
  exists p, g, rest. cbv zeta.
  apply andb_prop in H. destruct H as [H1 H2].
  repeat split; assumption.
Qed.

(** The sizes that [plan_facts] records. *)
Lemma plan_facts_sizes (v : Z) (p : Plan) (g : Grid) (a : Z) :
  plan_facts v p g a = true ->
  let siz := 17 + v * 4 in
  Size (PlanCode p) = siz
  /\ Stride (PlanCode p) = Z.shiftr (siz + 7) 3
  /\ zlen (Bitmap (PlanCode p)) = Stride (PlanCode p) * siz
  /\ rows (Pixel p) = siz /\ cols (Pixel p) = siz
  /\ rows g = siz /\ cols g = siz
  /\ total_bits v <= a <= total_bits v + 7.
Proof.
  intros H. unfold plan_facts in H. cbv zeta in H.
  repeat (apply andb_prop in H; destruct H as [H ?]).
  repeat match goal with
         | H : (_ =? _) = true |- _ => apply Z.eqb_eq in H
         | H : (_ <=? _) = true |- _ => apply Z.leb_le in H
         end.
  cbv zeta. repeat split; assumption.
Qed.

Lemma plan_facts_checks (v : Z) (p : Plan) (g : Grid) (a : Z) :
  plan_facts v p g a = true ->
  let siz := 17 + v * 4 in
  let st := Stride (PlanCode p) in
  let bm := Bitmap (PlanCode p) in
  cells_forall g (fun _ _ px =>
    (1 <=? Pixel_Role px) && (Pixel_Role px <=? 7)) = true
  /\ labels_ok g a = true
  /\ forallb (format_cell_ok siz st g bm) (zrange 0 15) = true
  /\ black_tagged st g bm = true
  /\ finder_ok siz st g bm 0 0 = true
  /\ finder_ok siz st g bm (siz - 7) 0 = true
  /\ finder_ok siz st g bm 0 (siz - 7) = true
  /\ timing_ok siz st g bm = true
  /\ dark_ok siz st g bm = true.
Proof.
  intros H. unfold plan_facts in H. cbv zeta in H.
  repeat (apply andb_prop in H; destruct H as [H ?]).
  cbv zeta. repeat split; assumption.
Qed.

(** * Drawing with room for more bitmaps *)

Lemma upd_nat_app_l {A : Type} (f : A -> A) (l r : list A) (n : nat) :
  (n < length l)%nat ->
  upd_nat (l ++ r) n f = option_map (fun l' => l' ++ r) (upd_nat l n f).
Proof.
  revert n. induction l as [|a l IH]; intros n Hn; cbn [length] in Hn; [lia|].
  destruct n as [|n]; cbn [upd_nat app]; [reflexivity|].
  rewrite IH by lia. destruct (upd_nat l n f); reflexivity.
Qed.

Lemma Code_set_app (c : Code) (b b' r : list Z) (y x : Z) :
  Code_set c b y x = Some b' -> Code_set c (b ++ r) y x = Some (b' ++ r).
Proof. unfold Code_set. apply zupd_app. Qed.

Lemma Code_set_stride (c c' : Code) (b : list Z) (y x : Z) :
  Stride c' = Stride c -> Code_set c' b y x = Code_set c b y x.
Proof. unfold Code_set. now intros ->. Qed.

Section Ext.

Variable r : list Z.

Lemma ext_ok_tag (y x pix : Z) : ext_ok r (fun s => tag s y x pix).
Proof.
  intros [m c] [m' c'] s' (Em & Es & Et & Eb) H. cbn [fst snd] in *. subst m'.
  unfold tag in *. destruct (zset2 m y x pix) as [m1|]; [|discriminate].
  injection H as <-. eexists. split; [reflexivity|].
  repeat split; assumption.
Qed.

Lemma ext_ok_paint (y x : Z) : ext_ok r (fun s => paint s y x).
Proof.
  intros [m c] [m' c'] s' (Em & Es & Et & Eb) H. cbn [fst snd] in *. subst m'.
  unfold paint in *.
  destruct (Code_set c (Bitmap c) y x) as [b1|] eqn:E; [|discriminate].
  injection H as <-.
  rewrite (Code_set_stride c c') by assumption. rewrite Eb.
  rewrite (Code_set_app _ _ _ r _ _ E).
  eexists. split; [reflexivity|]. repeat split; assumption.
Qed.

Lemma ext_ok_ret : ext_ok r (fun s => Some s).
Proof. intros s t s' HR [= <-]. eauto. Qed.

Lemma ext_ok_bind (f g : canvas -> option canvas) :
  ext_ok r f -> ext_ok r g -> ext_ok r (fun s => s' <- f s ;; g s').
Proof.
  intros Hf Hg s t s' HR H. cbv beta in *.
  destruct (f s) as [s1|] eqn:E; [|discriminate].
  destruct (Hf s t s1 HR E) as (t1 & -> & HR1). eapply Hg; eassumption.
Qed.

Lemma ext_ok_if (b : bool) (f g : canvas -> option canvas) :
  ext_ok r f -> ext_ok r g -> ext_ok r (fun s => if b then f s else g s).
Proof. destruct b; auto. Qed.

Lemma ext_ok_foldM {A : Type} (f : canvas -> A -> option canvas) (l : list A) :
  (forall a, ext_ok r (fun s => f s a)) -> ext_ok r (fun s => foldM f l s).
Proof.
  intros Hf s t s' HR H.
  apply (foldM_rel f f (canvas_ext r) l s s' t); [|assumption|assumption].
  intros a s0 s0' t0 _ HR0 H0. exact (Hf a s0 t0 s0' HR0 H0).
Qed.

Lemma ext_ok_align_loop (fuel : nat) (siz ap ast : Z)
    (body : canvas -> Z -> option canvas) (c : Z) :
  (forall c, ext_ok r (fun s => body s c)) ->
  ext_ok r (fun s => align_loop fuel siz ap ast body c s).
Proof.
  intros Hb. revert c. induction fuel as [|k IH]; intros c s t s' HR H;
    [discriminate|].
  cbn [align_loop] in *. destruct (c + 5 <? siz).
  - destruct (body s c) as [s1|] eqn:E; [|discriminate].
    destruct (Hb c s t s1 HR E) as (t1 & -> & HR1).
    eapply IH; eassumption.
  - injection H as <-. eauto.
Qed.

Lemma ext_ok_posBox (x y : Z) : ext_ok r (fun s => posBox s x y).
Proof.
  intros s t s' HR H.
  assert (Hlen : grid_len (fst t) = grid_len (fst s)) by (destruct HR as [-> _]; reflexivity).
  unfold posBox in *. cbv zeta in *. rewrite Hlen. clear Hlen.
  set (len_m := grid_len (fst s)) in *. clearbody len_m.
  revert s t s' HR H.
  change (ext_ok r (fun s =>
    s <- foldM (fun s dy =>
           foldM (fun s dx =>
             s <- tag s (y + dy) (x + dx) (Role_Pixel Position) ;;
             if (dx =? 0) || (dx =? 6) || (dy =? 0) || (dy =? 6)
                || ((2 <=? dx) && (dx <=? 4) && (2 <=? dy) && (dy <=? 4))
             then paint s (y + dy) (x + dx) else Some s)
           (zrange 0 7) s)
         (zrange 0 7) s ;;
    s <- foldM (fun s dy =>
           if (0 <=? y + dy) && (y + dy <? len_m) then
             s <- (if 0 <? x then tag s (y + dy) (x - 1) (Role_Pixel Position) else Some s) ;;
             if x + 7 <? len_m then tag s (y + dy) (x + 7) (Role_Pixel Position) else Some s
           else Some s)
         (zrange (-1) 8) s ;;
    foldM (fun s dx =>
           if (0 <=? x + dx) && (x + dx <? len_m) then
             s <- (if 0 <? y then tag s (y - 1) (x + dx) (Role_Pixel Position) else Some s) ;;
             if y + 7 <? len_m then tag s (y + 7) (x + dx) (Role_Pixel Position) else Some s
           else Some s)
         (zrange (-1) 8) s)).
  repeat first
    [ apply ext_ok_bind | apply ext_ok_foldM; intros ? | apply ext_ok_if
    | apply ext_ok_tag | apply ext_ok_paint | apply ext_ok_ret ].
Qed.

End Ext.


(** * The stages of [vplan] with room for more bitmaps *)

Ltac ext_auto :=
  repeat first
    [ apply ext_ok_bind | apply ext_ok_foldM; intros ? | apply ext_ok_if
    | apply ext_ok_tag | apply ext_ok_paint | apply ext_ok_ret
    | apply ext_ok_posBox ].

Section Stages.

Variable r : list Z.

Lemma ext_ok_alignBox (x y : Z) : ext_ok r (fun s => alignBox s x y).
Proof. unfold alignBox. cbv zeta. ext_auto. Qed.

Lemma ext_ok_timing : ext_ok r vplan_timing.
Proof.
  intros s t s' HR H.
  assert (Hlen : grid_len (fst t) = grid_len (fst s))
    by (destruct HR as [-> _]; reflexivity).
  unfold vplan_timing in *. cbv zeta in *. rewrite Hlen. clear Hlen.
  set (len_m := grid_len (fst s)) in *. clearbody len_m.
  revert s t s' HR H.
  change (ext_ok r (fun s =>
    foldM (fun s i =>
             s <- tag s i ti (Role_Pixel Timing) ;;
             s <- tag s ti i (Role_Pixel Timing) ;;
             if Z.land i 1 =? 0 then
               s <- paint s i ti ;; paint s ti i
             else Some s)
          (zrange 0 len_m) s)).
  ext_auto.
Qed.

Lemma ext_ok_position (siz : Z) : ext_ok r (vplan_position siz).
Proof. unfold vplan_position. ext_auto. Qed.

Lemma ext_ok_alignment (siz : Z) (info : version) :
  ext_ok r (vplan_alignment siz info).
Proof.
  unfold vplan_alignment. cbv zeta.
  apply ext_ok_align_loop. intros x.
  apply ext_ok_align_loop. intros y.
  apply ext_ok_if; [apply ext_ok_ret | apply ext_ok_alignBox].
Qed.

Lemma ext_ok_version (siz pat : Z) : ext_ok r (vplan_version siz pat).
Proof.
  intros s t s' HR H. unfold vplan_version in *.
  destruct (pat =? 0); [injection H as <-; eauto|].
  cbv zeta in *.
  match type of H with
  | match foldM ?f ?l ?s0 with _ => _ end = _ =>
      destruct (foldM f l s0) as [[s1 v1]|] eqn:E; [|discriminate];
      destruct (foldM_rel f f
                  (fun sv tv => canvas_ext r (fst sv) (fst tv) /\ snd sv = snd tv)
                  l s0 (s1, v1) (t, pat)) as ([t1 w1] & E' & HR1 & Ev);
        [| split; [exact HR | reflexivity] | exact E |]
  end.
  - intros x sv sv' tv _ HRv Hx.
    match type of Hx with
    | foldM ?f ?l _ = _ =>
        apply (foldM_rel f f
                 (fun sv tv => canvas_ext r (fst sv) (fst tv) /\ snd sv = snd tv)
                 l sv sv' tv); [|assumption|assumption]
    end.
    clear. intros y [s v] [s' v'] [t w] _ [HR Ev] Hy. cbn [fst snd] in *. subst w.
    destruct (tag s (siz - 11 + y) x (Role_Pixel PVersion)) as [s1|] eqn:E1;
      [|discriminate].
    destruct (ext_ok_tag r _ _ _ s t s1 HR E1) as (t1 & -> & HR1).
    destruct (tag s1 x (siz - 11 + y) (Role_Pixel PVersion)) as [s2|] eqn:E2;
      [|discriminate].
    destruct (ext_ok_tag r _ _ _ s1 t1 s2 HR1 E2) as (t2 & -> & HR2).
    destruct (Z.land v 1 =? 0).
    + injection Hy as <- <-. eexists. split; [reflexivity|]. auto.
    + destruct (paint s2 (siz - 11 + y) x) as [s3|] eqn:E3; [|discriminate].
      destruct (ext_ok_paint r _ _ s2 t2 s3 HR2 E3) as (t3 & -> & HR3).
      destruct (paint s3 x (siz - 11 + y)) as [s4|] eqn:E4; [|discriminate].
      destruct (ext_ok_paint r _ _ s3 t3 s4 HR3 E4) as (t4 & -> & HR4).
      injection Hy as <- <-. eexists. split; [reflexivity|]. auto.
  - cbn [fst snd] in *. rewrite E'. injection H as <-.
    eexists. split; [reflexivity | assumption].
Qed.

Lemma ext_ok_format (siz : Z) : ext_ok r (vplan_format siz).
Proof. unfold vplan_format. cbv zeta. ext_auto. Qed.

Lemma ext_ok_lonely (siz : Z) : ext_ok r (vplan_lonely siz).
Proof. unfold vplan_lonely. ext_auto. Qed.

Lemma ext_ok_draw (siz : Z) (info : version) : ext_ok r (vplan_draw siz info).
Proof.
  unfold vplan_draw.
  repeat (apply ext_ok_bind;
          [first [ apply ext_ok_timing | apply ext_ok_position
                 | apply ext_ok_alignment | apply ext_ok_version
                 | apply ext_ok_format ] |]).
  apply ext_ok_lonely.
Qed.

End Stages.

(** [vplan] for [n] bitmaps builds the pixel map of [vplan] for one, and its
    bitmap followed by zeros. *)
Lemma vplan_ext (v n : Z) (p : Plan) :
  vplan v 1 = Some (Ok p) -> 1 <= n ->
  Size (PlanCode p) = 17 + v * 4 ->
  Stride (PlanCode p) = Z.shiftr (17 + v * 4 + 7) 3 ->
  vplan v n
  = Some (Ok {| Version := v; Level := 0; Mask := 0;
                DataBytes := 0; CheckBytes := 0; Blocks := 0;
                Pixel := Pixel p;
                PlanCode :=
                  {| Bitmap := Bitmap (PlanCode p)
                               ++ repeat 0 (Z.to_nat (Stride (PlanCode p)
                                                      * Size (PlanCode p) * (n - 1)));
                     Size := Size (PlanCode p);
                     Stride := Stride (PlanCode p) |} |}).
Proof.
  intros H Hn HSize HStride. unfold vplan in *.
  destruct ((v <? 1) || (40 <? v)) eqn:Ev; [discriminate|].
  apply orb_false_elim in Ev. destruct Ev as [Ev1 Ev2].
  apply Z.ltb_ge in Ev1, Ev2.
  destruct (grid (17 + v * 4)) as [m|]; [|discriminate].
  set (siz := 17 + v * 4) in *.
  set (stride := Z.shiftr (siz + 7) 3) in *.
  assert (Hst : 0 <= stride).
  { unfold stride. rewrite Z.shiftr_div_pow2 by lia. apply Z.div_pos; lia. }
  assert (Hsz : 0 <= stride * siz) by (unfold siz; nia).
  rewrite zmake_some in * by nia.
  destruct (zget vtab v) as [info|]; [|discriminate].
  destruct (vplan_draw siz info _) as [s|] eqn:Ed; [|discriminate].
  injection H as <-. cbn [Pixel PlanCode] in *.
  replace (Z.to_nat (stride * siz * n))
    with (Z.to_nat (stride * siz * 1) + Z.to_nat (stride * siz * (n - 1)))%nat by nia.
  rewrite repeat_app.
  destruct (ext_ok_draw (repeat 0 (Z.to_nat (stride * siz * (n - 1)))) siz info
              (m, {| Bitmap := repeat 0 (Z.to_nat (stride * siz * 1));
                     Size := siz; Stride := stride |})
              (m, {| Bitmap := repeat 0 (Z.to_nat (stride * siz * 1))
                                 ++ repeat 0 (Z.to_nat (stride * siz * (n - 1)));
                       Size := siz; Stride := stride |}) s)
    as (t & Et & Hm & Hs1 & Hs2 & Hb); [|exact Ed|].
  - repeat split.
  - rewrite Et. destruct t as [tm [tb ts tst]]. cbn [fst snd Bitmap Size Stride] in *.
    subst tm tb ts tst. rewrite HSize, HStride. reflexivity.
Qed.


(** * Steps that stay inside one bitmap *)

Lemma foldM_ext_in {A S : Type} (f g : S -> A -> option S) (l : list A) (s : S) :
  (forall a s, In a l -> f s a = g s a) -> foldM f l s = foldM g l s.
Proof.
  revert s. induction l as [|a l IH]; intros s H; [reflexivity|].
  cbn [foldM]. rewrite (H a s) by now left.
  destruct (g s a); [|reflexivity]. apply IH. intros b t Hb. apply H. now right.
Qed.

Section Local.

Variable n : Z.

Lemma local_ret : local_op n (fun b => Some b).
Proof. intros b r Hb. exists b. auto. Qed.

Lemma local_bind (f g : list Z -> option (list Z)) :
  local_op n f -> local_op n g -> local_op n (fun b => b' <- f b ;; g b').
Proof.
  intros Hf Hg b r Hb. destruct (Hf b r Hb) as (b1 & E1 & L1 & A1).
  destruct (Hg b1 r L1) as (b2 & E2 & L2 & A2).
  exists b2. cbv beta. rewrite E1, A1. auto.
Qed.

Lemma local_if (c : bool) (f g : list Z -> option (list Z)) :
  local_op n f -> local_op n g -> local_op n (fun b => if c then f b else g b).
Proof. destruct c; auto. Qed.

Lemma local_foldM {A : Type} (f : list Z -> A -> option (list Z)) (l : list A) :
  (forall a, In a l -> local_op n (fun b => f b a)) ->
  local_op n (fun b => foldM f l b).
Proof.
  induction l as [|a l IH]; intros H; cbn [foldM]; [apply local_ret|].
  apply (local_bind (fun b => f b a) (fun b => foldM f l b)).
  - apply H. now left.
  - apply IH. intros a' Ha'. apply H. now right.
Qed.

Lemma local_Code_set (c : Code) (y x : Z) :
  0 <= y * Stride c + Z.quot x 8 < n -> local_op n (fun b => Code_set c b y x).
Proof.
  intros Hi b r Hb. unfold Code_set.
  destruct (zupd_some (fun v => Z.lor v (uint8 (Z.shiftl 1 (7 - Z.land x 7))))
              b (y * Stride c + Z.quot x 8)) as [b' E]; [lia|].
  exists b'. split; [assumption|]. split.
  - rewrite (zupd_length _ _ _ _ E). assumption.
  - apply zupd_app. assumption.
Qed.

End Local.

Lemma set_index_bound (siz stride y x : Z) :
  0 <= y < siz -> 0 <= x < siz -> siz <= 8 * stride ->
  0 <= y * stride + Z.quot x 8 < stride * siz.
Proof.
  intros Hy Hx Hs. rewrite Z.quot_div_nonneg by lia.
  assert (0 <= x / 8 < stride).
  { split; [apply Z.div_pos; lia|]. apply Z.div_lt_upper_bound; lia. }
  nia.
Qed.

(** [fplan] and [mplan] paint inside the bitmap they are handed. *)
Lemma fplan_local (l m : Z) (p : Plan) :
  21 <= grid_len (Pixel p) ->
  grid_len (Pixel p) <= 8 * Stride (PlanCode p) ->
  local_op (Stride (PlanCode p) * grid_len (Pixel p)) (fplan l m p).
Proof.
  intros Hsiz Hst. unfold fplan. cbv zeta.
  apply local_foldM. intros i Hi. apply in_zrange in Hi.
  apply local_if; [|apply local_ret].
  apply local_bind.
  - apply local_if; [|apply local_if; [|apply local_if]];
      apply local_Code_set; apply set_index_bound; lia.
  - apply local_if; apply local_Code_set; apply set_index_bound; lia.
Qed.

Lemma Mask_Invert_some (m y x : Z) :
  m <= 7 -> exists inv, Mask_Invert m y x = Some inv.
Proof.
  intros Hm. unfold Mask_Invert. destruct (Z.ltb_spec m 0); [eauto|].
  assert (m = 0 \/ m = 1 \/ m = 2 \/ m = 3 \/ m = 4 \/ m = 5 \/ m = 6 \/ m = 7)
    as Hc by lia.
  destruct Hc as [->|[->|[->|[->|[->|[->|[->| ->]]]]]]]; cbn [mfunc]; eauto.
Qed.

Lemma mplan_local (m : Z) (p : Plan) :
  m <= 7 ->
  rows (Pixel p) <= grid_len (Pixel p) ->
  cols (Pixel p) <= grid_len (Pixel p) ->
  grid_len (Pixel p) <= 8 * Stride (PlanCode p) ->
  local_op (Stride (PlanCode p) * grid_len (Pixel p))
           (fun b => option_map snd (mplan m p b)).
Proof.
  intros Hm Hr Hc Hst.
  assert (E : forall b, option_map snd (mplan m p b)
              = for_pixels (Pixel p) (fun b y x pix =>
                  let r := Pixel_Role pix in
                  if (r =? Data) || (r =? Check) || (r =? Extra) then
                    inv <- Mask_Invert m y x ;;
                    if inv then Code_set (PlanCode p) b y x else Some b
                  else Some b) b).
  { intros b. unfold mplan. cbv zeta. cbn [Pixel Mask PlanCode with_Mask].
    destruct (for_pixels _ _ b); reflexivity. }
  intros b r Hb.
  rewrite !E. revert b r Hb.
  change (local_op (Stride (PlanCode p) * grid_len (Pixel p))
    (fun b => for_pixels (Pixel p) (fun b y x pix =>
                  let r := Pixel_Role pix in
                  if (r =? Data) || (r =? Check) || (r =? Extra) then
                    inv <- Mask_Invert m y x ;;
                    if inv then Code_set (PlanCode p) b y x else Some b
                  else Some b) b)).
  unfold for_pixels. apply local_foldM. intros y Hy. apply in_zrange in Hy.
  apply local_foldM. intros x Hx. apply in_zrange in Hx.
  rewrite zget2_some by lia. cbv zeta.
  apply local_if; [|apply local_ret].
  destruct (Mask_Invert_some m y x Hm) as [inv ->].
  apply local_if; [|apply local_ret].
  apply local_Code_set. apply set_index_bound; lia.
Qed.

Lemma mplan_fst (m : Z) (p p' : Plan) (b b' : list Z) :
  mplan m p b = Some (p', b') -> p' = with_Mask p m.
Proof.
  unfold mplan. cbv zeta. destruct (for_pixels _ _ b); [|discriminate].
  now intros [= <- _].
Qed.

(** One mask's bitmap is painted inside the bitmap handed over. *)
Lemma mask_bitmap_local (l m : Z) (p : Plan) :
  m <= 7 -> 21 <= grid_len (Pixel p) ->
  rows (Pixel p) <= grid_len (Pixel p) ->
  cols (Pixel p) <= grid_len (Pixel p) ->
  grid_len (Pixel p) <= 8 * Stride (PlanCode p) ->
  local_op (Stride (PlanCode p) * grid_len (Pixel p)) (mask_bitmap l m p).
Proof.
  intros Hm Hsiz Hr Hc Hst.
  pose proof (local_bind _ _ _ (fplan_local l m p Hsiz Hst)
                (mplan_local m p Hm Hr Hc Hst)) as H.
  intros b r Hb. destruct (H b r Hb) as (b' & E & L & A).
  exists b'. unfold mask_bitmap. cbv beta in E, A.
  destruct (fplan l m p b) as [b1|]; [|discriminate].
  destruct (fplan l m p (b ++ r)) as [b2|]; [|discriminate].
  destruct (mplan m p b1) as [[? ?]|]; [|discriminate].
  destruct (mplan m p b2) as [[? ?]|]; [|discriminate].
  cbn [option_map snd] in *. auto.
Qed.


(** * Copies of the first bitmap *)

Lemma copies_S (k : nat) (b : list Z) : copies (S k) b = b ++ copies k b.
Proof. reflexivity. Qed.

Lemma copies_app (j k : nat) (b : list Z) :
  copies (j + k) b = copies j b ++ copies k b.
Proof.
  unfold copies. now rewrite repeat_app, concat_app.
Qed.

Lemma zlen_copies (k : nat) (b : list Z) : zlen (copies k b) = Z.of_nat k * zlen b.
Proof.
  induction k as [|k IH]; [reflexivity|].
  rewrite copies_S, zlen_app, IH. lia.
Qed.

Lemma firstn_zlen_app_l {A : Type} (l1 l2 : list A) :
  firstn (Z.to_nat (zlen l1)) (l1 ++ l2) = l1.
Proof.
  unfold zlen. rewrite Nat2Z.id, firstn_app, Nat.sub_diag, firstn_O, app_nil_r.
  apply firstn_all.
Qed.

Lemma skipn_zlen_app_l {A : Type} (l1 l2 : list A) :
  skipn (Z.to_nat (zlen l1)) (l1 ++ l2) = l2.
Proof.
  unfold zlen. rewrite Nat2Z.id, skipn_app, Nat.sub_diag, skipn_all. reflexivity.
Qed.

Lemma zdrop_app_l {A : Type} (l1 l2 : list A) (n : Z) :
  n = zlen l1 -> zdrop (l1 ++ l2) n = Some l2.
Proof.
  intros ->. unfold zdrop. rewrite zlen_app.
  pose proof (zlen_nonneg l1). pose proof (zlen_nonneg l2).
  destruct (Z.ltb_spec (zlen l1) 0); [lia|].
  destruct (Z.ltb_spec (zlen l1 + zlen l2) (zlen l1)); [lia|].
  cbn [orb]. now rewrite skipn_zlen_app_l.
Qed.

Lemma zslice_app_l {A : Type} (l1 l2 : list A) (n : Z) :
  n = zlen l1 -> zslice (l1 ++ l2) 0 n = Some l1.
Proof.
  intros ->. unfold zslice. rewrite zlen_app.
  pose proof (zlen_nonneg l1). pose proof (zlen_nonneg l2).
  destruct (Z.ltb_spec 0 0); [lia|].
  destruct (Z.ltb_spec (zlen l1) 0); [lia|].
  destruct (Z.ltb_spec (zlen l1 + zlen l2) (zlen l1)); [lia|].
  cbn [orb skipn Z.to_nat]. rewrite Z.sub_0_r. now rewrite firstn_zlen_app_l.
Qed.

Lemma zlen_0_nil {A : Type} (l : list A) : zlen l = 0 -> l = [].
Proof. destruct l; [reflexivity|]. unfold zlen. cbn [length]. lia. Qed.

(** The doubling copy loop of [NewPlan] fills the slice with copies of its
    first bitmap. *)
Lemma replicate_copies (fuel k r : nat) (b rest : list Z) :
  0 < zlen b -> (1 <= k)%nat -> zlen rest = Z.of_nat r * zlen b -> (r < fuel)%nat ->
  replicate fuel (copies k b ++ rest) (Z.of_nat k * zlen b)
  = Some (copies (k + r) b).
Proof.
  intros Hb. revert k r rest.
  induction fuel as [|f IH]; intros k r rest Hk Hr Hf; [lia|].
  cbn [replicate]. rewrite zlen_app, zlen_copies, Hr.
  destruct (Z.ltb_spec (Z.of_nat k * zlen b) (Z.of_nat k * zlen b + Z.of_nat r * zlen b))
    as [Hlt|Hge].
  - assert (Hr0 : (0 < r)%nat) by nia.
    rewrite zslice_app_l by (now rewrite zlen_copies).
    rewrite zdrop_app_l by (now rewrite zlen_copies).
    assert (Hfirst : firstn (Z.to_nat (Z.of_nat k * zlen b)) (copies k b ++ rest)
                     = copies k b).
    { rewrite <- (zlen_copies k b). apply firstn_zlen_app_l. }
    rewrite Hfirst. unfold copy. cbv beta iota zeta. rewrite Hr, zlen_copies.
    destruct (Nat.le_gt_cases k r) as [Hkr|Hkr].
    + rewrite Z.min_r by nia.
      rewrite (firstn_all2 (n := Z.to_nat (Z.of_nat k * zlen b)) (copies k b))
        by (pose proof (zlen_copies k b); unfold zlen in *; lia).
      replace (Z.of_nat k * zlen b + Z.of_nat k * zlen b)
        with (Z.of_nat (k + k) * zlen b) by lia.
      rewrite app_assoc, <- copies_app.
      rewrite (IH (k + k)%nat (r - k)%nat).
      * f_equal. f_equal. lia.
      * lia.
      * unfold zlen in *. rewrite length_skipn. nia.
      * lia.
    + rewrite Z.min_l by nia.
      rewrite <- Hr. rewrite skipn_all2 by (unfold zlen; lia).
      rewrite app_nil_r, Hr.
      assert (Hfc : firstn (Z.to_nat (Z.of_nat r * zlen b)) (copies k b) = copies r b).
      { replace k with (r + (k - r))%nat by lia. rewrite copies_app.
        rewrite <- (zlen_copies r b). apply firstn_zlen_app_l. }
      rewrite Hfc.
      replace (Z.of_nat k * zlen b + Z.of_nat r * zlen b)
        with (Z.of_nat (k + r) * zlen b) by lia.
      rewrite <- copies_app.
      rewrite <- (app_nil_r (copies (k + r) b)) at 1.
      rewrite (IH (k + r)%nat 0%nat []); [f_equal; f_equal; lia | lia | reflexivity | lia].
  - assert (r = 0%nat) by nia. subst r.
    rewrite (zlen_0_nil rest) by lia. rewrite app_nil_r. f_equal. f_equal. lia.
Qed.

(** * The plan of a version and level *)

Lemma vplan_fields (v n : Z) (p : Plan) :
  vplan v n = Some (Ok p) ->
  Version p = v /\ Level p = 0 /\ Mask p = 0.
Proof.
  unfold vplan. destruct ((v <? 1) || (40 <? v)); [discriminate|].
  destruct (grid _); [|discriminate]. destruct (zmake _ _); [|discriminate].
  destruct (zget _ _); [|discriminate]. destruct (vplan_draw _ _ _); [|discriminate].
  intros [= <-]. auto.
Qed.

Lemma level_plan_spec (v l : Z) :
  1 <= v <= 40 -> 0 <= l <= 3 ->
  exists (p : Plan) (g : Grid) (g2 : Grid) (a : Z),
    vplan v 1 = Some (Ok p)
    /\ numbered_map v = Some (p, g)
    /\ plan_facts v p g a = true
    /\ sweep_rel (lplan_src v l) a g g2
    /\ forall p', Pixel p' = Pixel p ->
         lplan v l p'
         = Some {| Version := Version p'; Level := l; Mask := Mask p';
                   DataBytes := lay_nd v l;
                   CheckBytes := lay_ne v l * lay_nb v l;
                   Blocks := lay_nb v l;
                   Pixel := g2; PlanCode := PlanCode p' |}.
Proof.
  intros Hv Hl.
  destruct (plan_check_facts v Hv) as (p & g & rest & H). cbv zeta in H.
  destruct H as (Ev & Es & Hp6 & Hf).
  assert (Enm : numbered_map v = Some (p, g)).
  { unfold numbered_map. rewrite Ev. cbv zeta. rewrite Es. reflexivity. }
  destruct (plan_facts_sizes _ _ _ _ Hf) as (HS & HSt & HB & Hr & Hc & Hrg & Hcg & Ha).
  destruct (lplan_src_props v l Hv Hl) as (Hlen & Hroles & _).
  pose proof (bytes_bound v Hv) as Hbb.
  assert (Hlen28 : zlen (lplan_src v l) < 2 ^ 28).
  { rewrite Hlen. unfold total_bits. change (2 ^ 28) with 268435456. lia. }
  rewrite <- Hlen in Es.
  destruct (sweep_relabel (lplan_src v l) Hroles Hlen28
              (Z.to_nat (17 + v * 4)) (17 + v * 4) (17 + v * 4) (Pixel p) g rest)
    as (g2 & a & Es2 & Ha' & Erest & HR); [|exact Es|].
  { intros y x Hy Hx.
    pose proof (cells_forall_spec _ _ Hp6 y x Hy Hx) as H6. cbv beta in H6.
    apply Z.leb_le in H6. unfold Data. lia. }
  assert (Hzr : total_bits v + 7 - zlen rest = a).
  { rewrite Erest, zlen_map, zlen_zrange by lia. lia. }
  rewrite Hzr in Hf.
  exists p, g, g2, a.
  split; [assumption|]. split; [assumption|]. split; [assumption|].
  split; [assumption|].
  intros p' Hp'. rewrite lplan_interleaved by assumption. cbv zeta.
  rewrite Hp'. unfold grid_len. rewrite Hr.
  change ((interleave_data (lay_nb v l) (lay_nde v l) (lay_extra v l)
           ++ interleave_check (lay_nb v l) (lay_ne v l) (lay_nd v l * 8))
          ++ repeat (Role_Pixel Extra) 7) with (lplan_src v l).
  rewrite Es2. reflexivity.
Qed.

(** * The plans of [NewPlan] *)

Lemma fplan_indep (l m : Z) (p p' : Plan) (b : list Z) :
  Pixel p' = Pixel p -> Stride (PlanCode p') = Stride (PlanCode p) ->
  fplan l m p' b = fplan l m p b.
Proof.
  intros Hp Hs. unfold fplan. cbv zeta. rewrite Hp.
  apply foldM_ext_in. intros i b0 _.
  rewrite !(Code_set_stride (PlanCode p) (PlanCode p')) by assumption.
  destruct (Z.land _ 1 =? 1); [|reflexivity].
  destruct (i <? 6), (i <? 8), (i <? 9);
    repeat rewrite (Code_set_stride (PlanCode p) (PlanCode p')) by assumption;
    try reflexivity;
    match goal with
    | |- match ?e with _ => _ end = _ => destruct e; [|reflexivity]
    end;
    apply Code_set_stride; assumption.
Qed.

Lemma mplan_indep (m : Z) (p p' : Plan) (b : list Z) :
  Pixel p' = Pixel p -> Stride (PlanCode p') = Stride (PlanCode p) ->
  option_map snd (mplan m p' b) = option_map snd (mplan m p b).
Proof.
  intros Hp Hs. unfold mplan. cbv zeta. cbn [Pixel Mask PlanCode with_Mask].
  rewrite Hp.
  match goal with
  | |- option_map snd (match for_pixels ?g ?f1 b with _ => _ end)
       = option_map snd (match for_pixels ?g ?f2 b with _ => _ end) =>
      assert (E : for_pixels g f1 b = for_pixels g f2 b)
  end.
  { unfold for_pixels. apply foldM_ext_in. intros y b0 _.
    apply foldM_ext_in. intros x b1 _.
    destruct (zget2 (Pixel p) y x); [|reflexivity]. cbv zeta.
    destruct ((_ =? Data) || _ || _); [|reflexivity].
    destruct (Mask_Invert m y x) as [[|]|]; try reflexivity.
    apply Code_set_stride. assumption. }
  rewrite E. clear E.
  match goal with
  | |- option_map snd (match ?e with _ => _ end) = _ => destruct e; reflexivity
  end.
Qed.

Lemma mask_bitmap_split (l m : Z) (p : Plan) (b c : list Z) :
  mask_bitmap l m p b = Some c <->
  exists b1, fplan l m p b = Some b1 /\ option_map snd (mplan m p b1) = Some c.
Proof.
  unfold mask_bitmap. split.
  - destruct (fplan l m p b) as [b1|]; [|discriminate].
    destruct (mplan m p b1) as [[q c']|] eqn:E; [|discriminate].
    intros [= <-]. exists b1. rewrite E. split; reflexivity.
  - intros (b1 & -> & H). destruct (mplan m p b1) as [[q c']|]; [|discriminate].
    cbn [option_map snd] in *. assumption.
Qed.

Lemma mask_chunk_some (l m : Z) (p : Plan) (b c : list Z) :
  mask_bitmap l m p b = Some c -> mask_chunk l p b m = c.
Proof. unfold mask_chunk. now intros ->. Qed.

(** The loop over the eight masks paints bitmap after bitmap. *)
Lemma mask_loop (l : Z) (pl p8 : Plan) (b : list Z) :
  Pixel p8 = Pixel pl -> Stride (PlanCode p8) = Stride (PlanCode pl) ->
  let sz := Size (PlanCode p8) * Stride (PlanCode p8) in
  zlen b = sz ->
  (forall m, 0 <= m < 8 -> local_op sz (fplan l m pl)) ->
  (forall m, 0 <= m < 8 -> local_op sz (fun b => option_map snd (mplan m pl b))) ->
  (forall m, 0 <= m < 8 ->
     mask_bitmap l m pl b = Some (mask_chunk l pl b m)
     /\ zlen (mask_chunk l pl b m) = sz)
  /\ exists q,
    foldM (fun (pb : Plan * list Z) mask =>
             let '(p, bm) := pb in
             bm <- on_tail bm (mask * sz) (fplan l mask p) ;;
             tl <- zdrop bm (mask * sz) ;;
             pt <- mplan mask p tl ;;
             Some (fst pt, firstn (Z.to_nat (mask * sz)) bm ++ snd pt))
          (zrange 0 8) (p8, copies 8 b)
    = Some (q, concat (map (mask_chunk l pl b) (zrange 0 8)))
    /\ Version q = Version p8 /\ Level q = Level p8
    /\ DataBytes q = DataBytes p8 /\ CheckBytes q = CheckBytes p8
    /\ Blocks q = Blocks p8 /\ Pixel q = Pixel p8 /\ PlanCode q = PlanCode p8.
Proof.
  intros Hpx Hst sz Hb Hlf Hlm.
  assert (Hchunk : forall m, 0 <= m < 8 ->
            mask_bitmap l m pl b = Some (mask_chunk l pl b m)
            /\ zlen (mask_chunk l pl b m) = sz).
  { intros m Hm. destruct (Hlf m Hm b [] Hb) as (bf & Ef & Lf & _).
    destruct (Hlm m Hm bf [] Lf) as (c & Ec & Lc & _).
    assert (E : mask_bitmap l m pl b = Some c)
      by (apply mask_bitmap_split; eauto).
    rewrite (mask_chunk_some _ _ _ _ _ E). auto. }
  split; [exact Hchunk|].
  assert (HlenP : forall k, 0 <= k <= 8 ->
            zlen (concat (map (mask_chunk l pl b) (zrange 0 k))) = k * sz).
  { intros k Hk. destruct Hk as [Hk0 Hk8]. revert Hk8.
    pattern k. apply natlike_ind; [| |exact Hk0].
    - reflexivity.
    - intros x Hx IHx Hx8. unfold Z.succ in *.
      rewrite zrange_snoc, map_app, concat_app, zlen_app, IHx by lia.
      cbn [map concat]. rewrite app_nil_r.
      destruct (Hchunk x ltac:(lia)) as [_ ->]. lia. }
  match goal with
  | |- exists q, foldM ?f _ ?s0 = _ /\ _ =>
      destruct (foldM_zrange_inv f
        (fun k s =>
           snd s = concat (map (mask_chunk l pl b) (zrange 0 k))
                   ++ copies (Z.to_nat (8 - k)) b
           /\ Version (fst s) = Version p8 /\ Level (fst s) = Level p8
           /\ DataBytes (fst s) = DataBytes p8 /\ CheckBytes (fst s) = CheckBytes p8
           /\ Blocks (fst s) = Blocks p8 /\ Pixel (fst s) = Pixel p8
           /\ PlanCode (fst s) = PlanCode p8)
        0 8 s0) as [[q bm] [HF Hq]]
  end.
  - lia.
  - cbn [fst snd]. rewrite zrange_nil by lia. cbn [map concat app].
    repeat split; reflexivity.
  - intros k [pk bm] Hk (Ebm & HV & HL & HD & HC & HBl & HP & HPC).
    cbn [fst snd] in *. subst bm.
    set (P := concat (map (mask_chunk l pl b) (zrange 0 k))) in *.
    assert (HP' : zlen P = k * sz) by (apply HlenP; lia).
    replace (Z.to_nat (8 - k)) with (S (Z.to_nat (8 - (k + 1)))) by lia.
    rewrite copies_S.
    set (R := copies (Z.to_nat (8 - (k + 1))) b).
    destruct (Hlf k Hk b R Hb) as (bf & Ef & Lf & Af).
    destruct (Hlm k Hk bf R Lf) as (c & Ec & Lc & Ac).
    assert (Ek : mask_chunk l pl b k = c).
    { apply mask_chunk_some. apply mask_bitmap_split. eauto. }
    assert (Hpk1 : Pixel pk = Pixel pl) by congruence.
    assert (Hpk2 : Stride (PlanCode pk) = Stride (PlanCode pl)) by congruence.
    unfold on_tail.
    rewrite (zdrop_app_l P (b ++ R)) by lia.
    rewrite (fplan_indep l k pl pk) by assumption. rewrite Af.
    replace (k * sz) with (zlen P) by lia.
    rewrite firstn_zlen_app_l.
    rewrite (zdrop_app_l P (bf ++ R)) by lia.
    pose proof (mplan_indep k pl pk (bf ++ R) Hpk1 Hpk2) as Ei.
    rewrite Ac in Ei.
    destruct (mplan k pk (bf ++ R)) as [[q' c']|] eqn:Emp; [|discriminate].
    cbn [option_map snd] in Ei. injection Ei as ->.
    apply mplan_fst in Emp. subst q'.
    eexists. split; [reflexivity|]. cbn [fst snd with_Mask Version Level DataBytes
      CheckBytes Blocks Pixel PlanCode].
    rewrite firstn_zlen_app_l.
    split.
    + fold P. rewrite zrange_snoc, map_app, concat_app by lia.
      cbn [map concat]. rewrite app_nil_r, Ek, <- app_assoc. reflexivity.
    + repeat split; assumption.
  - exists q. cbn [fst snd] in Hq. destruct Hq as (Ebm & Hrest).
    rewrite HF, Ebm. cbn [Z.sub Z.to_nat copies repeat concat].
    change (Z.to_nat (8 - 8)) with O. cbn [copies repeat concat].
    rewrite app_nil_r. split; [reflexivity | exact Hrest].
Qed.

Lemma stride_covers (siz : Z) :
  0 <= siz -> siz <= 8 * Z.shiftr (siz + 7) 3 /\ 0 <= Z.shiftr (siz + 7) 3.
Proof.
  intros H. rewrite Z.shiftr_div_pow2 by lia. change (2 ^ 3) with 8.
  pose proof (Z.div_mod (siz + 7) 8 ltac:(lia)).
  pose proof (Z.mod_pos_bound (siz + 7) 8 ltac:(lia)). lia.
Qed.

(** [NewPlan] for a mask 0..7 paints that mask's bitmap over the level
    plan; for mask -1 it lines up the bitmaps of the eight masks. *)
Lemma NewPlan_spec (v l : Z) :
  1 <= v <= 40 -> 0 <= l <= 3 ->
  exists (p : Plan) (g : Grid) (g2 : Grid) (a : Z) (pl : Plan),
    let b := Bitmap (PlanCode p) in
    vplan v 1 = Some (Ok p)
    /\ numbered_map v = Some (p, g)
    /\ plan_facts v p g a = true
    /\ sweep_rel (lplan_src v l) a g g2
    /\ level_plan v l = Some pl
    /\ Version pl = v /\ Level pl = l
    /\ DataBytes pl = lay_nd v l /\ CheckBytes pl = lay_ne v l * lay_nb v l
    /\ Blocks pl = lay_nb v l /\ Pixel pl = g2 /\ PlanCode pl = PlanCode p
    /\ (forall m, 0 <= m < 8 ->
          mask_bitmap l m pl b = Some (mask_chunk l pl b m)
          /\ zlen (mask_chunk l pl b m) = zlen b
          /\ NewPlan v l m = Some (Ok (masked_plan pl m (mask_chunk l pl b m))))
    /\ NewPlan v l (-1)
       = Some (Ok (masked_plan pl (-1)
                     (concat (map (mask_chunk l pl b) (zrange 0 8))))).
Proof.
  intros Hv Hl.
  destruct (level_plan_spec v l Hv Hl) as (p & g & g2 & a & Ev & Enm & Hf & HR & Hlp).
  destruct (plan_facts_sizes _ _ _ _ Hf) as (HS & HSt & HB & Hr & Hc & Hrg & Hcg & Ha).
  destruct (vplan_fields v 1 p Ev) as (HV & HL & HM).
  set (siz := 17 + v * 4) in *.
  set (stride := Z.shiftr (siz + 7) 3) in *.
  set (pl := {| Version := Version p; Level := l; Mask := Mask p;
                DataBytes := lay_nd v l;
                CheckBytes := lay_ne v l * lay_nb v l;
                Blocks := lay_nb v l;
                Pixel := g2; PlanCode := PlanCode p |}).
  assert (Elp : lplan v l p = Some pl) by (apply Hlp; reflexivity).
  destruct (stride_covers siz ltac:(unfold siz; lia)) as [Hcov Hst0].
  fold stride in Hcov, Hst0.
  pose proof HR as (Hr2 & Hc2 & Hcell).
  assert (Hglen : grid_len (Pixel pl) = siz)
    by (unfold grid_len; cbn [pl Pixel]; lia).
  assert (Hsz : Stride (PlanCode pl) * grid_len (Pixel pl) = stride * siz).
  { rewrite Hglen. cbn [pl PlanCode]. rewrite HSt. reflexivity. }
  assert (Hlf : forall m, 0 <= m < 8 -> local_op (stride * siz) (fplan l m pl)).
  { intros m Hm. rewrite <- Hsz. apply fplan_local.
    - rewrite Hglen. unfold siz. lia.
    - rewrite Hglen. cbn [pl PlanCode]. rewrite HSt. exact Hcov. }
  assert (Hlm : forall m, 0 <= m < 8 ->
            local_op (stride * siz) (fun b => option_map snd (mplan m pl b))).
  { intros m Hm. rewrite <- Hsz. apply mplan_local.
    - lia.
    - rewrite Hglen. cbn [pl Pixel]. lia.
    - rewrite Hglen. cbn [pl Pixel]. lia.
    - rewrite Hglen. cbn [pl PlanCode]. rewrite HSt. exact Hcov. }
  assert (Hchunk : forall m, 0 <= m < 8 ->
            mask_bitmap l m pl (Bitmap (PlanCode p))
            = Some (mask_chunk l pl (Bitmap (PlanCode p)) m)
            /\ zlen (mask_chunk l pl (Bitmap (PlanCode p)) m) = stride * siz).
  { intros m Hm.
    destruct (Hlf m Hm (Bitmap (PlanCode p)) [] ltac:(rewrite HB, HSt; reflexivity))
      as (bf & Ef & Lf & _).
    destruct (Hlm m Hm bf [] Lf) as (c & Ec & Lc & _).
    assert (E : mask_bitmap l m pl (Bitmap (PlanCode p)) = Some c)
      by (apply mask_bitmap_split; eauto).
    rewrite (mask_chunk_some _ _ _ _ _ E). auto. }
  exists p, g, g2, a, pl. cbv zeta.
  split; [exact Ev|]. split; [exact Enm|]. split; [exact Hf|]. split; [exact HR|].
  split; [unfold level_plan; rewrite Ev; exact Elp|].
  split; [exact HV|]. split; [reflexivity|].
  split; [reflexivity|]. split; [reflexivity|]. split; [reflexivity|].
  split; [reflexivity|]. split; [reflexivity|].
  split.
  - intros m Hm. destruct (Hchunk m Hm) as [Ec Lc].
    split; [exact Ec|]. split; [rewrite HB, HSt; exact Lc|].
    unfold NewPlan, MinVersion, MaxVersion, L, H.
    destruct (Z.ltb_spec v 1); [lia|]. destruct (Z.ltb_spec 40 v); [lia|].
    destruct (Z.ltb_spec l 0); [lia|]. destruct (Z.ltb_spec 3 l); [lia|].
    cbn [orb]. destruct (Z.eqb_spec m (-1)); [lia|].
    destruct (Z.ltb_spec m 0); [lia|]. destruct (Z.ltb_spec 7 m); [lia|].
    cbn [negb andb orb]. rewrite Ev, Elp. cbn [Z.eqb Pos.eqb].
    apply mask_bitmap_split in Ec. destruct Ec as (bf & Ef & Em).
    change (Bitmap (PlanCode pl)) with (Bitmap (PlanCode p)). rewrite Ef.
    destruct (mplan m pl bf) as [[q c]|] eqn:Emp; [|discriminate].
    cbn [option_map snd] in Em. injection Em as ->.
    apply mplan_fst in Emp. subst q. reflexivity.
  - unfold NewPlan, MinVersion, MaxVersion, L, H.
    destruct (Z.ltb_spec v 1); [lia|]. destruct (Z.ltb_spec 40 v); [lia|].
    destruct (Z.ltb_spec l 0); [lia|]. destruct (Z.ltb_spec 3 l); [lia|].
    cbn [orb Z.eqb Pos.eqb negb andb].
    rewrite (vplan_ext v 8 p Ev ltac:(lia) HS HSt).
    set (p8 := {| Version := v; Level := 0; Mask := 0; DataBytes := 0;
                  CheckBytes := 0; Blocks := 0; Pixel := Pixel p;
                  PlanCode := {| Bitmap := Bitmap (PlanCode p)
                                   ++ repeat 0 (Z.to_nat (Stride (PlanCode p)
                                                * Size (PlanCode p) * (8 - 1)));
                                 Size := Size (PlanCode p);
                                 Stride := Stride (PlanCode p) |} |}).
    rewrite (Hlp p8 eq_refl).
    cbn [PlanCode p8 Size Stride Bitmap Version Mask].
    set (b := Bitmap (PlanCode p)) in *.
    set (zs := repeat 0 (Z.to_nat (Stride (PlanCode p) * Size (PlanCode p) * (8 - 1)))).
    assert (Hzs : zlen zs = Z.of_nat 7 * zlen b).
    { unfold zs. rewrite zlen_repeat, HB, HS, HSt. fold stride. nia. }
    assert (Hb0 : 0 < zlen b) by (rewrite HB, HSt; fold stride; unfold siz in *; nia).
    pose proof (replicate_copies (S (length (b ++ zs))) 1 7 b zs Hb0 ltac:(lia) Hzs)
      as Hrep.
    rewrite copies_S in Hrep. change (copies 0 b) with (@nil Z) in Hrep.
    rewrite app_nil_r in Hrep.
    replace (Z.of_nat 1 * zlen b) with (Size (PlanCode p) * Stride (PlanCode p))
      in Hrep by (rewrite HB, HS; lia).
    rewrite Hrep by (rewrite length_app; unfold zlen in Hzs, Hb0; lia). clear Hrep.
    set (pl8 := {| Version := v; Level := l; Mask := 0;
                   DataBytes := lay_nd v l;
                   CheckBytes := lay_ne v l * lay_nb v l;
                   Blocks := lay_nb v l; Pixel := g2;
                   PlanCode := {| Bitmap := b ++ zs; Size := Size (PlanCode p);
                                  Stride := Stride (PlanCode p) |} |}).
    destruct (mask_loop l pl pl8 b eq_refl eq_refl) as (_ & q & Eq & Hq).
    + cbn [pl8 PlanCode Size Stride]. rewrite HB, HS. lia.
    + cbn [pl8 PlanCode Size Stride]. rewrite HS, HSt.
      replace (siz * stride) with (stride * siz) by lia. exact Hlf.
    + cbn [pl8 PlanCode Size Stride]. rewrite HS, HSt.
      replace (siz * stride) with (stride * siz) by lia. exact Hlm.
    + cbn [pl8 PlanCode Size Stride] in Eq. change (1 + 7)%nat with 8%nat.
      rewrite Eq. destruct Hq as (Q1 & Q2 & Q3 & Q4 & Q5 & Q6 & Q7).
      destruct q as [qv ql qm qd qc qb qp qcode].
      cbn [Version Level Mask DataBytes CheckBytes Blocks Pixel PlanCode pl8
           fst snd] in *.
      subst qv ql qd qc qb qp qcode.
      unfold masked_plan, with_Mask, with_Code_Bitmap, with_Bitmap.
      cbn [Version Level Mask DataBytes CheckBytes Blocks Pixel PlanCode pl
           Size Stride]. rewrite HV. reflexivity.
Qed.

(** ** Auxiliaries on plans and chunks *)

Lemma NewPlan_inv (v l m : Z) (p : Plan) :
  NewPlan v l m = Some (Ok p) -> 1 <= v <= 40 /\ 0 <= l <= 3 /\ -1 <= m <= 7.
Proof.
  unfold NewPlan, MinVersion, MaxVersion, L, H.
  destruct (Z.ltb_spec v 1); [discriminate|].
  destruct (Z.ltb_spec 40 v); [discriminate|].
  destruct (Z.ltb_spec l 0); [discriminate|].
  destruct (Z.ltb_spec 3 l); [discriminate|]. cbn [orb].
  destruct (Z.eqb_spec m (-1)); [lia|].
  destruct (Z.ltb_spec m 0); [discriminate|].
  destruct (Z.ltb_spec 7 m); [discriminate|]. lia.
Qed.

Lemma zlen_concat_chunks (f : Z -> list Z) (sz k : Z) :
  0 <= k -> (forall i, 0 <= i < k -> zlen (f i) = sz) ->
  zlen (concat (map f (zrange 0 k))) = k * sz.
Proof.
  intros Hk. pattern k. apply natlike_ind; [| |exact Hk].
  - intros _. reflexivity.
  - clear k Hk. intros k Hk IH H. unfold Z.succ in *.
    rewrite zrange_snoc, map_app, concat_app, zlen_app by lia.
    rewrite IH by (intros i Hi; apply H; lia).
    cbn [map concat]. rewrite app_nil_r, H by lia. lia.
Qed.

Lemma chunk_at_concat (f : Z -> list Z) (sz k m : Z) :
  0 <= m < k -> (forall i, 0 <= i < k -> zlen (f i) = sz) ->
  chunk_at sz (concat (map f (zrange 0 k))) m = f m.
Proof.
  intros Hm H. unfold chunk_at.
  rewrite (zrange_app 0 m k), map_app, concat_app by lia.
  rewrite <- (zlen_concat_chunks f sz m ltac:(lia)) by (intros i Hi; apply H; lia).
  rewrite skipn_zlen_app_l.
  rewrite (zrange_cons m k) by lia. cbn [map concat].
  rewrite <- (H m Hm). apply firstn_zlen_app_l.
Qed.

Lemma shiftr3_div (a : Z) : Z.shiftr a 3 = a / 8.
Proof. rewrite Z.shiftr_div_pow2 by lia. reflexivity. Qed.


(** * The table of plans *)

Lemma zget_repeat {A : Type} (x : A) (n : nat) (i : Z) :
  0 <= i < Z.of_nat n -> zget (repeat x n) i = Some x.
Proof.
  intros Hi. unfold zget. destruct (Z.ltb_spec i 0); [lia|].
  assert (Hn : (Z.to_nat i < n)%nat) by lia.
  revert Hn. generalize (Z.to_nat i). clear. intros k. revert k.
  induction n as [|n IH]; intros [|k] Hk; cbn [repeat nth_error]; try lia; auto.
  apply IH. lia.
Qed.

Lemma upd_nat_nth_error {A : Type} (f : A -> A) (l l' : list A) (n k : nat) :
  upd_nat l n f = Some l' ->
  nth_error l' k = if Nat.eqb k n then option_map f (nth_error l k) else nth_error l k.
Proof.
  revert l' n k. induction l as [|a t IH]; intros l' n k E.
  - destruct n; discriminate.
  - destruct n as [|n]; cbn [upd_nat] in E.
    + injection E as <-. destruct k; reflexivity.
    + destruct (upd_nat t n f) as [t'|] eqn:Et; [|discriminate].
      cbn [option_map] in E. injection E as <-.
      destruct k as [|k]; [reflexivity|]. cbn [nth_error Nat.eqb]. now apply IH.
Qed.

Lemma zget_zset {A : Type} (l l' : list A) (i k : Z) (a : A) :
  zset l i a = Some l' -> 0 <= k ->
  zget l' k = if k =? i then Some a else zget l k.
Proof.
  unfold zset. intros E Hk. pose proof (zupd_inv _ _ _ _ E) as Hi.
  unfold zupd in E. unfold zget.
  destruct (Z.ltb_spec i 0); [lia|]. destruct (Z.ltb_spec k 0); [lia|].
  rewrite (upd_nat_nth_error _ _ _ _ (Z.to_nat k) E).
  destruct (Z.eqb_spec k i) as [->|Hne].
  - rewrite Nat.eqb_refl.
    destruct (nth_error l (Z.to_nat i)) eqn:En; [reflexivity|].
    apply nth_error_None in En. unfold zlen in Hi. lia.
  - destruct (Nat.eqb_spec (Z.to_nat k) (Z.to_nat i)); [lia | reflexivity].
Qed.

Lemma zset_some {A : Type} (l : list A) (i : Z) (a : A) :
  0 <= i < zlen l -> exists l', zset l i a = Some l'.
Proof. intros Hi. unfold zset. now apply zupd_some. Qed.

Lemma cache_ok_init : cache_ok autoPlans.
Proof.
  intros v l Hv Hl. unfold autoPlans, versions, nlevels, MaxVersion, MinVersion, H, L.
  eexists _, _. split; [apply zget_repeat; lia|].
  split; [apply zget_repeat; lia|]. left. split; reflexivity.
Qed.

Lemma NewPlan_auto (v l : Z) :
  1 <= v <= 40 -> 0 <= l <= 3 -> exists q, NewPlan v l (-1) = Some (Ok q).
Proof.
  intros Hv Hl.
  destruct (NewPlan_spec v l Hv Hl) as (p & g & g2 & a & pl & H0). cbv zeta in H0.
  destruct H0 as (_ & _ & _ & _ & _ & _ & _ & _ & _ & _ & _ & _ & _ & Hauto).
  eexists. exact Hauto.
Qed.

(** [makeAutoPlan] on a table it alone has written: the plan of mask -1,
    kept for the next call. *)
Lemma makeAutoPlan_ok (st : list (list autoPlan)) (v l : Z) :
  cache_ok st -> 1 <= v <= 40 -> 0 <= l <= 3 ->
  exists q st',
    NewPlan v l (-1) = Some (Ok q)
    /\ makeAutoPlan st v l = Some (Ok (Some q), st')
    /\ cache_ok st'
    /\ makeAutoPlan st' v l = Some (Ok (Some q), st').
Proof.
  intros Hok Hv Hl.
  destruct (Hok v l Hv Hl) as (row & e & Er & Ee & Hentry).
  assert (Htests : forall st0, makeAutoPlan st0 v l
            = (row <- zget st0 (v - 1) ;;
               p <- zget row l ;;
               match ap_p p with
               | None =>
                   if once p then Some (Ok None, st0)
                   else
                     r <- NewPlan v l (-1) ;;
                     let p' := {| once := true;
                                  ap_p := match r with Ok q => Some q | Err _ => None end |} in
                     row' <- zset row l p' ;;
                     st' <- zset st0 (v - 1) row' ;;
                     Some (Ok (ap_p p'), st')
               | Some q => Some (Ok (Some q), st0)
               end)).
  { intros st0. unfold makeAutoPlan, MinVersion, MaxVersion, L, H.
    destruct (Z.ltb_spec v 1); [lia|]. destruct (Z.ltb_spec 40 v); [lia|].
    destruct (Z.ltb_spec l 0); [lia|]. destruct (Z.ltb_spec 3 l); [lia|].
    reflexivity. }
  destruct Hentry as [[Ho Hn]|(q & Hq & HNq)].
  - destruct (NewPlan_auto v l Hv Hl) as [q HNq].
    set (p' := {| once := true; ap_p := Some q |}).
    destruct (zset_some row l p' (zget_inv _ _ _ Ee)) as [row' Erow'].
    destruct (zset_some st (v - 1) row' (zget_inv _ _ _ Er)) as [st' Est'].
    exists q, st'. split; [exact HNq|].
    assert (Eget : zget st' (v - 1) = Some row').
    { rewrite (zget_zset _ _ _ _ _ Est') by lia. rewrite Z.eqb_refl. reflexivity. }
    assert (Eget' : zget row' l = Some p').
    { rewrite (zget_zset _ _ _ _ _ Erow') by lia. rewrite Z.eqb_refl. reflexivity. }
    split; [|split].
    + rewrite Htests, Er, Ee, Hn, Ho, HNq. cbv beta iota zeta. fold p'.
      rewrite Erow', Est'. reflexivity.
    + intros v' l' Hv' Hl'.
      destruct (Z.eq_dec v' v) as [->|Hvne].
      * exists row'. rewrite (zget_zset _ _ _ _ _ Erow') by lia.
        destruct (Z.eqb_spec l' l) as [->|Hlne].
        -- exists p'. split; [exact Eget|]. split; [reflexivity|].
           right. exists q. split; [reflexivity | exact HNq].
        -- destruct (Hok v l' Hv' Hl') as (row2 & e2 & Er2 & Ee2 & He2).
           rewrite Er in Er2. injection Er2 as <-.
           exists e2. split; [exact Eget|]. split; [exact Ee2 | exact He2].
      * destruct (Hok v' l' Hv' Hl') as (row2 & e2 & Er2 & Ee2 & He2).
        exists row2, e2. rewrite (zget_zset _ _ _ _ _ Est') by lia.
        destruct (Z.eqb_spec (v' - 1) (v - 1)); [lia|]. auto.
    + rewrite Htests, Eget, Eget'. reflexivity.
  - exists q, st. split; [exact HNq|].
    assert (E : makeAutoPlan st v l = Some (Ok (Some q), st))
      by (rewrite Htests, Er, Ee, Hq; reflexivity).
    auto.
Qed.

Lemma makeAutoPlan_errors (st : list (list autoPlan)) (v l : Z) :
  (v < 1 \/ 40 < v -> makeAutoPlan st v l = Some (Err (ErrVersion v), st))
  /\ (1 <= v <= 40 -> l < 0 \/ 3 < l ->
      makeAutoPlan st v l = Some (Err (ErrLevel l), st)).
Proof.
  unfold makeAutoPlan, MinVersion, MaxVersion, L, H. split.
  - intros Hv. destruct (Z.ltb_spec v 1); [reflexivity|].
    destruct (Z.ltb_spec 40 v); [reflexivity | lia].
  - intros Hv Hl. destruct (Z.ltb_spec v 1); [lia|].
    destruct (Z.ltb_spec 40 v); [lia|]. cbn [orb].
    destruct (Z.ltb_spec l 0); [reflexivity|].
    destruct (Z.ltb_spec 3 l); [reflexivity | lia].
Qed.


(** * What [Code.set] does to the modules *)

Lemma byte_index_inj (stride y x y0 x0 : Z) :
  0 <= x < 8 * stride -> 0 <= x0 < 8 * stride ->
  y * stride + x / 8 = y0 * stride + x0 / 8 -> y = y0 /\ x / 8 = x0 / 8.
Proof.
  intros Hx Hx0 E.
  assert (0 <= x / 8 < stride)
    by (split; [apply Z.div_pos; lia | apply Z.div_lt_upper_bound; lia]).
  assert (0 <= x0 / 8 < stride)
    by (split; [apply Z.div_pos; lia | apply Z.div_lt_upper_bound; lia]).
  assert (y = y0).
  { destruct (Z.lt_trichotomy y y0) as [Hlt|[Heq|Hgt]]; [|assumption|].
    - assert (stride <= (y0 - y) * stride) by nia. lia.
    - assert (stride <= (y - y0) * stride) by nia. lia. }
  subst. lia.
Qed.

Lemma Code_set_bit (c : Code) (b b' : list Z) (y0 x0 y x : Z) :
  Code_set c b y0 x0 = Some b' ->
  0 <= y0 -> 0 <= x0 < 8 * Stride c ->
  0 <= y -> 0 <= x < 8 * Stride c ->
  bit_at (Stride c) b' y x
  = bit_at (Stride c) b y x || ((y =? y0) && (x =? x0)).
Proof.
  intros E Hy0 Hx0 Hy Hx. unfold Code_set in E. unfold bit_at.
  rewrite Z.quot_div_nonneg in E by lia.
  assert (Hi : 0 <= y * Stride c + x / 8).
  { assert (0 <= x / 8) by (apply Z.div_pos; lia). nia. }
  rewrite (zupd_znth _ _ _ _ _ E Hi).
  destruct (Z.eqb_spec (y * Stride c + x / 8) (y0 * Stride c + x0 / 8)) as [Ei|Ei].
  - destruct (byte_index_inj _ _ _ _ _ Hx Hx0 Ei) as [-> Ediv].
    rewrite Z.eqb_refl. cbn [andb].
    rewrite land_7_mod.
    pose proof (Z.mod_pos_bound x0 8 ltac:(lia)).
    pose proof (Z.mod_pos_bound x 8 ltac:(lia)).
    rewrite Z.shiftl_1_l.
    rewrite uint8_small.
    2:{ split; [apply Z.pow_nonneg; lia|].
        apply (Z.lt_le_trans _ (2 ^ 8)); [apply Z.pow_lt_mono_r; lia | reflexivity]. }
    rewrite Z.lor_spec, Z.pow2_bits_eqb by lia. f_equal.
    pose proof (Z.div_mod x 8 ltac:(lia)). pose proof (Z.div_mod x0 8 ltac:(lia)).
    destruct (Z.eqb_spec (7 - x0 mod 8) (7 - x mod 8));
      destruct (Z.eqb_spec x x0); try reflexivity; lia.
  - destruct (Z.eqb_spec y y0) as [->|]; [|now rewrite orb_false_r].
    destruct (Z.eqb_spec x x0) as [->|]; [lia|]. now rewrite orb_false_r.
Qed.

(** * Steps and what they paint *)

Section Paints.

Variable stride : Z.

Lemma paints_ret : paints stride (fun b => Some b) (fun _ _ => False).
Proof. intros b b' [= <-] y x _ _. tauto. Qed.

Lemma paints_bind (f g : list Z -> option (list Z)) (S T : Z -> Z -> Prop) :
  paints stride f S -> paints stride g T ->
  paints stride (fun b => b' <- f b ;; g b') (fun y x => S y x \/ T y x).
Proof.
  intros Hf Hg b b' H y x Hy Hx. cbv beta in H.
  destruct (f b) as [b1|] eqn:E; [|discriminate].
  rewrite (Hg b1 b' H y x Hy Hx), (Hf b b1 E y x Hy Hx). tauto.
Qed.

Lemma paints_if (c : bool) (f g : list Z -> option (list Z)) (S T : Z -> Z -> Prop) :
  paints stride f S -> paints stride g T ->
  paints stride (fun b => if c then f b else g b)
         (fun y x => if c then S y x else T y x).
Proof. destruct c; auto. Qed.

Lemma paints_iff (f : list Z -> option (list Z)) (S T : Z -> Z -> Prop) :
  (forall y x, 0 <= y -> 0 <= x < 8 * stride -> (S y x <-> T y x)) ->
  paints stride f S -> paints stride f T.
Proof.
  intros HST Hf b b' H y x Hy Hx.
  rewrite (Hf b b' H y x Hy Hx), (HST y x Hy Hx). tauto.
Qed.

Lemma paints_foldM {A : Type} (f : list Z -> A -> option (list Z)) (l : list A)
    (S : A -> Z -> Z -> Prop) :
  (forall a, In a l -> paints stride (fun b => f b a) (S a)) ->
  paints stride (fun b => foldM f l b) (fun y x => exists a, In a l /\ S a y x).
Proof.
  induction l as [|a l IH]; intros H.
  - intros b b' [= <-] y x _ _. split; [tauto|].
    intros [?|(a & [] & _)]. assumption.
  - cbn [foldM].
    apply (paints_iff _ (fun y x => S a y x \/ exists a', In a' l /\ S a' y x)).
    + intros y x _ _. split.
      * intros [?|(a' & ? & ?)]; [exists a | exists a']; cbn [In]; auto.
      * intros (a' & [<-|?] & ?); [left | right; exists a']; auto.
    + apply (paints_bind (fun b => f b a) (fun b => foldM f l b)).
      * apply H. now left.
      * apply IH. intros a' Ha'. apply H. now right.
Qed.

Lemma paints_Code_set (c : Code) (y0 x0 : Z) :
  Stride c = stride -> 0 <= y0 -> 0 <= x0 < 8 * stride ->
  paints stride (fun b => Code_set c b y0 x0) (fun y x => y = y0 /\ x = x0).
Proof.
  intros <- Hy0 Hx0 b b' E y x Hy Hx.
  rewrite (Code_set_bit c b b' y0 x0 y x E) by assumption.
  rewrite orb_true_iff, andb_true_iff, !Z.eqb_eq. tauto.
Qed.

End Paints.

(** * What [fplan] and [mplan] paint *)

Lemma land_shiftr_1 (a i : Z) :
  0 <= i -> (Z.land (Z.shiftr a i) 1 =? 1) = Z.testbit a i.
Proof.
  intros Hi. change 1 with (Z.ones 1) at 1. rewrite Z.land_ones by lia.
  change (2 ^ 1) with 2. rewrite <- Z.bit0_mod, Z.shiftr_spec by lia.
  rewrite Z.add_0_l. destruct (Z.testbit a i); reflexivity.
Qed.

Lemma fplan_step (l m : Z) (p : Plan) (b : list Z) (i : Z) :
  0 <= i ->
  (let fb := fplan_word l m in
   let siz := grid_len (Pixel p) in
   let c := PlanCode p in
   if Z.land (Z.shiftr fb i) 1 =? 1 then
     b <- (if i <? 6 then Code_set c b i 8
           else if i <? 8 then Code_set c b (i + 1) 8
           else if i <? 9 then Code_set c b 8 7
           else Code_set c b 8 (14 - i)) ;;
     if i <? 8 then Code_set c b 8 (siz - 1 - i)
     else Code_set c b (siz - 1 - 14 + i) 8
   else Some b)
  = (if Z.testbit (fplan_word l m) i then
       b <- Code_set (PlanCode p) b (fst (format_pos1 i)) (snd (format_pos1 i)) ;;
       Code_set (PlanCode p) b (fst (format_pos2 (grid_len (Pixel p)) i))
                (snd (format_pos2 (grid_len (Pixel p)) i))
     else Some b).
Proof.
  intros Hi. cbv zeta. rewrite land_shiftr_1 by assumption.
  destruct (Z.testbit (fplan_word l m) i); [|reflexivity].
  unfold format_pos1, format_pos2.
  replace (grid_len (Pixel p) - 1 - 14 + i) with (grid_len (Pixel p) - 1 - (14 - i))
    by lia.
  destruct (i <? 6), (i <? 8), (i <? 9); reflexivity.
Qed.

Lemma format_pos_range (siz i : Z) :
  21 <= siz -> 0 <= i < 15 ->
  0 <= fst (format_pos1 i) < siz /\ 0 <= snd (format_pos1 i) < siz
  /\ 0 <= fst (format_pos2 siz i) < siz /\ 0 <= snd (format_pos2 siz i) < siz.
Proof.
  intros Hs Hi. unfold format_pos1, format_pos2.
  destruct (Z.ltb_spec i 6), (Z.ltb_spec i 8), (Z.ltb_spec i 9); cbn [fst snd]; lia.
Qed.

Lemma fplan_paints (l m : Z) (p : Plan) :
  21 <= grid_len (Pixel p) -> grid_len (Pixel p) <= 8 * Stride (PlanCode p) ->
  paints (Stride (PlanCode p)) (fplan l m p)
    (fun y x => exists i, 0 <= i < 15 /\ Z.testbit (fplan_word l m) i = true
       /\ ((y = fst (format_pos1 i) /\ x = snd (format_pos1 i))
           \/ (y = fst (format_pos2 (grid_len (Pixel p)) i)
               /\ x = snd (format_pos2 (grid_len (Pixel p)) i)))).
Proof.
  intros Hs Hst.
  assert (E : forall b, fplan l m p b
    = foldM (fun b i =>
        if Z.testbit (fplan_word l m) i then
          b <- Code_set (PlanCode p) b (fst (format_pos1 i)) (snd (format_pos1 i)) ;;
          Code_set (PlanCode p) b (fst (format_pos2 (grid_len (Pixel p)) i))
                   (snd (format_pos2 (grid_len (Pixel p)) i))
        else Some b) (zrange 0 15) b).
  { intros b. unfold fplan. apply foldM_ext_in. intros i b0 Hi.
    apply in_zrange in Hi. apply (fplan_step l m p b0 i). lia. }
  intros b b' Hb. rewrite E in Hb. revert b b' Hb.
  apply (paints_iff _ _
    (fun y x => exists i, In i (zrange 0 15) /\
       (if Z.testbit (fplan_word l m) i
        then (y = fst (format_pos1 i) /\ x = snd (format_pos1 i))
             \/ (y = fst (format_pos2 (grid_len (Pixel p)) i)
                 /\ x = snd (format_pos2 (grid_len (Pixel p)) i))
        else False))).
  - intros y x _ _. split.
    + intros (i & Hi & Hc). apply in_zrange in Hi. exists i.
      destruct (Z.testbit (fplan_word l m) i); [auto | contradiction].
    + intros (i & Hi & Ht & Hc). exists i. rewrite in_zrange, Ht. auto.
  - apply (paints_foldM _ _ _
      (fun i y x => if Z.testbit (fplan_word l m) i
        then (y = fst (format_pos1 i) /\ x = snd (format_pos1 i))
             \/ (y = fst (format_pos2 (grid_len (Pixel p)) i)
                 /\ x = snd (format_pos2 (grid_len (Pixel p)) i))
        else False)).
    intros i Hi. apply in_zrange in Hi.
    destruct (format_pos_range (grid_len (Pixel p)) i Hs Hi) as (R1 & R2 & R3 & R4).
    apply paints_if; [|apply paints_ret].
    apply paints_bind; apply paints_Code_set; (reflexivity || lia).
Qed.

Lemma mplan_paints (m : Z) (p : Plan) :
  cols (Pixel p) <= 8 * Stride (PlanCode p) ->
  paints (Stride (PlanCode p)) (fun b => option_map snd (mplan m p b))
    (fun y x => 0 <= y < rows (Pixel p) /\ 0 <= x < cols (Pixel p)
       /\ masked_role (Pixel_Role (cell (Pixel p) y x)) = true
       /\ Mask_Invert m y x = Some true).
Proof.
  intros Hst.
  assert (E : forall b, option_map snd (mplan m p b)
    = foldM (fun b y =>
        foldM (fun b x =>
          if masked_role (Pixel_Role (cell (Pixel p) y x)) then
            inv <- Mask_Invert m y x ;;
            if inv then Code_set (PlanCode p) b y x else Some b
          else Some b) (zrange 0 (cols (Pixel p))) b)
        (zrange 0 (rows (Pixel p))) b).
  { intros b. unfold mplan. cbv zeta. cbn [Pixel Mask PlanCode with_Mask].
    unfold for_pixels.
    match goal with
    | |- option_map snd (match ?e with _ => _ end) = ?r =>
        assert (Ee : e = r); [|rewrite Ee; destruct r; reflexivity]
    end.
    apply foldM_ext_in. intros y b0 Hy. apply in_zrange in Hy.
    apply foldM_ext_in. intros x b1 Hx. apply in_zrange in Hx.
    rewrite zget2_some by lia. reflexivity. }
  intros b b' Hb. rewrite E in Hb. revert b b' Hb.
  apply (paints_iff _ _
    (fun y x => exists y0, In y0 (zrange 0 (rows (Pixel p))) /\
       exists x0, In x0 (zrange 0 (cols (Pixel p))) /\
         (if masked_role (Pixel_Role (cell (Pixel p) y0 x0))
          then match Mask_Invert m y0 x0 with
               | Some true => y = y0 /\ x = x0
               | _ => False
               end
          else False))).
  - intros y x _ _. split.
    + intros (y0 & Hy0 & x0 & Hx0 & Hc). apply in_zrange in Hy0, Hx0.
      destruct (masked_role _) eqn:Er; [|contradiction].
      destruct (Mask_Invert m y0 x0) as [[|]|] eqn:Ei; try contradiction.
      destruct Hc as [-> ->]. auto.
    + intros (Hy & Hx & Hr & Hi). exists y. rewrite in_zrange. split; [lia|].
      exists x. rewrite in_zrange. split; [lia|]. rewrite Hr, Hi. auto.
  - apply (paints_foldM _ _ _
      (fun y0 y x => exists x0, In x0 (zrange 0 (cols (Pixel p))) /\
         (if masked_role (Pixel_Role (cell (Pixel p) y0 x0))
          then match Mask_Invert m y0 x0 with
               | Some true => y = y0 /\ x = x0
               | _ => False
               end
          else False))).
    intros y0 Hy0. apply in_zrange in Hy0.
    apply (paints_foldM _ _ _
      (fun x0 y x =>
         (if masked_role (Pixel_Role (cell (Pixel p) y0 x0))
          then match Mask_Invert m y0 x0 with
               | Some true => y = y0 /\ x = x0
               | _ => False
               end
          else False))).
    intros x0 Hx0. apply in_zrange in Hx0.
    apply paints_if; [|apply paints_ret].
    destruct (Mask_Invert m y0 x0) as [[|]|].
    + apply paints_Code_set; (reflexivity || lia).
    + apply paints_ret.
    + intros b b' Hb. discriminate.
Qed.


(** * Reading the computed checks *)

Lemma labels_ok_cells (g : Grid) (a : Z) :
  labels_ok g a = true ->
  forall y x, 0 <= y < rows g -> 0 <= x < cols g ->
    Pixel_Role (cell g y x) = Data ->
    0 <= Pixel_Offset (cell g y x) < a
    /\ PositiveMap.find (zkey (Pixel_Offset (cell g y x))) (label_index g)
       = Some (y, x).
Proof.
  intros H y x Hy Hx Hr. unfold labels_ok in H. cbv zeta in H.
  apply andb_prop in H. destruct H as [H _].
  pose proof (cells_forall_spec _ _ H y x Hy Hx) as Hc. cbv beta in Hc.
  rewrite Hr in Hc. cbn [Z.eqb Data Pos.eqb] in Hc.
  apply andb_prop in Hc. destruct Hc as [Hc Hf].
  apply andb_prop in Hc. destruct Hc as [H0 H1].
  apply Z.leb_le in H0. apply Z.ltb_lt in H1. split; [lia|].
  destruct (PositiveMap.find _ _) as [[y' x']|]; [|discriminate].
  apply andb_prop in Hf. destruct Hf as [Ey Ex].
  apply Z.eqb_eq in Ey, Ex. now subst.
Qed.

Lemma labels_ok_index (g : Grid) (a o : Z) :
  labels_ok g a = true -> 0 <= o < a ->
  exists y x,
    PositiveMap.find (zkey o) (label_index g) = Some (y, x)
    /\ 0 <= y < rows g /\ 0 <= x < cols g /\ cell g y x = data_pixel o.
Proof.
  intros H Ho. unfold labels_ok in H. cbv zeta in H.
  apply andb_prop in H. destruct H as [_ H].
  pose proof (zrange_forallb _ 0 a H o Ho) as Hc. cbv beta in Hc.
  destruct (PositiveMap.find _ _) as [[y x]|]; [|discriminate].
  apply andb_prop in Hc. destruct Hc as [Hin Hcell].
  apply in_grid_iff in Hin. apply Z.eqb_eq in Hcell.
  exists y, x. tauto.
Qed.

Lemma forallb_combine_from {A : Type} (P : Z * A -> bool) (l : list A) (d : A)
    (lo : Z) (i : nat) :
  forallb P (combine (zrange_from lo (length l)) l) = true ->
  (i < length l)%nat -> P (lo + Z.of_nat i, nth i l d) = true.
Proof.
  revert lo i. induction l as [|a l IH]; intros lo i H Hi; cbn [length] in Hi; [lia|].
  cbn [length zrange_from combine forallb] in H.
  apply andb_prop in H. destruct H as [H0 H1].
  destruct i as [|i].
  - cbn [nth]. rewrite Z.add_0_r. assumption.
  - cbn [nth]. replace (lo + Z.of_nat (S i)) with (lo + 1 + Z.of_nat i) by lia.
    apply IH; [assumption | lia].
Qed.

Lemma black_tagged_spec (stride : Z) (g : Grid) (bm : list Z) (y x : Z) :
  black_tagged stride g bm = true ->
  0 <= y -> 0 <= x < 8 * stride -> y * stride + x / 8 < zlen bm ->
  bit_at stride bm y x = true ->
  1 <= Pixel_Role (cell g y x) <= 6.
Proof.
  intros H Hy Hx Hi Hb. unfold black_tagged, zrange in H.
  assert (Hd : 0 <= x / 8 < stride)
    by (split; [apply Z.div_pos; lia | apply Z.div_lt_upper_bound; lia]).
  set (idx := y * stride + x / 8) in *.
  assert (Hidx : 0 <= idx) by (unfold idx; nia).
  replace (Z.to_nat (zlen bm - 0)) with (length bm) in H by (unfold zlen; lia).
  pose proof (forallb_combine_from _ bm 0 0 (Z.to_nat idx) H
                ltac:(unfold zlen in Hi; lia)) as Hc.
  rewrite Z2Nat.id, Z.add_0_l in Hc by lia.
  unfold byte_tagged in Hc.
  apply andb_prop in Hc. destruct Hc as [_ Hc].
  pose proof (Z.mod_pos_bound x 8 ltac:(lia)) as Hm.
  pose proof (zrange_forallb _ 0 8 Hc (x mod 8) Hm) as Hk. cbv beta zeta in Hk.
  unfold bit_at in Hb. fold idx in Hb. unfold znth in Hb. rewrite Hb in Hk.
  cbn [negb orb] in Hk.
  assert (Ey : idx / stride = y).
  { unfold idx. rewrite Z.add_comm, Z.div_add by lia.
    rewrite Z.div_small by lia. lia. }
  assert (Em : idx mod stride = x / 8).
  { unfold idx. rewrite Z.add_comm, Z.mod_add by lia.
    apply Z.mod_small. lia. }
  rewrite Ey, Em in Hk.
  replace (8 * (x / 8) + x mod 8) with x in Hk
    by (pose proof (Z.div_mod x 8 ltac:(lia)); lia).
  apply andb_prop in Hk. destruct Hk as [H1 H6].
  apply Z.leb_le in H1, H6. lia.
Qed.

(** * The pixel map of a plan *)

Section PixelMap.

Variables v l : Z.
Hypothesis Hv : 1 <= v <= 40.
Hypothesis Hl : 0 <= l <= 3.
Variable p : Plan.
Variables g g2 : Grid.
Variable a : Z.
Hypothesis Hf : plan_facts v p g a = true.
Hypothesis HR : sweep_rel (lplan_src v l) a g g2.

Let siz := 17 + v * 4.
Let n := total_bits v.

Lemma pm_sizes : rows g2 = siz /\ cols g2 = siz /\ rows g = siz /\ cols g = siz.
Proof.
  destruct (plan_facts_sizes _ _ _ _ Hf) as (_ & _ & _ & _ & _ & Hrg & Hcg & _).
  destruct HR as (Hr & Hc & _). unfold siz. lia.
Qed.

(** A cell that the sweep did not fill keeps the pixel of [vplan]. *)
Lemma pm_fixed (y x : Z) :
  0 <= y < siz -> 0 <= x < siz ->
  Pixel_Role (cell g y x) <> Data ->
  cell g2 y x = cell g y x /\ 1 <= Pixel_Role (cell g y x) <= 6.
Proof.
  intros Hy Hx Hr. destruct pm_sizes as (_ & _ & Hrg & Hcg).
  destruct HR as (_ & _ & Hcell).
  destruct (Hcell y x ltac:(lia) ltac:(lia)) as [E _].
  destruct (plan_facts_checks _ _ _ _ Hf) as (Hg7 & _).
  pose proof (cells_forall_spec _ _ Hg7 y x ltac:(lia) ltac:(lia)) as H7.
  cbv beta in H7. apply andb_prop in H7. destruct H7 as [H1 H7].
  apply Z.leb_le in H1, H7.
  split.
  - rewrite E. unfold relabel.
    destruct (Z.eqb_spec (Pixel_Role (cell g y x)) Data); [contradiction | reflexivity].
  - unfold Data in Hr. lia.
Qed.

(** A cell that the sweep filled holds the pixel of the source with the
    number that the numbered sweep left there. *)
Lemma pm_filled (y x : Z) :
  0 <= y < siz -> 0 <= x < siz ->
  Pixel_Role (cell g y x) = Data ->
  let k := Pixel_Offset (cell g y x) in
  0 <= k < a /\ cell g2 y x = nth (Z.to_nat k) (lplan_src v l) 0
  /\ PositiveMap.find (zkey k) (label_index g) = Some (y, x).
Proof.
  intros Hy Hx Hr k. destruct pm_sizes as (_ & _ & Hrg & Hcg).
  destruct HR as (_ & _ & Hcell).
  destruct (Hcell y x ltac:(lia) ltac:(lia)) as [E _].
  destruct (plan_facts_checks _ _ _ _ Hf) as (_ & Hlab & _).
  destruct (labels_ok_cells g a Hlab y x ltac:(lia) ltac:(lia) Hr) as [Hk Hidx].
  split; [exact Hk|]. split; [|exact Hidx].
  rewrite E. unfold relabel. rewrite Hr. reflexivity.
Qed.

Lemma pm_bounds : n <= a <= n + 7.
Proof.
  destruct (plan_facts_sizes _ _ _ _ Hf) as (_ & _ & _ & _ & _ & _ & _ & Ha).
  exact Ha.
Qed.

(** Every cell has one of the nine roles. *)
Lemma pm_roles (y x : Z) :
  0 <= y < siz -> 0 <= x < siz -> 1 <= Pixel_Role (cell g2 y x) <= 9.
Proof.
  intros Hy Hx.
  destruct (lplan_src_props v l Hv Hl) as (Hlen & _ & Hlow & Hhigh & _).
  fold n in Hlen, Hlow, Hhigh. pose proof pm_bounds as Ha.
  destruct (Z.eq_dec (Pixel_Role (cell g y x)) Data) as [Hr|Hr].
  - destruct (pm_filled y x Hy Hx Hr) as (Hk & -> & _).
    destruct (Z_lt_le_dec (Pixel_Offset (cell g y x)) n) as [Hlt|Hge].
    + destruct (Hlow (Pixel_Offset (cell g y x)) ltac:(lia)) as [[-> _]|[-> _]]; unfold Data, Check; lia.
    + rewrite Hhigh by lia. cbn. lia.
  - destruct (pm_fixed y x Hy Hx Hr) as [-> H6]. lia.
Qed.

(** The cells that hold data, check or extra pixels are those that the
    sweep filled. *)
Lemma pm_masked (y x : Z) :
  0 <= y < siz -> 0 <= x < siz ->
  masked_role (Pixel_Role (cell g2 y x)) = true
  <-> Pixel_Role (cell g y x) = Data.
Proof.
  intros Hy Hx.
  destruct (lplan_src_props v l Hv Hl) as (Hlen & _ & Hlow & Hhigh & _).
  fold n in Hlen, Hlow, Hhigh. pose proof pm_bounds as Ha.
  destruct (Z.eq_dec (Pixel_Role (cell g y x)) Data) as [Hr|Hr].
  - split; [auto|]. intros _.
    destruct (pm_filled y x Hy Hx Hr) as (Hk & -> & _).
    destruct (Z_lt_le_dec (Pixel_Offset (cell g y x)) n) as [Hlt|Hge].
    + destruct (Hlow (Pixel_Offset (cell g y x)) ltac:(lia)) as [[-> _]|[-> _]]; reflexivity.
    + rewrite Hhigh by lia. reflexivity.
  - split; [|contradiction]. intros Hm.
    destruct (pm_fixed y x Hy Hx Hr) as [E H6]. rewrite E in Hm.
    unfold masked_role, Data, Check, Extra in Hm.
    destruct (Z.eqb_spec (Pixel_Role (cell g y x)) 7); [lia|].
    destruct (Z.eqb_spec (Pixel_Role (cell g y x)) 8); [lia|].
    destruct (Z.eqb_spec (Pixel_Role (cell g y x)) 9); [lia|]. discriminate.
Qed.

(** Data and check cells: the offsets. *)
Lemma pm_data_check (y x : Z) :
  0 <= y < siz -> 0 <= x < siz ->
  Pixel_Role (cell g2 y x) = Data \/ Pixel_Role (cell g2 y x) = Check ->
  Pixel_Role (cell g y x) = Data
  /\ 0 <= Pixel_Offset (cell g y x) < n
  /\ 0 <= Pixel_Offset (cell g2 y x) < n
  /\ (Pixel_Role (cell g2 y x) = Data <-> Pixel_Offset (cell g2 y x) < lay_nd v l * 8).
Proof.
  intros Hy Hx Hdc.
  destruct (lplan_src_props v l Hv Hl) as (Hlen & _ & Hlow & Hhigh & _).
  fold n in Hlen, Hlow, Hhigh. pose proof pm_bounds as Ha.
  assert (Hr : Pixel_Role (cell g y x) = Data).
  { apply pm_masked; [assumption..|]. unfold masked_role.
    destruct Hdc as [-> | ->]; reflexivity. }
  split; [exact Hr|].
  assert (Hnd : 0 <= lay_nd v l * 8 <= n).
  { destruct (layout_facts v l Hv Hl) as (_ & _ & Hnb & Hne & Hnd0 & _).
    split; [lia|]. unfold n, total_bits, lay_nd. nia. }
  destruct (pm_filled y x Hy Hx Hr) as (Hk & E & _). rewrite E in *.
  destruct (Z_lt_le_dec (Pixel_Offset (cell g y x)) n) as [Hlt|Hge].
  - split; [lia|].
    destruct (Hlow (Pixel_Offset (cell g y x)) ltac:(lia)) as [[Er Ho]|[Er Ho]].
    + split; [lia|]. split; [lia | auto].
    + split; [lia|]. rewrite Er. unfold Data, Check. split; [discriminate | lia].
  - rewrite Hhigh in Hdc by lia. destruct Hdc as [Hd|Hd]; discriminate Hd.
Qed.

(** Each offset below the number of data and check bits is in one cell. *)
Lemma pm_offset (o : Z) :
  0 <= o < n ->
  exists y x,
    0 <= y < siz /\ 0 <= x < siz
    /\ (Pixel_Role (cell g2 y x) = Data \/ Pixel_Role (cell g2 y x) = Check)
    /\ Pixel_Offset (cell g2 y x) = o
    /\ forall y' x', 0 <= y' < siz -> 0 <= x' < siz ->
         (Pixel_Role (cell g2 y' x') = Data \/ Pixel_Role (cell g2 y' x') = Check) ->
         Pixel_Offset (cell g2 y' x') = o -> y' = y /\ x' = x.
Proof.
  intros Ho.
  destruct (lplan_src_props v l Hv Hl) as (Hlen & _ & Hlow & Hhigh & Hinj & Hsurj).
  fold n in Hlen, Hlow, Hhigh, Hinj, Hsurj. pose proof pm_bounds as Ha.
  destruct pm_sizes as (_ & _ & Hrg & Hcg).
  destruct (plan_facts_checks _ _ _ _ Hf) as (_ & Hlab & _).
  destruct (Hsurj o Ho) as (k & Hk & Ek).
  destruct (labels_ok_index g a k Hlab ltac:(lia)) as (y & x & Hidx & Hy & Hx & Ec).
  assert (Hbb : 0 <= k < 2 ^ 28).
  { pose proof (bytes_bound v Hv). unfold n, total_bits in Hk.
    change (2 ^ 28) with 268435456. lia. }
  assert (Hr : Pixel_Role (cell g y x) = Data) by (rewrite Ec; now apply data_pixel_role).
  assert (Eo : Pixel_Offset (cell g y x) = k) by (rewrite Ec; now apply data_pixel_offset).
  destruct (pm_filled y x ltac:(lia) ltac:(lia) Hr) as (_ & E2 & _).
  rewrite Eo in E2.
  exists y, x. split; [lia|]. split; [lia|]. split.
  { rewrite E2. destruct (Hlow k Hk) as [[-> _]|[-> _]]; auto. }
  split; [rewrite E2; exact Ek|].
  intros y' x' Hy' Hx' Hdc' Eo'.
  destruct (pm_data_check y' x' Hy' Hx' Hdc') as (Hr' & Hk' & _).
  destruct (pm_filled y' x' Hy' Hx' Hr') as (_ & E2' & Hidx').
  rewrite E2' in Eo'.
  assert (Ek' : Pixel_Offset (cell g y' x') = k).
  { apply Hinj; [lia | lia | congruence]. }
  rewrite Ek' in Hidx'. rewrite Hidx in Hidx'. injection Hidx' as -> ->. auto.
Qed.

(** Extra cells carry no offset. *)
Lemma pm_extra (y x : Z) :
  0 <= y < siz -> 0 <= x < siz ->
  Pixel_Role (cell g2 y x) = Extra -> cell g2 y x = Role_Pixel Extra.
Proof.
  intros Hy Hx Hr.
  destruct (lplan_src_props v l Hv Hl) as (Hlen & _ & Hlow & Hhigh & _).
  fold n in Hlen, Hlow, Hhigh. pose proof pm_bounds as Ha.
  assert (Hd : Pixel_Role (cell g y x) = Data).
  { apply pm_masked; [assumption..|]. unfold masked_role. rewrite Hr. reflexivity. }
  destruct (pm_filled y x Hy Hx Hd) as (Hk & E & _). rewrite E in *.
  destruct (Z_lt_le_dec (Pixel_Offset (cell g y x)) n) as [Hlt|Hge].
  - destruct (Hlow (Pixel_Offset (cell g y x)) ltac:(lia)) as [[Er _]|[Er _]]; rewrite Er in Hr; discriminate.
  - apply Hhigh. lia.
Qed.

End PixelMap.

(** * The modules of a mask's bitmap *)

Lemma format_index_some (siz y x i : Z) :
  format_index siz y x = Some i ->
  0 <= i < 15
  /\ ((y = fst (format_pos1 i) /\ x = snd (format_pos1 i))
      \/ (y = fst (format_pos2 siz i) /\ x = snd (format_pos2 siz i))).
Proof.
  unfold format_index. intros H. apply find_some in H. destruct H as [Hi Hc].
  apply in_zrange in Hi. split; [lia|].
  apply orb_prop in Hc. destruct Hc as [Hc|Hc];
    apply andb_prop in Hc; destruct Hc as [E1 E2]; apply Z.eqb_eq in E1, E2; auto.
Qed.

Lemma format_index_none (siz y x i : Z) :
  format_index siz y x = None -> 0 <= i < 15 ->
  ~ ((y = fst (format_pos1 i) /\ x = snd (format_pos1 i))
     \/ (y = fst (format_pos2 siz i) /\ x = snd (format_pos2 siz i))).
Proof.
  unfold format_index. intros H Hi Hc.
  pose proof (find_none _ _ H i ltac:(apply in_zrange; lia)) as Hn.
  cbv beta in Hn. apply orb_false_elim in Hn. destruct Hn as [N1 N2].
  destruct Hc as [[-> ->]|[-> ->]].
  - rewrite !Z.eqb_refl in N1. discriminate.
  - rewrite !Z.eqb_refl in N2. discriminate.
Qed.

Lemma format_pos_unique (siz i j y x : Z) :
  21 <= siz -> 0 <= i < 15 -> 0 <= j < 15 ->
  (y = fst (format_pos1 i) /\ x = snd (format_pos1 i))
  \/ (y = fst (format_pos2 siz i) /\ x = snd (format_pos2 siz i)) ->
  (y = fst (format_pos1 j) /\ x = snd (format_pos1 j))
  \/ (y = fst (format_pos2 siz j) /\ x = snd (format_pos2 siz j)) ->
  i = j.
Proof.
  intros Hs Hi Hj. unfold format_pos1, format_pos2.
  destruct (Z.ltb_spec i 6), (Z.ltb_spec i 8), (Z.ltb_spec i 9);
    destruct (Z.ltb_spec j 6), (Z.ltb_spec j 8), (Z.ltb_spec j 9);
    cbn [fst snd]; lia.
Qed.

Lemma bool_eq_iff (a b : bool) : (a = true <-> b = true) -> a = b.
Proof. destruct a, b; intuition congruence. Qed.

Section Modules.

Variables v l : Z.
Hypothesis Hv : 1 <= v <= 40.
Hypothesis Hl : 0 <= l <= 3.
Variable p : Plan.
Variables g g2 : Grid.
Variable a : Z.
Hypothesis Hf : plan_facts v p g a = true.
Hypothesis HR : sweep_rel (lplan_src v l) a g g2.
Variable pl : Plan.
Hypothesis Hpix : Pixel pl = g2.
Hypothesis Hcode : PlanCode pl = PlanCode p.

Let siz := 17 + v * 4.
Let stride := Stride (PlanCode p).
Let bm := Bitmap (PlanCode p).

Lemma format_role (i : Z) :
  0 <= i < 15 -> Pixel_Role (Role_Pixel Format + OffsetPixel i) = Format.
Proof.
  intros Hi.
  assert (Hi' : i = 0 \/ i = 1 \/ i = 2 \/ i = 3 \/ i = 4 \/ i = 5 \/ i = 6
                \/ i = 7 \/ i = 8 \/ i = 9 \/ i = 10 \/ i = 11 \/ i = 12
                \/ i = 13 \/ i = 14) by lia.
  repeat (destruct Hi' as [->|Hi']; [reflexivity|]). subst i. reflexivity.
Qed.

Lemma format_cells (i : Z) :
  0 <= i < 15 ->
  cell g2 (fst (format_pos1 i)) (snd (format_pos1 i))
  = Role_Pixel Format + OffsetPixel i
  /\ cell g2 (fst (format_pos2 siz i)) (snd (format_pos2 siz i))
     = Role_Pixel Format + OffsetPixel i
  /\ bit_at stride bm (fst (format_pos1 i)) (snd (format_pos1 i)) = false
  /\ bit_at stride bm (fst (format_pos2 siz i)) (snd (format_pos2 siz i)) = false.
Proof.
  intros Hi.
  destruct (plan_facts_checks _ _ _ _ Hf) as (_ & _ & Hfmt & _).
  pose proof (zrange_forallb _ 0 15 Hfmt i Hi) as Hc.
  unfold format_cell_ok in Hc. fold siz stride bm in Hc.
  destruct (format_pos_range siz i ltac:(unfold siz; lia) Hi) as (R1 & R2 & R3 & R4).
  destruct (format_pos1 i) as [y1 x1], (format_pos2 siz i) as [y2 x2].
  cbn [fst snd] in *.
  apply andb_prop in Hc. destruct Hc as [Hc W2].
  apply andb_prop in Hc. destruct Hc as [Hc W1].
  apply andb_prop in Hc. destruct Hc as [C1 C2].
  apply Z.eqb_eq in C1, C2. apply negb_true_iff in W1, W2.
  destruct (pm_fixed v l p g g2 a Hf HR y1 x1 R1 R2) as [F1 _].
  { rewrite C1, format_role by lia. discriminate. }
  destruct (pm_fixed v l p g g2 a Hf HR y2 x2 R3 R4) as [F2 _].
  { rewrite C2, format_role by lia. discriminate. }
  rewrite F1, F2. auto.
Qed.

(** The bitmap that [NewPlan] builds for one mask, module by module. *)
Lemma chunk_module (m y x : Z) :
  0 <= m < 8 -> 0 <= y < siz -> 0 <= x < siz ->
  bit_at stride (mask_chunk l pl bm m) y x
  = plan_module siz stride g2 bm l m y x.
Proof.
  intros Hm Hy Hx.
  destruct (plan_facts_sizes _ _ _ _ Hf) as (HS & HSt & HB & Hr & Hc & Hrg & Hcg & Ha).
  fold siz in HS, HSt, HB, Hr, Hc, Hrg, Hcg. fold stride in HSt, HB. fold bm in HB.
  destruct (pm_sizes v l p g g2 a Hf HR) as (Hr2 & Hc2 & _).
  fold siz in Hr2, Hc2.
  destruct (stride_covers siz ltac:(unfold siz; lia)) as [Hcov Hst0].
  rewrite <- HSt in Hcov, Hst0.
  assert (Hglen : grid_len (Pixel pl) = siz) by (rewrite Hpix; exact Hr2).
  assert (Hstr : Stride (PlanCode pl) = stride) by (rewrite Hcode; reflexivity).
  (* the chunk *)
  assert (Hloc : local_op (stride * siz) (mask_bitmap l m pl)).
  { rewrite <- Hstr, <- Hglen. apply mask_bitmap_local.
    - lia.
    - rewrite Hglen. unfold siz. lia.
    - rewrite Hglen, Hpix. lia.
    - rewrite Hglen, Hpix. lia.
    - rewrite Hglen, Hstr. exact Hcov. }
  destruct (Hloc bm [] HB) as (c & Ec & Lc & _).
  rewrite (mask_chunk_some _ _ _ _ _ Ec).
  apply mask_bitmap_split in Ec. destruct Ec as (bf & Ef & Em).
  pose proof (fplan_paints l m pl ltac:(rewrite Hglen; unfold siz; lia)
                ltac:(rewrite Hglen, Hstr; exact Hcov)) as Pf.
  pose proof (mplan_paints m pl ltac:(rewrite Hpix, Hstr; lia)) as Pm.
  rewrite Hstr in Pf, Pm. rewrite Hglen in Pf. rewrite Hpix in Pm.
  pose proof (Pf bm bf Ef y x ltac:(lia) ltac:(lia)) as Bf.
  pose proof (Pm bf c Em y x ltac:(lia) ltac:(lia)) as Bm.
  rewrite Hr2, Hc2 in Bm.
  unfold plan_module.
  destruct (format_index siz y x) as [i|] eqn:Efi.
  - destruct (format_index_some siz y x i Efi) as [Hi Hpos].
    destruct (format_cells i Hi) as (C1 & C2 & W1 & W2).
    assert (Hwhite : bit_at stride bm y x = false)
      by (destruct Hpos as [[-> ->]|[-> ->]]; assumption).
    assert (Hnm : masked_role (Pixel_Role (cell g2 y x)) = false).
    { destruct Hpos as [[-> ->]|[-> ->]]; rewrite ?C1, ?C2, format_role by lia;
        reflexivity. }
    apply bool_eq_iff. rewrite Bm, Bf, Hwhite, Hnm. split.
    + intros [[Hb|(j & Hj & Ht & Hpj)]|(_ & _ & Hb & _)]; try discriminate.
      assert (i = j); [|subst; assumption].
      apply (format_pos_unique siz i j y x); try assumption; unfold siz; lia.
    + intros Ht. left. right. exists i. auto.
  - apply bool_eq_iff. rewrite Bm, Bf.
    assert (Hnf : ~ exists i, 0 <= i < 15 /\ Z.testbit (fplan_word l m) i = true
              /\ ((y = fst (format_pos1 i) /\ x = snd (format_pos1 i))
                  \/ (y = fst (format_pos2 siz i) /\ x = snd (format_pos2 siz i)))).
    { intros (i & Hi & _ & Hpos). exact (format_index_none siz y x i Efi Hi Hpos). }
    destruct (masked_role (Pixel_Role (cell g2 y x))) eqn:Emr.
    + assert (Hd : Pixel_Role (cell g y x) = Data)
        by (apply (pm_masked v l Hv Hl p g g2 a Hf HR y x Hy Hx); exact Emr).
      assert (Hwhite : bit_at stride bm y x = false).
      { destruct (bit_at stride bm y x) eqn:Eb; [|reflexivity].
        destruct (plan_facts_checks _ _ _ _ Hf) as (_ & _ & _ & Hbt & _).
        fold stride bm in Hbt.
        pose proof (black_tagged_spec stride g bm y x Hbt ltac:(lia) ltac:(lia)) as Ht.
        rewrite HB in Ht.
        assert (0 <= x / 8 < stride)
          by (split; [apply Z.div_pos; lia | apply Z.div_lt_upper_bound; lia]).
        specialize (Ht ltac:(nia) Eb). rewrite Hd in Ht. unfold Data in Ht. lia. }
      rewrite Hwhite. split.
      * intros [[Hb|Hb]|(_ & _ & _ & Hi)]; [discriminate | contradiction |].
        rewrite Hi. reflexivity.
      * destruct (Mask_Invert m y x) as [[|]|]; try discriminate.
        intros _. right. repeat split; lia || reflexivity.
    + split.
      * intros [[Hb|Hb]|(_ & _ & Hb & _)]; [assumption | contradiction | discriminate].
      * auto.
Qed.

(** A cell of a function pattern shows the module of the version plan. *)
Lemma function_module (m y x : Z) :
  0 <= m < 8 -> 0 <= y < siz -> 0 <= x < siz ->
  Pixel_Role (cell g y x) <> Data -> Pixel_Role (cell g y x) <> Format ->
  cell g2 y x = cell g y x
  /\ bit_at stride (mask_chunk l pl bm m) y x = bit_at stride bm y x.
Proof.
  intros Hm Hy Hx Hnd Hnf.
  destruct (pm_fixed v l p g g2 a Hf HR y x Hy Hx Hnd) as [E H6].
  split; [exact E|].
  rewrite chunk_module by assumption. unfold plan_module.
  destruct (format_index siz y x) as [i|] eqn:Efi.
  - destruct (format_index_some siz y x i Efi) as [Hi Hpos].
    destruct (format_cells i Hi) as (C1 & C2 & _).
    exfalso. apply Hnf. rewrite <- E.
    destruct Hpos as [[-> ->]|[-> ->]]; rewrite ?C1, ?C2; apply format_role; lia.
  - rewrite E. unfold masked_role, Data, Check, Extra.
    destruct (Z.eqb_spec (Pixel_Role (cell g y x)) 7); [lia|].
    destruct (Z.eqb_spec (Pixel_Role (cell g y x)) 8); [lia|].
    destruct (Z.eqb_spec (Pixel_Role (cell g y x)) 9); [lia|]. reflexivity.
Qed.

(** The two cells of a format bit show the bit. *)
Lemma format_module (m i : Z) :
  0 <= m < 8 -> 0 <= i < 15 ->
  Pixel_Role (cell g2 (fst (format_pos1 i)) (snd (format_pos1 i))) = Format
  /\ Pixel_Role (cell g2 (fst (format_pos2 siz i)) (snd (format_pos2 siz i))) = Format
  /\ bit_at stride (mask_chunk l pl bm m) (fst (format_pos1 i)) (snd (format_pos1 i))
     = Z.testbit (fplan_word l m) i
  /\ bit_at stride (mask_chunk l pl bm m) (fst (format_pos2 siz i))
            (snd (format_pos2 siz i))
     = Z.testbit (fplan_word l m) i.
Proof.
  intros Hm Hi.
  assert (Hsiz : 21 <= siz) by (unfold siz; lia).
  destruct (format_cells i Hi) as (C1 & C2 & _).
  destruct (format_pos_range siz i Hsiz Hi) as (R1 & R2 & R3 & R4).
  assert (Hbit : forall y x,
            (y = fst (format_pos1 i) /\ x = snd (format_pos1 i))
            \/ (y = fst (format_pos2 siz i) /\ x = snd (format_pos2 siz i)) ->
            0 <= y < siz -> 0 <= x < siz ->
            bit_at stride (mask_chunk l pl bm m) y x = Z.testbit (fplan_word l m) i).
  { intros y x Hpos Hy Hx. rewrite chunk_module by assumption. unfold plan_module.
    destruct (format_index siz y x) as [j|] eqn:Efi.
    - destruct (format_index_some siz y x j Efi) as [Hj Hposj].
      rewrite (format_pos_unique siz i j y x Hsiz Hi Hj Hpos Hposj). reflexivity.
    - exfalso. exact (format_index_none siz y x i Efi Hi Hpos). }
  split; [rewrite C1; apply format_role; exact Hi|].
  split; [rewrite C2; apply format_role; exact Hi|].
  split; apply Hbit; auto.
Qed.

(** A cell that holds data, check or extra bits shows the mask alone. *)
Lemma masked_module (m y x : Z) :
  0 <= m < 8 -> 0 <= y < siz -> 0 <= x < siz ->
  masked_role (Pixel_Role (cell g2 y x)) = true ->
  bit_at stride (mask_chunk l pl bm m) y x
  = match Mask_Invert m y x with Some inv => inv | None => false end.
Proof.
  intros Hm Hy Hx Hmr.
  rewrite chunk_module by assumption. unfold plan_module.
  destruct (format_index siz y x) as [i|] eqn:Efi.
  - destruct (format_index_some siz y x i Efi) as [Hi Hpos].
    destruct (format_cells i Hi) as (C1 & C2 & _).
    exfalso.
    assert (Er : Pixel_Role (cell g2 y x) = Format).
    { destruct Hpos as [[-> ->]|[-> ->]]; rewrite ?C1, ?C2; apply format_role; lia. }
    rewrite Er in Hmr. discriminate.
  - rewrite Hmr. reflexivity.
Qed.

End Modules.

Lemma finder_ok_spec (siz stride : Z) (g : Grid) (bm : list Z) (x0 y0 dx dy : Z) :
  finder_ok siz stride g bm x0 y0 = true ->
  -1 <= dx <= 7 -> -1 <= dy <= 7 ->
  0 <= x0 + dx < siz -> 0 <= y0 + dy < siz ->
  Pixel_Role (cell g (y0 + dy) (x0 + dx)) = Position
  /\ bit_at stride bm (y0 + dy) (x0 + dx) = in_box dx dy && finder_module dx dy.
Proof.
  intros Hok Hdx Hdy Hx Hy. unfold finder_ok in Hok.
  pose proof (zrange_forallb _ (-1) 8 Hok dy ltac:(lia)) as H1. cbv beta in H1.
  pose proof (zrange_forallb _ (-1) 8 H1 dx ltac:(lia)) as H2. cbv beta zeta in H2.
  destruct (Z.leb_spec 0 (y0 + dy)); [|lia].
  destruct (Z.ltb_spec (y0 + dy) siz); [|lia].
  destruct (Z.leb_spec 0 (x0 + dx)); [|lia].
  destruct (Z.ltb_spec (x0 + dx) siz); [|lia].
  cbn [andb] in H2. apply andb_prop in H2. destruct H2 as [Er Eb].
  apply Z.eqb_eq in Er. apply Bool.eqb_prop in Eb. auto.
Qed.

Lemma timing_ok_spec (siz stride : Z) (g : Grid) (bm : list Z) (i : Z) :
  timing_ok siz stride g bm = true -> 8 <= i < siz - 8 ->
  timing_role (Pixel_Role (cell g ti i)) = true
  /\ timing_role (Pixel_Role (cell g i ti)) = true
  /\ bit_at stride bm ti i = Z.even i /\ bit_at stride bm i ti = Z.even i.
Proof.
  intros Hok Hi. unfold timing_ok in Hok.
  pose proof (zrange_forallb _ 8 (siz - 8) Hok i Hi) as H1. cbv beta in H1.
  apply andb_prop in H1. destruct H1 as [H1 E4].
  apply andb_prop in H1. destruct H1 as [H1 E3].
  apply andb_prop in H1. destruct H1 as [E1 E2].
  apply Bool.eqb_prop in E3, E4. auto.
Qed.


(** * Encoding with a plan *)

(** ** Bitmaps under xor *)

Lemma xor_bytes_length (a b : list Z) : zlen (xor_bytes a b) = zlen a.
Proof.
  unfold zlen. f_equal. revert b.
  induction a as [|x a IH]; intros [|y b]; cbn [xor_bytes length]; auto.
Qed.

Lemma xor_bytes_zeros (d : list Z) (n : nat) : xor_bytes d (repeat 0 n) = d.
Proof.
  revert n. induction d as [|x d IH]; intros [|n]; cbn [xor_bytes repeat]; auto.
  rewrite Z.lxor_0_r, IH. reflexivity.
Qed.

Lemma upd_nat_xor_bytes (d e e' : list Z) (n : nat) (m : Z) :
  length d = length e ->
  upd_nat e n (fun v => Z.lxor v m) = Some e' ->
  upd_nat (xor_bytes d e) n (fun v => Z.lxor v m) = Some (xor_bytes d e').
Proof.
  revert e e' n. induction d as [|x d IH]; intros [|y e] e' n Hlen E;
    cbn [length] in Hlen; try discriminate.
  destruct n as [|n]; cbn [upd_nat xor_bytes] in *.
  - injection E as <-. cbn [xor_bytes]. rewrite Z.lxor_assoc. reflexivity.
  - destruct (upd_nat e n (fun v => Z.lxor v m)) as [e1|] eqn:E1; [|discriminate].
    cbn [option_map] in E. injection E as <-.
    rewrite (IH e e1 n) by (assumption || lia). reflexivity.
Qed.

Lemma xor_at_xor_bytes (d e e' : list Z) (i m : Z) :
  zlen d = zlen e ->
  xor_at e i m = Some e' ->
  xor_at (xor_bytes d e) i m = Some (xor_bytes d e').
Proof.
  unfold xor_at, zupd, zlen. intros Hlen E.
  destruct (i <? 0); [discriminate|].
  apply upd_nat_xor_bytes; [lia | assumption].
Qed.

Lemma nth_xor_bytes (a b : list Z) (k : nat) :
  length a = length b ->
  nth k (xor_bytes a b) 0 = Z.lxor (nth k a 0) (nth k b 0).
Proof.
  revert b k. induction a as [|x a IH]; intros [|y b] k Hlen;
    cbn [length] in Hlen; try discriminate.
  - destruct k; reflexivity.
  - destruct k as [|k]; cbn [xor_bytes nth]; [reflexivity|].
    apply IH. lia.
Qed.

Lemma bit_at_xor_bytes (stride : Z) (a b : list Z) (y x : Z) :
  zlen a = zlen b ->
  bit_at stride (xor_bytes a b) y x
  = xorb (bit_at stride a y x) (bit_at stride b y x).
Proof.
  intros Hlen. unfold bit_at, znth.
  rewrite nth_xor_bytes by (unfold zlen in Hlen; lia).
  apply Z.lxor_spec.
Qed.

Lemma xor_at_length (e e' : list Z) (i m : Z) :
  xor_at e i m = Some e' -> zlen e' = zlen e.
Proof. apply zupd_length. Qed.

(** The pixel loop of [Plan.Encode] xors the same bits into any bitmap. *)
Lemma Encode_pixels_xor (p : Plan) (stream d e e' : list Z) :
  zlen d = zlen e ->
  Encode_pixels p stream e = Some e' ->
  Encode_pixels p stream (xor_bytes d e) = Some (xor_bytes d e')
  /\ zlen e' = zlen e.
Proof.
  intros Hlen E. unfold Encode_pixels in *.
  match type of E with
  | (match foldM ?ff ?ll ?ss with _ => _ end) = _ =>
      destruct (foldM ff ll ss) as [[e1 base1]|] eqn:EF; [|discriminate];
      destruct (foldM_rel ff ff
                  (fun s t => zlen (fst s) = zlen e
                              /\ t = (xor_bytes d (fst s), snd s))
                  ll ss (e1, base1) (xor_bytes d e, 0)) as (t' & ET & HL & ->)
  end.
  - intros y [dat base] [dat1 base1'] t Hy [HL ->] Estep. cbn [fst snd] in *.
    match type of Estep with
    | (match foldM ?ff ?ll ?ss with _ => _ end) = _ =>
        destruct (foldM ff ll ss) as [dat2|] eqn:EI; [|discriminate];
        destruct (foldM_rel ff ff
                    (fun s t => zlen s = zlen e /\ t = xor_bytes d s)
                    ll ss dat2 (xor_bytes d dat)) as (t2 & ET2 & HL2 & ->)
    end.
    + intros x s s' t Hx [HLs ->] Ecell.
      destruct (zget2 (Pixel p) y x) as [pix|]; [|discriminate].
      cbv beta iota in Ecell |- *.
      destruct ((Pixel_Role pix =? Data) || (Pixel_Role pix =? Check)).
      * destruct (zget stream (Z.quot (Pixel_Offset pix) 8)) as [bv|]; [|discriminate].
        destruct (negb (Z.land bv (Z.shiftl 1 (7 - Z.land (Pixel_Offset pix) 7)) =? 0)).
        -- destruct (Z.quot x 8 <? 0); [discriminate|].
           exists (xor_bytes d s'). split.
           ++ apply xor_at_xor_bytes; [lia | assumption].
           ++ split; [|reflexivity]. rewrite (xor_at_length _ _ _ _ Ecell). exact HLs.
        -- injection Ecell as <-. eauto.
      * injection Ecell as <-. eauto.
    + split; [assumption | reflexivity].
    + exact EI.
    + rewrite ET2. rewrite xor_bytes_length.
      rewrite HL2 in Estep. rewrite Hlen.
      destruct (zlen e - base <? Stride (PlanCode p)); [discriminate|].
      destruct (Stride (PlanCode p) <? 0); [discriminate|].
      injection Estep as <- <-. eexists. split; [reflexivity|].
      cbn [fst snd]. split; [assumption | reflexivity].
  - cbn [fst snd]. split; reflexivity.
  - exact EF.
  - rewrite ET. cbn [fst snd] in *. injection E as <-. split; [reflexivity | exact HL].
Qed.

(** ** The pixel loop, module by module *)

Lemma xor_at_bit (stride : Z) (b b' : list Z) (y0 x0 y x : Z) :
  xor_at b (y0 * stride + x0 / 8) (Z.shiftl 1 (7 - Z.land x0 7)) = Some b' ->
  0 <= y0 -> 0 <= x0 < 8 * stride ->
  0 <= y -> 0 <= x < 8 * stride ->
  bit_at stride b' y x
  = xorb (bit_at stride b y x) ((y =? y0) && (x =? x0)).
Proof.
  intros E Hy0 Hx0 Hy Hx. unfold xor_at in E. unfold bit_at.
  assert (Hi : 0 <= y * stride + x / 8).
  { assert (0 <= x / 8) by (apply Z.div_pos; lia). nia. }
  rewrite (zupd_znth _ _ _ _ _ E Hi).
  destruct (Z.eqb_spec (y * stride + x / 8) (y0 * stride + x0 / 8)) as [Ei|Ei].
  - destruct (byte_index_inj _ _ _ _ _ Hx Hx0 Ei) as [-> Ediv].
    rewrite Z.eqb_refl. cbn [andb].
    rewrite land_7.
    pose proof (Z.mod_pos_bound x0 8 ltac:(lia)).
    pose proof (Z.mod_pos_bound x 8 ltac:(lia)).
    rewrite Z.shiftl_1_l.
    rewrite Z.lxor_spec, Z.pow2_bits_eqb by lia. f_equal.
    pose proof (Z.div_mod x 8 ltac:(lia)). pose proof (Z.div_mod x0 8 ltac:(lia)).
    destruct (Z.eqb_spec (7 - x0 mod 8) (7 - x mod 8));
      destruct (Z.eqb_spec x x0); try reflexivity; lia.
  - destruct (Z.eqb_spec y y0) as [->|]; [|now rewrite xorb_false_r].
    destruct (Z.eqb_spec x x0) as [->|]; [lia|]. now rewrite xorb_false_r.
Qed.

Ltac zbool :=
  repeat match goal with
         | |- context [Z.eqb ?a ?b] => destruct (Z.eqb_spec a b)
         | |- context [Z.ltb ?a ?b] => destruct (Z.ltb_spec a b)
         | |- context [Z.leb ?a ?b] => destruct (Z.leb_spec a b)
         end;
  cbn [andb orb negb xorb]; try lia;
  repeat match goal with
         | |- context [xorb ?a false] => rewrite (xorb_false_r a)
         | |- context [xorb ?a true] => rewrite (xorb_true_r a)
         | |- context [andb ?a false] => rewrite (andb_false_r a)
         | |- context [andb ?a true] => rewrite (andb_true_r a)
         end;
  try reflexivity; try lia.

Lemma Encode_pixels_bits (p : Plan) (stream data : list Z) (siz : Z) :
  rows (Pixel p) = siz -> cols (Pixel p) = siz ->
  0 <= siz -> siz <= 8 * Stride (PlanCode p) ->
  zlen data = siz * Stride (PlanCode p) ->
  (forall y x, 0 <= y < siz -> 0 <= x < siz ->
     Pixel_Role (cell (Pixel p) y x) = Data
     \/ Pixel_Role (cell (Pixel p) y x) = Check ->
     0 <= Pixel_Offset (cell (Pixel p) y x) < 8 * zlen stream) ->
  exists data',
    Encode_pixels p stream data = Some data'
    /\ zlen data' = zlen data
    /\ forall y x, 0 <= y -> 0 <= x < 8 * Stride (PlanCode p) ->
         bit_at (Stride (PlanCode p)) data' y x
         = xorb (bit_at (Stride (PlanCode p)) data y x)
                ((y <? siz) && (x <? siz) && data_bit (Pixel p) stream y x).
Proof.
  intros Hrows Hcols Hsiz Hst Hlen Hoff.
  set (st := Stride (PlanCode p)) in *.
  unfold Encode_pixels. rewrite Hrows, Hcols. fold st.
  match goal with
  | |- exists _, (match foldM ?ff ?ll ?ss with _ => _ end) = _ /\ _ =>
      destruct (foldM_zrange_inv ff
        (fun j s =>
           snd s = j * st /\ zlen (fst s) = zlen data
           /\ forall y x, 0 <= y -> 0 <= x < 8 * st ->
                bit_at st (fst s) y x
                = xorb (bit_at st data y x)
                       ((y <? j) && (x <? siz) && data_bit (Pixel p) stream y x))
        0 siz ss Hsiz) as ([d' base'] & EF & Hb & HL & Hbits)
  end.
  - cbn [fst snd]. split; [lia|]. split; [reflexivity|].
    intros y x Hy Hx. zbool.
  - intros j [dat base] Hj (Hb & HL & Hbits). cbn [fst snd] in *. subst base.
    match goal with
    | |- exists _, (match foldM ?ff ?ll ?ss with _ => _ end) = _ /\ _ =>
        destruct (foldM_zrange_inv ff
          (fun k s =>
             zlen s = zlen data
             /\ forall y x, 0 <= y -> 0 <= x < 8 * st ->
                  bit_at st s y x
                  = xorb (bit_at st dat y x)
                         ((y =? j) && (x <? k) && data_bit (Pixel p) stream y x))
          0 siz ss Hsiz) as (d2 & EI & HL2 & Hbits2)
    end.
    + split; [assumption|]. intros y x Hy Hx. zbool.
    + intros k s Hk (HLs & Hbs).
      rewrite (zget2_some (Pixel p) j k) by lia. cbv beta iota.
      unfold data_bit in *.
      destruct ((Pixel_Role (cell (Pixel p) j k) =? Data)
                || (Pixel_Role (cell (Pixel p) j k) =? Check)) eqn:Erole.
      * assert (Hdc : Pixel_Role (cell (Pixel p) j k) = Data
                      \/ Pixel_Role (cell (Pixel p) j k) = Check).
        { apply orb_prop in Erole. destruct Erole as [Er|Er];
            apply Z.eqb_eq in Er; auto. }
        pose proof (Hoff j k Hj Hk Hdc) as Ho.
        set (o := Pixel_Offset (cell (Pixel p) j k)) in *.
        rewrite Z.quot_div_nonneg by lia.
        assert (Ho8 : 0 <= o / 8 < zlen stream).
        { split; [apply Z.div_pos; lia | apply Z.div_lt_upper_bound; lia]. }
        rewrite (zget_some _ _ 0 Ho8). cbv beta iota.
        rewrite land_7.
        pose proof (Z.mod_pos_bound o 8 ltac:(lia)) as Hom.
        rewrite land_bit_testbit by lia.
        fold (znth stream (o / 8)).
        destruct (Z.testbit (znth stream (o / 8)) (7 - o mod 8)) eqn:Ebit.
        -- rewrite Z.quot_div_nonneg by lia.
           assert (Hk8 : 0 <= k / 8 < st).
           { split; [apply Z.div_pos; lia | apply Z.div_lt_upper_bound; lia]. }
           destruct (Z.ltb_spec (k / 8) 0); [lia|].
           destruct (zupd_some (fun v => Z.lxor v (Z.shiftl 1 (7 - Z.land k 7)))
                       s (j * st + k / 8)) as [s' Es'].
           { rewrite HLs, Hlen. nia. }
           exists s'. split; [exact Es'|].
           split; [rewrite (zupd_length _ _ _ _ Es'); exact HLs|].
           intros y x Hy Hx.
           rewrite (xor_at_bit st s s' j k y x Es') by lia.
           rewrite Hbs by assumption.
           destruct (Z.eqb_spec y j) as [->|]; [|zbool].
           destruct (Z.eqb_spec x k) as [->|].
           ++ fold o. rewrite Erole, Ebit. zbool.
           ++ zbool.
        -- exists s. split; [reflexivity|]. split; [exact HLs|].
           intros y x Hy Hx. rewrite Hbs by assumption.
           destruct (Z.eqb_spec y j) as [->|]; [|zbool].
           destruct (Z.eqb_spec x k) as [->|].
           ++ fold o. rewrite Erole, Ebit. zbool.
           ++ zbool.
      * exists s. split; [reflexivity|]. split; [exact HLs|].
        intros y x Hy Hx. rewrite Hbs by assumption.
        destruct (Z.eqb_spec y j) as [->|]; [|zbool].
        destruct (Z.eqb_spec x k) as [->|].
        -- rewrite Erole. zbool.
        -- zbool.
    + rewrite EI. rewrite HL2, Hlen.
      destruct (Z.ltb_spec (siz * st - j * st) st); [nia|].
      destruct (Z.ltb_spec st 0); [lia|].
      eexists. split; [reflexivity|]. cbn [fst snd].
      split; [lia|]. split; [lia|].
      intros y x Hy Hx. rewrite Hbits2, Hbits by assumption.
      rewrite xorb_assoc. f_equal.
      destruct (data_bit (Pixel p) stream y x); zbool.
  - rewrite EF. cbn [fst snd] in *. exists d'. split; [reflexivity|].
    split; [exact HL|]. exact Hbits.
Qed.

(** ** The mask loop *)

Lemma copy_full (cb chunk rest : list Z) :
  zlen cb = zlen chunk -> copy cb (chunk ++ rest) = (chunk, zlen chunk).
Proof.
  intros Hlen. unfold copy. rewrite zlen_app.
  pose proof (zlen_nonneg rest) as Hr.
  rewrite Z.min_l by lia. rewrite Hlen, firstn_zlen_app_l.
  rewrite <- Hlen, skipn_zlen, app_nil_r. reflexivity.
Qed.

Lemma Encode_masks_pick (size stride : Z) (data : list Z) (chunks : list (list Z)) :
  forall (fuel : nat) (cb best : list Z) (pen : Z),
  0 < zlen data ->
  Forall (fun c => zlen c = zlen data) chunks ->
  zlen cb = zlen data -> zlen best = zlen data ->
  (length chunks < fuel)%nat ->
  (forall c, In c chunks ->
     exists q,
       Penalty {| Bitmap := xor_bytes c data; Size := size; Stride := stride |} = Some q) ->
  Encode_masks fuel size stride data (concat chunks) cb best pen
  = Some (pick_best (penalty_of size stride)
                    (map (fun c => xor_bytes c data) chunks) best pen).
Proof.
  induction chunks as [|c t IH]; intros fuel cb best pen Hn Hall Hcb Hbest Hfuel Hpen.
  - destruct fuel as [|k]; [cbn [length] in Hfuel; lia|]. reflexivity.
  - destruct fuel as [|k]; [cbn [length] in Hfuel; lia|].
    inversion Hall as [|? ? Hc Ht]; subst.
    cbn [length] in Hfuel. cbn [concat map pick_best Encode_masks].
    assert (Hnz : (zlen (c ++ concat t) =? 0) = false).
    { rewrite zlen_app. pose proof (zlen_nonneg (concat t)). apply Z.eqb_neq. lia. }
    rewrite Hnz. cbn [negb].
    rewrite (copy_full cb c (concat t)) by lia.
    rewrite (zdrop_app_l c (concat t) (zlen c) eq_refl).
    destruct (Hpen c (or_introl eq_refl)) as [q Eq].
    assert (Epo : penalty_of size stride (xor_bytes c data) = q)
      by (unfold penalty_of; rewrite Eq; reflexivity).
    rewrite Eq, Epo.
    assert (Hcand : zlen (xor_bytes c data) = zlen data)
      by (rewrite xor_bytes_length; exact Hc).
    destruct (q <? pen).
    + apply IH; try assumption; [lia|]. intros c' Hc'. apply Hpen. now right.
    + apply IH; try assumption; [lia|]. intros c' Hc'. apply Hpen. now right.
Qed.

Lemma pick_best_spec (f : list Z -> Z) (cands : list (list Z)) :
  forall (best : list Z) (pen : Z),
  (pick_best f cands best pen = best /\ forall c, In c cands -> pen <= f c)
  \/ (exists i : nat,
        (i < length cands)%nat
        /\ pick_best f cands best pen = nth i cands []
        /\ f (nth i cands []) < pen
        /\ forall j : nat, (j < length cands)%nat ->
             f (nth i cands []) <= f (nth j cands [])
             /\ ((j < i)%nat -> f (nth i cands []) < f (nth j cands []))).
Proof.
  induction cands as [|c t IH]; intros best pen.
  - left. split; [reflexivity|]. intros c [].
  - cbn [pick_best]. destruct (Z.ltb_spec (f c) pen) as [Hlt|Hge].
    + destruct (IH c (f c)) as [[E Hall]|(i & Hi & E & Hfi & Hmin)].
      * right. exists O. cbn [length nth]. split; [lia|]. split; [exact E|].
        split; [exact Hlt|]. intros [|j] Hj; cbn [nth].
        -- split; lia.
        -- split; [|lia]. apply Hall, nth_In. cbn [length] in Hj. lia.
      * right. exists (S i). cbn [length nth]. split; [lia|]. split; [exact E|].
        split; [lia|]. intros [|j] Hj; cbn [nth].
        -- split; lia.
        -- cbn [length] in Hj. destruct (Hmin j ltac:(lia)) as [Hle Hs].
           split; [exact Hle|]. intros Hji. apply Hs. lia.
    + destruct (IH best pen) as [[E Hall]|(i & Hi & E & Hfi & Hmin)].
      * left. split; [exact E|]. intros c' [<-|Hc']; [exact Hge | now apply Hall].
      * right. exists (S i). cbn [length nth]. split; [lia|]. split; [exact E|].
        split; [exact Hfi|]. intros [|j] Hj; cbn [nth].
        -- split; lia.
        -- cbn [length] in Hj. destruct (Hmin j ltac:(lia)) as [Hle Hs].
           split; [exact Hle|]. intros Hji. apply Hs. lia.
Qed.

(** ** [Plan.Encode] on the plans of [NewPlan] *)

Lemma Encode_pixels_masked (pl : Plan) (m : Z) (bm stream d : list Z) :
  Encode_pixels (masked_plan pl m bm) stream d = Encode_pixels pl stream d.
Proof. reflexivity. Qed.

Lemma bit_at_zeros (stride : Z) (n : nat) (y x : Z) :
  bit_at stride (repeat 0 n) y x = false.
Proof.
  unfold bit_at, znth.
  assert (E : nth (Z.to_nat (y * stride + x / 8)) (repeat 0 n) 0 = 0).
  { generalize (Z.to_nat (y * stride + x / 8)). induction n as [|n IH]; intros [|k];
      cbn [repeat nth]; auto. }
  rewrite E. apply Z.testbit_0_l.
Qed.

Lemma zlen_zeros (n : Z) : 0 <= n -> zlen (repeat 0 (Z.to_nat n)) = n.
Proof. intros Hn. rewrite zlen_repeat. lia. Qed.

Section PlanEncode.

Variables (sjis : codec) (ecc : rs_encoder) (v l : Z).
Hypothesis Hv : 1 <= v <= 40.
Hypothesis Hl : 0 <= l <= 3.
Variables (p0 : Plan) (g g2 : Grid) (a : Z) (pl : Plan).
Hypothesis Hf : plan_facts v p0 g a = true.
Hypothesis HR : sweep_rel (lplan_src v l) a g g2.
Hypothesis HP : Pixel pl = g2.
Hypothesis HPC : PlanCode pl = PlanCode p0.
Hypothesis HV : Version pl = v.
Hypothesis HLv : Level pl = l.
Hypothesis HD : DataBytes pl = lay_nd v l.
Hypothesis Hecc : forall d, zlen (ecc (lay_ne v l) d) = lay_ne v l.
Variable text : list Encoding.
Hypothesis Hkan : Forall (kanji_even sjis) text.

Lemma pe_sizes :
  Size (PlanCode pl) = 17 + v * 4
  /\ 0 <= Stride (PlanCode pl)
  /\ 17 + v * 4 <= 8 * Stride (PlanCode pl)
  /\ rows (Pixel pl) = 17 + v * 4 /\ cols (Pixel pl) = 17 + v * 4
  /\ zlen (Bitmap (PlanCode p0)) = (17 + v * 4) * Stride (PlanCode pl).
Proof.
  destruct (plan_facts_sizes _ _ _ _ Hf) as (HS & HSt & HBm & _).
  destruct (pm_sizes v l p0 g g2 a Hf HR) as (Hr2 & Hc2 & _).
  destruct (stride_covers (17 + v * 4) ltac:(lia)) as [Hcov Hst0].
  rewrite HPC, HP, HS, HSt, HBm, HSt. repeat split; try assumption; lia.
Qed.

(** The two errors. *)
Lemma pe_check_error (m : Z) (bm : list Z) (e : error) :
  first_error sjis text = Some e ->
  Plan_Encode sjis ecc (masked_plan pl m bm) text = Some (Err e).
Proof.
  intros He. unfold Plan_Encode. cbn [masked_plan Version].
  pose proof (Encode_text_spec sjis (Version pl) text Bits_zero
                (Bits_wf_shape _ Bits_zero_wf) Hkan) as Ht.
  rewrite He in Ht. rewrite Ht. reflexivity.
Qed.

Lemma pe_capacity_error (m : Z) (bm : list Z) :
  first_error sjis text = None ->
  lay_nd v l * 8 < text_bits sjis v text ->
  Plan_Encode sjis ecc (masked_plan pl m bm) text
  = Some (Err (ErrCapacity (text_bits sjis v text) (lay_nd v l * 8))).
Proof.
  intros He Hcap. unfold Plan_Encode. cbn [masked_plan Version DataBytes].
  pose proof (Encode_text_spec sjis (Version pl) text Bits_zero
                (Bits_wf_shape _ Bits_zero_wf) Hkan) as Ht.
  rewrite He in Ht. destruct Ht as (b & Eb & Hsb & Hnb). rewrite Eb.
  change (b_nbit Bits_zero) with 0 in Hnb. rewrite Z.add_0_l, HV in Hnb.
  unfold Bits_Bits. rewrite Hnb, HD.
  destruct (Z.ltb_spec (lay_nd v l * 8) (text_bits sjis v text)); [reflexivity | lia].
Qed.

(** The byte stream of a text that fits. *)
Lemma pe_stream :
  first_error sjis text = None ->
  text_bits sjis v text <= lay_nd v l * 8 ->
  exists b b2,
    Encode_text sjis text Bits_zero v = Some (Ok b)
    /\ b_nbit b = text_bits sjis v text
    /\ Bits_AddCheckBytes ecc b v l = Some b2
    /\ Bits_Bytes b2 = Some (b_b b2)
    /\ text_stream sjis ecc v l text = Some (b_b b2)
    /\ zlen (b_b b2) = bytes (version_at v).
Proof.
  intros He Hcap.
  pose proof (Encode_text_spec sjis v text Bits_zero
                (Bits_wf_shape _ Bits_zero_wf) Hkan) as Ht.
  rewrite He in Ht. destruct Ht as (b & Eb & Hsb & Hnb).
  change (b_nbit Bits_zero) with 0 in Hnb. rewrite Z.add_0_l in Hnb.
  destruct (Bits_AddCheckBytes_blocks ecc b v l Hv Hl Hecc Hsb ltac:(lia))
    as (b' & _ & _ & _ & Hlen' & Eadd).
  destruct (layout_facts v l Hv Hl)
    as (_ & _ & Hnb0 & Hne0 & _ & _ & _ & _ & _ & _).
  eexists b, _. split; [exact Eb|]. split; [lia|]. split; [exact Eadd|].
  assert (Hbytes : forall bb, Bits_Bytes {| b_b := bb; b_nbit := bytes (version_at v) * 8 |}
                              = Some bb).
  { intros bb. unfold Bits_Bytes. cbn [b_nbit b_b].
    rewrite Z.rem_mul by lia. reflexivity. }
  split; [apply Hbytes|]. split.
  - unfold text_stream. rewrite Eb, Eadd. apply Hbytes.
  - cbn [b_b]. rewrite zlen_app, Hlen'.
    rewrite (zlen_concat_chunks _ (lay_ne v l) (lay_nb v l)) by (intros; try apply Hecc; lia).
    unfold lay_nd. lia.
Qed.

(** The bitmap of the data and check bits of a stream. *)
Lemma pe_data_bitmap (stream : list Z) :
  zlen stream = bytes (version_at v) ->
  Encode_pixels pl stream
    (repeat 0 (Z.to_nat (Size (PlanCode pl) * Stride (PlanCode pl))))
  = Some (data_bitmap pl stream)
  /\ zlen (data_bitmap pl stream) = (17 + v * 4) * Stride (PlanCode pl)
  /\ forall y x, 0 <= y -> 0 <= x < 8 * Stride (PlanCode pl) ->
       bit_at (Stride (PlanCode pl)) (data_bitmap pl stream) y x
       = (y <? 17 + v * 4) && (x <? 17 + v * 4) && data_bit g2 stream y x.
Proof.
  intros Hlen. destruct pe_sizes as (HS & Hst0 & Hcov & Hr & Hc & HBm).
  assert (Hz : zlen (repeat 0 (Z.to_nat (Size (PlanCode pl) * Stride (PlanCode pl))))
               = (17 + v * 4) * Stride (PlanCode pl)).
  { rewrite zlen_zeros by (rewrite HS; nia). rewrite HS. reflexivity. }
  destruct (Encode_pixels_bits pl stream
              (repeat 0 (Z.to_nat (Size (PlanCode pl) * Stride (PlanCode pl))))
              (17 + v * 4) Hr Hc ltac:(lia) Hcov Hz) as (E & EE & HLE & Hbits).
  { intros y x Hy Hx Hdc. rewrite HP in *.
    destruct (pm_data_check v l Hv Hl p0 g g2 a Hf HR y x Hy Hx Hdc)
      as (_ & _ & Ho & _).
    rewrite Hlen. unfold total_bits in Ho. exact Ho. }
  unfold data_bitmap. rewrite EE. split; [reflexivity|].
  split; [rewrite HLE; exact Hz|].
  intros y x Hy Hx. rewrite (Hbits y x Hy Hx), bit_at_zeros, HP.
  apply xorb_false_l.
Qed.

(** One mask: the bitmap of the plan with the data bits xor-ed in. *)
Lemma pe_single (m : Z) (bm : list Z) :
  zlen bm = (17 + v * 4) * Stride (PlanCode pl) ->
  first_error sjis text = None ->
  text_bits sjis v text <= lay_nd v l * 8 ->
  exists stream,
    text_stream sjis ecc v l text = Some stream
    /\ zlen stream = bytes (version_at v)
    /\ Plan_Encode sjis ecc (masked_plan pl m bm) text
       = Some (Ok (plan_code pl (xor_bytes bm (data_bitmap pl stream)))).
Proof.
  intros Hbm He Hcap.
  destruct (pe_stream He Hcap) as (b & b2 & Eb & Hnb & Eadd & Ebytes & Estream & Hlen).
  destruct pe_sizes as (HS & Hst0 & Hcov & Hr & Hc & HBm).
  destruct (pe_data_bitmap (b_b b2) Hlen) as (EE & HLE & _).
  exists (b_b b2). split; [exact Estream|]. split; [exact Hlen|].
  unfold Plan_Encode.
  cbn [masked_plan Version Level DataBytes PlanCode with_Bitmap Size Stride Bitmap].
  rewrite HV, HLv, Eb. unfold Bits_Bits. rewrite Hnb, HD.
  destruct (Z.ltb_spec (lay_nd v l * 8) (text_bits sjis v text)); [lia|].
  rewrite Eadd, Ebytes.
  rewrite zmake_some by (rewrite HS; nia).
  assert (Hz : zlen (repeat 0 (Z.to_nat (Size (PlanCode pl) * Stride (PlanCode pl))))
               = zlen bm).
  { rewrite zlen_zeros by (rewrite HS; nia). rewrite HS. lia. }
  rewrite Hz, Z.eqb_refl.
  assert (Ecopy : fst (copy (repeat 0 (Z.to_nat (Size (PlanCode pl) * Stride (PlanCode pl))))
                            bm) = bm).
  { rewrite <- (app_nil_r bm) at 1. rewrite copy_full by exact Hz. reflexivity. }
  rewrite Ecopy.
  rewrite Encode_pixels_masked.
  destruct (Encode_pixels_xor pl (b_b b2) bm _ _ (eq_sym Hz) EE) as [EX _].
  rewrite xor_bytes_zeros in EX. rewrite EX. reflexivity.
Qed.

(** Eight masks: the first candidate of least penalty. *)
Lemma pe_eight (f : Z -> list Z) :
  (forall i, 0 <= i < 8 -> zlen (f i) = (17 + v * 4) * Stride (PlanCode pl)) ->
  first_error sjis text = None ->
  text_bits sjis v text <= lay_nd v l * 8 ->
  exists stream,
    text_stream sjis ecc v l text = Some stream
    /\ zlen stream = bytes (version_at v)
    /\ Plan_Encode sjis ecc (masked_plan pl (-1) (concat (map f (zrange 0 8)))) text
       = Some (Ok (plan_code pl
                     (pick_best (penalty_of (Size (PlanCode pl)) (Stride (PlanCode pl)))
                        (map (fun c => xor_bytes c (data_bitmap pl stream))
                             (map f (zrange 0 8)))
                        (repeat 0 (Z.to_nat ((17 + v * 4) * Stride (PlanCode pl))))
                        (Z.shiftl 2 30))))
    /\ forall i, 0 <= i < 8 ->
         exists q, Penalty (plan_code pl (xor_bytes (f i) (data_bitmap pl stream)))
                   = Some q /\ q < Z.shiftl 2 30.
Proof.
  intros Hfl He Hcap.
  destruct (pe_stream He Hcap) as (b & b2 & Eb & Hnb & Eadd & Ebytes & Estream & Hlen).
  destruct pe_sizes as (HS & Hst0 & Hcov & Hr & Hc & HBm).
  destruct (pe_data_bitmap (b_b b2) Hlen) as (EE & HLE & _).
  exists (b_b b2). split; [exact Estream|]. split; [exact Hlen|].
  assert (Hpos : 0 < (17 + v * 4) * Stride (PlanCode pl)) by nia.
  assert (Hpen : forall i, 0 <= i < 8 ->
            exists q, Penalty (plan_code pl (xor_bytes (f i) (data_bitmap pl (b_b b2))))
                      = Some q /\ q < Z.shiftl 2 30).
  { intros i Hi.
    assert (Hwf : code_wf (plan_code pl (xor_bytes (f i) (data_bitmap pl (b_b b2))))).
    { unfold code_wf, plan_code. cbn [Size Stride Bitmap].
      rewrite xor_bytes_length, (Hfl i Hi), HS. lia. }
    destruct (Penalty_range _ Hwf) as (q & Eq & Hq);
      [unfold plan_code; cbn [Size]; lia|].
    exists q. split; [exact Eq|].
    unfold plan_code in Hq. cbn [Size] in Hq. rewrite HS in Hq.
    change (Z.shiftl 2 30) with 2147483648. nia. }
  split; [|exact Hpen].
  unfold Plan_Encode.
  cbn [masked_plan Version Level DataBytes PlanCode with_Bitmap Size Stride Bitmap].
  rewrite HV, HLv, Eb. unfold Bits_Bits. rewrite Hnb, HD.
  destruct (Z.ltb_spec (lay_nd v l * 8) (text_bits sjis v text)); [lia|].
  rewrite Eadd, Ebytes.
  rewrite zmake_some by (rewrite HS; nia).
  assert (Hz : zlen (repeat 0 (Z.to_nat (Size (PlanCode pl) * Stride (PlanCode pl))))
               = (17 + v * 4) * Stride (PlanCode pl)).
  { rewrite zlen_zeros by (rewrite HS; nia). rewrite HS. reflexivity. }
  assert (Hcat : zlen (concat (map f (zrange 0 8)))
                 = 8 * ((17 + v * 4) * Stride (PlanCode pl)))
    by (apply zlen_concat_chunks; [lia | exact Hfl]).
  rewrite Hz, Hcat.
  destruct (Z.eqb_spec ((17 + v * 4) * Stride (PlanCode pl))
                       (8 * ((17 + v * 4) * Stride (PlanCode pl)))) as [Heq|_]; [lia|].
  rewrite Encode_pixels_masked, EE.
  rewrite HLE. rewrite zmake_some by lia. cbv beta iota.
  rewrite (Encode_masks_pick (Size (PlanCode pl)) (Stride (PlanCode pl))
             (data_bitmap pl (b_b b2)) (map f (zrange 0 8))).
  - reflexivity.
  - lia.
  - apply Forall_forall. intros c Hc'. apply in_map_iff in Hc'.
    destruct Hc' as (i & <- & Hi). apply in_zrange in Hi. rewrite HLE. now apply Hfl.
  - rewrite HLE, zlen_zeros by lia. reflexivity.
  - rewrite HLE, zlen_zeros by lia. reflexivity.
  - rewrite length_map.
    assert (Hl8 : length (zrange 0 8) = 8%nat) by reflexivity.
    assert (Hlc : zlen (concat (map f (zrange 0 8))) = Z.of_nat (length (concat (map f (zrange 0 8)))))
      by reflexivity.
    lia.
  - intros c Hc'. apply in_map_iff in Hc'.
    destruct Hc' as (i & <- & Hi). apply in_zrange in Hi.
    destruct (Hpen i Hi) as (q & Eq & _). exists q. exact Eq.
Qed.

(** A module of the code that [Plan.Encode] makes with the bitmap [bm]. *)
Lemma pe_pixel (bm stream : list Z) (x y : Z) :
  zlen bm = (17 + v * 4) * Stride (PlanCode pl) ->
  zlen stream = bytes (version_at v) ->
  0 <= x < 17 + v * 4 -> 0 <= y < 17 + v * 4 ->
  pixel (plan_code pl (xor_bytes bm (data_bitmap pl stream))) x y
  = xorb (bit_at (Stride (PlanCode pl)) bm y x) (data_bit g2 stream y x).
Proof.
  intros Hbm Hls Hx Hy.
  destruct pe_sizes as (HS & Hst0 & Hcov & Hr & Hc & HBm).
  destruct (pe_data_bitmap stream Hls) as (_ & HLE & Hbits).
  unfold pixel, plan_code. cbn [Size Stride Bitmap]. rewrite HS.
  destruct (Z.leb_spec 0 x); [|lia]. destruct (Z.ltb_spec x (17 + v * 4)); [|lia].
  destruct (Z.leb_spec 0 y); [|lia]. destruct (Z.ltb_spec y (17 + v * 4)); [|lia].
  cbn [andb]. rewrite bit_at_xor_bytes by lia.
  rewrite (Hbits y x ltac:(lia) ltac:(lia)).
  destruct (Z.ltb_spec y (17 + v * 4)); [|lia].
  destruct (Z.ltb_spec x (17 + v * 4)); [|lia]. reflexivity.
Qed.

End PlanEncode.

Lemma ecc_sized_at (ecc : rs_encoder) (v l : Z) :
  1 <= v <= 40 -> 0 <= l <= 3 -> ecc_sized ecc ->
  forall d, zlen (ecc (lay_ne v l) d) = lay_ne v l.
Proof.
  intros Hv Hl Hecc d.
  destruct (layout_facts v l Hv Hl) as (_ & _ & _ & Hne & _).
  apply Hecc. exact Hne.
Qed.

Lemma zero_ecc_sized : ecc_sized zero_ecc.
Proof. intros c d Hc. unfold zero_ecc. apply zlen_zeros. exact Hc. Qed.

Lemma pick_best_length (f : list Z -> Z) (n : Z) (cands : list (list Z)) :
  Forall (fun c => zlen c = n) cands ->
  forall best pen, zlen best = n -> zlen (pick_best f cands best pen) = n.
Proof.
  induction 1 as [|c t Hc Ht IH]; intros best pen Hb; cbn [pick_best]; [exact Hb|].
  destruct (f c <? pen); apply IH; assumption.
Qed.

Lemma nth_cands (h : list Z -> list Z) (f : Z -> list Z) (k : Z) (i : nat) :
  (i < Z.to_nat k)%nat ->
  nth i (map h (map f (zrange 0 k))) [] = h (f (Z.of_nat i)).
Proof.
  intros Hi. rewrite map_map.
  rewrite (nth_indep _ [] (h (f 0))) by (rewrite length_map, zrange_length; lia).
  rewrite (map_nth (fun x => h (f x)) (zrange 0 k) 0 i).
  unfold zrange. rewrite nth_zrange_from by lia. reflexivity.
Qed.

Lemma penalty_of_code (pl : Plan) (bm : list Z) (q : Z) :
  Penalty (plan_code pl bm) = Some q ->
  penalty_of (Size (PlanCode pl)) (Stride (PlanCode pl)) bm = q.
Proof. unfold penalty_of, plan_code. intros ->. reflexivity. Qed.

(** The form of every code that [Plan.Encode] returns on a plan of
    [NewPlan]: the bitmap of one mask with the data bits xor-ed in. *)
Lemma Plan_Encode_form (sjis : codec) (ecc : rs_encoder) (v l m : Z)
    (p : Plan) (text : list Encoding) (c : Code) :
  NewPlan v l m = Some (Ok p) ->
  Forall (kanji_even sjis) text -> ecc_sized ecc ->
  Plan_Encode sjis ecc p text = Some (Ok c) ->
  exists (p0 : Plan) (g g2 : Grid) (a : Z) (pl : Plan) (m0 : Z) (stream : list Z),
    plan_facts v p0 g a = true
    /\ sweep_rel (lplan_src v l) a g g2
    /\ Pixel pl = g2 /\ PlanCode pl = PlanCode p0
    /\ 0 <= m0 <= 7 /\ (m = -1 \/ m0 = m)
    /\ zlen (mask_chunk l pl (Bitmap (PlanCode p0)) m0)
       = (17 + v * 4) * Stride (PlanCode pl)
    /\ zlen stream = bytes (version_at v)
    /\ c = plan_code pl (xor_bytes (mask_chunk l pl (Bitmap (PlanCode p0)) m0)
                                   (data_bitmap pl stream))
    /\ text_stream sjis ecc v l text = Some stream
    /\ Pixel p = g2
    /\ DataBytes p + CheckBytes p = bytes (version_at v).
Proof.
  intros HN Hkan Hecc HE.
  destruct (NewPlan_inv v l m p HN) as (Hv & Hl & Hm).
  destruct (NewPlan_spec v l Hv Hl) as (p0 & g & g2 & a & pl & H0). cbv zeta in H0.
  destruct H0 as (Ev & Enm & Hf & HR & Elp & HV & HL & HD & HC & HB & HP & HPC
                  & Hsingle & Hauto).
  pose proof (ecc_sized_at ecc v l Hv Hl Hecc) as Hecc'.
  destruct (pe_sizes v l Hv p0 g g2 a pl Hf HR HP HPC) as (HS & Hst0 & Hcov & Hr & Hc & HBm).
  set (f := mask_chunk l pl (Bitmap (PlanCode p0))) in *.
  assert (Hfl : forall i, 0 <= i < 8 -> zlen (f i) = (17 + v * 4) * Stride (PlanCode pl)).
  { intros i Hi. destruct (Hsingle i Hi) as (_ & Lc & _). rewrite Lc. exact HBm. }
  assert (Hp : exists bm, p = masked_plan pl m bm
                          /\ (m = -1 -> bm = concat (map f (zrange 0 8)))
                          /\ (m <> -1 -> bm = f m)).
  { destruct (Z.eq_dec m (-1)) as [->|Hm1].
    - rewrite Hauto in HN. remember (concat (map f (zrange 0 8))) as bm8.
      injection HN as <-. exists bm8. split; [reflexivity|]. split; [auto | lia].
    - destruct (Hsingle m ltac:(lia)) as (_ & _ & Em).
      rewrite Em in HN. remember (f m) as bm1. injection HN as <-.
      exists bm1. split; [reflexivity|]. split; [lia | auto]. }
  destruct Hp as (bm & -> & Hbm8 & Hbm1). clear HN.
  destruct (first_error sjis text) as [e|] eqn:He.
  { rewrite (pe_check_error sjis ecc pl text Hkan m bm e He) in HE. discriminate. }
  destruct (Z_lt_le_dec (lay_nd v l * 8) (text_bits sjis v text)) as [Hcap|Hcap].
  { rewrite (pe_capacity_error sjis ecc v l pl HV HD text Hkan m bm He Hcap) in HE.
    discriminate. }
  exists p0, g, g2, a, pl.
  destruct (Z.eq_dec m (-1)) as [->|Hm1].
  - pose proof (Hbm8 eq_refl) as Ebm8. clear Hbm8 Hbm1. subst bm.
    destruct (pe_eight sjis ecc v l Hv Hl p0 g g2 a pl Hf HR HP HPC HV HL HD
                Hecc' text Hkan f Hfl He Hcap) as (stream & Es & Hls & EP & Hpen).
    set (h := fun c0 : list Z => xor_bytes c0 (data_bitmap pl stream)) in *.
    set (score := penalty_of (Size (PlanCode pl)) (Stride (PlanCode pl))) in *.
    remember (pick_best score (map h (map f (zrange 0 8)))
                (repeat 0 (Z.to_nat ((17 + v * 4) * Stride (PlanCode pl))))
                (Z.shiftl 2 30)) as chosen eqn:Echosen.
    rewrite EP in HE. injection HE as <-.
    assert (Hlenc : length (map h (map f (zrange 0 8))) = 8%nat) by reflexivity.
    destruct (pick_best_spec score (map h (map f (zrange 0 8)))
                (repeat 0 (Z.to_nat ((17 + v * 4) * Stride (PlanCode pl))))
                (Z.shiftl 2 30)) as [[_ Hall]|(i & Hi & Epick & _ & _)].
    { exfalso. destruct (Hpen 0 ltac:(lia)) as (q & Eq & Hq).
      assert (Hin : In (h (f 0)) (map h (map f (zrange 0 8)))).
      { apply in_map, in_map, in_zrange. lia. }
      specialize (Hall _ Hin). unfold score, h in Hall. cbv beta in Hall.
      rewrite (penalty_of_code pl _ q Eq) in Hall. lia. }
    rewrite Hlenc in Hi.
    rewrite nth_cands in Epick by (change (Z.to_nat 8) with 8%nat; exact Hi).
    assert (Hsum : lay_nd v l + lay_ne v l * lay_nb v l = bytes (version_at v))
      by (unfold lay_nd; lia).
    exists (Z.of_nat i), stream.
    cbn [masked_plan Pixel DataBytes CheckBytes]. rewrite HD, HC.
    repeat (split; [first [assumption | lia | (left; reflexivity) | (apply Hfl; lia)]|]).
    split; [rewrite Echosen, Epick; reflexivity|].
    repeat (split; [assumption|]). exact Hsum.
  - pose proof (Hbm1 Hm1) as Ebm1.
    destruct (pe_single sjis ecc v l Hv Hl p0 g g2 a pl Hf HR HP HPC HV HL HD
                Hecc' text Hkan m bm) as (stream & Es & Hls & EP);
      [rewrite Ebm1; apply Hfl; lia | assumption | assumption |].
    rewrite EP in HE. injection HE as <-.
    assert (Hsum : lay_nd v l + lay_ne v l * lay_nb v l = bytes (version_at v))
      by (unfold lay_nd; lia).
    exists m, stream.
    cbn [masked_plan Pixel DataBytes CheckBytes]. rewrite HD, HC.
    repeat (split; [first [assumption | lia | (right; reflexivity)
                           | (apply Hfl; lia)]|]).
    split; [rewrite Ebm1; reflexivity|].
    repeat (split; [assumption|]). exact Hsum.
Qed.

(** Sample runs: a version 1 plan of level L and the code of one digit. *)
Lemma sample_code :
  exists p c, NewPlan 1 0 0 = Some (Ok p) /\ DataBytes p = 19
              /\ Plan_Encode sample_codec zero_ecc p [Num "7"] = Some (Ok c).
Proof.
  do 2 eexists. split; [vm_compute; reflexivity|].
  split; vm_compute; reflexivity.
Qed.

Lemma sample_codes :
  exists p8 c, NewPlan 1 0 (-1) = Some (Ok p8)
               /\ Plan_Encode sample_codec zero_ecc p8 [Num "7"] = Some (Ok c).
Proof.
  do 2 eexists. split; [vm_compute; reflexivity|]. vm_compute. reflexivity.
Qed.


(** * Plans: what [NewPlan] returns *)

(** X1: [NewPlan] rejects a version outside 1..40, then a level outside
    L..H, then a mask outside -1..7, in that order, with an error and no
    panic; for every other argument it returns a plan, which records the
    version, level and mask, whose data and check bytes add up to the
    capacity of the version ([DataBytes] being [Version.DataBytes]), and
    whose code has side 17 + 4v, ceil(side/8) bytes per row, and one bitmap
    for a mask 0..7 or eight bitmaps for mask -1. *)
Theorem NewPlan_result (v l m : Z) :
  (v < 1 \/ 40 < v -> NewPlan v l m = Some (Err (ErrVersion v)))
  /\ (1 <= v <= 40 -> l < 0 \/ 3 < l -> NewPlan v l m = Some (Err (ErrLevel l)))
  /\ (1 <= v <= 40 -> 0 <= l <= 3 -> m < -1 \/ 7 < m ->
      NewPlan v l m = Some (Err (ErrMask m)))
  /\ (1 <= v <= 40 -> 0 <= l <= 3 -> -1 <= m <= 7 ->
      exists p,
        NewPlan v l m = Some (Ok p)
        /\ Version p = v /\ Level p = l /\ Mask p = m
        /\ Version_DataBytes v l = Some (DataBytes p)
        /\ DataBytes p + CheckBytes p = bytes (version_at v)
        /\ 0 < DataBytes p /\ 0 <= CheckBytes p
        /\ Size (PlanCode p) = 17 + 4 * v
        /\ Stride (PlanCode p) = (Size (PlanCode p) + 7) / 8
        /\ zlen (Bitmap (PlanCode p))
           = (if m =? -1 then 8 else 1) * (Stride (PlanCode p) * Size (PlanCode p))
        /\ rows (Pixel p) = Size (PlanCode p)
        /\ cols (Pixel p) = Size (PlanCode p)).
Proof.
  split; [|split; [|split]].
  - intros Hv. unfold NewPlan, MinVersion, MaxVersion.
    destruct (Z.ltb_spec v 1); [reflexivity|].
    destruct (Z.ltb_spec 40 v); [reflexivity | lia].
  - intros Hv Hl. unfold NewPlan, MinVersion, MaxVersion, L, H.
    destruct (Z.ltb_spec v 1); [lia|]. destruct (Z.ltb_spec 40 v); [lia|].
    cbn [orb]. destruct (Z.ltb_spec l 0); [reflexivity|].
    destruct (Z.ltb_spec 3 l); [reflexivity | lia].
  - intros Hv Hl Hm. unfold NewPlan, MinVersion, MaxVersion, L, H.
    destruct (Z.ltb_spec v 1); [lia|]. destruct (Z.ltb_spec 40 v); [lia|].
    destruct (Z.ltb_spec l 0); [lia|]. destruct (Z.ltb_spec 3 l); [lia|].
    cbn [orb]. destruct (Z.eqb_spec m (-1)); [lia|]. cbn [negb andb].
    destruct (Z.ltb_spec m 0); [reflexivity|].
    destruct (Z.ltb_spec 7 m); [reflexivity | lia].
  - intros Hv Hl Hm.
    destruct (NewPlan_spec v l Hv Hl)
      as (p & g & g2 & a & pl & H). cbv zeta in H.
    destruct H as (Ev & Enm & Hf & HR & Elp & HV & HL & HD & HC & HB & HP & HPC
                   & Hsingle & Hauto).
    destruct (plan_facts_sizes _ _ _ _ Hf)
      as (HS & HSt & HBm & Hr & Hc & Hrg & Hcg & Ha).
    destruct (pm_sizes v l p g g2 a Hf HR) as (Hr2 & Hc2 & _).
    destruct (layout_facts v l Hv Hl)
      as (Evt & Elv & Hnb & Hne & Hnd & Hnde & Hex & Esum & Eq & Er).
    assert (Hdb : Version_DataBytes v l = Some (lay_nd v l)).
    { unfold Version_DataBytes. rewrite Evt, Elv. unfold lay_nd, lay_ne, lay_nb.
      do 2 f_equal. lia. }
    assert (Hcommon : forall mm bm,
      zlen bm = (if mm =? -1 then 8 else 1) * (Stride (PlanCode p) * Size (PlanCode p)) ->
      let q := masked_plan pl mm bm in
      Version q = v /\ Level q = l /\ Mask q = mm
      /\ Version_DataBytes v l = Some (DataBytes q)
      /\ DataBytes q + CheckBytes q = bytes (version_at v)
      /\ 0 < DataBytes q /\ 0 <= CheckBytes q
      /\ Size (PlanCode q) = 17 + 4 * v
      /\ Stride (PlanCode q) = (Size (PlanCode q) + 7) / 8
      /\ zlen (Bitmap (PlanCode q))
         = (if mm =? -1 then 8 else 1) * (Stride (PlanCode q) * Size (PlanCode q))
      /\ rows (Pixel q) = Size (PlanCode q)
      /\ cols (Pixel q) = Size (PlanCode q)).
    { intros mm bm Hbm q. unfold q, masked_plan, with_Bitmap.
      cbn [Version Level Mask DataBytes CheckBytes Blocks Pixel PlanCode
           Size Stride Bitmap].
      rewrite HV, HL, HD, HC, HP, HPC, HS, HSt, Hbm, Hr2, Hc2, HS, HSt.
      rewrite shiftr3_div.
      repeat split; try lia; try assumption; try (unfold lay_nd; lia); nia. }
    destruct (Z.eq_dec m (-1)) as [->|Hm1].
    + eexists. split; [exact Hauto|]. apply Hcommon.
      rewrite (zlen_concat_chunks _ (zlen (Bitmap (PlanCode p))) 8).
      * rewrite HBm, HS. change (-1 =? -1) with true. cbv iota. lia.
      * lia.
      * intros i Hi. apply (Hsingle i Hi).
    + destruct (Hsingle m ltac:(lia)) as (_ & Lc & Em).
      eexists. split; [exact Em|]. apply Hcommon.
      destruct (Z.eqb_spec m (-1)); [lia|]. rewrite Lc, HBm, HS. lia.
Qed.

Lemma NewPlan_result_witness :
  NewPlan 0 0 0 = Some (Err (ErrVersion 0))
  /\ NewPlan 1 4 0 = Some (Err (ErrLevel 4))
  /\ NewPlan 1 0 8 = Some (Err (ErrMask 8))
  /\ exists p, NewPlan 40 3 (-1) = Some (Ok p) /\ Mask p = -1.
Proof.
  split; [|split; [|split]].
  - apply (proj1 (NewPlan_result 0 0 0)). lia.
  - apply (proj1 (proj2 (NewPlan_result 1 4 0))); lia.
  - apply (proj1 (proj2 (proj2 (NewPlan_result 1 0 8)))); lia.
  - destruct (proj2 (proj2 (proj2 (NewPlan_result 40 3 (-1))))
                ltac:(lia) ltac:(lia) ltac:(lia)) as (p & E & _ & _ & Em & _).
    exists p. split; assumption.
Defined.

(** X2: in the pixel map of every plan that [NewPlan] returns, each of the
    side x side cells has one of the nine roles; every offset below
    8 * (DataBytes + CheckBytes) is carried by exactly one Data or Check
    cell; every Data or Check cell carries such an offset, a Data cell one
    below 8 * DataBytes and a Check cell one from there on; and an Extra
    cell carries offset 0. *)
Theorem NewPlan_pixel_map (v l m : Z) (p : Plan) :
  NewPlan v l m = Some (Ok p) ->
  let siz := 17 + 4 * v in
  let n := (DataBytes p + CheckBytes p) * 8 in
  let role := fun y x => Pixel_Role (cell (Pixel p) y x) in
  let off := fun y x => Pixel_Offset (cell (Pixel p) y x) in
  (forall y x, 0 <= y < siz -> 0 <= x < siz -> 1 <= role y x <= 9)
  /\ (forall o, 0 <= o < n ->
        exists y x,
          0 <= y < siz /\ 0 <= x < siz
          /\ (role y x = Data \/ role y x = Check) /\ off y x = o
          /\ forall y' x', 0 <= y' < siz -> 0 <= x' < siz ->
               (role y' x' = Data \/ role y' x' = Check) -> off y' x' = o ->
               y' = y /\ x' = x)
  /\ (forall y x, 0 <= y < siz -> 0 <= x < siz ->
        role y x = Data \/ role y x = Check ->
        0 <= off y x < n /\ (role y x = Data <-> off y x < DataBytes p * 8))
  /\ (forall y x, 0 <= y < siz -> 0 <= x < siz ->
        role y x = Extra -> off y x = 0).
Proof.
  intros HN siz n role off.
  destruct (NewPlan_inv v l m p HN) as (Hv & Hl & Hm).
  destruct (NewPlan_spec v l Hv Hl) as (p0 & g & g2 & a & pl & H). cbv zeta in H.
  destruct H as (Ev & Enm & Hf & HR & Elp & HV & HL & HD & HC & HB & HP & HPC
                 & Hsingle & Hauto).
  assert (Hp : Pixel p = g2 /\ DataBytes p = lay_nd v l
               /\ CheckBytes p = lay_ne v l * lay_nb v l).
  { destruct (Z.eq_dec m (-1)) as [->|Hm1].
    - rewrite Hauto in HN. injection HN as <-.
      cbn [masked_plan Pixel DataBytes CheckBytes]. auto.
    - destruct (Hsingle m ltac:(lia)) as (_ & _ & Em).
      rewrite Em in HN. injection HN as <-.
      cbn [masked_plan Pixel DataBytes CheckBytes]. auto. }
  destruct Hp as (Ep & Ed & Ec).
  assert (Esiz : siz = 17 + v * 4) by (unfold siz; lia).
  assert (En : n = total_bits v).
  { unfold n, total_bits. rewrite Ed, Ec. unfold lay_nd. lia. }
  unfold role, off. rewrite Ep, Esiz, En, Ed.
  split; [|split; [|split]].
  - intros y x Hy Hx. apply (pm_roles v l Hv Hl p0 g g2 a Hf HR); assumption.
  - intros o Ho. apply (pm_offset v l Hv Hl p0 g g2 a Hf HR); assumption.
  - intros y x Hy Hx Hdc.
    destruct (pm_data_check v l Hv Hl p0 g g2 a Hf HR y x Hy Hx Hdc)
      as (_ & _ & Ho & Hiff). auto.
  - intros y x Hy Hx Hr.
    rewrite (pm_extra v l Hv Hl p0 g g2 a Hf HR y x Hy Hx Hr). reflexivity.
Qed.

Lemma NewPlan_pixel_map_witness :
  exists p, NewPlan 1 0 0 = Some (Ok p)
    /\ forall y x, 0 <= y < 21 -> 0 <= x < 21 ->
         1 <= Pixel_Role (cell (Pixel p) y x) <= 9.
Proof.
  eexists. split; [vm_compute; reflexivity|].
  refine (proj1 (NewPlan_pixel_map 1 0 0 _ _)). vm_compute. reflexivity.
Defined.

(** X3: the plan of mask -1 holds, one after the other, the bitmaps of the
    plans of the masks 0..7: for each mask m in 0..7, [NewPlan] with m
    succeeds as well, its plan agrees with the plan of mask -1 in everything
    but the mask and the bitmap, and its bitmap is the m-th slice of
    Size * Stride bytes of the bitmap of the plan of mask -1. *)
Theorem NewPlan_eight_bitmaps (v l m : Z) (p8 : Plan) :
  NewPlan v l (-1) = Some (Ok p8) -> 0 <= m <= 7 ->
  exists pm,
    NewPlan v l m = Some (Ok pm)
    /\ Mask p8 = -1 /\ Mask pm = m
    /\ Version pm = Version p8 /\ Level pm = Level p8
    /\ DataBytes pm = DataBytes p8 /\ CheckBytes pm = CheckBytes p8
    /\ Blocks pm = Blocks p8 /\ Pixel pm = Pixel p8
    /\ Size (PlanCode pm) = Size (PlanCode p8)
    /\ Stride (PlanCode pm) = Stride (PlanCode p8)
    /\ zlen (Bitmap (PlanCode p8)) = 8 * (Size (PlanCode p8) * Stride (PlanCode p8))
    /\ Bitmap (PlanCode pm)
       = chunk_at (Size (PlanCode p8) * Stride (PlanCode p8))
                  (Bitmap (PlanCode p8)) m.
Proof.
  intros HN Hm.
  destruct (NewPlan_inv v l (-1) p8 HN) as (Hv & Hl & _).
  destruct (NewPlan_spec v l Hv Hl) as (p0 & g & g2 & a & pl & H0). cbv zeta in H0.
  destruct H0 as (Ev & Enm & Hf & HR & Elp & HV & HL & HD & HC & HB & HP & HPC
                  & Hsingle & Hauto).
  destruct (plan_facts_sizes _ _ _ _ Hf) as (HS & HSt & HBm & _).
  set (bm8 := concat (map (mask_chunk l pl (Bitmap (PlanCode p0))) (zrange 0 8))) in *.
  assert (Ebm8 : bm8 = concat (map (mask_chunk l pl (Bitmap (PlanCode p0))) (zrange 0 8)))
    by reflexivity.
  clearbody bm8.
  rewrite Hauto in HN. injection HN as <-.
  destruct (Hsingle m ltac:(lia)) as (_ & Lc & Em).
  eexists. split; [exact Em|].
  cbn [masked_plan with_Bitmap Version Level Mask DataBytes CheckBytes Blocks
       Pixel PlanCode Size Stride Bitmap].
  rewrite HPC.
  assert (Hsz : Size (PlanCode p0) * Stride (PlanCode p0) = zlen (Bitmap (PlanCode p0)))
    by (rewrite HBm, HS; lia).
  repeat (split; [reflexivity|]). rewrite Ebm8.
  split.
  - rewrite (zlen_concat_chunks _ (zlen (Bitmap (PlanCode p0))) 8); [lia | lia |].
    intros i Hi. apply (Hsingle i Hi).
  - rewrite Hsz. symmetry. apply (chunk_at_concat _ _ 8); [lia|].
    intros i Hi. apply (Hsingle i Hi).
Qed.

Lemma NewPlan_eight_bitmaps_witness :
  exists p8,
    NewPlan 1 0 (-1) = Some (Ok p8)
    /\ exists pm,
         NewPlan 1 0 5 = Some (Ok pm)
         /\ Bitmap (PlanCode pm)
            = chunk_at (Size (PlanCode p8) * Stride (PlanCode p8))
                       (Bitmap (PlanCode p8)) 5.
Proof.
  assert (E8 : exists p8, NewPlan 1 0 (-1) = Some (Ok p8))
    by (eexists; vm_compute; reflexivity).
  destruct E8 as [p8 E8]. exists p8. split; [exact E8|].
  destruct (NewPlan_eight_bitmaps 1 0 5 p8 E8 ltac:(lia)) as (pm & E & R).
  exists pm. split; [exact E|]. apply R.
Defined.

(** * The modules of a plan *)

(** X4: in the bitmap of the plan that [NewPlan] returns for a level l and
    a mask m in 0..7, each module (row y, column x) of the symbol is: bit i
    of the format word of (l, m), in the two cells of the symbol that show
    bit i (format bits are painted in both copies); the value of
    [Mask.Invert] for m at (y, x), in the Data, Check and Extra cells; and
    the module of the version plan of [vplan], which depends on neither
    level nor mask, everywhere else. *)
Theorem NewPlan_modules (v l m : Z) (p : Plan) :
  NewPlan v l m = Some (Ok p) -> 0 <= m <= 7 ->
  exists p0,
    vplan v 1 = Some (Ok p0)
    /\ forall y x, 0 <= y < 17 + 4 * v -> 0 <= x < 17 + 4 * v ->
         pixel (PlanCode p) x y
         = plan_module (17 + 4 * v) (Stride (PlanCode p)) (Pixel p)
                       (Bitmap (PlanCode p0)) l m y x.
Proof.
  intros HN Hm.
  destruct (NewPlan_inv v l m p HN) as (Hv & Hl & _).
  destruct (NewPlan_spec v l Hv Hl) as (p0 & g & g2 & a & pl & H0). cbv zeta in H0.
  destruct H0 as (Ev & Enm & Hf & HR & Elp & HV & HL & HD & HC & HB & HP & HPC
                  & Hsingle & Hauto).
  destruct (plan_facts_sizes _ _ _ _ Hf) as (HS & HSt & HBm & _).
  destruct (Hsingle m ltac:(lia)) as (_ & Lc & Em).
  rewrite Em in HN. injection HN as <-.
  exists p0. split; [exact Ev|].
  intros y x Hy Hx. unfold pixel.
  cbn [masked_plan with_Bitmap PlanCode Pixel Size Stride Bitmap].
  rewrite HPC, HP, HS.
  replace (17 + 4 * v) with (17 + v * 4) in * by lia.
  destruct (Z.leb_spec 0 x); [|lia]. destruct (Z.ltb_spec x (17 + v * 4)); [|lia].
  destruct (Z.leb_spec 0 y); [|lia]. destruct (Z.ltb_spec y (17 + v * 4)); [|lia].
  cbn [andb].
  apply (chunk_module v l Hv Hl p0 g g2 a Hf HR pl HP HPC m y x); lia.
Qed.

Lemma NewPlan_modules_witness :
  exists p,
    NewPlan 1 1 0 = Some (Ok p)
    /\ exists p0,
         vplan 1 1 = Some (Ok p0)
         /\ pixel (PlanCode p) 8 0
            = plan_module 21 (Stride (PlanCode p)) (Pixel p)
                          (Bitmap (PlanCode p0)) 1 0 0 8.
Proof.
  assert (E : exists p, NewPlan 1 1 0 = Some (Ok p))
    by (eexists; vm_compute; reflexivity).
  destruct E as [p E]. exists p. split; [exact E|].
  destruct (NewPlan_modules 1 1 0 p E ltac:(lia)) as (p0 & E0 & R).
  exists p0. split; [exact E0|]. apply (R 0 8); lia.
Defined.

(** X5: the bitmap of every plan that [NewPlan] returns for a mask 0..7
    shows the function patterns of the symbol: in each of the three corners
    (top left, top right, bottom left) a 7x7 position box, black on its
    border and on its 3x3 centre, with a white strip around it, all in
    cells of role Position; the timing strips in row 6 and column 6
    between the boxes, black on the even modules; and the single black
    module in column 8 of row side-8, a cell of role Unused. *)
Theorem NewPlan_function_patterns (v l m : Z) (p : Plan) :
  NewPlan v l m = Some (Ok p) -> 0 <= m <= 7 ->
  let siz := 17 + 4 * v in
  let c := PlanCode p in
  (forall x0 y0 dx dy,
     (x0 = 0 /\ y0 = 0) \/ (x0 = siz - 7 /\ y0 = 0) \/ (x0 = 0 /\ y0 = siz - 7) ->
     -1 <= dx <= 7 -> -1 <= dy <= 7 ->
     0 <= x0 + dx < siz -> 0 <= y0 + dy < siz ->
     Pixel_Role (cell (Pixel p) (y0 + dy) (x0 + dx)) = Position
     /\ pixel c (x0 + dx) (y0 + dy) = in_box dx dy && finder_module dx dy)
  /\ (forall i, 8 <= i < siz - 8 ->
        pixel c i 6 = Z.even i /\ pixel c 6 i = Z.even i)
  /\ pixel c 8 (siz - 8) = true
  /\ Pixel_Role (cell (Pixel p) (siz - 8) 8) = Unused.
Proof.
  intros HN Hm siz c.
  destruct (NewPlan_inv v l m p HN) as (Hv & Hl & _).
  destruct (NewPlan_spec v l Hv Hl) as (p0 & g & g2 & a & pl & H0). cbv zeta in H0.
  destruct H0 as (Ev & Enm & Hf & HR & Elp & HV & HL & HD & HC & HB & HP & HPC
                  & Hsingle & Hauto).
  destruct (plan_facts_sizes _ _ _ _ Hf) as (HS & HSt & HBm & _).
  destruct (plan_facts_checks _ _ _ _ Hf)
    as (_ & _ & _ & _ & Hf1 & Hf2 & Hf3 & Htim & Hdark).
  destruct (Hsingle m ltac:(lia)) as (_ & Lc & Em).
  rewrite Em in HN. injection HN as <-.
  assert (Esiz : siz = 17 + v * 4) by (unfold siz; lia).
  assert (Hpx : forall y x, 0 <= y < siz -> 0 <= x < siz ->
            Pixel_Role (cell g y x) <> Data -> Pixel_Role (cell g y x) <> Format ->
            cell (Pixel (masked_plan pl m (mask_chunk l pl (Bitmap (PlanCode p0)) m))) y x
            = cell g y x
            /\ pixel c x y = bit_at (Stride (PlanCode p0)) (Bitmap (PlanCode p0)) y x).
  { intros y x Hy Hx Hnd Hnf. rewrite Esiz in Hy, Hx.
    destruct (function_module v l Hv Hl p0 g g2 a Hf HR pl HP HPC m y x
                ltac:(lia) Hy Hx Hnd Hnf) as [E1 E2].
    unfold c, pixel.
    cbn [masked_plan with_Bitmap PlanCode Pixel Size Stride Bitmap].
    rewrite HPC, HP, HS.
    destruct (Z.leb_spec 0 x); [|lia]. destruct (Z.ltb_spec x (17 + v * 4)); [|lia].
    destruct (Z.leb_spec 0 y); [|lia]. destruct (Z.ltb_spec y (17 + v * 4)); [|lia].
    cbn [andb]. auto. }
  fold siz in Hf1, Hf2, Hf3, Htim, Hdark.
  rewrite <- Esiz in Hf1, Hf2, Hf3, Htim, Hdark.
  split; [|split].
  - intros x0 y0 dx dy Hcorner Hdx Hdy Hx Hy.
    assert (Hfo : finder_ok siz (Stride (PlanCode p0)) g (Bitmap (PlanCode p0)) x0 y0
                  = true)
      by (destruct Hcorner as [[-> ->]|[[-> ->]|[-> ->]]]; assumption).
    destruct (finder_ok_spec _ _ _ _ _ _ dx dy Hfo Hdx Hdy Hx Hy) as [Er Eb].
    destruct (Hpx (y0 + dy) (x0 + dx) Hy Hx) as [E1 E2];
      [rewrite Er; discriminate | rewrite Er; discriminate |].
    rewrite E1, E2. auto.
  - intros i Hi.
    destruct (timing_ok_spec _ _ _ _ i Htim Hi) as (R1 & R2 & B1 & B2).
    assert (Hnr : forall r, timing_role r = true -> r <> Data /\ r <> Format).
    { intros r Hr. unfold timing_role in Hr. apply orb_prop in Hr.
      destruct Hr as [Hr|Hr]; apply Z.eqb_eq in Hr; subst r; split; discriminate. }
    destruct (Hnr _ R1) as [N1 N2]. destruct (Hnr _ R2) as [N3 N4].
    unfold ti in *.
    destruct (Hpx 6 i ltac:(lia) ltac:(lia) N1 N2) as [_ E1].
    destruct (Hpx i 6 ltac:(lia) ltac:(lia) N3 N4) as [_ E2].
    rewrite E1, E2. auto.
  - unfold dark_ok in Hdark. apply andb_prop in Hdark. destruct Hdark as [Er Eb].
    apply Z.eqb_eq in Er.
    destruct (Hpx (siz - 8) 8 ltac:(lia) ltac:(lia)) as [E1 E2];
      [rewrite Er; discriminate | rewrite Er; discriminate |].
    rewrite E1, E2. auto.
Qed.

Lemma NewPlan_function_patterns_witness :
  exists p, NewPlan 1 0 0 = Some (Ok p) /\ pixel (PlanCode p) 8 13 = true.
Proof.
  assert (E : exists p, NewPlan 1 0 0 = Some (Ok p))
    by (eexists; vm_compute; reflexivity).
  destruct E as [p E]. exists p. split; [exact E|].
  apply (NewPlan_function_patterns 1 0 0 p E ltac:(lia)).
Defined.


(** * The format word *)

Lemma format_words_ok :
  forallb (fun l => forallb (format_word_ok l) (zrange 0 8)) (zrange 0 4) = true.
Proof. vm_compute. reflexivity. Qed.

(** X6: for every level and every mask 0..7 the format word that [fplan]
    paints has 15 bits; with the fixed pattern 0x5412 taken off, its top
    five bits are the level code (level xor 1) and the mask, and the word is
    a multiple of the generator polynomial 0x537 over GF(2); and the words
    of two different (level, mask) pairs differ in at least 7 bits. *)
Theorem fplan_word_code (l m : Z) :
  0 <= l <= 3 -> 0 <= m <= 7 ->
  let w := fplan_word l m in
  0 <= w < 2 ^ 15
  /\ Z.shiftr (Z.lxor w 0x5412) 10 = 8 * Z.lxor l 1 + m
  /\ (exists q, 0 <= q < 32 /\ clmul formatPoly q 5 = Z.lxor w 0x5412)
  /\ (forall l' m', 0 <= l' <= 3 -> 0 <= m' <= 7 -> (l', m') <> (l, m) ->
        7 <= hamming w (fplan_word l' m')).
Proof.
  intros Hl Hm w.
  pose proof (zrange_forallb (fun l => forallb (format_word_ok l) (zrange 0 8))
                0 4 format_words_ok l ltac:(lia)) as Hrow. cbv beta in Hrow.
  pose proof (zrange_forallb (format_word_ok l) 0 8 Hrow m ltac:(lia)) as Hok.
  unfold format_word_ok in Hok. cbv zeta in Hok. fold w in Hok.
  apply andb_prop in Hok. destruct Hok as [Hok Hd].
  apply andb_prop in Hok. destruct Hok as [Hok Hq].
  apply andb_prop in Hok. destruct Hok as [Hok Ht].
  apply andb_prop in Hok. destruct Hok as [H0 H15].
  apply Z.leb_le in H0. apply Z.ltb_lt in H15. apply Z.eqb_eq in Ht.
  split; [lia|]. split; [exact Ht|]. split.
  - apply existsb_exists in Hq. destruct Hq as (q & Hin & Eq).
    apply in_zrange in Hin. apply Z.eqb_eq in Eq. exists q. split; [lia|exact Eq].
  - intros l' m' Hl' Hm' Hne.
    pose proof (zrange_forallb _ 0 4 Hd l' ltac:(lia)) as Hd1. cbv beta in Hd1.
    pose proof (zrange_forallb _ 0 8 Hd1 m' ltac:(lia)) as Hd2. cbv beta in Hd2.
    apply orb_prop in Hd2. destruct Hd2 as [Hd2|Hd2].
    + apply andb_prop in Hd2. destruct Hd2 as [E1 E2].
      apply Z.eqb_eq in E1, E2. subst. now elim Hne.
    + now apply Z.leb_le in Hd2.
Qed.

Lemma fplan_word_code_witness :
  fplan_word M 0 = 0x5412 /\ 7 <= hamming (fplan_word M 0) (fplan_word L 0).
Proof.
  destruct (fplan_word_code M 0 ltac:(unfold M; lia) ltac:(lia)) as (_ & _ & _ & Hd).
  split; [reflexivity|].
  apply (Hd L 0); [unfold L; lia | lia | discriminate].
Defined.

(** * The capacity table *)

Lemma capacities_ok :
  forallb (fun v => forallb (capacity_ok v) (zrange 0 4)) (zrange 1 41) = true.
Proof. vm_compute. reflexivity. Qed.

(** X7: for every version 1..40 and level L..H, [Version.DataBytes] is
    positive and is the byte capacity of the version less the check bytes
    of all blocks; the longest block, data and check bytes together, has at
    most 255 bytes; the capacity grows strictly with the version and
    shrinks strictly with the level. *)
Theorem DataBytes_capacity (v l : Z) :
  1 <= v <= 40 -> 0 <= l <= 3 ->
  exists nd,
    Version_DataBytes v l = Some nd
    /\ 0 < nd
    /\ nd + nblock (level_at v l) * check (level_at v l) = bytes (version_at v)
    /\ block_len v l <= 255
    /\ (v < 40 -> exists nd', Version_DataBytes (v + 1) l = Some nd' /\ nd < nd')
    /\ (l < 3 -> exists nd', Version_DataBytes v (l + 1) = Some nd' /\ nd' < nd).
Proof.
  intros Hv Hl.
  pose proof (zrange_forallb (fun v => forallb (capacity_ok v) (zrange 0 4))
                1 41 capacities_ok v ltac:(lia)) as Hrow. cbv beta in Hrow.
  pose proof (zrange_forallb (capacity_ok v) 0 4 Hrow l ltac:(lia)) as Hok.
  unfold capacity_ok in Hok.
  destruct (Version_DataBytes v l) as [nd|]; [|discriminate].
  apply andb_prop in Hok. destruct Hok as [Hok Hlev].
  apply andb_prop in Hok. destruct Hok as [Hok Hver].
  apply andb_prop in Hok. destruct Hok as [Hok Hblk].
  apply andb_prop in Hok. destruct Hok as [Hpos Hsum].
  apply Z.ltb_lt in Hpos. apply Z.eqb_eq in Hsum. apply Z.leb_le in Hblk.
  exists nd. repeat split; try assumption.
  - intros Hlt. destruct (Version_DataBytes (v + 1) l) as [nd'|].
    + exists nd'. split; [reflexivity|now apply Z.ltb_lt].
    + apply Z.leb_le in Hver. lia.
  - intros Hlt. destruct (Version_DataBytes v (l + 1)) as [nd'|].
    + exists nd'. split; [reflexivity|now apply Z.ltb_lt].
    + apply Z.leb_le in Hlev. lia.
Qed.

Lemma DataBytes_capacity_witness :
  exists nd, Version_DataBytes 1 L = Some nd /\ 0 < nd.
Proof.
  destruct (DataBytes_capacity 1 L ltac:(lia) ltac:(unfold L; lia))
    as (nd & E & Hpos & _).
  exists nd. split; assumption.
Defined.

Lemma zget_none_iff {A : Type} (l : list A) (i : Z) :
  zget l i = None <-> i < 0 \/ zlen l <= i.
Proof.
  unfold zget, zlen. destruct (Z.ltb_spec i 0) as [Hi|Hi].
  - split; [intros _; lia | reflexivity].
  - rewrite nth_error_None. lia.
Qed.

(** X8: [Version.DataBytes] panics exactly when the version is outside
    0..40 or the level is outside L..H; version 0, the empty first row of
    the table, has capacity 0 at every level. *)
Theorem DataBytes_range (v l : Z) :
  (Version_DataBytes v l = None <-> v < 0 \/ 40 < v \/ l < 0 \/ 3 < l)
  /\ (0 <= l <= 3 -> Version_DataBytes 0 l = Some 0).
Proof.
  split.
  - unfold Version_DataBytes.
    destruct (zget vtab v) as [vt|] eqn:Ev.
    + assert (Hv : 0 <= v <= 40).
      { destruct (Z.ltb_spec v 0) as [Hneg|Hnn].
        - assert (N : zget vtab v = None) by (apply zget_none_iff; lia). congruence.
        - destruct (Z.leb_spec v 40); [lia|].
          assert (N : zget vtab v = None)
            by (apply zget_none_iff; change (zlen vtab) with 41; lia).
          congruence. }
      assert (Hlen : zlen (levels vt) = 4).
      { assert (Hall : forallb (fun vt => zlen (levels vt) =? 4) vtab = true)
          by (vm_compute; reflexivity).
        rewrite forallb_forall in Hall. apply Z.eqb_eq, Hall.
        unfold zget in Ev. destruct (v <? 0); [discriminate|].
        eapply nth_error_In; eassumption. }
      destruct (zget (levels vt) l) as [lev|] eqn:El.
      * split; [discriminate|]. intros Hout.
        assert (N : zget (levels vt) l = None) by (apply zget_none_iff; lia).
        congruence.
      * split; [|reflexivity]. intros _. apply zget_none_iff in El. lia.
    + split; [|reflexivity]. intros _. apply zget_none_iff in Ev.
      change (zlen vtab) with 41 in Ev. lia.
  - intros Hl.
    assert (Hall : forallb (fun l => match Version_DataBytes 0 l with
                                     | Some 0 => true | _ => false end)
                           (zrange 0 4) = true) by (vm_compute; reflexivity).
    pose proof (zrange_forallb _ 0 4 Hall l ltac:(lia)) as Hz. cbv beta in Hz.
    destruct (Version_DataBytes 0 l) as [[| |]|]; try discriminate. reflexivity.
Qed.

(** * The bit writer *)

(** X9: on a buffer that the writer's methods made, [Bits.Write] never
    panics and adds max(n, 0) to the bit count; when the value fits in n
    bits, the bits it appends are the n bits of the value, most significant
    first, and the buffer stays well formed. *)
Theorem Bits_Write_appends (b : Bits) (v n : Z) :
  Bits_wf b ->
  exists b',
    Bits_Write b v n = Some b'
    /\ Bits_Bits b' = Bits_Bits b + Z.max n 0
    /\ (0 <= v < 2 ^ n -> v < 2 ^ 64 ->
        Bits_wf b' /\ Bits_list b' = Bits_list b ++ msb_bits v n).
Proof.
  intros Hwf.
  destruct (Bits_Write_shape b v n (Bits_wf_shape b Hwf)) as (b' & E & _ & Hn).
  exists b'. split; [exact E|]. split; [exact Hn|].
  intros Hv H64.
  assert (Hn0 : 0 <= n).
  { destruct (Z.leb_spec 0 n) as [Hle|Hlt]; [exact Hle|].
    rewrite Z.pow_neg_r in Hv by lia. lia. }
  destruct (Bits_Write_spec b v n Hwf Hn0 Hv H64) as (b2 & E2 & Hwf2 & _ & Hl).
  rewrite E in E2. injection E2 as <-. split; assumption.
Qed.

Lemma Bits_Write_appends_witness :
  exists b', Bits_Write Bits_zero 5 4 = Some b' /\ Bits_Bits b' = 4
             /\ Bits_list b' = [false; true; false; true].
Proof.
  assert (Hwf : Bits_wf Bits_zero).
  { unfold Bits_wf, Bits_room, Bits_zero, zlen. simpl.
    repeat split; try lia. constructor. }
  destruct (Bits_Write_appends Bits_zero 5 4 Hwf) as (b' & E & Hn & Hl).
  exists b'. split; [exact E|]. split; [exact Hn|].
  destruct Hl as [_ Hl]; [lia | lia |]. exact Hl.
Defined.

(** * Codes *)

(** X10: in a code whose bitmap covers its square, [set] at a module of
    the square does not panic, keeps the length of the bitmap, and
    afterwards [Black] is true at that module and as before everywhere
    else. *)
Theorem Code_set_Black (c : Code) (x0 y0 : Z) :
  code_wf c -> 0 <= x0 < Size c -> 0 <= y0 < Size c ->
  exists b',
    Code_set c (Bitmap c) y0 x0 = Some b'
    /\ zlen b' = zlen (Bitmap c)
    /\ forall x y,
         Black (with_Bitmap c b') x y
         = match Black c x y with
           | Some k => Some (k || ((x =? x0) && (y =? y0)))
           | None => None
           end.
Proof.
  intros Hwf Hx0 Hy0.
  pose proof (wf_index c x0 y0 Hwf Hx0 Hy0) as Hidx.
  assert (E : exists b', Code_set c (Bitmap c) y0 x0 = Some b').
  { unfold Code_set. rewrite quot_8 by lia. apply zupd_some. exact Hidx. }
  destruct E as [b' E]. exists b'. split; [exact E|].
  assert (Hlen : zlen b' = zlen (Bitmap c)) by (eapply zupd_length; exact E).
  split; [exact Hlen|]. intros x y.
  assert (Hwf' : code_wf (with_Bitmap c b')).
  { destruct Hwf as (W1 & W2 & W3). unfold code_wf, with_Bitmap.
    cbn [Size Stride Bitmap]. rewrite Hlen. auto. }
  rewrite (Black_pixel _ _ _ Hwf'), (Black_pixel _ _ _ Hwf). f_equal.
  unfold pixel, with_Bitmap. cbn [Size Stride Bitmap].
  destruct Hwf as (W1 & W2 & W3).
  destruct ((0 <=? x) && (x <? Size c) && (0 <=? y) && (y <? Size c)) eqn:Ein.
  - assert (0 <= x < Size c /\ 0 <= y < Size c) as [Hx Hy] by lia.
    cbn [andb].
    rewrite (Code_set_bit c (Bitmap c) b' y0 x0 y x E) by lia.
    f_equal. apply andb_comm.
  - cbn [andb orb].
    destruct (Z.eqb_spec x x0) as [->|]; [|reflexivity].
    destruct (Z.eqb_spec y y0) as [->|]; [|reflexivity].
    exfalso.
    assert (Hin : (0 <=? x0) && (x0 <? Size c) && (0 <=? y0) && (y0 <? Size c) = true)
      by (repeat (apply andb_true_intro; split); lia).
    congruence.
Qed.

Lemma Code_set_Black_witness :
  exists b', Code_set dot_code (Bitmap dot_code) 0 0 = Some b'
             /\ Black (with_Bitmap dot_code b') 0 0 = Some true.
Proof.
  assert (Hwf : code_wf dot_code) by (unfold code_wf, dot_code, zlen; simpl; lia).
  destruct (Code_set_Black dot_code 0 0 Hwf)
    as (b' & E & _ & Hb); [simpl; lia | simpl; lia |].
  exists b'. split; [exact E|]. rewrite Hb. reflexivity.
Defined.

(** * Pixels *)

(** X11: a pixel packs a role in its low four bits and an offset above
    them: of the pixel made from a role below 16 and an offset, [Role]
    gives back the role and [Offset] the offset modulo 2^28, so the offset
    itself when it is below 2^28. *)
Theorem Pixel_pack (r o : Z) :
  0 <= r < 16 -> 0 <= o ->
  let p := Z.lor (Role_Pixel r) (OffsetPixel o) in
  Pixel_Role p = r /\ Pixel_Offset p = o mod 2 ^ 28.
Proof.
  intros Hr Ho p.
  assert (Hm : 0 <= o mod 2 ^ 28 < 2 ^ 28) by (apply Z.mod_pos_bound; lia).
  assert (E : OffsetPixel o = OffsetPixel (o mod 2 ^ 28)).
  { unfold OffsetPixel, uint32.
    change 0xFFFFFFFF with (Z.ones 32). rewrite !Z.land_ones by lia.
    rewrite !Z.shiftl_mul_pow2 by lia.
    change (2 ^ 32) with (2 ^ 28 * 2 ^ 4).
    rewrite !Z.mul_mod_distr_r by lia.
    rewrite Z.mod_mod by lia. reflexivity. }
  unfold p. rewrite E.
  split; [apply Pixel_Role_lor | apply Pixel_Offset_lor]; assumption.
Qed.

Lemma Pixel_pack_witness :
  Pixel_Role (Z.lor (Role_Pixel Data) (OffsetPixel 100)) = Data
  /\ Pixel_Offset (Z.lor (Role_Pixel Data) (OffsetPixel 100)) = 100 mod 2 ^ 28.
Proof. apply (Pixel_pack Data 100); unfold Data; lia. Defined.

(** * The penalty *)

(** X12: on a code whose bitmap covers its square, [Penalty] panics (a
    division by zero) when the side is 0; otherwise it returns a value
    between -10 and 165 s^2 + 1760 s + 90 for side s, so a value below
    2<<23 for every side up to 177, the side of version 40. *)
Theorem Penalty_bounds (c : Code) :
  code_wf c ->
  (Size c = 0 -> Penalty c = None)
  /\ (0 < Size c ->
      exists p, Penalty c = Some p
                /\ -10 <= p <= 165 * (Size c * Size c) + 1760 * Size c + 90
                /\ (Size c <= 177 -> p < Z.shiftl 2 23)).
Proof.
  intros Hwf. split.
  - intros E0. unfold Penalty. rewrite E0. reflexivity.
  - intros HS. destruct (Penalty_range c Hwf HS) as (p & E & Hp).
    exists p. split; [exact E|]. split; [exact Hp|].
    intros H177. change (Z.shiftl 2 23) with 16777216. nia.
Qed.

Lemma Penalty_bounds_witness :
  exists p, Penalty dot_code = Some p /\ p < Z.shiftl 2 23.
Proof.
  assert (Hwf : code_wf dot_code) by (unfold code_wf, dot_code, zlen; simpl; lia).
  destruct (Penalty_bounds dot_code Hwf) as [_ Hp].
  destruct Hp as (p & E & _ & Hlt); [simpl; lia|].
  exists p. split; [exact E|]. apply Hlt. simpl. lia.
Defined.


(** * What the encodings write *)

(** X13: [Alpha.Check] accepts a string exactly when each of its bytes is
    one of the 45 characters of the alphabet.  For every string,
    [Alpha.Encode] writes as many bits as [Alpha.Bits] says, with a count
    field of 9, 11 or 13 bits by size class; for an accepted string whose
    length fits the count field the bits are the mode 0010, the length, then
    each pair of characters as the 11-bit value 45 * first + second and a
    character left over as 6 bits. *)
Theorem Alpha_Encode_writes (s : string) (v : Z) (b : Bits) :
  Bits_wf b ->
  (Alpha_Check s = None <-> Forall is_alpha (bytes_of s))
  /\ exists b',
       Alpha_Encode s b v = Some b'
       /\ alpha_count_width v = (if v <=? 9 then 9 else if v <=? 26 then 11 else 13)
       /\ Alpha_Bits s v = Some (Bits_Bits b' - Bits_Bits b)
       /\ (Alpha_Check s = None -> slen s < 2 ^ alpha_count_width v ->
           Bits_wf b'
           /\ Bits_list b'
              = Bits_list b ++ msb_bits 2 4
                ++ msb_bits (slen s) (alpha_count_width v)
                ++ alpha_bits (bytes_of s)).
Proof.
  intros Hwf. split; [apply Alpha_Check_alpha|].
  destruct (Alpha_Encode_count s v b (Bits_wf_shape b Hwf)) as (b' & E & _ & Hn & _).
  exists b'. split; [exact E|]. split; [apply alphaLen_width|].
  split; [exact Hn|]. intros Hck Hfit.
  destruct (Alpha_Encode_bits s v b Hwf Hck Hfit) as (b2 & E2 & Hwf2 & Hl).
  rewrite E in E2. injection E2 as <-. split; assumption.
Qed.

Lemma Alpha_Encode_writes_witness :
  exists b', Alpha_Encode "A1" Bits_zero 1 = Some b'
             /\ Alpha_Bits "A1" 1 = Some (Bits_Bits b' - Bits_Bits Bits_zero).
Proof.
  destruct (Alpha_Encode_writes "A1" 1 Bits_zero Bits_zero_wf)
    as (_ & b' & E & _ & Hn & _).
  exists b'. split; assumption.
Defined.

(** X14: [String.Check] accepts every string.  For every string,
    [String.Encode] writes as many bits as [String.Bits] says, with a
    count field of 8 bits up to version 9 and 16 bits above; when the
    length fits the count field the bits are the mode 0100, the length,
    then the bytes of the string, 8 bits each. *)
Theorem String_Encode_writes (s : string) (v : Z) (b : Bits) :
  Bits_wf b ->
  String_Check s = None
  /\ exists b',
       String_Encode s b v = Some b'
       /\ string_count_width v = (if v <=? 9 then 8 else 16)
       /\ String_Bits s v = Some (Bits_Bits b' - Bits_Bits b)
       /\ (slen s < 2 ^ string_count_width v ->
           Bits_wf b'
           /\ Bits_list b'
              = Bits_list b ++ msb_bits 4 4
                ++ msb_bits (slen s) (string_count_width v)
                ++ string_bits (bytes_of s)).
Proof.
  intros Hwf. split; [reflexivity|].
  destruct (String_Encode_count s v b (Bits_wf_shape b Hwf)) as (b' & E & _ & Hn & _).
  exists b'. split; [exact E|]. split; [apply stringLen_width|].
  split; [exact Hn|]. intros Hfit.
  destruct (String_Encode_bits s v b Hwf Hfit) as (b2 & E2 & Hwf2 & Hl).
  rewrite E in E2. injection E2 as <-. split; assumption.
Qed.

Lemma String_Encode_writes_witness :
  exists b', String_Encode "hi" Bits_zero 1 = Some b'
             /\ String_Bits "hi" 1 = Some (Bits_Bits b' - Bits_Bits Bits_zero).
Proof.
  destruct (String_Encode_writes "hi" 1 Bits_zero Bits_zero_wf)
    as (_ & b' & E & _ & Hn & _).
  exists b'. split; assumption.
Defined.

(** X15: with the Shift JIS encoder as a parameter: when it rejects the
    string, [Kanji.Check] gives an error and [Kanji.Encode] writes nothing;
    when it gives an odd number of bytes, [Kanji.Check] accepts and
    [Kanji.Encode] panics; when it gives an even number of bytes,
    [Kanji.Encode] writes 4 + count width + 13 bits per pair, and when the
    pair values fit in 13 bits and the pair count fits the count field the
    bits are the mode 1000, the pair count, then each pair as the 13-bit
    value (first and 0x3f) * 0xc0 + second - 0x100. *)
Theorem Kanji_Encode_writes (sjis : codec) (s : string) (v : Z) (b : Bits) :
  Bits_wf b ->
  match sjis s with
  | None =>
      Kanji_Check sjis s = Some (ErrNonKanji s)
      /\ Kanji_Encode sjis s b v = Some b
  | Some k =>
      Kanji_Check sjis s = None
      /\ if Z.even (zlen k) then
           exists b',
             Kanji_Encode sjis s b v = Some b'
             /\ kanji_count_width v
                = (if v <=? 9 then 8 else if v <=? 26 then 10 else 12)
             /\ Bits_Bits b'
                = Bits_Bits b + 4 + kanji_count_width v + 13 * (zlen k / 2)
             /\ (kanji_fits k -> zlen k / 2 < 2 ^ kanji_count_width v ->
                 Bits_wf b'
                 /\ Bits_list b'
                    = Bits_list b ++ msb_bits 8 4
                      ++ msb_bits (zlen k / 2) (kanji_count_width v)
                      ++ kanji_bits k)
         else Kanji_Encode sjis s b v = None
  end.
Proof.
  intros Hwf. destruct (sjis s) as [k|] eqn:Hk.
  - split; [unfold Kanji_Check; rewrite Hk; reflexivity|].
    destruct (Z.even (zlen k)) eqn:Hev.
    + assert (Hm : zlen k mod 2 = 0).
      { apply Z.even_spec in Hev. destruct Hev as [q Hq]. rewrite Hq.
        rewrite Z.mul_comm. apply Z.mod_mul. lia. }
      destruct (Kanji_Encode_count sjis s v b k (Bits_wf_shape b Hwf) Hk Hm)
        as (b' & E & _ & Hn).
      exists b'. split; [exact E|]. split; [apply kanjiLen_width|].
      split; [exact Hn|]. intros Hfit Hcnt.
      destruct (Kanji_Encode_bits sjis s v b k Hwf Hk Hm Hfit Hcnt)
        as (b2 & E2 & Hwf2 & Hl).
      rewrite E in E2. injection E2 as <-. split; assumption.
    + unfold Kanji_Encode. rewrite Hk, land_1_mod.
      assert (Hm : zlen k mod 2 = 1).
      { rewrite Zmod_even, Hev. reflexivity. }
      rewrite Hm. reflexivity.
  - split; [unfold Kanji_Check; rewrite Hk; reflexivity|].
    unfold Kanji_Encode. rewrite Hk. reflexivity.
Qed.

Lemma Kanji_Encode_writes_witness :
  exists b', Kanji_Encode sample_codec "x" Bits_zero 1 = Some b'
             /\ Bits_Bits b' = 25.
Proof.
  pose proof (Kanji_Encode_writes sample_codec "x" 1 Bits_zero Bits_zero_wf) as Hk.
  cbn beta iota delta [sample_codec] in Hk.
  destruct Hk as (_ & b' & E & _ & Hn & _).
  exists b'. split; [exact E|]. exact Hn.
Defined.


(** * Codes: what [Plan.Encode] returns *)

(** X16: on a plan of [NewPlan], with a Shift JIS encoder that gives whole
    double-byte codes and a Reed-Solomon encoder that fills its buffer,
    [Plan.Encode] never panics: it returns the error of the first encoding
    that [Check] rejects; else, when the encodings write more bits than
    8 * DataBytes, the capacity error with both counts; else a code with
    the side and stride of the plan and a bitmap of side * stride bytes. *)
Theorem Plan_Encode_result (sjis : codec) (ecc : rs_encoder) (v l m : Z)
    (p : Plan) (text : list Encoding) :
  NewPlan v l m = Some (Ok p) ->
  Forall (kanji_even sjis) text -> ecc_sized ecc ->
  (forall e, first_error sjis text = Some e ->
             Plan_Encode sjis ecc p text = Some (Err e))
  /\ (first_error sjis text = None ->
      DataBytes p * 8 < text_bits sjis v text ->
      Plan_Encode sjis ecc p text
      = Some (Err (ErrCapacity (text_bits sjis v text) (DataBytes p * 8))))
  /\ (first_error sjis text = None ->
      text_bits sjis v text <= DataBytes p * 8 ->
      exists c,
        Plan_Encode sjis ecc p text = Some (Ok c)
        /\ Size c = 17 + 4 * v
        /\ Stride c = Stride (PlanCode p)
        /\ zlen (Bitmap c) = Size c * Stride c).
Proof.
  intros HN Hkan Hecc.
  destruct (NewPlan_inv v l m p HN) as (Hv & Hl & Hm).
  destruct (NewPlan_spec v l Hv Hl) as (p0 & g & g2 & a & pl & H0). cbv zeta in H0.
  destruct H0 as (Ev & Enm & Hf & HR & Elp & HV & HL & HD & HC & HB & HP & HPC
                  & Hsingle & Hauto).
  pose proof (ecc_sized_at ecc v l Hv Hl Hecc) as Hecc'.
  destruct (pe_sizes v l Hv p0 g g2 a pl Hf HR HP HPC) as (HS & Hst0 & Hcov & Hr & Hc & HBm).
  assert (Hp : exists bm, p = masked_plan pl m bm
            /\ ((0 <= m <= 7 /\ zlen bm = (17 + v * 4) * Stride (PlanCode pl))
                \/ (m = -1 /\ bm = concat (map (mask_chunk l pl (Bitmap (PlanCode p0)))
                                             (zrange 0 8))))).
  { destruct (Z.eq_dec m (-1)) as [->|Hm1].
    - rewrite Hauto in HN. injection HN as <-. eexists. split; [reflexivity|].
      right. split; reflexivity.
    - destruct (Hsingle m ltac:(lia)) as (_ & Lc & Em).
      rewrite Em in HN. injection HN as <-. eexists. split; [reflexivity|].
      left. split; [lia|]. rewrite Lc. exact HBm. }
  destruct Hp as (bm & -> & Hcase).
  cbn [masked_plan DataBytes PlanCode with_Bitmap Stride]. rewrite HD.
  split; [|split].
  - intros e He. apply pe_check_error; assumption.
  - intros He Hcap. apply pe_capacity_error; assumption.
  - intros He Hcap. destruct Hcase as [[Hm07 Hbm]|[-> ->]].
    + destruct (pe_single sjis ecc v l Hv Hl p0 g g2 a pl Hf HR HP HPC HV HL HD
                  Hecc' text Hkan m bm Hbm He Hcap) as (stream & Es & Hls & EP).
      eexists. split; [exact EP|]. unfold plan_code. cbn [Size Stride Bitmap].
      rewrite xor_bytes_length, Hbm, HS. repeat split; lia.
    + assert (Hfl : forall i, 0 <= i < 8 ->
                zlen (mask_chunk l pl (Bitmap (PlanCode p0)) i)
                = (17 + v * 4) * Stride (PlanCode pl)).
      { intros i Hi. destruct (Hsingle i Hi) as (_ & Lc & _). rewrite Lc. exact HBm. }
      destruct (pe_eight sjis ecc v l Hv Hl p0 g g2 a pl Hf HR HP HPC HV HL HD
                  Hecc' text Hkan _ Hfl He Hcap) as (stream & Es & Hls & EP & Hpen).
      destruct (pe_data_bitmap v l Hv Hl p0 g g2 a pl Hf HR HP HPC stream Hls)
        as (_ & HLE & _).
      eexists. split; [exact EP|]. unfold plan_code. cbn [Size Stride Bitmap].
      rewrite (pick_best_length _ ((17 + v * 4) * Stride (PlanCode pl))).
      * rewrite HS. repeat split; lia.
      * apply Forall_forall. intros c Hc'. apply in_map_iff in Hc'.
        destruct Hc' as (c0 & <- & Hc0). apply in_map_iff in Hc0.
        destruct Hc0 as (i & <- & Hi). apply in_zrange in Hi.
        rewrite xor_bytes_length. now apply Hfl.
      * apply zlen_zeros. nia.
Qed.

Lemma Plan_Encode_result_witness :
  exists p c, NewPlan 1 0 0 = Some (Ok p)
              /\ Plan_Encode sample_codec zero_ecc p [Num "7"] = Some (Ok c)
              /\ Size c = 21.
Proof.
  destruct sample_code as (p & _ & E & Hd & _).
  destruct (Plan_Encode_result sample_codec zero_ecc 1 0 0 p [Num "7"] E)
    as (_ & _ & Hok).
  - repeat constructor.
  - exact zero_ecc_sized.
  - destruct Hok as (c & Ec & Hs & _).
    + reflexivity.
    + rewrite Hd. vm_compute. discriminate.
    + exists p, c. split; [exact E|]. split; [exact Ec | exact Hs].
Defined.

(** X17: when [Plan.Encode] succeeds on the plan of a mask 0..7, the code
    is the bitmap of the plan with the bits of the byte stream xor-ed in:
    the stream is the data bytes of the text, padded, followed by the check
    bytes; a module whose pixel has role Data or Check is the mask value at
    the module xor the bit of the stream at the pixel's offset; every other
    module is the module of the plan. *)
Theorem Plan_Encode_modules (sjis : codec) (ecc : rs_encoder) (v l m : Z)
    (p : Plan) (text : list Encoding) (c : Code) :
  NewPlan v l m = Some (Ok p) -> 0 <= m <= 7 ->
  Forall (kanji_even sjis) text -> ecc_sized ecc ->
  Plan_Encode sjis ecc p text = Some (Ok c) ->
  exists stream,
    text_stream sjis ecc v l text = Some stream
    /\ zlen stream = DataBytes p + CheckBytes p
    /\ forall x y, 0 <= x < 17 + 4 * v -> 0 <= y < 17 + 4 * v ->
         let pix := cell (Pixel p) y x in
         let bit := Z.testbit (znth stream (Pixel_Offset pix / 8))
                              (7 - Pixel_Offset pix mod 8) in
         if (Pixel_Role pix =? Data) || (Pixel_Role pix =? Check)
         then pixel c x y = xorb (mask_bit m y x) bit
         else pixel c x y = pixel (PlanCode p) x y.
Proof.
  intros HN Hm Hkan Hecc HE.
  destruct (NewPlan_inv v l m p HN) as (Hv & Hl & _).
  destruct (NewPlan_spec v l Hv Hl) as (p0 & g & g2 & a & pl & H0). cbv zeta in H0.
  destruct H0 as (Ev & Enm & Hf & HR & Elp & HV & HL & HD & HC & HB & HP & HPC
                  & Hsingle & Hauto).
  pose proof (ecc_sized_at ecc v l Hv Hl Hecc) as Hecc'.
  destruct (pe_sizes v l Hv p0 g g2 a pl Hf HR HP HPC) as (HS & Hst0 & Hcov & Hr & Hc & HBm).
  destruct (Hsingle m ltac:(lia)) as (_ & Lc & Em).
  rewrite Em in HN. injection HN as <-.
  set (bm := mask_chunk l pl (Bitmap (PlanCode p0)) m) in *.
  assert (Hbm : zlen bm = (17 + v * 4) * Stride (PlanCode pl)) by (rewrite Lc; exact HBm).
  (* the text passes its checks and fits *)
  destruct (first_error sjis text) as [e|] eqn:He.
  { rewrite (pe_check_error sjis ecc pl text Hkan m bm e He) in HE. discriminate. }
  destruct (Z_lt_le_dec (lay_nd v l * 8) (text_bits sjis v text)) as [Hcap|Hcap].
  { rewrite (pe_capacity_error sjis ecc v l pl HV HD text Hkan m bm He Hcap) in HE.
    discriminate. }
  destruct (pe_single sjis ecc v l Hv Hl p0 g g2 a pl Hf HR HP HPC HV HL HD
              Hecc' text Hkan m bm Hbm He Hcap) as (stream & Es & Hls & EP).
  rewrite EP in HE. injection HE as <-.
  destruct (pe_data_bitmap v l Hv Hl p0 g g2 a pl Hf HR HP HPC stream Hls)
    as (_ & HLE & Hbits).
  exists stream. split; [exact Es|].
  cbn [masked_plan DataBytes CheckBytes Pixel PlanCode with_Bitmap].
  split; [rewrite Hls, HD, HC; unfold lay_nd; lia|].
  intros x y Hx Hy. cbv zeta.
  replace (17 + 4 * v) with (17 + v * 4) in * by lia.
  assert (Hx8 : 0 <= x < 8 * Stride (PlanCode pl)) by lia.
  assert (Epix : pixel (plan_code pl (xor_bytes bm (data_bitmap pl stream))) x y
                 = xorb (bit_at (Stride (PlanCode pl)) bm y x)
                        (data_bit g2 stream y x)).
  { unfold pixel, plan_code. cbn [Size Stride Bitmap]. rewrite HS.
    destruct (Z.leb_spec 0 x); [|lia]. destruct (Z.ltb_spec x (17 + v * 4)); [|lia].
    destruct (Z.leb_spec 0 y); [|lia]. destruct (Z.ltb_spec y (17 + v * 4)); [|lia].
    cbn [andb]. rewrite bit_at_xor_bytes by lia.
    rewrite (Hbits y x ltac:(lia) Hx8).
    destruct (Z.ltb_spec y (17 + v * 4)); [|lia].
    destruct (Z.ltb_spec x (17 + v * 4)); [|lia]. reflexivity. }
  assert (Eplan : pixel (with_Bitmap (PlanCode pl) bm) x y
                  = bit_at (Stride (PlanCode pl)) bm y x).
  { unfold pixel, with_Bitmap. cbn [Size Stride Bitmap]. rewrite HS.
    destruct (Z.leb_spec 0 x); [|lia]. destruct (Z.ltb_spec x (17 + v * 4)); [|lia].
    destruct (Z.leb_spec 0 y); [|lia]. destruct (Z.ltb_spec y (17 + v * 4)); [|lia].
    reflexivity. }
  rewrite Epix, Eplan. unfold data_bit. rewrite HP.
  destruct ((Pixel_Role (cell g2 y x) =? Data) || (Pixel_Role (cell g2 y x) =? Check))
    eqn:Erole; cbn [andb].
  - f_equal. unfold bm, mask_bit. rewrite HPC.
    apply (masked_module v l Hv Hl p0 g g2 a Hf HR pl HP HPC m y x); try lia.
    unfold masked_role. rewrite Erole. reflexivity.
  - apply xorb_false_r.
Qed.

Lemma Plan_Encode_modules_witness :
  exists p c stream,
    NewPlan 1 0 0 = Some (Ok p)
    /\ Plan_Encode sample_codec zero_ecc p [Num "7"] = Some (Ok c)
    /\ text_stream sample_codec zero_ecc 1 0 [Num "7"] = Some stream
    /\ zlen stream = DataBytes p + CheckBytes p.
Proof.
  destruct sample_code as (p & c & E & _ & Ec).
  destruct (Plan_Encode_modules sample_codec zero_ecc 1 0 0 p [Num "7"] c E
              ltac:(lia) ltac:(repeat constructor) zero_ecc_sized Ec)
    as (stream & Es & Hl & _).
  exists p, c, stream. auto.
Defined.

(** X18: when [Plan.Encode] succeeds on the plan of mask -1, the code it
    returns is the code that it returns on the plan of one of the masks
    0..7, the first one of least penalty: encoding with every mask 0..7
    succeeds as well, no mask gives a code of smaller penalty and every
    mask before the chosen one gives a code of larger penalty. *)
Theorem Plan_Encode_best_mask (sjis : codec) (ecc : rs_encoder) (v l : Z)
    (p8 : Plan) (text : list Encoding) (c : Code) :
  NewPlan v l (-1) = Some (Ok p8) ->
  Forall (kanji_even sjis) text -> ecc_sized ecc ->
  Plan_Encode sjis ecc p8 text = Some (Ok c) ->
  exists m pm,
    0 <= m <= 7
    /\ NewPlan v l m = Some (Ok pm)
    /\ Plan_Encode sjis ecc pm text = Some (Ok c)
    /\ forall m' pm',
         0 <= m' <= 7 -> NewPlan v l m' = Some (Ok pm') ->
         exists c' q q',
           Plan_Encode sjis ecc pm' text = Some (Ok c')
           /\ Penalty c = Some q /\ Penalty c' = Some q'
           /\ q <= q' /\ (m' < m -> q < q').
Proof.
  intros HN Hkan Hecc HE.
  destruct (NewPlan_inv v l (-1) p8 HN) as (Hv & Hl & _).
  destruct (NewPlan_spec v l Hv Hl) as (p0 & g & g2 & a & pl & H0). cbv zeta in H0.
  destruct H0 as (Ev & Enm & Hf & HR & Elp & HV & HL & HD & HC & HB & HP & HPC
                  & Hsingle & Hauto).
  pose proof (ecc_sized_at ecc v l Hv Hl Hecc) as Hecc'.
  destruct (pe_sizes v l Hv p0 g g2 a pl Hf HR HP HPC) as (HS & Hst0 & Hcov & Hr & Hc & HBm).
  set (f := mask_chunk l pl (Bitmap (PlanCode p0))) in *.
  assert (Hfl : forall i, 0 <= i < 8 -> zlen (f i) = (17 + v * 4) * Stride (PlanCode pl)).
  { intros i Hi. destruct (Hsingle i Hi) as (_ & Lc & _). rewrite Lc. exact HBm. }
  remember (concat (map f (zrange 0 8))) as bm8 eqn:Ebm8.
  rewrite Hauto in HN. injection HN as <-.
  (* the text passes its checks and fits *)
  destruct (first_error sjis text) as [e|] eqn:He.
  { rewrite (pe_check_error sjis ecc pl text Hkan (-1) bm8 e He) in HE. discriminate. }
  destruct (Z_lt_le_dec (lay_nd v l * 8) (text_bits sjis v text)) as [Hcap|Hcap].
  { rewrite (pe_capacity_error sjis ecc v l pl HV HD text Hkan (-1) bm8 He Hcap) in HE.
    discriminate. }
  subst bm8.
  destruct (pe_eight sjis ecc v l Hv Hl p0 g g2 a pl Hf HR HP HPC HV HL HD
              Hecc' text Hkan f Hfl He Hcap) as (stream & Es & Hls & EP & Hpen).
  set (h := fun c0 : list Z => xor_bytes c0 (data_bitmap pl stream)) in *.
  set (score := penalty_of (Size (PlanCode pl)) (Stride (PlanCode pl))) in *.
  remember (pick_best score (map h (map f (zrange 0 8)))
              (repeat 0 (Z.to_nat ((17 + v * 4) * Stride (PlanCode pl))))
              (Z.shiftl 2 30)) as chosen eqn:Echosen.
  rewrite EP in HE. injection HE as <-.
  (* every mask encodes, to the candidate of the mask loop *)
  assert (Hone : forall m', 0 <= m' <= 7 ->
            NewPlan v l m' = Some (Ok (masked_plan pl m' (f m')))
            /\ Plan_Encode sjis ecc (masked_plan pl m' (f m')) text
               = Some (Ok (plan_code pl (h (f m'))))).
  { intros m' Hm'. destruct (Hsingle m' ltac:(lia)) as (_ & _ & Em). split; [exact Em|].
    destruct (pe_single sjis ecc v l Hv Hl p0 g g2 a pl Hf HR HP HPC HV HL HD
                Hecc' text Hkan m' (f m') (Hfl m' ltac:(lia)) He Hcap)
      as (stream' & Es' & _ & EP').
    rewrite Es in Es'. injection Es' as <-. exact EP'. }
  (* the choice of the mask loop *)
  assert (Hlenc : length (map h (map f (zrange 0 8))) = 8%nat) by reflexivity.
  destruct (pick_best_spec score (map h (map f (zrange 0 8)))
              (repeat 0 (Z.to_nat ((17 + v * 4) * Stride (PlanCode pl))))
              (Z.shiftl 2 30)) as [[_ Hall]|(i & Hi & Epick & _ & Hmin)].
  { exfalso. destruct (Hpen 0 ltac:(lia)) as (q & Eq & Hq).
    assert (Hin : In (h (f 0)) (map h (map f (zrange 0 8)))).
    { apply in_map, in_map, in_zrange. lia. }
    specialize (Hall _ Hin). unfold score, h in Hall. cbv beta in Hall.
    rewrite (penalty_of_code pl _ q Eq) in Hall. lia. }
  rewrite Hlenc in Hi, Hmin.
  rewrite nth_cands in Epick, Hmin by (change (Z.to_nat 8) with 8%nat; exact Hi).
  rewrite Echosen, Epick.
  destruct (Hone (Z.of_nat i) ltac:(lia)) as [ENm EPm].
  exists (Z.of_nat i), (masked_plan pl (Z.of_nat i) (f (Z.of_nat i))).
  split; [lia|]. split; [exact ENm|]. split; [exact EPm|].
  intros m' pm' Hm' ENm'.
  destruct (Hone m' Hm') as [ENm2 EPm2].
  rewrite ENm2 in ENm'. injection ENm' as <-.
  destruct (Hpen (Z.of_nat i) ltac:(lia)) as (q & Eq & _).
  destruct (Hpen m' ltac:(lia)) as (q' & Eq' & _).
  exists (plan_code pl (h (f m'))), q, q'.
  split; [exact EPm2|]. split; [exact Eq|]. split; [exact Eq'|].
  destruct (Hmin (Z.to_nat m') ltac:(lia)) as [Hle Hlt].
  rewrite nth_cands in Hle, Hlt by (change (Z.to_nat 8) with 8%nat; lia).
  rewrite Z2Nat.id in Hle, Hlt by lia.
  unfold score, h in Hle, Hlt. cbv beta in Hle, Hlt.
  rewrite (penalty_of_code pl _ q Eq), (penalty_of_code pl _ q' Eq') in Hle, Hlt.
  split; [exact Hle|]. intros Hmm. apply Hlt. lia.
Qed.

Lemma Plan_Encode_best_mask_witness :
  exists p8 c m pm,
    NewPlan 1 0 (-1) = Some (Ok p8)
    /\ Plan_Encode sample_codec zero_ecc p8 [Num "7"] = Some (Ok c)
    /\ 0 <= m <= 7 /\ NewPlan 1 0 m = Some (Ok pm)
    /\ Plan_Encode sample_codec zero_ecc pm [Num "7"] = Some (Ok c).
Proof.
  destruct sample_codes as (p8 & c & E & Ec).
  destruct (Plan_Encode_best_mask sample_codec zero_ecc 1 0 p8 [Num "7"] c E
              ltac:(repeat constructor) zero_ecc_sized Ec)
    as (m & pm & Hm & En & Ep & _).
  exists p8, c, m, pm. auto.
Defined.

(** X21: every code that [Plan.Encode] returns on a plan of [NewPlan],
    whatever the mask and the text, shows the position boxes with the
    white strip around them in the three corners, the timing strips, black
    on the even modules, and the black module at column 8 of row side-8;
    and it shows, in both copies, the format word of the level and of a
    mask 0..7, which is the mask of the plan unless that is -1. *)
Theorem Plan_Encode_function_patterns (sjis : codec) (ecc : rs_encoder)
    (v l m : Z) (p : Plan) (text : list Encoding) (c : Code) :
  NewPlan v l m = Some (Ok p) ->
  Forall (kanji_even sjis) text -> ecc_sized ecc ->
  Plan_Encode sjis ecc p text = Some (Ok c) ->
  let siz := 17 + 4 * v in
  (forall x0 y0 dx dy,
     (x0 = 0 /\ y0 = 0) \/ (x0 = siz - 7 /\ y0 = 0) \/ (x0 = 0 /\ y0 = siz - 7) ->
     -1 <= dx <= 7 -> -1 <= dy <= 7 ->
     0 <= x0 + dx < siz -> 0 <= y0 + dy < siz ->
     pixel c (x0 + dx) (y0 + dy) = in_box dx dy && finder_module dx dy)
  /\ (forall i, 8 <= i < siz - 8 ->
        pixel c i 6 = Z.even i /\ pixel c 6 i = Z.even i)
  /\ pixel c 8 (siz - 8) = true
  /\ exists m0,
       0 <= m0 <= 7 /\ (m = -1 \/ m0 = m)
       /\ forall i, 0 <= i < 15 ->
            pixel c (snd (format_pos1 i)) (fst (format_pos1 i))
            = Z.testbit (fplan_word l m0) i
            /\ pixel c (snd (format_pos2 siz i)) (fst (format_pos2 siz i))
               = Z.testbit (fplan_word l m0) i.
Proof.
  intros HN Hkan Hecc HE siz.
  destruct (NewPlan_inv v l m p HN) as (Hv & Hl & _).
  destruct (Plan_Encode_form sjis ecc v l m p text c HN Hkan Hecc HE)
    as (p0 & g & g2 & a & pl & m0 & stream & Hf & HR & HP & HPC & Hm0 & Hmm
        & Hlen & Hls & -> & _).
  destruct (plan_facts_checks _ _ _ _ Hf)
    as (_ & _ & _ & _ & Hf1 & Hf2 & Hf3 & Htim & Hdark).
  assert (Esiz : siz = 17 + v * 4) by (unfold siz; lia).
  rewrite <- Esiz in Hf1, Hf2, Hf3, Htim, Hdark.
  set (f := mask_chunk l pl (Bitmap (PlanCode p0))) in *.
  (* a module outside the data and format cells *)
  assert (Hfun : forall y x, 0 <= y < siz -> 0 <= x < siz ->
            Pixel_Role (cell g y x) <> Data -> Pixel_Role (cell g y x) <> Format ->
            pixel (plan_code pl (xor_bytes (f m0) (data_bitmap pl stream))) x y
            = bit_at (Stride (PlanCode p0)) (Bitmap (PlanCode p0)) y x).
  { intros y x Hy Hx Hnd Hnf. rewrite Esiz in Hy, Hx.
    rewrite (pe_pixel v l Hv Hl p0 g g2 a pl Hf HR HP HPC (f m0) stream x y Hlen Hls Hx Hy).
    destruct (function_module v l Hv Hl p0 g g2 a Hf HR pl HP HPC m0 y x
                ltac:(lia) Hy Hx Hnd Hnf) as [E1 E2].
    destruct (pm_fixed v l p0 g g2 a Hf HR y x Hy Hx Hnd) as [_ H6].
    unfold data_bit. rewrite E1.
    assert (Er : (Pixel_Role (cell g y x) =? Data) || (Pixel_Role (cell g y x) =? Check)
                 = false).
    { unfold Data, Check in *.
      destruct (Z.eqb_spec (Pixel_Role (cell g y x)) 7); [lia|].
      destruct (Z.eqb_spec (Pixel_Role (cell g y x)) 8); [lia|]. reflexivity. }
    rewrite Er. cbn [andb]. rewrite xorb_false_r, HPC. exact E2. }
  split; [|split; [|split]].
  - intros x0 y0 dx dy Hcorner Hdx Hdy Hx Hy.
    assert (Hfo : finder_ok siz (Stride (PlanCode p0)) g (Bitmap (PlanCode p0)) x0 y0
                  = true)
      by (destruct Hcorner as [[-> ->]|[[-> ->]|[-> ->]]]; assumption).
    destruct (finder_ok_spec _ _ _ _ _ _ dx dy Hfo Hdx Hdy Hx Hy) as [Er Eb].
    rewrite Hfun; [exact Eb | exact Hy | exact Hx | |]; rewrite Er; discriminate.
  - intros i Hi.
    destruct (timing_ok_spec _ _ _ _ i Htim Hi) as (R1 & R2 & B1 & B2).
    assert (Hnr : forall r, timing_role r = true -> r <> Data /\ r <> Format).
    { intros r Hr. unfold timing_role in Hr. apply orb_prop in Hr.
      destruct Hr as [Hr|Hr]; apply Z.eqb_eq in Hr; subst r; split; discriminate. }
    destruct (Hnr _ R1) as [N1 N2]. destruct (Hnr _ R2) as [N3 N4].
    unfold ti in *.
    rewrite (Hfun 6 i ltac:(lia) ltac:(lia) N1 N2).
    rewrite (Hfun i 6 ltac:(lia) ltac:(lia) N3 N4). auto.
  - unfold dark_ok in Hdark. apply andb_prop in Hdark. destruct Hdark as [Er Eb].
    apply Z.eqb_eq in Er.
    rewrite Hfun; [exact Eb | lia | lia | |]; rewrite Er; discriminate.
  - exists m0. split; [exact Hm0|]. split; [exact Hmm|].
    intros i Hi. rewrite Esiz.
    destruct (format_module v l Hv Hl p0 g g2 a Hf HR pl HP HPC m0 i ltac:(lia) Hi)
      as (R1 & R2 & B1 & B2).
    destruct (format_pos_range (17 + v * 4) i ltac:(lia) Hi) as (P1 & P2 & P3 & P4).
    assert (Hfmt : forall y x, 0 <= y < 17 + v * 4 -> 0 <= x < 17 + v * 4 ->
              Pixel_Role (cell g2 y x) = Format ->
              pixel (plan_code pl (xor_bytes (f m0) (data_bitmap pl stream))) x y
              = bit_at (Stride (PlanCode pl)) (f m0) y x).
    { intros y x Hy Hx Er.
      rewrite (pe_pixel v l Hv Hl p0 g g2 a pl Hf HR HP HPC (f m0) stream x y
                 Hlen Hls Hx Hy).
      unfold data_bit. rewrite Er. cbn. apply xorb_false_r. }
    rewrite (Hfmt _ _ P1 P2 R1), (Hfmt _ _ P3 P4 R2), HPC. split; assumption.
Qed.

Lemma Plan_Encode_function_patterns_witness :
  exists p c, NewPlan 1 0 0 = Some (Ok p)
              /\ Plan_Encode sample_codec zero_ecc p [Num "7"] = Some (Ok c)
              /\ pixel c 8 13 = true.
Proof.
  destruct sample_code as (p & c & E & _ & Ec).
  exists p, c. split; [exact E|]. split; [exact Ec|].
  apply (Plan_Encode_function_patterns sample_codec zero_ecc 1 0 0 p [Num "7"] c E
           ltac:(repeat constructor) zero_ecc_sized Ec).
Defined.

(** X22: for a text whose encodings pass their checks and fit their count
    fields and the capacity, the byte stream that [Plan.Encode] lays out
    has as many bytes as the version holds; its first DataBytes bytes
    spell, bit by bit, the encodings in order (mode, count, characters),
    then the padding of [Pad]; the rest is the check bytes of the blocks in
    order, each computed from the data bytes of its block. *)
Theorem text_stream_layout (sjis : codec) (ecc : rs_encoder) (v l : Z)
    (text : list Encoding) :
  1 <= v <= 40 -> 0 <= l <= 3 -> ecc_sized ecc ->
  first_error sjis text = None -> Forall (item_fits sjis v) text ->
  text_bits sjis v text <= 8 * lay_nd v l ->
  exists stream,
    Version_DataBytes v l = Some (lay_nd v l)
    /\ text_stream sjis ecc v l text = Some stream
    /\ zlen stream = bytes (version_at v)
    /\ flat_map byte_bits (firstn (Z.to_nat (lay_nd v l)) stream)
       = flat_map (item_bitlist sjis v) text
         ++ pad_bits (text_bits sjis v text) (8 * lay_nd v l - text_bits sjis v text)
    /\ skipn (Z.to_nat (lay_nd v l)) stream
       = concat (map (fun j => ecc (lay_ne v l)
                                 (block_bytes (lay_nb v l) (lay_nde v l) (lay_extra v l)
                                    (firstn (Z.to_nat (lay_nd v l)) stream) j))
                     (zrange 0 (lay_nb v l))).
Proof.
  intros Hv Hl Hecc He Hfit Hcap.
  pose proof (ecc_sized_at ecc v l Hv Hl Hecc) as Hecc'.
  assert (Hkan : Forall (kanji_even sjis) text).
  { eapply Forall_impl; [|exact Hfit]. intros t. apply item_fits_even. }
  destruct (Encode_text_bits sjis v text Bits_zero Bits_zero_wf He Hfit)
    as (b & Eb & Hwf & Hbits).
  pose proof (Encode_text_spec sjis v text Bits_zero
                (Bits_wf_shape _ Bits_zero_wf) Hkan) as Ht.
  rewrite He in Ht. destruct Ht as (b0 & Eb0 & _ & Hnb).
  rewrite Eb in Eb0. injection Eb0 as <-.
  change (b_nbit Bits_zero) with 0 in Hnb. rewrite Z.add_0_l in Hnb.
  change (Bits_list Bits_zero) with (@nil bool) in Hbits. rewrite app_nil_l in Hbits.
  destruct (Bits_AddCheckBytes_blocks ecc b v l Hv Hl Hecc' (Bits_wf_shape _ Hwf)
              ltac:(lia)) as (b' & Epad & _ & Hn' & Hlen' & Eadd).
  destruct (layout_facts v l Hv Hl)
    as (Evt & Elv & Hnb0 & Hne0 & Hnd0 & _ & _ & _ & _ & _).
  assert (Hpad : Bits_list b'
                 = Bits_list b
                   ++ pad_bits (b_nbit b) (8 * lay_nd v l - b_nbit b)).
  { destruct (Z.ltb_spec (b_nbit b) (lay_nd v l * 8)) as [Hlt|Hge].
    - destruct (Bits_Pad_bits b (lay_nd v l * 8 - b_nbit b) Hwf ltac:(lia))
        as (b2 & E2 & _ & Hl2).
      rewrite Epad in E2. injection E2 as <-.
      replace (8 * lay_nd v l - b_nbit b) with (lay_nd v l * 8 - b_nbit b) by lia.
      exact Hl2.
    - injection Epad as <-.
      replace (8 * lay_nd v l - b_nbit b) with 0 by lia.
      unfold pad_bits. cbn. rewrite app_nil_r. reflexivity. }
  assert (Hfull : Bits_list b' = flat_map byte_bits (b_b b'))
    by (apply Bits_list_bytes; lia).
  assert (Hz : Z.to_nat (lay_nd v l) = Z.to_nat (zlen (b_b b'))) by (rewrite Hlen'; reflexivity).
  eexists. split.
  { unfold Version_DataBytes. rewrite Evt, Elv. unfold lay_nd, lay_ne, lay_nb.
    do 2 f_equal. lia. }
  split.
  { unfold text_stream. rewrite Eb, Eadd. unfold Bits_Bytes. cbn [b_nbit b_b].
    rewrite Z.rem_mul by lia. reflexivity. }
  split.
  { rewrite zlen_app, Hlen'.
    rewrite (zlen_concat_chunks _ (lay_ne v l) (lay_nb v l))
      by (intros; try apply Hecc'; lia).
    unfold lay_nd. lia. }
  rewrite Hz, firstn_zlen_app_l, skipn_zlen_app_l.
  split; [|reflexivity].
  rewrite <- Hfull, Hpad, Hbits, Hnb. reflexivity.
Qed.

Lemma text_stream_layout_witness :
  exists stream,
    text_stream sample_codec zero_ecc 1 0 [Num "7"] = Some stream
    /\ zlen stream = bytes (version_at 1).
Proof.
  destruct (text_stream_layout sample_codec zero_ecc 1 0 [Num "7"])
    as (stream & _ & Es & Hlen & _).
  - lia.
  - lia.
  - exact zero_ecc_sized.
  - reflexivity.
  - repeat constructor.
  - vm_compute. discriminate.
  - exists stream. split; assumption.
Defined.

(** X23: the byte stream can be read back from every code that
    [Plan.Encode] returns on a plan of [NewPlan]: for a mask m0 in 0..7,
    the mask of the plan unless that is -1, every bit of the stream sits in
    a module whose pixel has role Data or Check and the offset of the bit,
    and is the colour of that module xor the value of [Mask.Invert] for m0
    there. *)
Theorem Plan_Encode_readback (sjis : codec) (ecc : rs_encoder) (v l m : Z)
    (p : Plan) (text : list Encoding) (c : Code) :
  NewPlan v l m = Some (Ok p) ->
  Forall (kanji_even sjis) text -> ecc_sized ecc ->
  Plan_Encode sjis ecc p text = Some (Ok c) ->
  exists m0 stream,
    0 <= m0 <= 7 /\ (m = -1 \/ m0 = m)
    /\ text_stream sjis ecc v l text = Some stream
    /\ zlen stream = DataBytes p + CheckBytes p
    /\ forall o, 0 <= o < 8 * zlen stream ->
         exists y x,
           0 <= y < 17 + 4 * v /\ 0 <= x < 17 + 4 * v
           /\ (Pixel_Role (cell (Pixel p) y x) = Data
               \/ Pixel_Role (cell (Pixel p) y x) = Check)
           /\ Pixel_Offset (cell (Pixel p) y x) = o
           /\ Z.testbit (znth stream (o / 8)) (7 - o mod 8)
              = xorb (pixel c x y) (mask_bit m0 y x).
Proof.
  intros HN Hkan Hecc HE.
  destruct (NewPlan_inv v l m p HN) as (Hv & Hl & _).
  destruct (Plan_Encode_form sjis ecc v l m p text c HN Hkan Hecc HE)
    as (p0 & g & g2 & a & pl & m0 & stream & Hf & HR & HP & HPC & Hm0 & Hmm
        & Hlen & Hls & -> & Es & Epix & Esum).
  exists m0, stream. split; [exact Hm0|]. split; [exact Hmm|].
  split; [exact Es|]. split; [lia|].
  intros o Ho. rewrite Hls in Ho.
  destruct (pm_offset v l Hv Hl p0 g g2 a Hf HR o ltac:(unfold total_bits; lia))
    as (y & x & Hy & Hx & Hdc & Eo & _).
  exists y, x. rewrite Epix.
  split; [lia|]. split; [lia|]. split; [exact Hdc|]. split; [exact Eo|].
  rewrite (pe_pixel v l Hv Hl p0 g g2 a pl Hf HR HP HPC _ stream x y Hlen Hls Hx Hy).
  assert (Erole : (Pixel_Role (cell g2 y x) =? Data) || (Pixel_Role (cell g2 y x) =? Check)
                  = true).
  { destruct Hdc as [-> | ->]; reflexivity. }
  rewrite HPC.
  rewrite (masked_module v l Hv Hl p0 g g2 a Hf HR pl HP HPC m0 y x ltac:(lia) Hy Hx)
    by (unfold masked_role; rewrite Erole; reflexivity).
  fold (mask_bit m0 y x). unfold data_bit. rewrite Erole, Eo. cbn [andb].
  destruct (mask_bit m0 y x), (Z.testbit (znth stream (o / 8)) (7 - o mod 8));
    reflexivity.
Qed.

Lemma Plan_Encode_readback_witness :
  exists p c m0 stream,
    NewPlan 1 0 0 = Some (Ok p)
    /\ Plan_Encode sample_codec zero_ecc p [Num "7"] = Some (Ok c)
    /\ 0 <= m0 <= 7
    /\ text_stream sample_codec zero_ecc 1 0 [Num "7"] = Some stream.
Proof.
  destruct sample_code as (p & c & E & _ & Ec).
  destruct (Plan_Encode_readback sample_codec zero_ecc 1 0 0 p [Num "7"] c E
              ltac:(repeat constructor) zero_ecc_sized Ec)
    as (m0 & stream & Hm0 & _ & Es & _).
  exists p, c, m0, stream. auto.
Defined.


(** * Plans made once *)

(** X19: the empty table is one that [makeAutoPlan] alone has written.
    On such a table, calls taken one after the other, [NewAutoPlan] gives
    the version error, then the level error, of [NewPlan] and leaves the
    table alone; for a version 1..40 and a level L..H it returns the
    AutoPlan of that version and level and a table of the same kind in
    which the plan of [NewPlan] with mask -1 is kept, so that the next call
    of [makeAutoPlan] returns it without a change of the table. *)
Theorem NewAutoPlan_result (st : list (list autoPlan)) (v l : Z) :
  cache_ok autoPlans
  /\ (cache_ok st ->
      (v < 1 \/ 40 < v -> NewAutoPlan st v l = Some (Err (ErrVersion v), st))
      /\ (1 <= v <= 40 -> l < 0 \/ 3 < l ->
          NewAutoPlan st v l = Some (Err (ErrLevel l), st))
      /\ (1 <= v <= 40 -> 0 <= l <= 3 ->
          exists p8 st',
            NewPlan v l (-1) = Some (Ok p8)
            /\ NewAutoPlan st v l
               = Some (Ok {| a_Version := v; a_Level := l |}, st')
            /\ cache_ok st'
            /\ makeAutoPlan st' v l = Some (Ok (Some p8), st'))).
Proof.
  split; [exact cache_ok_init|]. intros Hok.
  destruct (makeAutoPlan_errors st v l) as [Hev Hel].
  split; [|split].
  - intros Hv. unfold NewAutoPlan. rewrite (Hev Hv). reflexivity.
  - intros Hv Hl. unfold NewAutoPlan. rewrite (Hel Hv Hl). reflexivity.
  - intros Hv Hl.
    destruct (makeAutoPlan_ok st v l Hok Hv Hl) as (q & st' & HN & E1 & Hok' & E2).
    exists q, st'. split; [exact HN|]. split; [|split; assumption].
    unfold NewAutoPlan. rewrite E1. reflexivity.
Qed.

Lemma NewAutoPlan_result_witness :
  exists st', NewAutoPlan autoPlans 1 0
              = Some (Ok {| a_Version := 1; a_Level := 0 |}, st')
              /\ cache_ok st'.
Proof.
  destruct (NewAutoPlan_result autoPlans 1 0) as [Hinit Hrest].
  destruct (Hrest Hinit) as (_ & _ & Hok).
  destruct (Hok ltac:(lia) ltac:(lia)) as (p8 & st' & _ & E & Hok' & _).
  exists st'. split; assumption.
Defined.

(** X20: on a table that [makeAutoPlan] alone has written, calls taken one
    after the other, [AutoPlan.Encode] for a version 1..40 and a level L..H
    returns what [Plan.Encode] returns on the plan of [NewPlan] with mask
    -1, panics where it panics, and leaves a table of the same kind; for
    another version or level it returns the version or level error;
    [Encode] is [AutoPlan.Encode] of the AutoPlan of its version and
    level. *)
Theorem AutoPlan_Encode_equiv (sjis : codec) (ecc : rs_encoder)
    (st : list (list autoPlan)) (v l : Z) (text : list Encoding) :
  cache_ok st ->
  let a := {| a_Version := v; a_Level := l |} in
  Encode sjis ecc st v l text = AutoPlan_Encode sjis ecc st a text
  /\ (v < 1 \/ 40 < v ->
      AutoPlan_Encode sjis ecc st a text = Some (Err (ErrVersion v), st))
  /\ (1 <= v <= 40 -> l < 0 \/ 3 < l ->
      AutoPlan_Encode sjis ecc st a text = Some (Err (ErrLevel l), st))
  /\ (1 <= v <= 40 -> 0 <= l <= 3 ->
      exists p8 st',
        NewPlan v l (-1) = Some (Ok p8)
        /\ cache_ok st'
        /\ AutoPlan_Encode sjis ecc st a text
           = match Plan_Encode sjis ecc p8 text with
             | Some r => Some (r, st')
             | None => None
             end).
Proof.
  intros Hok a. split; [reflexivity|].
  destruct (makeAutoPlan_errors st v l) as [Hev Hel].
  unfold AutoPlan_Encode, a. cbn [a_Version a_Level].
  split; [|split].
  - intros Hv. rewrite (Hev Hv). reflexivity.
  - intros Hv Hl. rewrite (Hel Hv Hl). reflexivity.
  - intros Hv Hl.
    destruct (makeAutoPlan_ok st v l Hok Hv Hl) as (q & st' & HN & E1 & Hok' & _).
    exists q, st'. split; [exact HN|]. split; [exact Hok'|].
    rewrite E1. reflexivity.
Qed.

Lemma AutoPlan_Encode_equiv_witness :
  exists p8 st',
    NewPlan 1 0 (-1) = Some (Ok p8) /\ cache_ok st'
    /\ Encode sample_codec zero_ecc autoPlans 1 0 [Num "7"]
       = match Plan_Encode sample_codec zero_ecc p8 [Num "7"] with
         | Some r => Some (r, st')
         | None => None
         end.
Proof.
  destruct (AutoPlan_Encode_equiv sample_codec zero_ecc autoPlans 1 0 [Num "7"]
              cache_ok_init) as (E & _ & _ & Hok).
  destruct (Hok ltac:(lia) ltac:(lia)) as (p8 & st' & HN & Hc & HE).
  exists p8, st'. rewrite E. auto.
Defined.

